(* ===== verification/_CoqProject ===== *)
-Q . S2P
Prelude.v
VectorClock.v
TicketMachine.v
Quorum.v
Hashing.v
Proto.v
Messages.v
Pbft.v
PbftSpec.v
PbftInv.v
PbftSafety.v
PbftLive.v
Cluster.v
PbftRound.v
ViewChange.v
GossipCache.v
GossipEngine.v
Storage.v
StoreFiles.v
Network.v
Notifier.v
Discovery.v
DiscoveryProps.v
Validator.v
ValidatorProps.v
GoStrings.v
Float64.v
GoFlag.v
Manager.v
ManagerInv.v
ManagerCluster.v
Launch.v
LaunchProps.v
LaunchCluster.v
SimControl.v
Simulator.v
SimProps.v
Http.v
Api.v
ApiProps.v
NodeApi.v
NodeProps.v
WaitProps.v
ValidatorRound.v
FailOver.v
Supervisor.v
SupProps.v
Proxy.v
ProxyProps.v
Loops.v
SupMain.v
Internal.v
