(* ===== verification/Prelude.v ===== *)
(** * DTVN: a development for the distributed ticket validation network

    DTVN is a peer-to-peer network of validator nodes, written in Go, that agree on the state of
    event tickets. A supervisor starts and stops the nodes of a cluster on one machine, forwards API
    requests to them, and runs a simulator. This library models the logic of all three, in definitions
    that can be run, and proves what makes it correct; where the code does not do what it means to, a closed theorem
    shows it on a concrete run.

    ** The program and the files that model it

    A node ([src/cmd/validator/main.go]) owns six components and wires them with callbacks. A call
    of its API becomes a request, the primary proposes it ([PRE-PREPARE]), the nodes vote
    ([PREPARE], [COMMIT]), and each node then executes it on its ticket state machine. The machine
    calls a handler that wakes waiting callers and one that saves the ticket, and publishes the
    change through gossip; consensus broadcasts the new state to all peers, which merge it by
    vector clock. Peers exchange messages through one router. An HTTP server puts an API in front of
    the node. The supervisor ([src/cmd/supervisor/main.go]) is a program of its own: it runs the nodes
    as processes, watches their output, and asks them over HTTP.

    - [Prelude] (this file): Go's errors ([result]), panics ([outcome]), machine integers,
      [strconv] and [strings] functions, maps; lemmas and tactics all files share.
    - [VectorClock]: [src/pkg/state/vectorclock.go]. A clock is its owner and a finite map to
      unsigned 64-bit counters. Loops over maps take the order of the entries as an argument.
    - [TicketMachine]: [src/pkg/state/machine.go] without its notifier. The machine is a record with
      the tickets, the audit log, the clock, and the registered callbacks, which are functions that
      change an application state [W] and may fail.
    - [Notifier]: the [StateNotifier] of the same file; a channel of capacity one is an identity
      with an optional value.
    - [Quorum]: [src/pkg/consensus/quorum.go].
    - [Hashing]: SHA-256 and FNV-1a of Go's standard library, which digests, message identifiers,
      keys and the bloom filter use.
    - [Proto]: the structs and enums of [src/proto/messages.pb.go]; the protobuf runtime is the
      class [ProtoMessage] with its laws [ProtoLaws], and a concrete codec satisfies them.
    - [Messages]: [src/pkg/consensus/messages.go] and the message types of [pbft.go].
    - [Pbft]: [src/pkg/consensus/pbft.go]. Each method is a function on the node, the application
      state and the current time; what it sends, the callbacks it calls and the timer resets are a
      list of effects. [PbftSpec] states the protocol as labelled moves, each with its guard and the
      whole state it leads to, gives every entry point a script of moves, and proves that the code
      makes exactly those; [PbftInv] has the invariants of the moves and the calls that cause them;
      [PbftSafety] and [PbftLive] have the theorems about one node, [Cluster] agreement between nodes, [PbftRound] a
      round of all nodes that are up, [ViewChange] a change of view among them, [ValidatorRound] the
      round among whole nodes of [Validator], and [FailOver] a request whose primary is down.
    - [GossipCache] and [GossipEngine]: [src/pkg/gossip/cache.go] and [engine.go]. Messages live in a
      heap, because the cache, the queue and the caller share them.
    - [Storage]: [src/pkg/storage/store.go]. BoltDB is the class [BoltDB] with its laws, encoding/json
      the class [JsonCodec]; an in-memory database satisfies the laws. [StoreFiles]: its backup and
      compaction, where a file is the database it holds.
    - [Network]: [src/pkg/network/router.go] and the logic of [host.go]: framing, peer table, keys.
    - [Discovery]: [src/pkg/network/discovery.go]; [DiscoveryProps]. The loop of a pass, the goroutines
      that connect and other passes take turns in a world that has the host's connections.
    - [Validator]: the handlers, state synchronisation, seeding and ticket calls of
      [src/cmd/validator/main.go]; [ValidatorProps] has their theorems. [setup] wires the components
      like [NewValidatorNode] and [setupHandlers].
    - [GoStrings], [GoFlag] and [Float64]: functions of Go's [strings], [flag] and [strconv] packages
      and its binary64 arithmetic, as the files below use them.
    - [Manager]: [src/pkg/supervisor/manager.go]. A [World] has the manager, the nodes in a heap (the
      map, the processes and the callers share them), the goroutine of each process and the one that
      starts a cluster, with what it has still to do; each step of theirs is a function on the world.
      [ManagerInv] has the events, the invariant and the theorems about one node, [ManagerCluster]
      those about a cluster.
    - [Launch]: the options, construction, start and shutdown of a node ([src/cmd/validator/main.go],
      [NewP2PHost] of [host.go]); a run is the trace of what it opens and closes. [LaunchProps] has
      its theorems, [LaunchCluster] those that go from the supervisor's request for a cluster through
      the nodes' command lines to their consensus.
    - [SimControl]: [src/pkg/supervisor/simulator.go]; [Simulator]: [src/cmd/simulator/main.go], the
      program it runs; [SimProps]: the theorems about both, and about one reading the other's output.
    - [Http]: JSON values, requests and replies; encoding/json, gorilla/mux, net/url and the HTTP
      client are classes, with the laws that are used. [Api]: [src/pkg/api/server.go], [peers.go] and
      [static.go], over the validator as the class [ValidatorInterface]; [ApiProps]. [NodeApi]: the methods of the
      node behind it and their views, which make the node an instance of the class; [NodeProps] follows
      requests from the server to the database, [WaitProps] a call that waits for consensus.
    - [Supervisor]: [src/pkg/supervisor/server.go] and [src/cmd/supervisor/main.go]; [SupProps].
      [Proxy]: [src/pkg/supervisor/proxy.go] and the routes; [ProxyProps], which also composes the
      supervisor's server with a node's. [SupMain]: [src/cmd/supervisor/main.go] from its flags to
      its end.
    - [Loops]: the goroutines of all components, as loops of turns; what they do with an event is the
      operation of the component.
    - [Internal]: the packages under [src/internal], which nothing else imports: error texts, key pairs
      over Ed25519 and the registration of collectors with Prometheus, both as classes with laws.

    ** What the theorems show

    - Consensus: while no timer fires, no two nodes execute different requests under one number,
      whatever votes are forged ([one_request_per_number]). The handlers refine the protocol
      ([operations_refine_protocol]); reachable logs are well formed; only a request that was proposed
      or accepted is executed, on the COMMITs of a quorum that were received or cast
      ([execution_needs_commit_quorum]), and exactly once in a round, whatever the order of its
      messages; a round of 2f+1 nodes whose number is no multiple of the checkpoint interval ends with the request executed by all of them ([round_completes]), so that a
      validation at the primary leaves the ticket VALIDATED in the memory and the database of each
      ([validation_reaches_all]). When something is pending at 2f+1 nodes and their timers fire, all nodes
      that are up get to the next view with what they had logged ([view_change_completes]); a validation
      that was forwarded to a primary that is down is proposed there and answered
      ([request_outlives_primary]), and a validation that is proposed once more because its message was
      sent again changes nothing ([repeated_validation_harmless]). A node whose timer fires alone takes no
      part until the others follow ([lone_node_takes_no_part]). A view changes only for a cause, and two nodes are never both primary of one view; checkpoints
      become stable only by agreement on a digest; proposals are refused exactly when they should
      be; only a configuration of zero nodes panics. Commit votes outlive their round and view and count
      for any later request under their number ([votes_outlive_rounds]); four closed runs show this
      and the request that a checkpoint drops ([old_votes_execute_in_new_view],
      [repeated_preprepare_executes_twice], [commits_for_other_digests_count],
      [checkpoint_drops_request]). Quorums share an honest node exactly for the sizes [3f+1].
    - Tickets: the audit log replays to the current state and validates at most once, but any state can
      be disputed, which the README's lifecycle excludes ([audit_log_replays]); stamps stay
      below the node's clock and every transition is causally last; replicas that exchange versions
      converge unless clocks are concurrent and timestamps equal. [Compare] and [Merge] are the order
      and the least upper bound of clocks.
    - Gossip: the cache refines an LRU list, its bloom filter never hides a message; no message is
      handled twice; bounded tables evict oldest first; sampling picks distinct peers.
    - Persistence: writes are atomic; keys order like numbers, so the latest checkpoint is the highest;
      a committed ticket survives a restart; seeding again overwrites stored states; compaction keeps
      every record.
    - Network: framing and vote messages round trip; messages reach the handler of their type;
      state synchronisation only adds validated tickets; a discovery pass connects to at most five
      peers at a time and does not get stuck, but asks none of them for its state.
    - Launch: a node reads the configuration that the supervisor's command line means, the nodes of a
      started cluster count the same quorums and take the same primaries ([started_cluster_agrees]),
      and whatever fails, nothing that was opened stays open ([nothing_stays_open]). A request to
      consume a ticket is followed from HTTP to the database; other nodes do not hear of it
      ([consumption_stays_local]). A call that waits for a validation is answered when the node executes
      it ([executed_validation_ends_wait]), and fails when it arrives in the state of another node
      ([merged_validation_unnoticed]).
    - Supervisor: the status of a node tells what its process does ([status_tells_process]) and moves
      along a life cycle; the start of a cluster ends with every node started
      ([cluster_start_completes]); two nodes can be given one port; the output buffer holds the last
      lines; a node's output is throttled; the primary flags follow what the nodes answer.
    - Simulator: limits of the configuration; repeated lines are dropped exactly within the window;
      at most one run is there, and the status says whether ([running_iff_run]); the printed results are read back exactly
      ([results_read_back]), the progress is not; the statistics equal a count from scratch.
    - HTTP: without the key a request changes nothing at a node or the supervisor, except that a
      WebSocket is opened, over which events are learned ([no_key_no_effect], [supervisor_needs_key]);
      a proxied change of a ticket is the node's own, whose reply is the supervisor's if it comes in
      time ([proxied_change_is_the_nodes]). A client that does not read holds the loop of a node's API,
      after its context has ended too, and with it the handlers ([stuck_client_holds_loop],
      [full_channel_blocks_handler]).
    - Shutdown: the loops of consensus, gossip and the supervisor end when they are closed
      ([closed_loops_end]); a node that is not closed works off its queue; discovery never rests longer
      than ten seconds.

    ** Conventions, bounds, fuel

    Integers are [Z] at the width the code gives them: [wrap_i64] and [wrap_u64] are written where an
    operation may overflow, and a theorem that needs room says so. Three recursions have fuel:
    the digits of [FormatInt] (at most the number's size in bits), the blocks of SHA-256 (at most
    one per byte), and the extension of a key's seed (every round adds 32 bytes, so as many rounds
    as requested bytes are enough: [Network.extend_to_enough]); all others are structural. Random numbers, map orders, the choice of a [select] and the success of
    network operations are arguments, so the theorems hold for every choice. Witnesses of the
    theorems with hypotheses apply them to concrete nodes, messages and databases.

    ** Not modelled

    Interleaving inside one locked operation (the code holds a mutex there), except that gossip's
    cache is not locked across its calls, so its theorem is about messages received one after another;
    the libp2p host and the DHT; the libraries that serve HTTP and WebSockets, the operating system's
    processes, whose answers are arguments; time, of which a call that waits sees that its deadline has
    passed; what is printed, but for the simulator's; the curve arithmetic of Ed25519; the flags of the
    simulator, whose values are arguments; the web dashboard. Generated protobuf code beyond its structs
    and enums is the class [ProtoMessage].

    The request of [request_outlives_primary] needs a new primary other than the node that was called: the
    code does not propose a request at the node that waits for it ([FailOver.forwarded_arms]). A view
    change in the middle of a round can repeat requests ([votes_outlive_rounds]) or lose them, and a
    checkpoint drops a request whose round it overtakes ([checkpoint_drops_request]), so the
    theorem is about requests that no node has accepted, under numbers without a checkpoint. *)

From Stdlib Require Export ZArith Lia Ascii.
From stdpp Require Export base gmap strings list fin_maps.
From stdpp Require Import options.

#[export] Set Warnings "-clear-no-such-hyp,-register-all".

(** * Go values *)

(** A Go [error]: [None] is [nil], [Some m] an error whose [Error()] is [m]. *)
Abbreviation error := (option string).

(** Value-or-error returns, [(T, error)] in Go, when the value is only read on success. *)
Inductive result (A : Type) : Type :=
| Ok (a : A)
| Err (e : string).
Arguments Ok {A} a.
Arguments Err {A} e.

(** A computation that may panic (nil dereference, integer division by zero). *)
Inductive outcome (A : Type) : Type :=
| Done (a : A)
| Panic (why : string).
Arguments Done {A} a.
Arguments Panic {A} why.

Definition outcome_bind {A B} (m : outcome A) (k : A → outcome B) : outcome B :=
  match m with
  | Done a => k a
  | Panic why => Panic why
  end.

Definition result_bind {A B} (m : result A) (k : A → result B) : result B :=
  match m with
  | Ok a => k a
  | Err e => Err e
  end.

Declare Scope go_scope.
Delimit Scope go_scope with go.
Notation "'let*' x ':=' m 'in' k" := (outcome_bind m (λ x, k))
  (at level 10, x name, m at level 100, k at level 200) : go_scope.
Notation "'try' x ':=' m 'in' k" := (result_bind m (λ x, k))
  (at level 10, x name, m at level 100, k at level 200) : go_scope.

(** ** Machine integers: Go's fixed-width types as [Z] with wrap-around *)
Definition wrap_u64 (z : Z) : Z := (z mod 2 ^ 64)%Z.
Definition wrap_i64 (z : Z) : Z := ((z + 2 ^ 63) mod 2 ^ 64 - 2 ^ 63)%Z.
Definition wrap_i32 (z : Z) : Z := ((z + 2 ^ 31) mod 2 ^ 32 - 2 ^ 31)%Z.

Definition is_u64 (z : Z) : Prop := (0 ≤ z < 2 ^ 64)%Z.
Definition is_i64 (z : Z) : Prop := (- 2 ^ 63 ≤ z < 2 ^ 63)%Z.

(** ** Decimal text: [strconv.FormatInt(z, 10)] and [fmt]'s [%d] *)
Definition digit_char (d : Z) : ascii := ascii_of_nat (48 + Z.to_nat d).

Fixpoint digits_acc (fuel : nat) (n : Z) (acc : string) : string :=
  match fuel with
  | O => acc
  | S fuel =>
      let acc := String (digit_char (n mod 10)) acc in
      if (n / 10 =? 0)%Z then acc else digits_acc fuel (n / 10) acc
  end.

(** [log2 n + 1] digits are enough: a decimal digit takes more than one bit. *)
Definition format_nonneg (n : Z) : string :=
  digits_acc (S (Z.to_nat (Z.log2 n))) n "".

Definition FormatInt (z : Z) : string :=
  if (z <? 0)%Z then String.append "-" (format_nonneg (- z)) else format_nonneg z.

(** ** [strings] package *)
Fixpoint has_prefix (s p : string) : bool :=
  match p, s with
  | EmptyString, _ => true
  | String b p, String a s => Ascii.eqb a b && has_prefix s p
  | String _ _, EmptyString => false
  end.

(** [strings.Contains(s, p)] *)
Fixpoint str_contains (s p : string) : bool :=
  has_prefix s p ||
  match s with
  | EmptyString => false
  | String _ s => str_contains s p
  end.

(** [strings.Join(l, sep)] *)
Fixpoint str_join (l : list string) (sep : string) : string :=
  match l with
  | [] => ""
  | [x] => x
  | x :: l => x +:+ sep +:+ str_join l sep
  end.

(** ** Maps *)

(** Go's map read [m[k]]: the zero value when the key is missing. *)
Definition map_get {V} (zero : V) (m : gmap string V) (k : string) : V :=
  default zero (m !! k).

(** [for k, v := range m { c[k] = v }] into a fresh map [c] *)
Definition copy_map {V} (m : gmap string V) : gmap string V :=
  foldl (λ acc e, <[e.1 := e.2]> acc) ∅ (map_to_list m).

(** [for k := range m { if k <= bound { delete(m, k) } }] *)
Definition drop_upto {V} (bound : Z) (m : gmap Z V) : gmap Z V :=
  filter (λ kv, (bound < kv.1)%Z) m.

(** * Tactics *)

(** Case analysis on every [match] of the goal, substituting equalities. *)
Ltac go_cases :=
  repeat (case_match; simplify_eq/=; try done).

(** A closed decidable goal, by evaluating its decision procedure. *)
Ltac compute_decide := apply (bool_decide_unpack _); vm_compute; exact I.

Create HintDb go discriminated.
Create Rewrite HintDb go.

(** * Integer lemmas *)

Lemma wrap_u64_id z : is_u64 z → wrap_u64 z = z.
Proof. intros H. apply Z.mod_small, H. Qed.

Lemma wrap_u64_range z : is_u64 (wrap_u64 z).
Proof. apply Z.mod_pos_bound. lia. Qed.

Lemma wrap_i64_id z : is_i64 z → wrap_i64 z = z.
Proof. unfold is_i64, wrap_i64. intros H. rewrite Z.mod_small; lia. Qed.

Lemma wrap_i64_range z : is_i64 (wrap_i64 z).
Proof.
  unfold is_i64, wrap_i64.
  pose proof (Z.mod_pos_bound (z + 2 ^ 63) (2 ^ 64) ltac:(lia)). lia.
Qed.

#[export] Hint Resolve wrap_u64_range wrap_i64_range : go.

(** * Decimal text *)

(** The value of decimal digits read after the value [acc]. *)
Fixpoint digits_value (acc : Z) (s : string) : Z :=
  match s with
  | EmptyString => acc
  | String c s => digits_value (10 * acc + (Z.of_nat (nat_of_ascii c) - 48)) s
  end.

Lemma digit_char_value d : (0 ≤ d < 10)%Z → (Z.of_nat (nat_of_ascii (digit_char d)) - 48 = d)%Z.
Proof. intros H. unfold digit_char. rewrite nat_ascii_embedding; lia. Qed.

Lemma digits_acc_value fuel n s :
  (0 ≤ n < 10 ^ Z.of_nat fuel)%Z → 0 < fuel →
  digits_value 0 (digits_acc fuel n s) = digits_value n s.
Proof.
  revert n s. induction fuel as [|fuel IH]; intros n s Hn Hf; [lia|].
  pose proof (Z.div_mod n 10 ltac:(lia)). pose proof (Z.mod_pos_bound n 10 ltac:(lia)).
  rewrite Nat2Z.inj_succ, Z.pow_succ_r in Hn by lia.
  cbn [digits_acc]. destruct (Z.eqb_spec (n / 10) 0) as [Hz|Hz].
  - cbn [digits_value]. rewrite digit_char_value by lia. f_equal. lia.
  - pose proof (Z.div_pos n 10 ltac:(lia) ltac:(lia)).
    assert (n / 10 < 10 ^ Z.of_nat fuel)%Z by (apply Z.div_lt_upper_bound; lia).
    rewrite IH; [| lia |].
    + cbn [digits_value]. rewrite digit_char_value by lia. f_equal. lia.
    + destruct fuel; [|lia]. change (10 ^ Z.of_nat 0)%Z with 1%Z in *. lia.
Qed.

Lemma format_nonneg_value n : (0 ≤ n)%Z → digits_value 0 (format_nonneg n) = n.
Proof.
  intros Hn. unfold format_nonneg. rewrite digits_acc_value; [done | | lia].
  pose proof (Z.log2_nonneg n).
  rewrite Nat2Z.inj_succ, Z2Nat.id by done. split; [done|].
  destruct (Z.eq_dec n 0%Z) as [->|]; [done|].
  pose proof (Z.log2_spec n ltac:(lia)) as [_ Hlt].
  apply (Z.lt_le_trans _ _ _ Hlt), Z.pow_le_mono_l. lia.
Qed.

(** Different numbers have different texts. *)
Lemma FormatInt_inj n m : (0 ≤ n)%Z → (0 ≤ m)%Z → FormatInt n = FormatInt m → n = m.
Proof.
  intros Hn Hm. unfold FormatInt.
  destruct (Z.ltb_spec n 0), (Z.ltb_spec m 0); try lia.
  intros Heq. apply (f_equal (digits_value 0)) in Heq. by rewrite !format_nonneg_value in Heq.
Qed.

(** * Text *)

Lemma has_prefix_refl s : has_prefix s s = true.
Proof. induction s as [|c s IH]; [done|]. cbn [has_prefix]. by rewrite Ascii.eqb_refl, IH. Qed.

(** A text contains its end. *)
Lemma str_contains_app s p : str_contains (s +:+ p) p = true.
Proof.
  induction s as [|c s IH].
  - change ("" +:+ p) with p. pose proof (has_prefix_refl p) as Hp. destruct p; cbn [str_contains]; by rewrite Hp.
  - change (str_contains (String c (s +:+ p)) p = true). cbn [str_contains]. by rewrite IH, orb_true_r.
Qed.

(** * Map lemmas *)

Lemma map_get_insert {V} (zero : V) m i x k :
  map_get zero (<[i := x]> m) k = if decide (i = k) then x else map_get zero m k.
Proof. unfold map_get. rewrite lookup_insert. by case_decide. Qed.

Lemma map_get_empty {V} (zero : V) k : map_get zero ∅ k = zero.
Proof. unfold map_get. by rewrite lookup_empty. Qed.

Lemma copy_map_id {V} (m : gmap string V) : copy_map m = m.
Proof.
  unfold copy_map. rewrite <- (list_to_map_to_list m) at 2.
  assert (Hgen : ∀ es acc, NoDup es.*1 → (∀ k, k ∈ es.*1 → acc !! k = None) →
    foldl (λ (acc : gmap string V) e, <[e.1 := e.2]> acc) acc es = list_to_map es ∪ acc).
  { induction es as [|[k v] es IH]; intros acc Hnd Hdisj; simpl in *.
    - by rewrite map_empty_union.
    - apply NoDup_cons in Hnd as [Hk Hnd].
      rewrite IH; [| done |].
      + rewrite <- insert_union_r, <- insert_union_l; [done|].
        by apply not_elem_of_list_to_map_1.
      + intros k' Hk'. rewrite lookup_insert_ne; [|set_solver]. apply Hdisj. by right. }
  rewrite Hgen; [apply map_union_empty | apply NoDup_fst_map_to_list |].
  intros. apply lookup_empty.
Qed.

Lemma lookup_drop_upto {V} bound (m : gmap Z V) k :
  drop_upto bound m !! k = if decide (bound < k)%Z then m !! k else None.
Proof.
  unfold drop_upto. case_decide as H.
  - destruct (m !! k) eqn:E.
    + by apply map_lookup_filter_Some.
    + apply map_lookup_filter_None. by left.
  - apply map_lookup_filter_None. right. intros x _. done.
Qed.

#[export] Hint Rewrite @map_get_insert @map_get_empty @copy_map_id @lookup_drop_upto : go.
