(* ===== verification/VectorClock.v ===== *)
(** Vector clocks, [src/pkg/state/vectorclock.go].

    A clock is a node name and a map from node names to [uint64] counters; a
    missing entry reads as 0. [Compare] is translated with its two loops and
    early exits over an explicit iteration order (Go leaves the order of
    [range] over a map open); it is proved to compute the causal order whatever
    that order is. [Merge] is the least upper bound of two clocks, so clocks
    form a join semilattice up to [clock_equiv], the equality that identifies
    a missing entry with 0. *)

From S2P Require Import Prelude.

Module VectorClock.

(** [Ordering] *)
Inductive Ordering :=
| Before
| After
| Equal
| Concurrent.

#[export] Instance Ordering_eq_dec : EqDecision Ordering.
Proof. solve_decision. Defined.

Record VectorClock := MkVectorClock {
  nodeID : string;
  clocks : gmap string Z;
}.

#[export] Instance VectorClock_eq_dec : EqDecision VectorClock.
Proof. solve_decision. Defined.

(** ** Operations *)

Definition NewVectorClock (nodeID : string) : VectorClock :=
  {| nodeID := nodeID; clocks := {[ nodeID := 0%Z ]} |}.

(** [vc.clocks[nodeID]], 0 when missing *)
Definition Get (vc : VectorClock) (id : string) : Z := map_get 0%Z (clocks vc) id.

(** [vc.clocks[vc.nodeID]++] on [uint64] *)
Definition Increment (vc : VectorClock) : VectorClock :=
  {| nodeID := nodeID vc;
     clocks := <[nodeID vc := wrap_u64 (Get vc (nodeID vc) + 1)]> (clocks vc) |}.

(** One entry: taken when the key is new or the value larger. *)
Definition update_entry (m : gmap string Z) (e : string * Z) : gmap string Z :=
  match m !! e.1 with
  | None => <[e.1 := e.2]> m
  | Some current => if (current <? e.2)%Z then <[e.1 := e.2]> m else m
  end.

Definition Update (vc : VectorClock) (id : string) (value : Z) : VectorClock :=
  {| nodeID := nodeID vc; clocks := update_entry (clocks vc) (id, value) |}.

(** [for nodeID, otherClock := range other.clocks], entries in the order [es]. *)
Definition Merge_in_order (es : list (string * Z)) (vc : VectorClock) : VectorClock :=
  {| nodeID := nodeID vc; clocks := foldl update_entry (clocks vc) es |}.

Definition Merge (vc other : VectorClock) : VectorClock :=
  Merge_in_order (map_to_list (clocks other)) vc.

(** First loop of [Compare]; [None] is the early [return Concurrent]. *)
Fixpoint compare_loop1 (other : gmap string Z) (es : list (string * Z))
    (lessOrEqual greaterOrEqual : bool) : option (bool * bool) :=
  match es with
  | [] => Some (lessOrEqual, greaterOrEqual)
  | (id, thisClock) :: es =>
      let otherClock := map_get 0%Z other id in
      let greaterOrEqual := if (thisClock <? otherClock)%Z then false else greaterOrEqual in
      let lessOrEqual := if (otherClock <? thisClock)%Z then false else lessOrEqual in
      if negb lessOrEqual && negb greaterOrEqual then None
      else compare_loop1 other es lessOrEqual greaterOrEqual
  end.

(** Second loop: entries of [other] that the first clock does not have. *)
Fixpoint compare_loop2 (this : gmap string Z) (es : list (string * Z))
    (lessOrEqual greaterOrEqual : bool) : option (bool * bool) :=
  match es with
  | [] => Some (lessOrEqual, greaterOrEqual)
  | (id, otherClock) :: es =>
      match this !! id with
      | Some _ => compare_loop2 this es lessOrEqual greaterOrEqual
      | None =>
          let greaterOrEqual := if (0 <? otherClock)%Z then false else greaterOrEqual in
          if negb lessOrEqual && negb greaterOrEqual then None
          else compare_loop2 this es lessOrEqual greaterOrEqual
      end
  end.

Definition compare_result (flags : option (bool * bool)) : Ordering :=
  match flags with
  | None => Concurrent
  | Some (true, true) => Equal
  | Some (true, false) => Before
  | Some (false, true) => After
  | Some (false, false) => Concurrent
  end.

(** [Compare] when the two [range] loops visit the entries as [es1] and [es2]. *)
Definition Compare_in_order (es1 es2 : list (string * Z)) (vc other : VectorClock) : Ordering :=
  match compare_loop1 (clocks other) es1 true true with
  | None => Concurrent
  | Some (le, ge) => compare_result (compare_loop2 (clocks vc) es2 le ge)
  end.

Definition Compare (vc other : VectorClock) : Ordering :=
  Compare_in_order (map_to_list (clocks vc)) (map_to_list (clocks other)) vc other.

(** [GetAll] copies the map entry by entry, [Copy] also keeps the node name. *)
Definition GetAll (vc : VectorClock) : gmap string Z := copy_map (clocks vc).

Definition Copy (vc : VectorClock) : VectorClock :=
  {| nodeID := nodeID vc; clocks := copy_map (clocks vc) |}.

Definition HappenedBefore (vc other : VectorClock) : bool :=
  bool_decide (Compare vc other = Before).
Definition HappenedAfter (vc other : VectorClock) : bool :=
  bool_decide (Compare vc other = After).
Definition IsConcurrent (vc other : VectorClock) : bool :=
  bool_decide (Compare vc other = Concurrent).
Definition IsEqual (vc other : VectorClock) : bool :=
  bool_decide (Compare vc other = Equal).

Definition Size (vc : VectorClock) : nat := size (clocks vc).

(** ** Specification: the causal order on clocks *)

(** Every counter is a [uint64]. *)
Definition clock_wf (vc : VectorClock) : Prop :=
  map_Forall (λ _ v, is_u64 v) (clocks vc).

Definition clock_le (a b : VectorClock) : Prop := ∀ k, (Get a k ≤ Get b k)%Z.

(** Equal as functions from names to counters. *)
Definition clock_equiv (a b : VectorClock) : Prop := ∀ k, Get a k = Get b k.

(** What each answer of [Compare] means. *)
Definition clock_order (a b : VectorClock) (o : Ordering) : Prop :=
  match o with
  | Before => clock_le a b ∧ ¬ clock_le b a
  | After => clock_le b a ∧ ¬ clock_le a b
  | Equal => clock_equiv a b
  | Concurrent => ¬ clock_le a b ∧ ¬ clock_le b a
  end.

(** ** Well-formedness *)

Lemma Get_u64 vc k : clock_wf vc → is_u64 (Get vc k).
Proof.
  intros H. unfold Get, map_get. destruct (clocks vc !! k) eqn:E; simpl.
  - by apply (H k).
  - unfold is_u64. lia.
Qed.

Lemma NewVectorClock_wf id : clock_wf (NewVectorClock id).
Proof. apply map_Forall_singleton. unfold is_u64. lia. Qed.

Lemma Increment_wf vc : clock_wf vc → clock_wf (Increment vc).
Proof. intros H. apply map_Forall_insert_2; [apply wrap_u64_range | done]. Qed.

Lemma update_entry_wf m e :
  map_Forall (λ _ v, is_u64 v) m → is_u64 e.2 → map_Forall (λ _ v, is_u64 v) (update_entry m e).
Proof.
  intros Hm He. unfold update_entry. go_cases; by apply map_Forall_insert_2.
Qed.

Lemma foldl_update_wf es m :
  map_Forall (λ _ v, is_u64 v) m → Forall (λ e, is_u64 e.2) es →
  map_Forall (λ _ v, is_u64 v) (foldl update_entry m es).
Proof.
  revert m. induction es as [|e es IH]; intros m Hm Hes; [done|].
  inversion Hes; subst. simpl. apply IH; [by apply update_entry_wf | done].
Qed.

Lemma map_wf_list (m : gmap string Z) :
  map_Forall (λ _ v, is_u64 v) m → Forall (λ e, is_u64 e.2) (map_to_list m).
Proof. intros H. apply map_Forall_to_list in H. eapply Forall_impl; [done | by intros []]. Qed.

Lemma Merge_wf vc other : clock_wf vc → clock_wf other → clock_wf (Merge vc other).
Proof. intros H1 H2. apply foldl_update_wf; [done | by apply map_wf_list]. Qed.

Lemma Update_wf vc id v : clock_wf vc → is_u64 v → clock_wf (Update vc id v).
Proof. intros. by apply update_entry_wf. Qed.

Lemma Copy_id vc : Copy vc = vc.
Proof. unfold Copy. rewrite copy_map_id. by destruct vc. Qed.

Lemma GetAll_clocks vc : GetAll vc = clocks vc.
Proof. apply copy_map_id. Qed.


(** ** The causal order *)

Lemma clock_le_refl a : clock_le a a.
Proof. intros k. lia. Qed.

Lemma clock_le_trans a b c : clock_le a b → clock_le b c → clock_le a c.
Proof. intros H1 H2 k. etrans; [apply H1 | apply H2]. Qed.

Lemma clock_le_antisymm a b : clock_le a b → clock_le b a → clock_equiv a b.
Proof. intros H1 H2 k. specialize (H1 k). specialize (H2 k). lia. Qed.

#[export] Instance clock_le_preorder : PreOrder clock_le.
Proof. split; [exact clock_le_refl | exact clock_le_trans]. Qed.

#[export] Instance clock_equiv_equivalence : Equivalence clock_equiv.
Proof.
  split; [by intros a k | by intros a b H k |].
  intros a b c H1 H2 k. by rewrite H1, H2.
Qed.

#[export] Instance clock_le_proper : Proper (clock_equiv ==> clock_equiv ==> iff) clock_le.
Proof.
  intros a a' Ha b b' Hb. split; intros H k; specialize (H k).
  - by rewrite <- Ha, <- Hb.
  - by rewrite Ha, Hb.
Qed.

#[export] Instance Get_proper : Proper (clock_equiv ==> eq ==> eq) Get.
Proof. intros a b H k ? <-. apply H. Qed.

#[export] Instance clock_order_proper :
  Proper (clock_equiv ==> clock_equiv ==> eq ==> iff) clock_order.
Proof.
  intros a a' Ha b b' Hb o ? <-. destruct o; simpl; by rewrite ?Ha, ?Hb.
Qed.

(** The answers exclude each other: at most one [Ordering] fits two clocks. *)
Lemma clock_order_unique a b o1 o2 : clock_order a b o1 → clock_order a b o2 → o1 = o2.
Proof.
  assert (Heq : clock_equiv a b → clock_le a b ∧ clock_le b a).
  { intros H. split; intros k; specialize (H k); lia. }
  destruct o1, o2; simpl; naive_solver.
Qed.

(** ** Correctness of [Compare] *)

(** A list of map entries in some iteration order. *)
Lemma perm_entries (m : gmap string Z) es e :
  es ≡ₚ map_to_list m → e ∈ es ↔ m !! e.1 = Some e.2.
Proof. intros ->. destruct e. apply elem_of_map_to_list. Qed.

(** The early exit returns exactly when both flags are already false. *)
Definition flags (r : option (bool * bool)) : bool * bool := default (false, false) r.

Lemma compare_result_flags r : compare_result r = compare_result (Some (flags r)).
Proof. by destruct r. Qed.

(** Each flag says whether the first clock is below (above) the second on all entries visited. *)
Lemma compare_loop1_flags other es le ge :
  flags (compare_loop1 other es le ge)
  = (le && forallb (λ e, e.2 <=? map_get 0 other e.1)%Z es,
     ge && forallb (λ e, map_get 0 other e.1 <=? e.2)%Z es).
Proof.
  revert le ge. induction es as [|[id v] es IH]; intros le ge; simpl.
  { by rewrite !andb_true_r. }
  rewrite !Z.leb_antisym.
  destruct (v <? _)%Z, (_ <? v)%Z, le, ge; simpl; rewrite ?IH; done.
Qed.

Lemma compare_loop2_flags this es le ge :
  flags (compare_loop2 this es le ge)
  = (le, ge && forallb (λ e, bool_decide (is_Some (this !! e.1)) || (e.2 <=? 0)%Z) es)
  ∨ flags (compare_loop2 this es le ge) = (false, false) ∧ le = false ∧
    ge && forallb (λ e, bool_decide (is_Some (this !! e.1)) || (e.2 <=? 0)%Z) es = false.
Proof.
  revert le ge. induction es as [|[id v] es IH]; intros le ge; simpl.
  { left. by rewrite !andb_true_r. }
  destruct (this !! id) eqn:E; simpl; [apply IH|].
  rewrite Z.leb_antisym.
  destruct (0 <? v)%Z, le, ge; simpl; auto;
    match goal with |- context [compare_loop2 this es ?a ?b] => specialize (IH a b) end; auto.
Qed.

(** What the loops quantify over is the pointwise order. *)
Lemma loop1_le vc es other :
  es ≡ₚ map_to_list (clocks vc) → clock_wf other →
  forallb (λ e, e.2 <=? map_get 0 (clocks other) e.1)%Z es = true ↔ clock_le vc other.
Proof.
  intros Hes Hwf. rewrite forallb_forall. setoid_rewrite <- list_elem_of_In.
  setoid_rewrite Z.leb_le. setoid_rewrite (perm_entries _ _ _ Hes). split.
  - intros H k. pose proof (Get_u64 other k Hwf) as [Hpos _].
    unfold Get at 1, map_get. destruct (clocks vc !! k) as [v|] eqn:E; simpl; [|done].
    by apply (H (k, v)).
  - intros H [k v] E. simpl in *. specialize (H k). unfold Get at 1, map_get in H.
    by rewrite E in H.
Qed.

Lemma loops_ge vc other es1 es2 :
  es1 ≡ₚ map_to_list (clocks vc) → es2 ≡ₚ map_to_list (clocks other) → clock_wf vc →
  forallb (λ e, map_get 0 (clocks other) e.1 <=? e.2)%Z es1 &&
  forallb (λ e, bool_decide (is_Some (clocks vc !! e.1)) || (e.2 <=? 0)%Z) es2 = true
  ↔ clock_le other vc.
Proof.
  intros H1 H2 Hwf. rewrite andb_true_iff, !forallb_forall. setoid_rewrite <- list_elem_of_In.
  setoid_rewrite orb_true_iff. setoid_rewrite bool_decide_eq_true.
  setoid_rewrite Z.leb_le. setoid_rewrite (perm_entries _ _ _ H1).
  setoid_rewrite (perm_entries _ _ _ H2). split.
  - intros [Ha Hb] k. unfold Get, map_get at 2.
    destruct (clocks vc !! k) as [v|] eqn:E; simpl; [by apply (Ha (k, v))|].
    unfold map_get. destruct (clocks other !! k) as [v|] eqn:E'; simpl; [|done].
    destruct (Hb (k, v) E') as [[? Hs]|]; [|done]. simpl in Hs. congruence.
  - intros H. split; intros [k v] E; simpl in *; specialize (H k); unfold Get, map_get in *.
    + by rewrite E in H.
    + rewrite E in H. destruct (clocks vc !! k); [left; eauto | by right].
Qed.

(** Both loops, whatever the iteration order, answer the causal order. *)
Lemma Compare_in_order_spec vc other es1 es2 :
  clock_wf vc → clock_wf other →
  es1 ≡ₚ map_to_list (clocks vc) → es2 ≡ₚ map_to_list (clocks other) →
  clock_order vc other (Compare_in_order es1 es2 vc other).
Proof.
  intros Hwf1 Hwf2 H1 H2. unfold Compare_in_order.
  pose proof (compare_loop1_flags (clocks other) es1 true true) as L1.
  pose proof (loop1_le vc es1 other H1 Hwf2) as Hle.
  pose proof (loops_ge vc other es1 es2 H1 H2 Hwf1) as Hge.
  pose proof (clock_le_antisymm vc other) as Hanti. simpl in L1.
  destruct (compare_loop1 _ _ _ _) as [[le ge]|]; simpl in L1; injection L1 as El Eg.
  - rewrite compare_result_flags. rewrite <- El in Hle. rewrite <- Eg in Hge.
    destruct (compare_loop2_flags (clocks vc) es2 le ge) as [->|(-> & -> & Hf)].
    + destruct le, (ge && _); simpl; naive_solver.
    + rewrite Hf in Hge. simpl. naive_solver.
  - rewrite <- El in Hle. rewrite <- Eg in Hge. simpl in *. naive_solver.
Qed.

Lemma Compare_spec vc other :
  clock_wf vc → clock_wf other → clock_order vc other (Compare vc other).
Proof. intros. by apply Compare_in_order_spec. Qed.

Lemma Compare_iff vc other o :
  clock_wf vc → clock_wf other → Compare vc other = o ↔ clock_order vc other o.
Proof.
  intros H1 H2. pose proof (Compare_spec vc other H1 H2) as H. split; [by intros <-|].
  intros H'. by eapply clock_order_unique.
Qed.

(** ** [Merge] is the least upper bound *)

Lemma update_entry_get m e k :
  (0 ≤ e.2)%Z → map_Forall (λ _ v, is_u64 v) m →
  map_get 0%Z (update_entry m e) k
  = if decide (k = e.1) then Z.max (map_get 0%Z m k) e.2 else map_get 0%Z m k.
Proof.
  intros He Hm. destruct e as [id v]; simpl in *. unfold update_entry, map_get; simpl.
  destruct (decide (k = id)) as [->|Hne].
  - destruct (m !! id) as [c|] eqn:E; simpl.
    + apply (Hm id) in E as Hc. unfold is_u64 in Hc.
      destruct (Z.ltb_spec c v); [rewrite lookup_insert_eq | rewrite E]; simpl; lia.
    + rewrite lookup_insert_eq. simpl. lia.
  - go_cases; by rewrite lookup_insert_ne.
Qed.

Lemma foldl_update_get es m k :
  Forall (λ e, is_u64 e.2) es → map_Forall (λ _ v, is_u64 v) m → NoDup es.*1 →
  map_get 0%Z (foldl update_entry m es) k
  = Z.max (map_get 0%Z m k) (map_get 0%Z (list_to_map es) k).
Proof.
  revert m. induction es as [|[id v] es IH]; intros m Hes Hm Hnd; simpl.
  { rewrite map_get_empty. pose proof (Get_u64 (MkVectorClock "" m) k Hm) as [? _].
    unfold Get in *; simpl in *. lia. }
  inversion Hes as [|?? Hv Hes']; simplify_eq/=. apply NoDup_cons in Hnd as [Hid Hnd].
  rewrite IH; [|done|by apply update_entry_wf|done].
  rewrite update_entry_get; [|destruct Hv; simpl in *; lia|done]. simpl.
  rewrite map_get_insert. apply not_elem_of_list_to_map_1 in Hid.
  case_decide; case_decide; simplify_eq/=; try done.
  unfold map_get at 2. rewrite Hid. simpl. destruct Hv. simpl in *. lia.
Qed.

(** Entry by entry, [Merge] takes the maximum, in any iteration order. *)
Lemma Merge_in_order_Get vc other es k :
  clock_wf vc → clock_wf other → es ≡ₚ map_to_list (clocks other) →
  Get (Merge_in_order es vc) k = Z.max (Get vc k) (Get other k).
Proof.
  intros H1 H2 Hes. assert (Hnd : NoDup es.*1).
  { rewrite Hes. apply NoDup_fst_map_to_list. }
  unfold Get, Merge_in_order; simpl. rewrite foldl_update_get; [|..|done]; [|
    |done].
  - f_equal. f_equal. apply map_eq. intros i.
    rewrite (list_to_map_proper _ _ Hnd Hes). by rewrite list_to_map_to_list.
  - rewrite Hes. by apply map_wf_list.
Qed.

Lemma Merge_Get vc other k :
  clock_wf vc → clock_wf other → Get (Merge vc other) k = Z.max (Get vc k) (Get other k).
Proof. intros. by apply Merge_in_order_Get. Qed.

Lemma Merge_ub_l a b : clock_wf a → clock_wf b → clock_le a (Merge a b).
Proof. intros ?? k. rewrite Merge_Get by done. lia. Qed.

Lemma Merge_ub_r a b : clock_wf a → clock_wf b → clock_le b (Merge a b).
Proof. intros ?? k. rewrite Merge_Get by done. lia. Qed.

Lemma Increment_Get vc k :
  Get (Increment vc) k
  = if decide (k = nodeID vc) then wrap_u64 (Get vc (nodeID vc) + 1) else Get vc k.
Proof.
  unfold Increment, Get at 1; simpl. rewrite map_get_insert.
  case_decide; case_decide; simplify_eq/=; done.
Qed.

Lemma Increment_lt vc :
  clock_wf vc → (Get vc (nodeID vc) < 2 ^ 64 - 1)%Z →
  clock_le vc (Increment vc) ∧ ¬ clock_le (Increment vc) vc.
Proof.
  intros Hwf Hlt. pose proof (Get_u64 vc (nodeID vc) Hwf) as [? ?]. split.
  - intros k. rewrite Increment_Get. case_decide; [|done]. subst.
    rewrite wrap_u64_id; unfold is_u64; lia.
  - intros H'. specialize (H' (nodeID vc)). rewrite Increment_Get in H'.
    rewrite decide_True in H' by done. rewrite wrap_u64_id in H'; unfold is_u64; lia.
Qed.

(** Only a clock with some positive counter can be strictly above or beside another one. *)
Lemma zero_clock_Compare vc other :
  clock_wf vc → (∀ k, Get other k = 0%Z) → clock_wf other →
  Compare vc other = Equal ∨ Compare vc other = After.
Proof.
  intros H1 Hz H2. pose proof (Compare_spec vc other H1 H2) as H.
  assert (clock_le other vc). { intros k. rewrite Hz. apply Get_u64, H1. }
  destruct (Compare vc other); simpl in H; naive_solver.
Qed.

(** ** Properties *)

(** C32: [Compare] answers the causal order of two clocks (pointwise order of
    the counters, a missing entry reading as 0), exactly and whatever order Go's
    [range] visits the two maps in. *)
Theorem Compare_correct vc other es1 es2 o :
  clock_wf vc → clock_wf other →
  es1 ≡ₚ map_to_list (clocks vc) → es2 ≡ₚ map_to_list (clocks other) →
  Compare_in_order es1 es2 vc other = o ↔ clock_order vc other o.
Proof.
  intros H1 H2 P1 P2. pose proof (Compare_in_order_spec vc other es1 es2 H1 H2 P1 P2) as H.
  split; [by intros <-|]. intros H'. by eapply clock_order_unique.
Qed.

(** C33: [Merge] computes the least upper bound in the causal order, in any
    iteration order: a clock is above the merge iff it is above both arguments. *)
Theorem Merge_least_upper_bound vc other es c :
  clock_wf vc → clock_wf other → es ≡ₚ map_to_list (clocks other) →
  clock_le (Merge_in_order es vc) c ↔ clock_le vc c ∧ clock_le other c.
Proof.
  intros H1 H2 P. unfold clock_le.
  setoid_rewrite (Merge_in_order_Get vc other es _ H1 H2 P). split.
  - intros H. split; intros k; specialize (H k); lia.
  - intros [Ha Hb] k. specialize (Ha k). specialize (Hb k). lia.
Qed.

(** Two clocks with entries on both sides, for the witnesses. *)
Definition clock_ab : VectorClock := MkVectorClock "a" {[ "a" := 2%Z; "b" := 1%Z ]}.
Definition clock_bc : VectorClock := MkVectorClock "b" {[ "b" := 3%Z; "c" := 1%Z ]}.

Lemma clock_ab_wf : clock_wf clock_ab.
Proof. repeat apply map_Forall_insert_2; try apply map_Forall_empty; unfold is_u64; lia. Qed.

Lemma clock_bc_wf : clock_wf clock_bc.
Proof. repeat apply map_Forall_insert_2; try apply map_Forall_empty; unfold is_u64; lia. Qed.

Lemma Compare_correct_witness :
  Compare_in_order (reverse (map_to_list (clocks clock_ab))) (map_to_list (clocks clock_bc))
    clock_ab clock_bc = Concurrent
  ∧ clock_order clock_ab clock_bc Concurrent.
Proof.
  assert (H : Compare_in_order (reverse (map_to_list (clocks clock_ab)))
    (map_to_list (clocks clock_bc)) clock_ab clock_bc = Concurrent) by (vm_compute; reflexivity).
  split; [exact H|].
  apply (Compare_correct _ _ _ _ _ clock_ab_wf clock_bc_wf (reverse_Permutation _)
    (Permutation_refl _)), H.
Defined.

Lemma Merge_least_upper_bound_witness :
  clock_le (Merge_in_order (map_to_list (clocks clock_bc)) clock_ab) (Merge clock_ab clock_bc).
Proof.
  apply (Merge_least_upper_bound _ _ _ _ clock_ab_wf clock_bc_wf (Permutation_refl _)).
  split; [apply Merge_ub_l | apply Merge_ub_r]; (exact clock_ab_wf || exact clock_bc_wf).
Defined.

End VectorClock.

#[export] Hint Resolve VectorClock.Get_u64 VectorClock.NewVectorClock_wf VectorClock.Increment_wf
  VectorClock.Merge_wf VectorClock.Update_wf : go.
#[export] Hint Rewrite VectorClock.Copy_id VectorClock.GetAll_clocks : go.
#[export] Existing Instances VectorClock.Ordering_eq_dec VectorClock.VectorClock_eq_dec
  VectorClock.clock_le_preorder VectorClock.clock_equiv_equivalence VectorClock.clock_le_proper
  VectorClock.Get_proper VectorClock.clock_order_proper.
