(* ===== verification/TicketMachine.v ===== *)
(** The ticket state machine, [src/pkg/state/machine.go].

    One node's tickets, its audit log of transitions, its vector clock and the
    callbacks it runs. Every exported operation is translated with its guards,
    its error texts (callers test them) and its order of effects. The callbacks
    act on a world [W] that the operations thread through: the validator node
    instantiates it with its store, its notifier and its network. *)

From S2P Require Import Prelude VectorClock.
Import VectorClock(VectorClock, MkVectorClock, Ordering, Before, After, Equal, Concurrent).

Module TicketMachine.

(** ** Data *)

(** [type TicketState string]: any string, with five named values *)
Definition StateIssued : string := "ISSUED".
Definition StatePending : string := "PENDING".
Definition StateValidated : string := "VALIDATED".
Definition StateConsumed : string := "CONSUMED".
Definition StateDisputed : string := "DISPUTED".

Record Ticket := MkTicket {
  t_ID : string;
  t_State : string;
  t_Data : string;
  t_ValidatorID : string;
  t_Timestamp : Z;
  t_VectorClock : VectorClock;
  t_Metadata : gmap string string;
}.

(** What [SeedTickets] reads of the [*Ticket]s it is given (their clock is [nil]). *)
Record TicketSeed := MkTicketSeed {
  seed_ID : string;
  seed_Data : string;
  seed_Timestamp : Z;
  seed_Metadata : gmap string string;
}.

Record StateTransition := MkStateTransition {
  tr_TicketID : string;
  tr_FromState : string;
  tr_ToState : string;
  tr_ValidatorID : string;
  tr_Timestamp : Z;
  tr_VectorClock : option VectorClock;
}.

Definition copyMetadata (metadata : gmap string string) : gmap string string :=
  copy_map metadata.

Section Machine.
Context {W : Type}.

Definition StateChangeHandler : Type := Ticket → string → string → W → W * error.
Definition StatePublisher : Type := string → string → string → Z → W → W * error.

Record StateMachine := MkStateMachine {
  sm_nodeID : string;
  currentState : gmap string Ticket;
  transitions : list StateTransition;
  vectorClock : VectorClock;
  handlers : list StateChangeHandler;
  publishUpdate : option StatePublisher;
}.

Definition NewStateMachine (nodeID : string) : StateMachine :=
  {| sm_nodeID := nodeID; currentState := ∅; transitions := [];
     vectorClock := VectorClock.NewVectorClock nodeID; handlers := []; publishUpdate := None |}.

Definition set_tickets (f : gmap string Ticket → gmap string Ticket) (sm : StateMachine)
    : StateMachine :=
  {| sm_nodeID := sm_nodeID sm; currentState := f (currentState sm);
     transitions := transitions sm; vectorClock := vectorClock sm;
     handlers := handlers sm; publishUpdate := publishUpdate sm |}.

(** [for _, handler := range sm.handlers { if err := handler(...); err != nil { return ... } }] *)
Fixpoint run_handlers (hs : list StateChangeHandler) (ticket : Ticket)
    (oldState newState : string) (w : W) : W * error :=
  match hs with
  | [] => (w, None)
  | handler :: hs =>
      match handler ticket oldState newState w with
      | (w, Some e) => (w, Some ("handler error: " +:+ e))
      | (w, None) => run_handlers hs ticket oldState newState w
      end
  end.

Definition IssueTicket (now : Z) (ticketID data : string) (sm : StateMachine)
    : StateMachine * error :=
  match currentState sm !! ticketID with
  | Some _ => (sm, Some ("ticket " +:+ ticketID +:+ " already exists"))
  | None =>
      let ticket := {|
        t_ID := ticketID; t_State := StateIssued; t_Data := data; t_ValidatorID := "";
        t_Timestamp := now; t_VectorClock := VectorClock.Copy (vectorClock sm);
        t_Metadata := ∅ |} in
      (set_tickets (<[ticketID := ticket]>) sm, None)
  end.

(** One iteration of [SeedTickets]; the counter is the number seeded so far. *)
Definition seed_one (clock : VectorClock) (acc : gmap string Ticket * Z) (t : TicketSeed)
    : gmap string Ticket * Z :=
  match acc.1 !! seed_ID t with
  | Some _ => acc
  | None =>
      (<[seed_ID t := {|
          t_ID := seed_ID t; t_State := StateIssued; t_Data := seed_Data t;
          t_ValidatorID := ""; t_Timestamp := seed_Timestamp t;
          t_VectorClock := VectorClock.Copy clock;
          t_Metadata := copyMetadata (seed_Metadata t) |}]> acc.1,
       (acc.2 + 1)%Z)
  end.

Definition SeedTickets (tickets : list TicketSeed) (sm : StateMachine) : StateMachine * Z :=
  let r := foldl (seed_one (vectorClock sm)) (currentState sm, 0%Z) tickets in
  (set_tickets (λ _, r.1) sm, r.2).

(** The common tail of [ValidateTicket], [ConsumeTicket] and [DisputeTicket], from
    [sm.vectorClock.Increment()] to the return: [ticket] already carries its new state. *)
Definition finish_transition (ticketID : string) (ticket : Ticket)
    (oldState newState validatorID : string) (sm : StateMachine) (w : W)
    : StateMachine * W * error :=
  let clock := VectorClock.Increment (vectorClock sm) in
  let ticket := {|
    t_ID := t_ID ticket; t_State := t_State ticket; t_Data := t_Data ticket;
    t_ValidatorID := t_ValidatorID ticket; t_Timestamp := t_Timestamp ticket;
    t_VectorClock := VectorClock.Copy clock; t_Metadata := t_Metadata ticket |} in
  let transition := {|
    tr_TicketID := ticketID; tr_FromState := oldState; tr_ToState := newState;
    tr_ValidatorID := validatorID; tr_Timestamp := t_Timestamp ticket;
    tr_VectorClock := Some (VectorClock.Copy (t_VectorClock ticket)) |} in
  let sm := {|
    sm_nodeID := sm_nodeID sm; currentState := <[ticketID := ticket]> (currentState sm);
    transitions := transitions sm ++ [transition]; vectorClock := clock;
    handlers := handlers sm; publishUpdate := publishUpdate sm |} in
  match run_handlers (handlers sm) ticket oldState newState w with
  | (w, Some e) => (sm, w, Some e)
  | (w, None) =>
      match publishUpdate sm with
      | None => (sm, w, None)
      | Some publish =>
          (* a publishing error is logged and dropped *)
          let '(w, _) := publish ticketID newState validatorID (t_Timestamp ticket) w in
          (sm, w, None)
      end
  end.

(** [ticket.State = s; ticket.Timestamp = now] *)
Definition retag (s : string) (now : Z) (ticket : Ticket) : Ticket := {|
  t_ID := t_ID ticket; t_State := s; t_Data := t_Data ticket;
  t_ValidatorID := t_ValidatorID ticket; t_Timestamp := now;
  t_VectorClock := t_VectorClock ticket; t_Metadata := t_Metadata ticket |}.

Definition set_validator (v : string) (ticket : Ticket) : Ticket := {|
  t_ID := t_ID ticket; t_State := t_State ticket; t_Data := t_Data ticket;
  t_ValidatorID := v; t_Timestamp := t_Timestamp ticket;
  t_VectorClock := t_VectorClock ticket; t_Metadata := t_Metadata ticket |}.

(** The [switch ticket.State] of [ValidateTicket]: [None] is the case that proceeds. *)
Definition validate_guard (ticketID state : string) : error :=
  if decide (state = StateIssued) then None
  else if decide (state = StateValidated) then
    Some ("ticket " +:+ ticketID +:+ " already validated")
  else if decide (state = StateConsumed) then
    Some ("ticket " +:+ ticketID +:+ " already consumed")
  else if decide (state = StateDisputed) then
    Some ("ticket " +:+ ticketID +:+ " is disputed")
  else Some ("ticket " +:+ ticketID +:+ " cannot be validated (current state: " +:+ state +:+ ")").

(** The [data] argument is not used by the Go code. *)
Definition ValidateTicket (now : Z) (ticketID validatorID data : string)
    (sm : StateMachine) (w : W) : StateMachine * W * error :=
  match currentState sm !! ticketID with
  | None => (sm, w, Some ("ticket " +:+ ticketID +:+
      " not found — ticket must be issued before validation"))
  | Some ticket =>
      match validate_guard ticketID (t_State ticket) with
      | Some e => (sm, w, Some e)
      | None =>
          let oldState := t_State ticket in
          let ticket := set_validator validatorID (retag StateValidated now ticket) in
          finish_transition ticketID ticket oldState StateValidated validatorID sm w
      end
  end.

Definition ConsumeTicket (now : Z) (ticketID validatorID : string)
    (sm : StateMachine) (w : W) : StateMachine * W * error :=
  match currentState sm !! ticketID with
  | None => (sm, w, Some ("ticket " +:+ ticketID +:+ " not found"))
  | Some ticket =>
      if decide (t_State ticket = StateValidated) then
        let oldState := t_State ticket in
        finish_transition ticketID (retag StateConsumed now ticket) oldState StateConsumed
          validatorID sm w
      else (sm, w, Some ("ticket " +:+ ticketID +:+ " is not validated (current state: "
        +:+ t_State ticket +:+ ")"))
  end.

Definition DisputeTicket (now : Z) (ticketID validatorID : string)
    (sm : StateMachine) (w : W) : StateMachine * W * error :=
  match currentState sm !! ticketID with
  | None => (sm, w, Some ("ticket " +:+ ticketID +:+ " not found"))
  | Some ticket =>
      let oldState := t_State ticket in
      finish_transition ticketID (retag StateDisputed now ticket) oldState StateDisputed
        validatorID sm w
  end.

Definition copy_ticket (ticket : Ticket) : Ticket := {|
  t_ID := t_ID ticket; t_State := t_State ticket; t_Data := t_Data ticket;
  t_ValidatorID := t_ValidatorID ticket; t_Timestamp := t_Timestamp ticket;
  t_VectorClock := VectorClock.Copy (t_VectorClock ticket);
  t_Metadata := copyMetadata (t_Metadata ticket) |}.

Definition GetTicket (ticketID : string) (sm : StateMachine) : result Ticket :=
  match currentState sm !! ticketID with
  | None => Err ("ticket " +:+ ticketID +:+ " not found")
  | Some ticket => Ok (copy_ticket ticket)
  end.

Definition GetAllTickets (sm : StateMachine) : list Ticket :=
  copy_ticket <$> (map_to_list (currentState sm)).*2.

Definition GetTransitions (sm : StateMachine) : list StateTransition := transitions sm.

(** Overwriting the local ticket's version with the remote one: data and metadata stay. *)
Definition adopt (remoteTicket localTicket : Ticket) : Ticket := {|
  t_ID := t_ID localTicket; t_State := t_State remoteTicket; t_Data := t_Data localTicket;
  t_ValidatorID := t_ValidatorID remoteTicket; t_Timestamp := t_Timestamp remoteTicket;
  t_VectorClock := VectorClock.Copy (t_VectorClock remoteTicket);
  t_Metadata := t_Metadata localTicket |}.

(** One iteration of [MergeState]'s first loop. *)
Definition merge_ticket (m : gmap string Ticket) (remoteTicket : Ticket) : gmap string Ticket :=
  match m !! t_ID remoteTicket with
  | None => <[t_ID remoteTicket := copy_ticket remoteTicket]> m
  | Some localTicket =>
      match VectorClock.Compare (t_VectorClock localTicket) (t_VectorClock remoteTicket) with
      | Concurrent =>
          if (t_Timestamp localTicket <? t_Timestamp remoteTicket)%Z
          then <[t_ID remoteTicket := adopt remoteTicket localTicket]> m
          else m
      | Before => <[t_ID remoteTicket := adopt remoteTicket localTicket]> m
      | After | Equal => m
      end
  end.

Definition MergeState (tickets : list Ticket) (sm : StateMachine) : StateMachine :=
  {| sm_nodeID := sm_nodeID sm;
     currentState := foldl merge_ticket (currentState sm) tickets;
     transitions := transitions sm;
     vectorClock := foldl VectorClock.Merge (vectorClock sm) (t_VectorClock <$> tickets);
     handlers := handlers sm; publishUpdate := publishUpdate sm |}.

Definition RegisterHandler (handler : StateChangeHandler) (sm : StateMachine) : StateMachine :=
  {| sm_nodeID := sm_nodeID sm; currentState := currentState sm;
     transitions := transitions sm; vectorClock := vectorClock sm;
     handlers := handlers sm ++ [handler]; publishUpdate := publishUpdate sm |}.

Definition RegisterPublisher (publisher : StatePublisher) (sm : StateMachine) : StateMachine :=
  {| sm_nodeID := sm_nodeID sm; currentState := currentState sm;
     transitions := transitions sm; vectorClock := vectorClock sm;
     handlers := handlers sm; publishUpdate := Some publisher |}.

Definition GetVectorClock (sm : StateMachine) : VectorClock := VectorClock.Copy (vectorClock sm).

Definition HasTicket (ticketID : string) (sm : StateMachine) : bool :=
  bool_decide (is_Some (currentState sm !! ticketID)).

Definition SyncTicket (now : Z) (ticketID validatorID data : string)
    (sm : StateMachine) (w : W) : StateMachine * W * error :=
  match currentState sm !! ticketID with
  | Some _ => (sm, w, Some ("ticket " +:+ ticketID +:+ " already exists"))
  | None =>
      let ticket := {|
        t_ID := ticketID; t_State := StateValidated; t_Data := data;
        t_ValidatorID := validatorID; t_Timestamp := now;
        t_VectorClock := VectorClock.Copy (vectorClock sm);
        t_Metadata := <["synced_from" := validatorID]> (<["synced" := "true"]> ∅) |} in
      let transition := {|
        tr_TicketID := ticketID; tr_FromState := StateIssued; tr_ToState := StateValidated;
        tr_ValidatorID := validatorID; tr_Timestamp := t_Timestamp ticket;
        tr_VectorClock := None |} in
      let sm := {|
        sm_nodeID := sm_nodeID sm; currentState := <[ticketID := ticket]> (currentState sm);
        transitions := transitions sm ++ [transition]; vectorClock := vectorClock sm;
        handlers := handlers sm; publishUpdate := publishUpdate sm |} in
      let '(w, err) := run_handlers (handlers sm) ticket StateIssued StateValidated w in
      (sm, w, err)
  end.

End Machine.
Arguments StateMachine : clear implicits.
Arguments StateChangeHandler : clear implicits.
Arguments StatePublisher : clear implicits.

(** ** Specification: lifecycle, audit log, causal stamps *)

(** The transitions the code performs: validation of an issued ticket, consumption of a
    validated one, and dispute from any state, where the README (Ticket Lifecycle) has disputes of
    validated tickets only. *)
Definition lifecycle (from to : string) : bool :=
  bool_decide (from = StateIssued ∧ to = StateValidated) ||
  bool_decide (from = StateValidated ∧ to = StateConsumed) ||
  bool_decide (to = StateDisputed).

Definition log_of (id : string) (trs : list StateTransition) : list StateTransition :=
  filter (λ tr, tr_TicketID tr = id) trs.

(** Following a log from state [s]; [None] when an entry does not continue the previous one
    or is not a lifecycle step. *)
Fixpoint replay (s : string) (trs : list StateTransition) : option string :=
  match trs with
  | [] => Some s
  | tr :: trs =>
      if decide (tr_FromState tr = s ∧ lifecycle s (tr_ToState tr) = true)
      then replay (tr_ToState tr) trs else None
  end.

(** Operations of the exported API, as data. *)
Inductive op :=
| OpIssue (now : Z) (ticketID data : string)
| OpSeed (tickets : list TicketSeed)
| OpValidate (now : Z) (ticketID validatorID data : string)
| OpConsume (now : Z) (ticketID validatorID : string)
| OpDispute (now : Z) (ticketID validatorID : string)
| OpSync (now : Z) (ticketID validatorID data : string)
| OpMerge (tickets : list Ticket).

Definition is_merge (o : op) : bool := match o with OpMerge _ => true | _ => false end.

Section Theory.
Context {W : Type}.
Implicit Types (sm : StateMachine W) (w : W).

Definition run_op (o : op) (st : StateMachine W * W) : StateMachine W * W :=
  let '(sm, w) := st in
  match o with
  | OpIssue now id data => ((IssueTicket now id data sm).1, w)
  | OpSeed tickets => ((SeedTickets tickets sm).1, w)
  | OpValidate now id v data => (ValidateTicket now id v data sm w).1
  | OpConsume now id v => (ConsumeTicket now id v sm w).1
  | OpDispute now id v => (DisputeTicket now id v sm w).1
  | OpSync now id v data => (SyncTicket now id v data sm w).1
  | OpMerge tickets => (MergeState tickets sm, w)
  end.

Definition run_ops (os : list op) (st : StateMachine W * W) : StateMachine W * W :=
  foldl (λ st o, run_op o st) st os.

Definition audit_inv sm : Prop := ∀ id,
  match currentState sm !! id with
  | Some t => t_ID t = id ∧ replay StateIssued (log_of id (transitions sm)) = Some (t_State t)
  | None => log_of id (transitions sm) = []
  end.

(** Every stamp is well formed and below the node's clock. *)
Definition causal_inv sm : Prop :=
  VectorClock.clock_wf (vectorClock sm) ∧
  map_Forall (λ _ t, VectorClock.clock_wf (t_VectorClock t) ∧
    VectorClock.clock_le (t_VectorClock t) (vectorClock sm)) (currentState sm).

(** *** The audit log *)

Lemma replay_app s trs tr :
  replay s (trs ++ [tr]) =
  match replay s trs with
  | Some s' => if decide (tr_FromState tr = s' ∧ lifecycle s' (tr_ToState tr) = true)
               then Some (tr_ToState tr) else None
  | None => None
  end.
Proof. revert s. induction trs as [|t trs IH]; intros s; simpl; [done|]. by case_decide. Qed.

Lemma log_of_snoc id trs tr :
  log_of id (trs ++ [tr]) =
  log_of id trs ++ (if decide (tr_TicketID tr = id) then [tr] else []).
Proof. unfold log_of. rewrite filter_app, filter_cons, filter_nil. done. Qed.

(** The tail of a transition, seen from the state machine alone. *)
Lemma finish_transition_sm id t old new v sm w :
  ∃ w' e, finish_transition id t old new v sm w =
    (MkStateMachine (sm_nodeID sm)
      (<[id := MkTicket (t_ID t) (t_State t) (t_Data t) (t_ValidatorID t) (t_Timestamp t)
          (VectorClock.Increment (vectorClock sm)) (t_Metadata t)]> (currentState sm))
      (transitions sm ++ [MkStateTransition id old new v (t_Timestamp t)
          (Some (VectorClock.Increment (vectorClock sm)))])
      (VectorClock.Increment (vectorClock sm)) (handlers sm) (publishUpdate sm), w', e).
Proof.
  unfold finish_transition; simpl. autorewrite with go.
  destruct (run_handlers _ _ _ _ _) as [w' [e|]]; [by do 2 eexists|].
  destruct (publishUpdate sm) as [p|]; [|by do 2 eexists].
  destruct (p id new v (t_Timestamp t) w'). by do 2 eexists.
Qed.

(** Appending one lifecycle transition of ticket [id] keeps the log consistent. *)
Lemma audit_step sm sm' id t old new v ts vc :
  audit_inv sm → default StateIssued (t_State <$> currentState sm !! id) = old →
  lifecycle old new = true →
  transitions sm' = transitions sm ++ [MkStateTransition id old new v ts vc] →
  currentState sm' = <[id := t]> (currentState sm) → t_ID t = id → t_State t = new →
  audit_inv sm'.
Proof.
  intros Hinv Hold Hlc Htrs Hcur Hid Hst id'. specialize (Hinv id').
  rewrite Htrs, Hcur, log_of_snoc, lookup_insert. simpl.
  destruct (decide (id = id')) as [<-|]; [|by rewrite app_nil_r].
  split; [done|]. rewrite replay_app. simpl.
  destruct (currentState sm !! id) as [t0|]; simpl in *.
  - destruct Hinv as [_ ->]. rewrite decide_True by (by subst). by subst.
  - rewrite Hinv. simpl. rewrite decide_True by (by subst). by subst.
Qed.

(** Adding an issued ticket under a fresh key. *)
Lemma audit_fresh sm sm' id t :
  audit_inv sm → currentState sm !! id = None → transitions sm' = transitions sm →
  currentState sm' = <[id := t]> (currentState sm) → t_ID t = id → t_State t = StateIssued →
  audit_inv sm'.
Proof.
  intros Hinv Hnone Htrs Hcur Hid Hst id'. specialize (Hinv id').
  rewrite Htrs, Hcur, lookup_insert. destruct (decide (id = id')) as [<-|]; [|done].
  rewrite Hnone in Hinv. rewrite Hinv, Hst. done.
Qed.

Lemma audit_seed sm tickets : audit_inv sm → audit_inv (SeedTickets tickets sm).1.
Proof.
  unfold SeedTickets; simpl. generalize (vectorClock sm) at 1; intros clock.
  assert (Hgen : ∀ acc, audit_inv (set_tickets (λ _, acc.1) sm) →
    audit_inv (set_tickets (λ _, (foldl (seed_one clock) acc tickets).1) sm)).
  { induction tickets as [|t ts IH]; intros acc Hacc; [done|]. simpl. apply IH.
    unfold seed_one. destruct (acc.1 !! seed_ID t) eqn:E; [done|].
    eapply audit_fresh; [exact Hacc | exact E | done..]. }
  intros H. apply Hgen. by destruct sm.
Qed.

Lemma finish_transition_audit id t t0 new v sm w :
  audit_inv sm → currentState sm !! id = Some t0 → lifecycle (t_State t0) new = true →
  t_ID t = t_ID t0 → t_State t = new →
  audit_inv (finish_transition id t (t_State t0) new v sm w).1.1.
Proof.
  intros Hinv E Hlc Hid Hst. pose proof (Hinv id) as Hid0. rewrite E in Hid0.
  destruct (finish_transition_sm id t (t_State t0) new v sm w) as (w' & e & ->). simpl.
  eapply audit_step; [exact Hinv | by rewrite E | exact Hlc | done | done | | done].
  simpl. rewrite Hid. apply Hid0.
Qed.

Lemma validate_guard_None id s : validate_guard id s = None ↔ s = StateIssued.
Proof. unfold validate_guard. repeat case_decide; naive_solver. Qed.

(** Every operation but a merge keeps the log consistent, whatever the callbacks do. *)
Lemma run_op_audit o sm w :
  is_merge o = false → audit_inv sm → audit_inv (run_op o (sm, w)).1.
Proof.
  intros Ho Hinv. destruct o; simpl in *; try done.
  - unfold IssueTicket. destruct (currentState sm !! ticketID) eqn:E; [done|].
    by eapply audit_fresh.
  - by apply audit_seed.
  - unfold ValidateTicket. destruct (currentState sm !! ticketID) as [t|] eqn:E; [|done].
    destruct (validate_guard _ _) eqn:G; [done|]. apply validate_guard_None in G.
    apply finish_transition_audit; [done | done | by rewrite G | done | done].
  - unfold ConsumeTicket. destruct (currentState sm !! ticketID) as [t|] eqn:E; [|done].
    case_decide as G; [|done].
    apply finish_transition_audit; [done | done | by rewrite G | done | done].
  - unfold DisputeTicket. destruct (currentState sm !! ticketID) as [t|] eqn:E; [|done].
    apply finish_transition_audit; [done | done | | done | done].
    unfold lifecycle. by rewrite orb_true_r.
  - unfold SyncTicket. destruct (currentState sm !! ticketID) eqn:E; [done|].
    destruct (run_handlers _ _ _ _ _). simpl.
    eapply audit_step; [exact Hinv | by rewrite E | | reflexivity..]. reflexivity.
Qed.

Lemma run_ops_audit os sm w :
  Forall (λ o, is_merge o = false) os → audit_inv sm → audit_inv (run_ops os (sm, w)).1.
Proof.
  change sm with (sm, w).1 at 1. generalize (sm, w). clear sm w.
  induction os as [|o os IH]; intros [sm w] Hos Hinv; [done|].
  inversion Hos; subst. apply IH; [done|]. by apply run_op_audit.
Qed.

(** A consistent log contains at most one validation, and none once past ISSUED. *)
Definition validations (trs : list StateTransition) : nat :=
  length (filter (λ tr, tr_ToState tr = StateValidated) trs).

Lemma replay_validations s trs s' :
  replay s trs = Some s' →
  validations trs ≤ (if decide (s = StateIssued) then 1 else 0).
Proof.
  revert s. induction trs as [|tr trs IH]; intros s H; simpl in *; [apply Nat.le_0_l|].
  case_decide as Hd; [|done]. destruct Hd as [_ Hlc]. specialize (IH _ H).
  unfold lifecycle in Hlc. unfold validations in *. rewrite filter_cons.
  rewrite !orb_true_iff, !bool_decide_eq_true in Hlc.
  destruct Hlc as [[[-> Hto]|[-> Hto]]|Hto]; rewrite Hto in *; simpl in *;
    repeat case_decide; simpl in *; try done; lia.
Qed.

(** *** Causal stamps *)

(** The machine's own counter can still be incremented. *)
Definition clock_room sm : Prop :=
  (VectorClock.Get (vectorClock sm) (VectorClock.nodeID (vectorClock sm)) < 2 ^ 64 - 1)%Z.

Lemma finish_transition_causal id t old new v sm w :
  causal_inv sm → clock_room sm → causal_inv (finish_transition id t old new v sm w).1.1.
Proof.
  intros [Hwf Hall] Hroom.
  destruct (finish_transition_sm id t old new v sm w) as (w' & e & ->).
  pose proof (VectorClock.Increment_lt _ Hwf Hroom) as [Hle _].
  split; simpl; [by apply VectorClock.Increment_wf|].
  apply map_Forall_insert_2; simpl.
  - split; [by apply VectorClock.Increment_wf | done].
  - intros i x Hx. destruct (Hall i x Hx). split; [done|]. by etrans.
Qed.

Lemma seed_causal sm tickets : causal_inv sm → causal_inv (SeedTickets tickets sm).1.
Proof.
  intros [Hwf Hall]. split; [done|]. unfold SeedTickets; simpl.
  assert (Hgen : ∀ acc, map_Forall (λ _ t, VectorClock.clock_wf (t_VectorClock t) ∧
      VectorClock.clock_le (t_VectorClock t) (vectorClock sm)) acc.1 →
    map_Forall (λ _ t, VectorClock.clock_wf (t_VectorClock t) ∧
      VectorClock.clock_le (t_VectorClock t) (vectorClock sm))
      (foldl (seed_one (vectorClock sm)) acc tickets).1); [|by apply Hgen].
  induction tickets as [|t ts IH]; intros acc Hacc; [done|]. simpl. apply IH.
  unfold seed_one. destruct (acc.1 !! seed_ID t); [done|]. simpl.
  apply map_Forall_insert_2; [|done]. simpl. autorewrite with go. done.
Qed.

(** Folding remote clocks into the node's clock. *)
Lemma foldl_Merge_wf cs c :
  VectorClock.clock_wf c → Forall VectorClock.clock_wf cs →
  VectorClock.clock_wf (foldl VectorClock.Merge c cs) ∧
  VectorClock.clock_le c (foldl VectorClock.Merge c cs) ∧
  Forall (λ d, VectorClock.clock_le d (foldl VectorClock.Merge c cs)) cs.
Proof.
  revert c. induction cs as [|d cs IH]; intros c Hc Hcs; simpl; [done|].
  inversion Hcs; subst.
  destruct (IH (VectorClock.Merge c d)) as (Hwf & Hle & Hall);
    [by apply VectorClock.Merge_wf | done |].
  split_and!; [done| |constructor; [|done]]; (etrans; [|exact Hle]).
  - by apply VectorClock.Merge_ub_l.
  - by apply VectorClock.Merge_ub_r.
Qed.

Lemma merge_ticket_causal (P : VectorClock → Prop) m r :
  map_Forall (λ _ t, P (t_VectorClock t)) m → P (t_VectorClock r) →
  map_Forall (λ _ t, P (t_VectorClock t)) (merge_ticket m r).
Proof.
  intros Hm Hr. unfold merge_ticket, adopt, copy_ticket.
  destruct (m !! t_ID r); [destruct (VectorClock.Compare _ _); try case_match|];
    try done; apply map_Forall_insert_2; try done; simpl; by autorewrite with go.
Qed.

Lemma merge_causal sm tickets :
  causal_inv sm → Forall (λ t, VectorClock.clock_wf (t_VectorClock t)) tickets →
  causal_inv (MergeState tickets sm).
Proof.
  intros [Hwf Hall] Hts.
  destruct (foldl_Merge_wf (t_VectorClock <$> tickets) (vectorClock sm))
    as (Hwf' & Hle & Hall'); [done | by apply Forall_fmap |].
  split; [done|]. unfold MergeState; simpl.
  set (c := foldl VectorClock.Merge _ _) in *.
  assert (Hgen : ∀ ts m, map_Forall (λ _ t, VectorClock.clock_wf (t_VectorClock t) ∧
      VectorClock.clock_le (t_VectorClock t) c) m →
    Forall (λ t, VectorClock.clock_wf (t_VectorClock t) ∧
      VectorClock.clock_le (t_VectorClock t) c) ts →
    map_Forall (λ _ t, VectorClock.clock_wf (t_VectorClock t) ∧
      VectorClock.clock_le (t_VectorClock t) c) (foldl merge_ticket m ts)).
  { induction ts as [|t ts IH]; intros m Hm Hf; [done|]. inversion Hf; subst. simpl.
    apply IH; [|done]. by apply (merge_ticket_causal
      (λ d, VectorClock.clock_wf d ∧ VectorClock.clock_le d c)). }
  apply Hgen.
  - intros id t E. destruct (Hall id t E). split; [done|]. by etrans.
  - apply Forall_fmap in Hall'. apply Forall_and. done.
Qed.

(** Remote tickets carry [uint64] counters. *)
Definition op_wf (o : op) : Prop :=
  match o with
  | OpMerge tickets => Forall (λ t, VectorClock.clock_wf (t_VectorClock t)) tickets
  | _ => True
  end.

Lemma run_op_causal o sm w :
  op_wf o → clock_room sm → causal_inv sm → causal_inv (run_op o (sm, w)).1.
Proof.
  intros Ho Hroom Hinv. destruct Hinv as [Hwf Hall] eqn:Heq; clear Heq.
  assert (Hins : ∀ id t, t_VectorClock t = VectorClock.Copy (vectorClock sm) →
    map_Forall (λ _ t, VectorClock.clock_wf (t_VectorClock t) ∧
      VectorClock.clock_le (t_VectorClock t) (vectorClock sm)) (<[id := t]> (currentState sm))).
  { intros id t Ht. apply map_Forall_insert_2; [|done]. rewrite Ht. by autorewrite with go. }
  destruct o; simpl in *.
  - unfold IssueTicket. destruct (currentState sm !! ticketID); [done|].
    split; [done|]. by apply Hins.
  - by apply seed_causal.
  - unfold ValidateTicket. repeat case_match; try done. by apply finish_transition_causal.
  - unfold ConsumeTicket. repeat case_match; try done. by apply finish_transition_causal.
  - unfold DisputeTicket. repeat case_match; try done. by apply finish_transition_causal.
  - unfold SyncTicket. destruct (currentState sm !! ticketID); [done|].
    destruct (run_handlers _ _ _ _ _). split; [done|]. by apply Hins.
  - by apply merge_causal.
Qed.

(** A node's machine after start-up: callbacks registered, no ticket yet. *)
Definition boot (id : string) (hs : list (StateChangeHandler W)) (pub : option (StatePublisher W))
    : StateMachine W :=
  let sm := foldl (λ sm h, RegisterHandler h sm) (NewStateMachine id) hs in
  match pub with Some p => RegisterPublisher p sm | None => sm end.

Lemma boot_fields id hs pub :
  currentState (boot id hs pub) = ∅ ∧ transitions (boot id hs pub) = [] ∧
  vectorClock (boot id hs pub) = VectorClock.NewVectorClock id.
Proof.
  assert (H : ∀ sm, currentState (foldl (λ sm h, RegisterHandler h sm) sm hs) = currentState sm ∧
    transitions (foldl (λ sm h, RegisterHandler h sm) sm hs) = transitions sm ∧
    vectorClock (foldl (λ sm h, RegisterHandler h sm) sm hs) = vectorClock sm).
  { induction hs as [|h hs IH]; intros sm; [done|]. apply (IH (RegisterHandler h sm)). }
  unfold boot. destruct pub; simpl; apply (H (NewStateMachine id)).
Qed.

Lemma boot_audit id hs pub : audit_inv (boot id hs pub).
Proof. destruct (boot_fields id hs pub) as (H1 & H2 & _). intros i. by rewrite H1, H2, lookup_empty. Qed.

Lemma boot_causal id hs pub : causal_inv (boot id hs pub).
Proof.
  destruct (boot_fields id hs pub) as (H1 & _ & H3). unfold causal_inv. rewrite H1, H3.
  split; [apply VectorClock.NewVectorClock_wf | apply map_Forall_empty].
Qed.

(** *** Merging versions *)

(** What two replicas must agree on. *)
Definition version (t : Ticket) : string * string * Z :=
  (t_State t, t_ValidatorID t, t_Timestamp t).

(** Which version of a known ticket survives a merge. *)
Lemma merge_ticket_lookup m (r l : Ticket) :
  m !! t_ID r = Some l →
  merge_ticket m r !! t_ID r = Some
    (match VectorClock.Compare (t_VectorClock l) (t_VectorClock r) with
     | Before => adopt r l
     | Concurrent => if (t_Timestamp l <? t_Timestamp r)%Z then adopt r l else l
     | _ => l
     end).
Proof.
  intros E. unfold merge_ticket. rewrite E.
  destruct (VectorClock.Compare _ _); try case_match; by rewrite ?lookup_insert_eq.
Qed.

Lemma merge_ticket_other m r id : t_ID r ≠ id → merge_ticket m r !! id = m !! id.
Proof. intros. unfold merge_ticket. go_cases; by rewrite lookup_insert_ne. Qed.

Lemma Compare_swap a b :
  VectorClock.clock_wf a → VectorClock.clock_wf b →
  VectorClock.Compare b a =
  match VectorClock.Compare a b with Before => After | After => Before | o => o end.
Proof.
  intros Ha Hb. apply VectorClock.Compare_iff; [done..|].
  pose proof (VectorClock.Compare_spec a b Ha Hb) as H.
  destruct (VectorClock.Compare a b); simpl in *; [tauto..| |tauto]. by symmetry.
Qed.

Lemma zero_clock_merge m r id t :
  map_Forall (λ _ t, VectorClock.clock_wf (t_VectorClock t)) m →
  VectorClock.clock_wf (t_VectorClock r) → (∀ k, VectorClock.Get (t_VectorClock r) k = 0%Z) →
  m !! id = Some t → merge_ticket m r !! id = Some t.
Proof.
  intros Hm Hr Hz E. destruct (decide (t_ID r = id)) as [<-|]; [|by rewrite merge_ticket_other].
  rewrite (merge_ticket_lookup _ _ _ E).
  destruct (VectorClock.zero_clock_Compare (t_VectorClock t) (t_VectorClock r)) as [->| ->];
    try done. by apply (Hm _ _ E).
Qed.

(** ** Properties *)

(** A dispute is logged and carried out in every state. *)
Lemma dispute_from_any_state now tid v st t :
  currentState st.1 !! tid = Some t →
  t_State <$> currentState (run_op (OpDispute now tid v) st).1 !! tid = Some StateDisputed ∧
  ∃ tr, transitions (run_op (OpDispute now tid v) st).1 = transitions st.1 ++ [tr] ∧
    tr_TicketID tr = tid ∧ tr_FromState tr = t_State t ∧ tr_ToState tr = StateDisputed.
Proof.
  destruct st as [sm w]. intros Ht. cbn [run_op fst] in *. unfold DisputeTicket. rewrite Ht. cbv zeta.
  destruct (finish_transition_sm tid (retag StateDisputed now t) (t_State t) StateDisputed v sm w)
    as (w' & e & ->). cbn. rewrite lookup_insert_eq. split; [done|]. by eexists.
Qed.

(** C10: the audit log explains every ticket, and what it shows is not the documented lifecycle.
    Starting from a fresh node, after any sequence of issue, seed, validate, consume, dispute and sync
    operations (failing callbacks included), the logged transitions of a ticket form a chain that
    starts at ISSUED and ends in the ticket's current state, in which only ISSUED becomes VALIDATED
    and only VALIDATED becomes CONSUMED; a ticket that does not exist has no log entry. DISPUTED
    however is reached from every state: a further dispute of the ticket, whatever its state, logs that
    very transition and leaves the ticket DISPUTED, where the README's strict lifecycle has disputes
    of VALIDATED tickets only. *)
Theorem audit_log_replays id hs pub w os tid :
  Forall (λ o, is_merge o = false) os →
  let st := run_ops os (boot id hs pub, w) in
  match currentState st.1 !! tid with
  | Some t =>
      t_ID t = tid ∧ replay StateIssued (log_of tid (transitions st.1)) = Some (t_State t) ∧
      ∀ now v, let st' := run_op (OpDispute now tid v) st in
        t_State <$> currentState st'.1 !! tid = Some StateDisputed ∧
        ∃ tr, transitions st'.1 = transitions st.1 ++ [tr] ∧
          tr_TicketID tr = tid ∧ tr_FromState tr = t_State t ∧ tr_ToState tr = StateDisputed
  | None => log_of tid (transitions st.1) = []
  end.
Proof.
  intros Hos st. pose proof (run_ops_audit os _ w Hos (boot_audit id hs pub) tid) as Haudit. fold st in Haudit.
  destruct (currentState st.1 !! tid) as [t|] eqn:Ht; [|done]. destruct Haudit as [Hid Hreplay].
  split_and!; [done..|]. intros now v. by apply dispute_from_any_state.
Qed.

(** C8: no double validation: without merges from other nodes, a ticket's log holds at most one
    transition into VALIDATED, however often validation is requested. *)
Theorem at_most_one_validation id hs pub w os tid :
  Forall (λ o, is_merge o = false) os →
  validations (log_of tid (transitions (run_ops os (boot id hs pub, w)).1)) ≤ 1.
Proof.
  intros Hos. pose proof (run_ops_audit os _ w Hos (boot_audit id hs pub) tid) as H.
  destruct (currentState _ !! tid) as [t|].
  - destruct H as [_ H]. apply replay_validations in H. by rewrite decide_True in H.
  - rewrite H. apply Nat.le_0_l.
Qed.

(** Every operation, merges of remote state included, keeps the stamps of all tickets well
    formed and causally below the node's clock, as long as the node's own counter has not reached
    the largest [uint64]. *)
Theorem stamps_below_clock o sm w :
  op_wf o → clock_room sm → causal_inv sm → causal_inv (run_op o (sm, w)).1.
Proof. apply run_op_causal. Qed.

(** C34: a state change is causally after everything the node knew: whenever validate, consume or
    dispute logs a transition of a ticket, the ticket's new stamp is strictly after the stamp of
    every ticket stored before, so [MergeState] elsewhere prefers it to those versions. *)
Theorem transition_after_all_stamps o tid sm w t' :
  (∃ now v data, o = OpValidate now tid v data ∨ o = OpConsume now tid v ∨ o = OpDispute now tid v) →
  causal_inv sm → clock_room sm →
  transitions (run_op o (sm, w)).1 ≠ transitions sm →
  currentState (run_op o (sm, w)).1 !! tid = Some t' →
  ∀ id0 t0, currentState sm !! id0 = Some t0 →
  VectorClock.HappenedBefore (t_VectorClock t0) (t_VectorClock t') = true.
Proof.
  intros Ho [Hwf Hall] Hroom Hlog Ht' id0 t0 E0. destruct (Hall id0 t0 E0) as [Hwf0 Hle0].
  assert (Hfin : t_VectorClock t' = VectorClock.Increment (vectorClock sm)).
  { destruct Ho as (now & v & data & [->|[->| ->]]); simpl in *;
      unfold ValidateTicket, ConsumeTicket, DisputeTicket in *; repeat case_match; try done;
      match goal with H : context [finish_transition ?a ?b ?c ?d ?e ?f ?g] |- _ =>
        destruct (finish_transition_sm a b c d e f g) as (w' & er & Heq) end;
      rewrite Heq in Ht'; simpl in Ht'; rewrite lookup_insert_eq in Ht'; by simplify_eq/=. }
  unfold VectorClock.HappenedBefore. rewrite bool_decide_eq_true, Hfin.
  pose proof (VectorClock.Increment_lt _ Hwf Hroom) as [Hle Hnle].
  apply VectorClock.Compare_iff; [done | by apply VectorClock.Increment_wf |].
  split; [by etrans|]. intros Hback. apply Hnle. by etrans.
Qed.

(** C35: two replicas that exchange their versions of a ticket agree afterwards on state,
    validator and timestamp, unless the versions are concurrent with equal timestamps or differ
    under equal clocks. *)
Theorem merge_exchange_converges (ma mb : gmap string Ticket) (a b : Ticket) :
  t_ID a = t_ID b → ma !! t_ID a = Some a → mb !! t_ID b = Some b →
  VectorClock.clock_wf (t_VectorClock a) → VectorClock.clock_wf (t_VectorClock b) →
  (VectorClock.Compare (t_VectorClock a) (t_VectorClock b) = Concurrent →
    t_Timestamp a ≠ t_Timestamp b) →
  (VectorClock.Compare (t_VectorClock a) (t_VectorClock b) = Equal → version a = version b) →
  version <$> merge_ticket ma b !! t_ID b = version <$> merge_ticket mb a !! t_ID a.
Proof.
  intros Hid Ea Eb Hwa Hwb Hc He. rewrite Hid in Ea. rewrite <- Hid in Eb.
  rewrite (merge_ticket_lookup _ _ _ Ea), (merge_ticket_lookup _ _ _ Eb), (Compare_swap _ _ Hwa Hwb).
  destruct (VectorClock.Compare _ _); simpl; [done..| |]; [by rewrite He|].
  specialize (Hc eq_refl).
  destruct (Z.ltb_spec (t_Timestamp a) (t_Timestamp b)), (Z.ltb_spec (t_Timestamp b) (t_Timestamp a));
    try lia; done.
Qed.

(** A state update without a vector clock has no effect on a ticket that the node already
    holds: its clock reads as all zeros, and [MergeState] keeps the local version. *)
Theorem clockless_update_ignored sm tickets id t :
  causal_inv sm → Forall (λ r, VectorClock.clock_wf (t_VectorClock r) ∧
    ∀ k, VectorClock.Get (t_VectorClock r) k = 0%Z) tickets →
  currentState sm !! id = Some t → currentState (MergeState tickets sm) !! id = Some t.
Proof.
  intros [_ Hall]. unfold MergeState; simpl.
  assert (Hm : map_Forall (λ _ t, VectorClock.clock_wf (t_VectorClock t)) (currentState sm)).
  { intros i x E. apply (Hall i x E). }
  clear Hall. revert Hm. generalize (currentState sm) as m.
  induction tickets as [|r ts IH]; intros m Hm Hts E; [done|].
  inversion Hts as [|?? [Hr Hz] Hts']; subst. simpl. apply IH; [|done|].
  - by apply (merge_ticket_causal VectorClock.clock_wf).
  - by apply zero_clock_merge.
Qed.

End Theory.

(** *** Concrete runs *)

(** A failing callback after the first one, to exercise the error path. *)
Definition demo_handlers : list (StateChangeHandler nat) :=
  [ (λ _ _ _ n, (S n, None));
    (λ _ _ new n, (n, if decide (new = StateDisputed) then Some "disk full" else None)) ].

Definition demo_ops : list op :=
  [ OpIssue 1 "T1" "seat"; OpValidate 2 "T1" "node0" ""; OpValidate 3 "T1" "node1" "";
    OpConsume 4 "T1" "node0"; OpDispute 5 "T1" "node2"; OpSync 6 "T2" "node1" "" ].

Definition demo_machine : StateMachine nat * nat :=
  run_ops demo_ops (boot "node0" demo_handlers None, 0).

(** Two versions that neither node has seen of the other, stamped in the same second. *)
Definition tie_a : Ticket := MkTicket "T1" StateConsumed "" "node0" 7
  (MkVectorClock "a" {[ "a" := 2%Z ]}) ∅.
Definition tie_b : Ticket := MkTicket "T1" StateDisputed "" "node1" 7
  (MkVectorClock "b" {[ "b" := 2%Z ]}) ∅.
Definition tie_b_later : Ticket := retag StateDisputed 8 tie_b.

Lemma singleton_clock_wf id k v :
  is_u64 v → VectorClock.clock_wf (MkVectorClock id {[ k := v ]}).
Proof. intros H. by apply map_Forall_singleton. Qed.

Lemma audit_log_replays_witness :
  Forall (λ o, is_merge o = false) demo_ops ∧
  (t_State <$> currentState demo_machine.1 !! "T1") = Some StateDisputed ∧
  match currentState demo_machine.1 !! "T1" with
  | Some t => t_ID t = "T1" ∧
      replay StateIssued (log_of "T1" (transitions demo_machine.1)) = Some (t_State t)
  | None => log_of "T1" (transitions demo_machine.1) = []
  end.
Proof.
  assert (H : Forall (λ o, is_merge o = false) demo_ops) by (repeat constructor).
  split; [exact H|]. split; [vm_compute; reflexivity|].
  pose proof (audit_log_replays "node0" demo_handlers None 0 demo_ops "T1" H) as Haudit.
  cbv zeta in Haudit. fold demo_machine in Haudit.
  destruct (currentState demo_machine.1 !! "T1") as [t|]; [|exact Haudit].
  destruct Haudit as (Hid & Hreplay & _). exact (conj Hid Hreplay).
Defined.

Lemma at_most_one_validation_witness :
  Forall (λ o, is_merge o = false) demo_ops ∧
  validations (log_of "T1" (transitions demo_machine.1)) ≤ 1.
Proof.
  assert (H : Forall (λ o, is_merge o = false) demo_ops) by (repeat constructor).
  split; [exact H|].
  exact (at_most_one_validation "node0" demo_handlers None 0 demo_ops "T1" H).
Defined.

Lemma boot_room id hs pub : clock_room (W := nat) (boot id hs pub).
Proof.
  destruct (boot_fields id hs pub) as (_ & _ & H). unfold clock_room. rewrite H.
  unfold VectorClock.Get, VectorClock.NewVectorClock; simpl. unfold map_get.
  rewrite lookup_singleton_eq. simpl. lia.
Qed.

Lemma stamps_below_clock_witness :
  causal_inv (run_op (OpMerge [tie_b]) (boot "node0" demo_handlers None, 0)).1.
Proof.
  apply stamps_below_clock.
  - apply Forall_singleton, singleton_clock_wf. unfold is_u64. lia.
  - apply boot_room.
  - apply boot_causal.
Defined.

(** The issued demo ticket, before validation. *)
Definition issued_machine : StateMachine nat :=
  (run_op (OpIssue 1 "T1" "seat") (boot "node0" demo_handlers None, 0)).1.

Lemma issued_machine_inv : causal_inv issued_machine ∧ clock_room issued_machine.
Proof.
  split; [apply run_op_causal; [done | apply boot_room | apply boot_causal]|].
  unfold clock_room. vm_compute. reflexivity.
Qed.

Lemma transition_after_all_stamps_witness :
  ∃ t0 t', currentState issued_machine !! "T1" = Some t0 ∧
    currentState (run_op (OpValidate 2 "T1" "node0" "") (issued_machine, 0)).1 !! "T1" = Some t' ∧
    VectorClock.HappenedBefore (t_VectorClock t0) (t_VectorClock t') = true.
Proof.
  eexists _, _. split; [vm_compute; reflexivity|]. split; [vm_compute; reflexivity|].
  refine (transition_after_all_stamps (OpValidate 2 "T1" "node0" "") "T1" issued_machine 0 _
    _ (proj1 issued_machine_inv) (proj2 issued_machine_inv) _ _ "T1" _ _).
  - exists 2%Z, "node0", "". by left.
  - vm_compute. discriminate.
  - vm_compute. reflexivity.
  - vm_compute. reflexivity.
Defined.

Lemma merge_exchange_converges_witness :
  VectorClock.Compare (t_VectorClock tie_a) (t_VectorClock tie_b_later) = Concurrent ∧
  version <$> merge_ticket {[ "T1" := tie_a ]} tie_b_later !! t_ID tie_b_later
  = version <$> merge_ticket {[ "T1" := tie_b_later ]} tie_a !! t_ID tie_a.
Proof.
  split; [vm_compute; reflexivity|].
  refine (merge_exchange_converges {[ "T1" := tie_a ]} {[ "T1" := tie_b_later ]}
    tie_a tie_b_later eq_refl _ _ _ _ _ _).
  - apply lookup_singleton_eq.
  - apply lookup_singleton_eq.
  - apply singleton_clock_wf. unfold is_u64. lia.
  - apply singleton_clock_wf. unfold is_u64. lia.
  - intros _. vm_compute. discriminate.
  - intros H. vm_compute in H. discriminate.
Defined.

(** [MergeState] has no tie-break: two concurrent versions stamped in the same second (Go's
    [time.Now().Unix()]) are each kept by the node that holds them, so exchanging them leaves one
    replica with a consumed ticket and the other with a disputed one. *)
Theorem merge_tie_diverges :
  version <$> merge_ticket {[ "T1" := tie_a ]} tie_b !! "T1" = Some (StateConsumed, "node0", 7%Z) ∧
  version <$> merge_ticket {[ "T1" := tie_b ]} tie_a !! "T1" = Some (StateDisputed, "node1", 7%Z).
Proof. split; vm_compute; reflexivity. Qed.

Lemma clockless_update_ignored_witness :
  currentState (MergeState [MkTicket "T1" StateValidated "" "node3" 99
    (VectorClock.NewVectorClock "node0") ∅] issued_machine) !! "T1"
  = currentState issued_machine !! "T1".
Proof.
  assert (H : ∃ t, currentState issued_machine !! "T1" = Some t) by (eexists; vm_compute; reflexivity).
  destruct H as [t H]. rewrite H.
  apply (clockless_update_ignored issued_machine); [apply issued_machine_inv | | exact H].
  apply Forall_singleton. split; simpl; [apply VectorClock.NewVectorClock_wf|].
  intros k. unfold VectorClock.Get, VectorClock.NewVectorClock, map_get; simpl.
  rewrite lookup_singleton. by case_decide.
Defined.

End TicketMachine.
