(* ===== verification/Quorum.v ===== *)
(** Quorum arithmetic, [src/pkg/consensus/quorum.go], and the intersection of quorums.

    The checker computes [f = (n-1)/3] and asks for [2f+1] votes. Two quorums are proved to share
    more than [f] nodes, hence an honest one, exactly for the network sizes that
    [IsValidNetworkSize] accepts; the validator itself accepts any size. *)

From S2P Require Import Prelude.

Module Quorum.

Record Vote := MkVote {
  v_NodeID : string;
  v_Sequence : Z;
  v_Digest : string;
  v_Signature : string;
  v_Timestamp : Z;
}.

Record QuorumChecker := MkQuorumChecker {
  qc_totalNodes : Z;
  qc_f : Z;
}.

(** Go's [/] truncates towards zero. *)
Definition max_faulty (totalNodes : Z) : Z := Z.quot (wrap_i64 (totalNodes - 1)) 3.

Definition NewQuorumChecker (totalNodes : Z) : QuorumChecker :=
  {| qc_totalNodes := totalNodes; qc_f := max_faulty totalNodes |}.

Definition GetRequiredQuorum (qc : QuorumChecker) : Z := (2 * qc_f qc + 1)%Z.

Definition GetMaxByzantineNodes (qc : QuorumChecker) : Z := qc_f qc.

Definition CheckQuorum (qc : QuorumChecker) (votes : list Vote) : bool :=
  (2 * qc_f qc + 1 <=? Z.of_nat (length votes))%Z.

(** [CheckPrepareQuorum] and [CheckCommitQuorum]: the size of a map of messages by node. *)
Definition CheckPrepareQuorum {V} (qc : QuorumChecker) (prepares : gmap string V) : bool :=
  (2 * qc_f qc + 1 <=? Z.of_nat (size prepares))%Z.

Definition CheckCommitQuorum {V} (qc : QuorumChecker) (commits : gmap string V) : bool :=
  (2 * qc_f qc + 1 <=? Z.of_nat (size commits))%Z.

(** The counting loop of [ValidateQuorum], with its two [continue]s. *)
Fixpoint count_valid (expectedSequence : Z) (expectedDigest : string) (votes : list Vote)
    (validVotes : Z) : Z :=
  match votes with
  | [] => validVotes
  | vote :: votes =>
      if negb (v_Sequence vote =? expectedSequence)%Z then
        count_valid expectedSequence expectedDigest votes validVotes
      else if negb (v_Digest vote =? expectedDigest)%string then
        count_valid expectedSequence expectedDigest votes validVotes
      else count_valid expectedSequence expectedDigest votes (validVotes + 1)
  end.

Definition ValidateQuorum (qc : QuorumChecker) (votes : list Vote) (expectedSequence : Z)
    (expectedDigest : string) : error :=
  if negb (CheckQuorum qc votes) then
    Some ("insufficient votes: got " +:+ FormatInt (Z.of_nat (length votes)) +:+ ", need "
      +:+ FormatInt (2 * qc_f qc + 1))
  else
    let validVotes := count_valid expectedSequence expectedDigest votes 0 in
    if (validVotes <? 2 * qc_f qc + 1)%Z then
      Some ("insufficient valid votes: got " +:+ FormatInt validVotes +:+ ", need "
        +:+ FormatInt (2 * qc_f qc + 1))
    else None.

Definition CanTolerateFailures (qc : QuorumChecker) (activeNodes : Z) : bool :=
  (2 * qc_f qc + 1 <=? activeNodes)%Z.

Definition IsValidNetworkSize (totalNodes : Z) : bool :=
  (4 <=? totalNodes)%Z && (Z.rem (wrap_i64 (totalNodes - 1)) 3 =? 0)%Z.

Definition CalculateOptimalNetworkSize (byzantineNodes : Z) : Z :=
  wrap_i64 (3 * byzantineNodes + 1).

(** ** Counting *)

Definition matching (seq : Z) (d : string) (v : Vote) : Prop := v_Sequence v = seq ∧ v_Digest v = d.

#[export] Instance matching_dec seq d v : Decision (matching seq d v).
Proof. unfold matching. apply _. Defined.

Lemma count_valid_filter seq d votes acc :
  count_valid seq d votes acc = (acc + Z.of_nat (length (filter (matching seq d) votes)))%Z.
Proof.
  revert acc. induction votes as [|v votes IH]; intros acc; simpl; [lia|].
  rewrite filter_cons. unfold matching at 1.
  destruct (Z.eqb_spec (v_Sequence v) seq), (String.eqb_spec (v_Digest v) d); simpl;
    case_decide; try tauto; rewrite IH; simpl; lia.
Qed.

Lemma filter_le_length {A} (P : A → Prop) `{!∀ x, Decision (P x)} (l : list A) :
  length (filter P l) ≤ length l.
Proof. induction l as [|x l IH]; [done|]. rewrite filter_cons. case_decide; simpl; lia. Qed.

Lemma ValidateQuorum_None qc votes seq d :
  ValidateQuorum qc votes seq d = None ↔
  (GetRequiredQuorum qc ≤ Z.of_nat (length (filter (matching seq d) votes)))%Z.
Proof.
  unfold ValidateQuorum, CheckQuorum, GetRequiredQuorum. rewrite count_valid_filter.
  pose proof (filter_le_length (matching seq d) votes).
  destruct (Z.leb_spec (2 * qc_f qc + 1) (Z.of_nat (length votes))); simpl.
  - destruct (Z.ltb_spec (0 + Z.of_nat (length (filter (matching seq d) votes))) (2 * qc_f qc + 1));
      split; intros; try done; lia.
  - split; intros; [done|lia].
Qed.

(** ** Intersection of quorums *)

Section Intersection.
Context {A : Type} `{Countable A}.
Implicit Types (members q : gset A).

Definition is_quorum (qc : QuorumChecker) members (q : gset A) : Prop :=
  q ⊆ members ∧ (GetRequiredQuorum qc ≤ Z.of_nat (size q))%Z.

Lemma inter_size members q1 q2 :
  q1 ⊆ members → q2 ⊆ members → size q1 + size q2 ≤ size members + size (q1 ∩ q2).
Proof.
  intros H1 H2. assert (Hu : size (q1 ∪ q2) ≤ size members) by (apply subseteq_size; set_solver).
  assert (Hd : size (q1 ∪ q2) = size q1 + size (q2 ∖ q1)).
  { rewrite <- size_union by set_solver. f_equal. apply set_eq. intros x.
    destruct (decide (x ∈ q1)); set_solver. }
  assert (Hs : size q2 = size (q2 ∖ q1) + size (q1 ∩ q2)).
  { rewrite <- size_union by set_solver. f_equal. apply set_eq. intros x.
    destruct (decide (x ∈ q1)); set_solver. }
  lia.
Qed.

Lemma max_faulty_bound n :
  (1 ≤ n)%Z → is_i64 n → (3 * max_faulty n + 1 ≤ n ≤ 3 * max_faulty n + 3)%Z ∧ (0 ≤ max_faulty n)%Z.
Proof.
  intros Hn Hr. unfold max_faulty, is_i64 in *. rewrite wrap_i64_id by (unfold is_i64; lia).
  rewrite Z.quot_div_nonneg by lia. pose proof (Z.div_mod (n - 1) 3 ltac:(lia)).
  pose proof (Z.mod_pos_bound (n - 1) 3 ltac:(lia)). lia.
Qed.

Lemma valid_size_iff n :
  is_i64 n → IsValidNetworkSize n = true ↔ (4 ≤ n ∧ n = 3 * max_faulty n + 1)%Z.
Proof.
  intros Hr. unfold IsValidNetworkSize, max_faulty. rewrite andb_true_iff, Z.leb_le, Z.eqb_eq.
  destruct (decide (4 ≤ n)%Z); [|naive_solver].
  unfold is_i64 in *. rewrite wrap_i64_id by (unfold is_i64; lia).
  pose proof (Z.quot_rem' (n - 1) 3). lia.
Qed.

End Intersection.

(** The worst case on nodes [0..n-1]: the first and the last [2f+1] of them. *)
Definition first_nodes (k : nat) : gset nat := set_seq 0 k.
Definition last_nodes (n k : nat) : gset nat := set_seq (n - k) k.

Lemma seq_inter n k :
  k ≤ n → size (first_nodes k ∩ last_nodes n k) = (2 * k - n)%nat.
Proof.
  intros Hk. unfold first_nodes, last_nodes.
  replace (set_seq 0 k ∩ set_seq (n - k) k : gset nat) with (set_seq (n - k) (2 * k - n) : gset nat).
  - apply size_set_seq.
  - apply set_eq. intros x. rewrite elem_of_intersection, !elem_of_set_seq. lia.
Qed.

(** ** Properties *)

(** C21: quorum intersection. In a network of a size that [IsValidNetworkSize] accepts, any two
    quorums of the checker's size share a node that is not faulty, as long as at most
    [GetMaxByzantineNodes] nodes are. *)
Theorem quorums_share_honest_node {A} `{Countable A} n (members faulty q1 q2 : gset A) :
  is_i64 n → IsValidNetworkSize n = true → Z.of_nat (size members) = n →
  (Z.of_nat (size faulty) ≤ GetMaxByzantineNodes (NewQuorumChecker n))%Z →
  is_quorum (NewQuorumChecker n) members q1 → is_quorum (NewQuorumChecker n) members q2 →
  ∃ x, x ∈ q1 ∧ x ∈ q2 ∧ x ∉ faulty.
Proof.
  intros Hr Hv Hm Hf [Hs1 Hq1] [Hs2 Hq2]. apply valid_size_iff in Hv as [_ Hn]; [|done].
  unfold GetRequiredQuorum, GetMaxByzantineNodes in *; simpl in *.
  pose proof (inter_size members q1 q2 Hs1 Hs2).
  destruct (decide (q1 ∩ q2 ⊆ faulty)) as [Hsub|Hsub].
  - apply subseteq_size in Hsub. lia.
  - destruct (set_choose_L (q1 ∩ q2 ∖ faulty)) as [x Hx]; [|exists x; set_solver].
    intros He. apply Hsub. intros x Hx. destruct (decide (x ∈ faulty)); [done|].
    assert (x ∈ q1 ∩ q2 ∖ faulty) by set_solver. rewrite He in *. set_solver.
Qed.

(** [IsValidNetworkSize] is exact: for [n >= 4], all pairs of quorums share more than [f]
    nodes if and only if [n] is accepted. For every other size (5, 6, 8, 9, ...) there are two
    quorums of [2f+1] nodes that meet in at most [f] nodes, all of which may be faulty. *)
Theorem valid_size_iff_quorums_intersect n :
  is_i64 n → (4 ≤ n)%Z →
  IsValidNetworkSize n = true ↔
  ∀ members q1 q2 : gset nat, Z.of_nat (size members) = n →
    is_quorum (NewQuorumChecker n) members q1 → is_quorum (NewQuorumChecker n) members q2 →
    (GetMaxByzantineNodes (NewQuorumChecker n) < Z.of_nat (size (q1 ∩ q2)))%Z.
Proof.
  intros Hr H4. rewrite valid_size_iff by done.
  pose proof (max_faulty_bound n ltac:(lia) Hr) as [Hb Hpos].
  unfold is_quorum, GetRequiredQuorum, GetMaxByzantineNodes; simpl. split.
  - intros [_ Hn] members q1 q2 Hm [Hs1 Hq1] [Hs2 Hq2].
    pose proof (inter_size members q1 q2 Hs1 Hs2). lia.
  - intros Hall. split; [done|].
    set (k := Z.to_nat (2 * max_faulty n + 1)). set (N := Z.to_nat n).
    assert (Hk : k ≤ N) by lia.
    specialize (Hall (set_seq 0 N) (first_nodes k) (last_nodes N k)).
    rewrite seq_inter in Hall by done. unfold first_nodes, last_nodes in Hall.
    rewrite !size_set_seq in Hall. enough (¬ (max_faulty n + 1 < n - 2 * max_faulty n)%Z) by lia.
    intros Hbad. assert (Hlt : (max_faulty n < Z.of_nat (2 * k - N))%Z); [|lia].
    apply Hall; [lia| |]; (split; [|lia]); intros x; rewrite !elem_of_set_seq; lia.
Qed.

(** [ValidateQuorum] accepts exactly when at least [2f+1] of the votes carry the expected
    sequence and digest; if the votes come from distinct nodes, those nodes are then a quorum. *)
Theorem ValidateQuorum_sound n (members : gset string) votes seq d :
  ValidateQuorum (NewQuorumChecker n) votes seq d = None →
  NoDup (v_NodeID <$> votes) → Forall (λ v, v_NodeID v ∈ members) votes →
  is_quorum (NewQuorumChecker n) members
    (list_to_set (v_NodeID <$> filter (matching seq d) votes)).
Proof.
  intros Hv Hnd Hin. apply ValidateQuorum_None in Hv. split.
  - intros x Hx. apply elem_of_list_to_set, list_elem_of_fmap in Hx as (v & -> & Hv').
    apply list_elem_of_filter in Hv' as [_ Hv']. rewrite Forall_forall in Hin. by apply Hin.
  - rewrite size_list_to_set.
    + by rewrite length_fmap.
    + eapply sublist_NoDup; [exact Hnd|]. apply fmap_sublist, sublist_filter.
Qed.

(** *** Concrete instances *)

Definition four_nodes : gset string := {[ "node0"; "node1"; "node2"; "node3" ]}.
Definition quorum_a : gset string := {[ "node0"; "node1"; "node2" ]}.
Definition quorum_b : gset string := {[ "node1"; "node2"; "node3" ]}.

Lemma quorums_share_honest_node_witness :
  ∃ x, x ∈ quorum_a ∧ x ∈ quorum_b ∧ x ∉ ({[ "node2" ]} : gset string).
Proof.
  apply (quorums_share_honest_node 4 four_nodes).
  - unfold is_i64. lia.
  - reflexivity.
  - vm_compute. reflexivity.
  - vm_compute. discriminate.
  - split; [compute_decide | vm_compute; discriminate].
  - split; [compute_decide | vm_compute; discriminate].
Defined.

Lemma valid_size_iff_quorums_intersect_witness :
  ¬ (∀ members q1 q2 : gset nat, Z.of_nat (size members) = 6%Z →
    is_quorum (NewQuorumChecker 6) members q1 → is_quorum (NewQuorumChecker 6) members q2 →
    (GetMaxByzantineNodes (NewQuorumChecker 6) < Z.of_nat (size (q1 ∩ q2)))%Z).
Proof.
  intros H. apply (valid_size_iff_quorums_intersect 6) in H; [discriminate|unfold is_i64; lia|lia].
Defined.

Definition three_votes : list Vote :=
  [MkVote "node0" 1 "d" "" 0; MkVote "node1" 1 "d" "" 0; MkVote "node3" 1 "d" "" 0].

Lemma ValidateQuorum_sound_witness :
  is_quorum (NewQuorumChecker 4) four_nodes
    (list_to_set (v_NodeID <$> filter (matching 1 "d") three_votes)).
Proof.
  apply ValidateQuorum_sound.
  - vm_compute. reflexivity.
  - compute_decide.
  - compute_decide.
Defined.

(** [ValidateQuorum] does not look at who voted: three copies of one node's vote pass as a
    quorum of a four-node network. *)
Theorem ValidateQuorum_counts_repeated_votes :
  let vote := MkVote "node3" 1 "d" "" 0 in
  ValidateQuorum (NewQuorumChecker 4) [vote; vote; vote] 1 "d" = None ∧
  size (list_to_set (v_NodeID <$> [vote; vote; vote]) : gset string) = 1.
Proof. split; vm_compute; reflexivity. Qed.

End Quorum.
