(* ===== verification/Hashing.v ===== *)
(** The hash functions of Go's standard library that the program uses: [crypto/sha256],
    [encoding/hex] and [hash/fnv] (64-bit FNV-1a), written out so that digests, message IDs and
    bloom-filter positions evaluate. Bytes and words are [Z]; a Go [string] or [[]byte] is a
    [string] of bytes. *)

From S2P Require Import Prelude.
Local Open Scope Z_scope.

Module Hashing.

Definition byte_of_ascii (a : ascii) : Z := Z.of_nat (nat_of_ascii a).
Definition ascii_of_byte (b : Z) : ascii := ascii_of_nat (Z.to_nat b).

Fixpoint bytes_of (s : string) : list Z :=
  match s with
  | EmptyString => []
  | String a s => byte_of_ascii a :: bytes_of s
  end.

Fixpoint string_of (bs : list Z) : string :=
  match bs with
  | [] => EmptyString
  | b :: bs => String (ascii_of_byte b) (string_of bs)
  end.

(** ** SHA-256 *)

Definition add32 (a b : Z) : Z := Z.land (a + b) 0xffffffff.
Definition rotr32 (x n : Z) : Z :=
  Z.lor (Z.shiftr x n) (Z.land (Z.shiftl x (32 - n)) 0xffffffff).

(** The 32-bit words of a longer literal, most significant first. *)
Fixpoint words_of (n : nat) (w : Z) : list Z :=
  match n with
  | O => []
  | S n => Z.land (Z.shiftr w (32 * Z.of_nat n)) 0xffffffff :: words_of n w
  end.

(** The round constants, eight to a line, and the initial state. *)
Definition sha_k : list Z := Eval vm_compute in
  concat (words_of 8 <$>
  [0x428a2f9871374491b5c0fbcfe9b5dba53956c25b59f111f1923f82a4ab1c5ed5;
   0xd807aa9812835b01243185be550c7dc372be5d7480deb1fe9bdc06a7c19bf174;
   0xe49b69c1efbe47860fc19dc6240ca1cc2de92c6f4a7484aa5cb0a9dc76f988da;
   0x983e5152a831c66db00327c8bf597fc7c6e00bf3d5a7914706ca635114292967;
   0x27b70a852e1b21384d2c6dfc53380d13650a7354766a0abb81c2c92e92722c85;
   0xa2bfe8a1a81a664bc24b8b70c76c51a3d192e819d6990624f40e3585106aa070;
   0x19a4c1161e376c082748774c34b0bcb5391c0cb34ed8aa4a5b9cca4f682e6ff3;
   0x748f82ee78a5636f84c878148cc7020890befffaa4506cebbef9a3f7c67178f2]).

Definition sha_init : list Z := Eval vm_compute in
  words_of 8 0x6a09e667bb67ae853c6ef372a54ff53a510e527f9b05688c1f83d9ab5be0cd19.

(** Big-endian split into [n] bytes. *)
Fixpoint be_bytes (n : nat) (w : Z) : list Z :=
  match n with
  | O => []
  | S n => Z.land (Z.shiftr w (8 * Z.of_nat n)) 0xff :: be_bytes n w
  end.

Definition be_word (bs : list Z) : Z := foldl (λ acc b, Z.lor (Z.shiftl acc 8) b) 0 bs.

Definition sha_pad (bs : list Z) : list Z :=
  let len := Z.of_nat (length bs) in
  bs ++ [0x80] ++ replicate (Z.to_nat ((55 - len) mod 64)) 0 ++ be_bytes 8 (8 * len).

Fixpoint chunks (fuel : nat) (k : nat) (bs : list Z) : list (list Z) :=
  match fuel, bs with
  | O, _ | _, [] => []
  | S fuel, _ => take k bs :: chunks fuel k (drop k bs)
  end.

(** The message schedule, newest word first. *)
Fixpoint sha_extend (n : nat) (rev_w : list Z) : list Z :=
  match n with
  | O => rev_w
  | S n =>
      let w i := nth (i - 1) rev_w 0 in
      let s0 := Z.lxor (Z.lxor (rotr32 (w 15%nat) 7) (rotr32 (w 15%nat) 18)) (Z.shiftr (w 15%nat) 3) in
      let s1 := Z.lxor (Z.lxor (rotr32 (w 2%nat) 17) (rotr32 (w 2%nat) 19)) (Z.shiftr (w 2%nat) 10) in
      sha_extend n (add32 (add32 (w 16%nat) s0) (add32 (w 7%nat) s1) :: rev_w)
  end.

Definition sha_round (st : list Z) (kw : Z * Z) : list Z :=
  match st with
  | [a; b; c; d; e; f; g; h] =>
      let S1 := Z.lxor (Z.lxor (rotr32 e 6) (rotr32 e 11)) (rotr32 e 25) in
      let ch := Z.lxor (Z.land e f) (Z.land (Z.lxor e 0xffffffff) g) in
      let temp1 := add32 (add32 h S1) (add32 ch (add32 kw.1 kw.2)) in
      let S0 := Z.lxor (Z.lxor (rotr32 a 2) (rotr32 a 13)) (rotr32 a 22) in
      let maj := Z.lxor (Z.lxor (Z.land a b) (Z.land a c)) (Z.land b c) in
      let temp2 := add32 S0 maj in
      [add32 temp1 temp2; a; b; c; add32 d temp1; e; f; g]
  | _ => st
  end.

Definition sha_block (h : list Z) (block : list Z) : list Z :=
  let w := reverse (sha_extend 48 (reverse (be_word <$> chunks 16 4 block))) in
  zip_with add32 h (foldl sha_round h (zip sha_k w)).

(** [sha256.Sum256] *)
Definition Sum256 (s : string) : list Z :=
  let padded := sha_pad (bytes_of s) in
  foldl sha_block sha_init (chunks (length padded) 64 padded) ≫= be_bytes 4.

(** ** Hex *)

Definition hex_digit (d : Z) : ascii :=
  ascii_of_nat (Z.to_nat (if d <? 10 then 48 + d else 87 + d)).

(** [hex.EncodeToString] *)
Fixpoint EncodeToString (bs : list Z) : string :=
  match bs with
  | [] => EmptyString
  | b :: bs =>
      String (hex_digit (Z.shiftr b 4)) (String (hex_digit (Z.land b 0xf)) (EncodeToString bs))
  end.

Definition sha256_hex (s : string) : string := EncodeToString (Sum256 s).

(** ** FNV-1a, 64 bits *)

Definition fnv_offset64 : Z := 14695981039346656037.
Definition fnv_prime64 : Z := 1099511628211.

Definition fnv64a_step (h b : Z) : Z := wrap_u64 (Z.lxor h b * fnv_prime64).

(** [h := fnv.New64a(); h.Write(s); h.Sum64()] *)
Definition Sum64a (s : string) : Z := foldl fnv64a_step fnv_offset64 (bytes_of s).

(** ** Length of a digest *)

Lemma length_be_bytes n w : length (be_bytes n w) = n.
Proof. induction n as [|n IH]; simpl; congruence. Qed.

Lemma length_sha_round st kw : length (sha_round st kw) = length st.
Proof. by do 9 (destruct st as [|? st]; [done|]). Qed.

Lemma length_sha_block h block : length (sha_block h block) = length h.
Proof.
  unfold sha_block. set (w := zip sha_k _). clearbody w.
  assert (∀ st, length (foldl sha_round st w) = length st) as Hl.
  { induction w as [|kw w IH]; intros st; simpl; [done|]. by rewrite IH, length_sha_round. }
  rewrite length_zip_with, Hl. lia.
Qed.

Lemma length_Sum256 s : length (Sum256 s) = 32%nat.
Proof.
  unfold Sum256. set (cs := chunks _ _ _). clearbody cs.
  assert (∀ h, length (foldl sha_block h cs) = length h) as Hl.
  { induction cs as [|c cs IH]; intros h; simpl; [done|]. by rewrite IH, length_sha_block. }
  specialize (Hl sha_init). revert Hl. generalize (foldl sha_block sha_init cs). intros ws Hl.
  do 9 (destruct ws as [|? ws]; [done|]). done.
Qed.

(** ** Checks against published vectors *)

Example sha256_empty :
  sha256_hex "" = "e3b0c44298fc1c149afbf4c8996fb92427ae41e4649b934ca495991b7852b855".
Proof. vm_compute. reflexivity. Qed.

Example sha256_abc :
  sha256_hex "abc" = "ba7816bf8f01cfea414140de5dae2223b00361a396177a9cb410ff61f20015ad".
Proof. vm_compute. reflexivity. Qed.

Example sha256_two_blocks :
  sha256_hex "abcdbcdecdefdefgefghfghighijhijkijkljklmklmnlmnomnopnopq"
  = "248d6a61d20638b8e5c026930c3e6039a33ce45964ff2167f6ecedd419db06c1".
Proof. vm_compute. reflexivity. Qed.

Example fnv_foobar : Sum64a "foobar" = 0x85944171f73967e8.
Proof. vm_compute. reflexivity. Qed.

(** ** Bytes and strings *)

Lemma bytes_of_range s : Forall (λ b, 0 ≤ b < 256) (bytes_of s).
Proof.
  induction s as [|a s IH]; simpl; constructor; [|done].
  unfold byte_of_ascii. pose proof (nat_ascii_bounded a). lia.
Qed.

Lemma string_of_bytes_of s : string_of (bytes_of s) = s.
Proof.
  induction s as [|a s IH]; simpl; [done|]. f_equal; [|done].
  unfold ascii_of_byte, byte_of_ascii. rewrite Nat2Z.id. apply ascii_nat_embedding.
Qed.

Lemma bytes_of_string_of bs : Forall (λ b, 0 ≤ b < 256) bs → bytes_of (string_of bs) = bs.
Proof.
  induction 1 as [|b bs Hb _ IH]; simpl; [done|]. f_equal; [|done].
  unfold ascii_of_byte, byte_of_ascii. rewrite nat_ascii_embedding by lia. lia.
Qed.

Lemma Sum64a_u64 s : is_u64 (Sum64a s).
Proof.
  unfold Sum64a. assert (H : is_u64 fnv_offset64) by (vm_compute; done). revert H.
  generalize fnv_offset64. induction (bytes_of s) as [|b bs IH]; intros h Hh; [done|].
  apply IH. apply wrap_u64_range.
Qed.

End Hashing.
