(* ===== verification/Proto.v ===== *)
(** The protobuf messages, [src/proto/messages.pb.go], and the interface to the protobuf runtime.

    The generated structs are records ([state], [unknownFields] and [sizeCache] are never read by
    the program and left out; a message pointer that may be [nil] is an [option]). The runtime
    ([google.golang.org/protobuf], [proto.Marshal] and [proto.Unmarshal]) is not part of the
    repository: [ProtoMessage] is its interface, [ProtoLaws] what the program relies on. A
    concrete instance at the end shows that the laws can hold for every message type. *)

From S2P Require Import Prelude.

Module pb.

(** ** Enums *)

Definition TicketOperation_VALIDATE : Z := 0.
Definition TicketOperation_CONSUME : Z := 1.
Definition TicketOperation_DISPUTE : Z := 2.
Definition TicketOperation_QUERY : Z := 3.

(** [TicketOperation.String()]: the name, or the number when it has none. *)
Definition TicketOperation_String (x : Z) : string :=
  if (x =? 0)%Z then "VALIDATE"
  else if (x =? 1)%Z then "CONSUME"
  else if (x =? 2)%Z then "DISPUTE"
  else if (x =? 3)%Z then "QUERY"
  else FormatInt x.

Definition State_ISSUED : Z := 0.
Definition State_PENDING : Z := 1.
Definition State_VALIDATED : Z := 2.
Definition State_CONSUMED : Z := 3.
Definition State_DISPUTED : Z := 4.

Definition ValidatorMessage_PRE_PREPARE : Z := 0.
Definition ValidatorMessage_PREPARE : Z := 1.
Definition ValidatorMessage_COMMIT : Z := 2.
Definition ValidatorMessage_VIEW_CHANGE : Z := 3.
Definition ValidatorMessage_CHECKPOINT : Z := 4.
Definition ValidatorMessage_STATE_UPDATE : Z := 5.
Definition ValidatorMessage_HEARTBEAT : Z := 6.
Definition ValidatorMessage_CLIENT_REQUEST : Z := 7.
Definition ValidatorMessage_STATE_SYNC_REQUEST : Z := 8.
Definition ValidatorMessage_STATE_SYNC_RESPONSE : Z := 9.

(** ** Messages *)

Record ValidatorMessage := MkValidatorMessage {
  vm_Type : Z;
  vm_Payload : string;
  vm_Signature : string;
  vm_Timestamp : Z;
  vm_SenderId : string;
}.

Record Request := MkRequest {
  rq_RequestId : string;
  rq_TicketId : string;
  rq_Operation : Z;
  rq_TicketData : string;
  rq_Timestamp : Z;
  rq_ClientSignature : string;
}.

Record PrePrepare := MkPrePrepare {
  pp_View : Z;
  pp_Sequence : Z;
  pp_Digest : string;
  pp_Request : option Request;
}.

Record Prepare := MkPrepare {
  pr_View : Z;
  pr_Sequence : Z;
  pr_Digest : string;
  pr_NodeId : string;
}.

Record Commit := MkCommit {
  co_View : Z;
  co_Sequence : Z;
  co_Digest : string;
  co_NodeId : string;
}.

Record PreparedProof := MkPreparedProof {
  pf_Sequence : Z;
  pf_Digest : string;
  pf_View : Z;
}.

Record ViewChange := MkViewChange {
  vc_NewView : Z;
  vc_NodeId : string;
  vc_Prepared : list PreparedProof;
}.

Record Checkpoint := MkCheckpoint {
  ck_Sequence : Z;
  ck_StateDigest : string;
  ck_NodeId : string;
  ck_Timestamp : Z;
}.

Record VectorClock := MkVectorClock {
  clk_Clocks : gmap string Z;
}.

Record TicketState := MkTicketState {
  ts_TicketId : string;
  ts_State : Z;
  ts_LastUpdated : Z;
  ts_ValidatorId : string;
  ts_VectorClock : option VectorClock;
  ts_Metadata : string;
}.

Record StateUpdate := MkStateUpdate {
  su_Tickets : list TicketState;
  su_VectorClock : option VectorClock;
  su_NodeId : string;
}.

Record StateSyncRequest := MkStateSyncRequest {
  sr_RequesterId : string;
  sr_LastSequence : Z;
  sr_Timestamp : Z;
}.

Record StateSyncResponse := MkStateSyncResponse {
  ss_ResponderId : string;
  ss_CurrentSequence : Z;
  ss_CurrentView : Z;
  ss_ValidatedTickets : list TicketState;
  ss_ConsensusLog : list string;
  ss_Timestamp : Z;
}.

(** ** The protobuf runtime *)

(** [proto.Marshal] and [proto.Unmarshal] of a message type. *)
Class ProtoMessage (M : Type) := {
  Marshal : M → result string;
  Unmarshal : string → result M;
}.

(** What the program relies on: unmarshalling gives back what was marshalled, and only the
    message with all fields unset marshals to no bytes (proto3 does not write zero values). *)
Class ProtoLaws (M : Type) `{ProtoMessage M} (unset : M) := {
  Unmarshal_Marshal : ∀ m data, Marshal m = Ok data → Unmarshal data = Ok m;
  Marshal_empty : ∀ m, Marshal m = Ok "" → m = unset;
}.

(** ** Decidable equality and encodings *)

#[export] Instance ValidatorMessage_eq : EqDecision ValidatorMessage.
Proof. solve_decision. Defined.
#[export] Instance Request_eq : EqDecision Request.
Proof. solve_decision. Defined.
#[export] Instance PrePrepare_eq : EqDecision PrePrepare.
Proof. solve_decision. Defined.
#[export] Instance Prepare_eq : EqDecision Prepare.
Proof. solve_decision. Defined.
#[export] Instance Commit_eq : EqDecision Commit.
Proof. solve_decision. Defined.
#[export] Instance PreparedProof_eq : EqDecision PreparedProof.
Proof. solve_decision. Defined.
#[export] Instance ViewChange_eq : EqDecision ViewChange.
Proof. solve_decision. Defined.
#[export] Instance Checkpoint_eq : EqDecision Checkpoint.
Proof. solve_decision. Defined.
#[export] Instance VectorClock_eq : EqDecision VectorClock.
Proof. solve_decision. Defined.
#[export] Instance TicketState_eq : EqDecision TicketState.
Proof. solve_decision. Defined.
#[export] Instance StateUpdate_eq : EqDecision StateUpdate.
Proof. solve_decision. Defined.
#[export] Instance StateSyncRequest_eq : EqDecision StateSyncRequest.
Proof. solve_decision. Defined.
#[export] Instance StateSyncResponse_eq : EqDecision StateSyncResponse.
Proof. solve_decision. Defined.

#[export] Instance ValidatorMessage_countable : Countable ValidatorMessage.
Proof.
  apply (inj_countable' (λ m, (vm_Type m, vm_Payload m, vm_Signature m, vm_Timestamp m, vm_SenderId m))
    (λ '(a, b, c, d, e), MkValidatorMessage a b c d e)). by intros [].
Defined.
#[export] Instance Request_countable : Countable Request.
Proof.
  apply (inj_countable' (λ m, (rq_RequestId m, rq_TicketId m, rq_Operation m, rq_TicketData m,
      rq_Timestamp m, rq_ClientSignature m))
    (λ '(a, b, c, d, e, f), MkRequest a b c d e f)). by intros [].
Defined.
#[export] Instance PrePrepare_countable : Countable PrePrepare.
Proof.
  apply (inj_countable' (λ m, (pp_View m, pp_Sequence m, pp_Digest m, pp_Request m))
    (λ '(a, b, c, d), MkPrePrepare a b c d)). by intros [].
Defined.
#[export] Instance Prepare_countable : Countable Prepare.
Proof.
  apply (inj_countable' (λ m, (pr_View m, pr_Sequence m, pr_Digest m, pr_NodeId m))
    (λ '(a, b, c, d), MkPrepare a b c d)). by intros [].
Defined.
#[export] Instance Commit_countable : Countable Commit.
Proof.
  apply (inj_countable' (λ m, (co_View m, co_Sequence m, co_Digest m, co_NodeId m))
    (λ '(a, b, c, d), MkCommit a b c d)). by intros [].
Defined.
#[export] Instance PreparedProof_countable : Countable PreparedProof.
Proof.
  apply (inj_countable' (λ m, (pf_Sequence m, pf_Digest m, pf_View m))
    (λ '(a, b, c), MkPreparedProof a b c)). by intros [].
Defined.
#[export] Instance ViewChange_countable : Countable ViewChange.
Proof.
  apply (inj_countable' (λ m, (vc_NewView m, vc_NodeId m, vc_Prepared m))
    (λ '(a, b, c), MkViewChange a b c)). by intros [].
Defined.
#[export] Instance Checkpoint_countable : Countable Checkpoint.
Proof.
  apply (inj_countable' (λ m, (ck_Sequence m, ck_StateDigest m, ck_NodeId m, ck_Timestamp m))
    (λ '(a, b, c, d), MkCheckpoint a b c d)). by intros [].
Defined.
#[export] Instance VectorClock_countable : Countable VectorClock.
Proof. apply (inj_countable' clk_Clocks MkVectorClock). by intros []. Defined.
#[export] Instance TicketState_countable : Countable TicketState.
Proof.
  apply (inj_countable' (λ m, (ts_TicketId m, ts_State m, ts_LastUpdated m, ts_ValidatorId m,
      ts_VectorClock m, ts_Metadata m))
    (λ '(a, b, c, d, e, f), MkTicketState a b c d e f)). by intros [].
Defined.
#[export] Instance StateUpdate_countable : Countable StateUpdate.
Proof.
  apply (inj_countable' (λ m, (su_Tickets m, su_VectorClock m, su_NodeId m))
    (λ '(a, b, c), MkStateUpdate a b c)). by intros [].
Defined.
#[export] Instance StateSyncRequest_countable : Countable StateSyncRequest.
Proof.
  apply (inj_countable' (λ m, (sr_RequesterId m, sr_LastSequence m, sr_Timestamp m))
    (λ '(a, b, c), MkStateSyncRequest a b c)). by intros [].
Defined.
#[export] Instance StateSyncResponse_countable : Countable StateSyncResponse.
Proof.
  apply (inj_countable' (λ m, (ss_ResponderId m, ss_CurrentSequence m, ss_CurrentView m,
      ss_ValidatedTickets m, ss_ConsensusLog m, ss_Timestamp m))
    (λ '(a, b, c, d, e, f), MkStateSyncResponse a b c d e f)). by intros [].
Defined.

(** ** A concrete codec *)

Class Unset (M : Type) := unset : M.
#[export] Instance unset_ValidatorMessage : Unset ValidatorMessage := MkValidatorMessage 0 "" "" 0 "".
#[export] Instance unset_Request : Unset Request := MkRequest "" "" 0 "" 0 "".
#[export] Instance unset_PrePrepare : Unset PrePrepare := MkPrePrepare 0 0 "" None.
#[export] Instance unset_Prepare : Unset Prepare := MkPrepare 0 0 "" "".
#[export] Instance unset_Commit : Unset Commit := MkCommit 0 0 "" "".
#[export] Instance unset_ViewChange : Unset ViewChange := MkViewChange 0 "" [].
#[export] Instance unset_Checkpoint : Unset Checkpoint := MkCheckpoint 0 "" "" 0.
#[export] Instance unset_StateUpdate : Unset StateUpdate := MkStateUpdate [] None "".
#[export] Instance unset_StateSyncRequest : Unset StateSyncRequest := MkStateSyncRequest "" 0 0.
#[export] Instance unset_StateSyncResponse : Unset StateSyncResponse :=
  MkStateSyncResponse "" 0 0 [] [] 0.

(** A positive number as text, one character per bit. *)
Fixpoint pos_text (p : positive) : string :=
  match p with
  | xH => "1"
  | xO p => String "0" (pos_text p)
  | xI p => String "I" (pos_text p)
  end.

Fixpoint text_pos (s : string) : option positive :=
  match s with
  | EmptyString => None
  | String a s =>
      if (a =? "0")%char then xO <$> text_pos s
      else if (a =? "I")%char then xI <$> text_pos s
      else match s with EmptyString => Some xH | _ => None end
  end.

Lemma text_pos_text p : text_pos (pos_text p) = Some p.
Proof. induction p as [p IH|p IH|]; simpl; rewrite ?IH; done. Qed.

Definition bit_codec (M : Type) `{Countable M, Unset M} : ProtoMessage M := {|
  Marshal m := if decide (m = unset) then Ok "" else Ok (pos_text (encode m));
  Unmarshal data :=
    match data with
    | EmptyString => Ok unset
    | _ => match text_pos data ≫= decode with Some m => Ok m | None => Err "cannot parse" end
    end;
|}.

Lemma bit_codec_laws (M : Type) `{Countable M, Unset M} : @ProtoLaws M (bit_codec M) unset.
Proof.
  split; simpl.
  - intros m data. case_decide as E; intros Hd; simplify_eq; [done|].
    destruct (pos_text (encode m)) eqn:Ht; [by destruct (encode m)|].
    rewrite <- Ht, text_pos_text. simpl. by rewrite decode_encode.
  - intros m. case_decide as E; intros Hd; [done|]. simplify_eq. by destruct (encode m).
Qed.

End pb.

(** The instances, for the files that do not import the module. *)
#[export] Existing Instance pb.ValidatorMessage_eq.
#[export] Existing Instance pb.Request_eq.
#[export] Existing Instance pb.PrePrepare_eq.
#[export] Existing Instance pb.Prepare_eq.
#[export] Existing Instance pb.Commit_eq.
#[export] Existing Instance pb.PreparedProof_eq.
#[export] Existing Instance pb.ViewChange_eq.
#[export] Existing Instance pb.Checkpoint_eq.
#[export] Existing Instance pb.VectorClock_eq.
#[export] Existing Instance pb.TicketState_eq.
#[export] Existing Instance pb.StateUpdate_eq.
#[export] Existing Instance pb.StateSyncRequest_eq.
#[export] Existing Instance pb.StateSyncResponse_eq.
#[export] Existing Instance pb.ValidatorMessage_countable.
#[export] Existing Instance pb.Request_countable.
#[export] Existing Instance pb.PrePrepare_countable.
#[export] Existing Instance pb.Prepare_countable.
#[export] Existing Instance pb.Commit_countable.
#[export] Existing Instance pb.PreparedProof_countable.
#[export] Existing Instance pb.ViewChange_countable.
#[export] Existing Instance pb.Checkpoint_countable.
#[export] Existing Instance pb.VectorClock_countable.
#[export] Existing Instance pb.TicketState_countable.
#[export] Existing Instance pb.StateUpdate_countable.
#[export] Existing Instance pb.StateSyncRequest_countable.
#[export] Existing Instance pb.StateSyncResponse_countable.
#[export] Existing Instance pb.unset_ValidatorMessage.
#[export] Existing Instance pb.unset_Request.
#[export] Existing Instance pb.unset_PrePrepare.
#[export] Existing Instance pb.unset_Prepare.
#[export] Existing Instance pb.unset_Commit.
#[export] Existing Instance pb.unset_ViewChange.
#[export] Existing Instance pb.unset_Checkpoint.
#[export] Existing Instance pb.unset_StateUpdate.
#[export] Existing Instance pb.unset_StateSyncRequest.
#[export] Existing Instance pb.unset_StateSyncResponse.
