(* ===== verification/Messages.v ===== *)
(** The consensus messages and their wire format: [src/pkg/consensus/messages.go] and the message
    types of [src/pkg/consensus/pbft.go].

    Message pointers are never [nil] where the program serializes them, so they are plain records.
    The protobuf runtime is the interface [pb.ProtoMessage]; the theorems use its laws
    [pb.ProtoLaws] as hypotheses. *)

From S2P Require Import Prelude Proto.

Module Messages.

(** * Message types (pbft.go) *)

Record Request := MkRequest {
  RequestID : string;
  TicketID : string;
  Operation : string;
  Data : string;
  Timestamp : Z;
  NodeID : string;
}.

Record PrePrepareMsg := MkPrePrepareMsg {
  ppm_View : Z;
  ppm_Sequence : Z;
  ppm_Digest : string;
  ppm_Request : Request;
}.

Record PrepareMsg := MkPrepareMsg {
  pm_View : Z;
  pm_Sequence : Z;
  pm_Digest : string;
  pm_NodeID : string;
}.

Record CommitMsg := MkCommitMsg {
  cm_View : Z;
  cm_Sequence : Z;
  cm_Digest : string;
  cm_NodeID : string;
}.

Record Checkpoint := MkCheckpoint {
  cp_Sequence : Z;
  cp_StateDigest : string;
  cp_NodeID : string;
  cp_Timestamp : Z;
}.

Record ViewChangeMsg := MkViewChangeMsg {
  vcm_NewView : Z;
  vcm_NodeID : string;
}.

(** The interface [ConsensusMessage], as the sum of the types that implement it. *)
Inductive ConsensusMessage :=
| MPrePrepare (m : PrePrepareMsg)
| MPrepare (m : PrepareMsg)
| MCommit (m : CommitMsg).

Definition GetView (m : ConsensusMessage) : Z :=
  match m with
  | MPrePrepare m => ppm_View m
  | MPrepare m => pm_View m
  | MCommit m => cm_View m
  end.

Definition GetSequence (m : ConsensusMessage) : Z :=
  match m with
  | MPrePrepare m => ppm_Sequence m
  | MPrepare m => pm_Sequence m
  | MCommit m => cm_Sequence m
  end.

#[export] Instance Request_eq : EqDecision Request.
Proof. solve_decision. Defined.
#[export] Instance PrePrepareMsg_eq : EqDecision PrePrepareMsg.
Proof. solve_decision. Defined.
#[export] Instance PrepareMsg_eq : EqDecision PrepareMsg.
Proof. solve_decision. Defined.
#[export] Instance CommitMsg_eq : EqDecision CommitMsg.
Proof. solve_decision. Defined.
#[export] Instance Checkpoint_eq : EqDecision Checkpoint.
Proof. solve_decision. Defined.
#[export] Instance ViewChangeMsg_eq : EqDecision ViewChangeMsg.
Proof. solve_decision. Defined.

(** * Serialization (messages.go) *)

(** [fmt.Errorf("<context>: %w", err)] around a call that failed *)
Definition wrap_err {A} (ctx : string) (r : result A) : result A :=
  match r with
  | Ok a => Ok a
  | Err e => Err (ctx +:+ ": " +:+ e)
  end.

Definition operationToProto (op : string) : Z :=
  if String.eqb op "CONSUME" then pb.TicketOperation_CONSUME
  else if String.eqb op "DISPUTE" then pb.TicketOperation_DISPUTE
  else if String.eqb op "QUERY" then pb.TicketOperation_QUERY
  else pb.TicketOperation_VALIDATE.

Section codec.
Context `{pb.ProtoMessage pb.ValidatorMessage, pb.ProtoMessage pb.PrePrepare,
  pb.ProtoMessage pb.Prepare, pb.ProtoMessage pb.Commit, pb.ProtoMessage pb.Request,
  pb.ProtoMessage pb.ViewChange, pb.ProtoMessage pb.Checkpoint}.
Local Open Scope go_scope.

Definition SerializePBFTMessage (msgType : Z) (payload senderID : string) : result string :=
  wrap_err "failed to marshal ValidatorMessage"
    (pb.Marshal (pb.MkValidatorMessage msgType payload "" 0 senderID)).

Definition DeserializeValidatorMessage (data : string) : result pb.ValidatorMessage :=
  wrap_err "failed to unmarshal ValidatorMessage" (pb.Unmarshal data).

Definition SerializePrePrepare (msg : PrePrepareMsg) : result string :=
  let reqProto := pb.MkRequest (RequestID (ppm_Request msg)) (TicketID (ppm_Request msg))
    (operationToProto (Operation (ppm_Request msg))) (Data (ppm_Request msg))
    (Timestamp (ppm_Request msg)) "" in
  let prePrepare := pb.MkPrePrepare (ppm_View msg) (ppm_Sequence msg) (ppm_Digest msg)
    (Some reqProto) in
  wrap_err "failed to marshal PrePrepare" (pb.Marshal prePrepare).

(** The fields of a decoded request. *)
Definition request_of_proto (p : pb.Request) : Request :=
  MkRequest (pb.rq_RequestId p) (pb.rq_TicketId p) (pb.TicketOperation_String (pb.rq_Operation p))
    (pb.rq_TicketData p) (pb.rq_Timestamp p) (pb.rq_ClientSignature p).

Definition DeserializePrePrepare (data : string) : result PrePrepareMsg :=
  if String.eqb data "" then Err "cannot deserialize PrePrepare: empty payload" else
  try prePrepare := wrap_err "failed to unmarshal PrePrepare" (pb.Unmarshal (M:=pb.PrePrepare) data) in
  match pb.pp_Request prePrepare with
  | None => Err "invalid PrePrepare message: Request field is nil"
  | Some r => Ok (MkPrePrepareMsg (pb.pp_View prePrepare) (pb.pp_Sequence prePrepare)
      (pb.pp_Digest prePrepare) (request_of_proto r))
  end.

Definition SerializePrepare (msg : PrepareMsg) : result string :=
  wrap_err "failed to marshal Prepare"
    (pb.Marshal (pb.MkPrepare (pm_View msg) (pm_Sequence msg) (pm_Digest msg) (pm_NodeID msg))).

Definition DeserializePrepare (data : string) : result PrepareMsg :=
  if String.eqb data "" then Err "cannot deserialize Prepare: empty payload" else
  try prepare := wrap_err "failed to unmarshal Prepare" (pb.Unmarshal (M:=pb.Prepare) data) in
  Ok (MkPrepareMsg (pb.pr_View prepare) (pb.pr_Sequence prepare) (pb.pr_Digest prepare)
    (pb.pr_NodeId prepare)).

Definition SerializeCommit (msg : CommitMsg) : result string :=
  wrap_err "failed to marshal Commit"
    (pb.Marshal (pb.MkCommit (cm_View msg) (cm_Sequence msg) (cm_Digest msg) (cm_NodeID msg))).

Definition DeserializeCommit (data : string) : result CommitMsg :=
  try commit := wrap_err "failed to unmarshal Commit" (pb.Unmarshal (M:=pb.Commit) data) in
  Ok (MkCommitMsg (pb.co_View commit) (pb.co_Sequence commit) (pb.co_Digest commit)
    (pb.co_NodeId commit)).

Definition SerializeRequest (req : Request) : result string :=
  wrap_err "failed to marshal Request"
    (pb.Marshal (pb.MkRequest (RequestID req) (TicketID req) (operationToProto (Operation req))
      (Data req) (Timestamp req) (NodeID req))).

Definition DeserializeRequest (data : string) : result Request :=
  try reqProto := wrap_err "failed to unmarshal Request" (pb.Unmarshal (M:=pb.Request) data) in
  Ok (request_of_proto reqProto).

Definition SerializeViewChange (msg : ViewChangeMsg) : result string :=
  wrap_err "failed to marshal ViewChange"
    (pb.Marshal (pb.MkViewChange (vcm_NewView msg) (vcm_NodeID msg) [])).

Definition DeserializeViewChange (data : string) : result ViewChangeMsg :=
  if String.eqb data "" then Err "cannot deserialize ViewChange: empty payload" else
  try viewChange := wrap_err "failed to unmarshal ViewChange" (pb.Unmarshal (M:=pb.ViewChange) data) in
  Ok (MkViewChangeMsg (pb.vc_NewView viewChange) (pb.vc_NodeId viewChange)).

Definition SerializeCheckpoint (ckpt : Checkpoint) : result string :=
  wrap_err "failed to marshal Checkpoint"
    (pb.Marshal (pb.MkCheckpoint (cp_Sequence ckpt) (cp_StateDigest ckpt) (cp_NodeID ckpt)
      (cp_Timestamp ckpt))).

Definition DeserializeCheckpoint (data : string) : result Checkpoint :=
  if String.eqb data "" then Err "cannot deserialize Checkpoint: empty payload" else
  try checkpoint := wrap_err "failed to unmarshal Checkpoint" (pb.Unmarshal (M:=pb.Checkpoint) data) in
  Ok (MkCheckpoint (pb.ck_Sequence checkpoint) (pb.ck_StateDigest checkpoint)
    (pb.ck_NodeId checkpoint) (pb.ck_Timestamp checkpoint)).

End codec.

(** * Round trips *)

(** The operation a receiver sees: every name other than the three listed ones is VALIDATE. *)
Definition normal_op (op : string) : string :=
  if decide (op ∈ ["CONSUME"; "DISPUTE"; "QUERY"]) then op else "VALIDATE".

Definition known_op (op : string) : Prop := op ∈ ["VALIDATE"; "CONSUME"; "DISPUTE"; "QUERY"].

(** A request as the receiver of a forwarded client request sees it, and as the receiver of a
    PRE-PREPARE sees it: without its originating node. *)
Definition received (r : Request) : Request :=
  MkRequest (RequestID r) (TicketID r) (normal_op (Operation r)) (Data r) (Timestamp r) (NodeID r).
Definition received_in_preprepare (r : Request) : Request :=
  MkRequest (RequestID r) (TicketID r) (normal_op (Operation r)) (Data r) (Timestamp r) "".

Lemma operation_roundtrip op : pb.TicketOperation_String (operationToProto op) = normal_op op.
Proof.
  unfold operationToProto, normal_op.
  destruct (String.eqb_spec op "CONSUME") as [->|]; [done|].
  destruct (String.eqb_spec op "DISPUTE") as [->|]; [done|].
  destruct (String.eqb_spec op "QUERY") as [->|]; [done|].
  case_decide as Hin; [|done].
  exfalso. revert Hin. rewrite !elem_of_cons, elem_of_nil. naive_solver.
Qed.

Lemma normal_op_known op : known_op op → normal_op op = op.
Proof.
  intros Hin. unfold normal_op. case_decide as Hn; [done|].
  by apply elem_of_cons in Hin as [->|].
Qed.

Lemma received_known r : known_op (Operation r) → received r = r.
Proof. destruct r. unfold received; simpl. intros. by rewrite normal_op_known. Qed.

Section laws.
Context `{!pb.ProtoMessage pb.ValidatorMessage, !pb.ProtoMessage pb.PrePrepare,
  !pb.ProtoMessage pb.Prepare, !pb.ProtoMessage pb.Commit, !pb.ProtoMessage pb.Request,
  !pb.ProtoMessage pb.ViewChange, !pb.ProtoMessage pb.Checkpoint}.

Lemma wrap_err_Ok {A} ctx (r : result A) a : wrap_err ctx r = Ok a ↔ r = Ok a.
Proof. by destruct r. Qed.

Lemma eqb_empty_false data : data ≠ "" → String.eqb data "" = false.
Proof. by destruct data. Qed.

(** A marshalled message that is not the unset one has bytes, and they unmarshal to it. *)
Lemma marshal_nonempty {M} `{pb.ProtoLaws M u} ctx (m : M) data :
  m ≠ u → wrap_err ctx (pb.Marshal m) = Ok data →
  String.eqb data "" = false ∧ pb.Unmarshal data = Ok m.
Proof.
  intros Hm Hd. apply wrap_err_Ok in Hd. split.
  - apply eqb_empty_false. intros ->. by apply Hm, pb.Marshal_empty.
  - by apply pb.Unmarshal_Marshal.
Qed.
End laws.

(** What every serialized message of the protocol decodes to. *)
Definition decodes {A} (ser : result string) (des : string → result A) (a : A) : Prop :=
  ∀ data, ser = Ok data → des data = Ok a.

Section roundtrips.
Context `{HLv : pb.ProtoLaws pb.ValidatorMessage pb.unset_ValidatorMessage,
  HLpp : pb.ProtoLaws pb.PrePrepare pb.unset_PrePrepare,
  HLp : pb.ProtoLaws pb.Prepare pb.unset_Prepare,
  HLc : pb.ProtoLaws pb.Commit pb.unset_Commit,
  HLr : pb.ProtoLaws pb.Request pb.unset_Request,
  HLvc : pb.ProtoLaws pb.ViewChange pb.unset_ViewChange,
  HLck : pb.ProtoLaws pb.Checkpoint pb.unset_Checkpoint}.

Lemma PrePrepare_decodes m :
  decodes (SerializePrePrepare m) DeserializePrePrepare
    (MkPrePrepareMsg (ppm_View m) (ppm_Sequence m) (ppm_Digest m)
      (received_in_preprepare (ppm_Request m))).
Proof.
  intros data Hd. eapply marshal_nonempty in Hd as [He Hu]; [|done].
  unfold DeserializePrePrepare. rewrite He, Hu; simpl.
  unfold request_of_proto, received_in_preprepare; simpl. by rewrite operation_roundtrip.
Qed.

Lemma Request_decodes r : decodes (SerializeRequest r) DeserializeRequest (received r).
Proof.
  intros data Hd. apply wrap_err_Ok, pb.Unmarshal_Marshal in Hd.
  unfold DeserializeRequest. rewrite Hd; simpl.
  unfold request_of_proto, received; simpl. by rewrite operation_roundtrip.
Qed.

Lemma Commit_decodes m : decodes (SerializeCommit m) DeserializeCommit m.
Proof.
  intros data Hd. apply wrap_err_Ok, pb.Unmarshal_Marshal in Hd.
  unfold DeserializeCommit. rewrite Hd. by destruct m.
Qed.

Lemma Prepare_decodes m :
  m ≠ MkPrepareMsg 0 0 "" "" → decodes (SerializePrepare m) DeserializePrepare m.
Proof.
  intros Hm data Hd. eapply marshal_nonempty in Hd as [He Hu].
  - unfold DeserializePrepare. rewrite He, Hu. by destruct m.
  - destruct m; intros [=]. by subst.
Qed.

Lemma ViewChange_decodes m :
  m ≠ MkViewChangeMsg 0 "" → decodes (SerializeViewChange m) DeserializeViewChange m.
Proof.
  intros Hm data Hd. eapply marshal_nonempty in Hd as [He Hu].
  - unfold DeserializeViewChange. rewrite He, Hu. by destruct m.
  - destruct m; intros [=]. by subst.
Qed.

Lemma Checkpoint_decodes m :
  m ≠ MkCheckpoint 0 "" "" 0 → decodes (SerializeCheckpoint m) DeserializeCheckpoint m.
Proof.
  intros Hm data Hd. eapply marshal_nonempty in Hd as [He Hu].
  - unfold DeserializeCheckpoint. rewrite He, Hu. by destruct m.
  - destruct m; intros [=]. by subst.
Qed.

Lemma envelope_decodes ty payload sender :
  decodes (SerializePBFTMessage ty payload sender) DeserializeValidatorMessage
    (pb.MkValidatorMessage ty payload "" 0 sender).
Proof.
  intros data Hd. apply wrap_err_Ok, pb.Unmarshal_Marshal in Hd.
  unfold DeserializeValidatorMessage. by rewrite Hd.
Qed.

(** The vote messages survive the wire: what a node serializes as PREPARE, COMMIT, VIEW_CHANGE
    or CHECKPOINT, a receiver decodes to the same message. The only exceptions are the all-zero
    PREPARE, VIEW_CHANGE and CHECKPOINT, whose payload is empty and refused; a node with a name
    sends none of them. *)
Theorem vote_messages_roundtrip (p : PrepareMsg) (c : CommitMsg) (v : ViewChangeMsg)
    (k : Checkpoint) :
  pm_NodeID p ≠ "" → vcm_NodeID v ≠ "" → cp_NodeID k ≠ "" →
  decodes (SerializePrepare p) DeserializePrepare p ∧
  decodes (SerializeCommit c) DeserializeCommit c ∧
  decodes (SerializeViewChange v) DeserializeViewChange v ∧
  decodes (SerializeCheckpoint k) DeserializeCheckpoint k.
Proof.
  intros Hp Hv Hk. repeat split.
  - apply Prepare_decodes. intros ->. done.
  - apply Commit_decodes.
  - apply ViewChange_decodes. intros ->. done.
  - apply Checkpoint_decodes. intros ->. done.
Qed.

(** A request forwarded to the primary (CLIENT_REQUEST) arrives with its originating node; the
    same request inside a PRE-PREPARE arrives without it, whatever node it came from. Both arrive
    with every other field as sent, when the operation is one of the four the wire format knows;
    any other operation arrives as VALIDATE. *)
Theorem request_origin_on_the_wire (r : Request) (view seq : Z) (digest : string) :
  decodes (SerializeRequest r) DeserializeRequest (received r) ∧
  (known_op (Operation r) → received r = r) ∧
  decodes (SerializePrePrepare (MkPrePrepareMsg view seq digest r)) DeserializePrePrepare
    (MkPrePrepareMsg view seq digest (received_in_preprepare r)) ∧
  NodeID (received_in_preprepare r) = "" ∧
  (¬ known_op (Operation r) → Operation (received r) = "VALIDATE").
Proof.
  split; [apply Request_decodes|]. split; [apply received_known|].
  split; [apply PrePrepare_decodes|]. split; [done|].
  intros Hn. simpl. unfold normal_op. case_decide as Hin; [|done].
  destruct Hn. unfold known_op. by right.
Qed.

End roundtrips.

(** * Witnesses, with the concrete codec *)

#[local] Existing Instance pb.bit_codec.
#[local] Existing Instance pb.bit_codec_laws.

Definition sample_request : Request :=
  MkRequest "validate-T1-7" "T1" "VALIDATE" "payload" 7 "node2".

Lemma vote_messages_roundtrip_witness :
  ∃ data, SerializePrepare (MkPrepareMsg 1 2 "d" "node0") = Ok data ∧
    DeserializePrepare data = Ok (MkPrepareMsg 1 2 "d" "node0").
Proof.
  eexists; split; [vm_compute; reflexivity|].
  refine (proj1 (vote_messages_roundtrip (MkPrepareMsg 1 2 "d" "node0") (MkCommitMsg 1 2 "d" "node0")
    (MkViewChangeMsg 1 "node0") (MkCheckpoint 10 "d" "node0" 5) _ _ _) _ _); try discriminate.
  vm_compute; reflexivity.
Defined.

Lemma request_origin_on_the_wire_witness :
  ∃ data, SerializePrePrepare (MkPrePrepareMsg 0 1 "d" sample_request) = Ok data ∧
    DeserializePrePrepare data =
      Ok (MkPrePrepareMsg 0 1 "d" (MkRequest "validate-T1-7" "T1" "VALIDATE" "payload" 7 "")).
Proof.
  eexists; split; [vm_compute; reflexivity|].
  refine (proj1 (proj2 (proj2 (request_origin_on_the_wire sample_request 0 1 "d"))) _ _).
  vm_compute; reflexivity.
Defined.

End Messages.
