(* ===== verification/Pbft.v ===== *)
(** The PBFT consensus node: [src/pkg/consensus/pbft.go].

    [PBFTNode] is the struct; every operation takes the node and the application state [W] that the
    registered handlers change, and returns both with the effects it starts (goroutines that
    broadcast or call a callback, and resets of the view timer) and its error. Each operation holds
    the node's lock for its whole body unless it is written as two steps: [ProposeRequest] releases
    the lock between [propose_locked] and [propose_send].

    What the program reads from outside is an argument: the time ([now], in nanoseconds), the
    number of connected peers ([peers]), and the choice of [select] when a message could be queued and the context is
    also done ([pick_done]). A division by zero panics ([Panic]). *)

From S2P Require Import Prelude Hashing Proto Messages.

Module Pbft.
Import Messages.
Local Open Scope go_scope.

Definition StateIdle : string := "IDLE".
Definition StatePrePrepare : string := "PRE_PREPARE".
Definition StatePrepare : string := "PREPARE".
Definition StateCommit : string := "COMMIT".
Definition StateCommitted : string := "COMMITTED".

Definition checkpointInterval : Z := 10.

(** Capacity of [messageQueue]. *)
Definition queue_capacity : nat := 1000.

(** A registered callback, by identity. *)
Abbreviation Callback := nat.

(** What an operation starts besides changing the node. *)
Inductive effect :=
| EBroadcast (data : string)
| ECallback (callback : Callback) (success : bool) (err : error)
| ETimerReset (d : Z).

(** Votes by sequence (or view) and by node: [map[int64]map[string]*T]. *)
Abbreviation votelog T := (gmap Z (gmap string T)).

Definition votes_at {T} (log : votelog T) (s : Z) : gmap string T := default ∅ (log !! s).

(** [if log[s] == nil { log[s] = make(..) }; log[s][id] = m] *)
Definition add_vote {T} (s : Z) (id : string) (m : T) (log : votelog T) : votelog T :=
  <[s := <[id := m]> (votes_at log s)]> log.

(** [len(log[s])] *)
Definition count_votes {T} (log : votelog T) (s : Z) : Z := Z.of_nat (size (votes_at log s)).

Record Config := MkConfig {
  cfg_NodeID : string;
  cfg_TotalNodes : Z;
  cfg_IsPrimary : bool;
  cfg_ViewTimeout : Z;
}.

Section node.
Context {W : Type}.

Definition ConsensusHandler : Type := Request → W → W * error.
Definition StateReplicator : Type := Request → W → W * error.

Record PBFTNode := MkPBFTNode {
  nodeID : string;
  view : Z;
  sequence : Z;
  state : string;
  f : Z;
  totalNodes : Z;
  isPrimary : bool;
  prepareLog : votelog PrepareMsg;
  commitLog : votelog CommitMsg;
  requestLog : gmap Z Request;
  messageQueue : list ConsensusMessage;
  viewTimeout : Z;
  ctx_done : bool;
  handlers : list ConsensusHandler;
  checkpoints : gmap Z Checkpoint;
  checkpointVotes : votelog Checkpoint;
  lastStableCheckpoint : Z;
  viewChangeLog : votelog ViewChangeMsg;
  hasPendingClientRequest : bool;
  requestCallbacks : gmap string (option Callback);
  stateReplicator : option StateReplicator;
}.

(** Assignments to one field. *)
Definition set_view v n := MkPBFTNode (nodeID n) v (sequence n) (state n) (f n) (totalNodes n) (isPrimary n) (prepareLog n) (commitLog n) (requestLog n) (messageQueue n) (viewTimeout n) (ctx_done n) (handlers n) (checkpoints n) (checkpointVotes n) (lastStableCheckpoint n) (viewChangeLog n) (hasPendingClientRequest n) (requestCallbacks n) (stateReplicator n).
Definition set_sequence v n := MkPBFTNode (nodeID n) (view n) v (state n) (f n) (totalNodes n) (isPrimary n) (prepareLog n) (commitLog n) (requestLog n) (messageQueue n) (viewTimeout n) (ctx_done n) (handlers n) (checkpoints n) (checkpointVotes n) (lastStableCheckpoint n) (viewChangeLog n) (hasPendingClientRequest n) (requestCallbacks n) (stateReplicator n).
Definition set_state v n := MkPBFTNode (nodeID n) (view n) (sequence n) v (f n) (totalNodes n) (isPrimary n) (prepareLog n) (commitLog n) (requestLog n) (messageQueue n) (viewTimeout n) (ctx_done n) (handlers n) (checkpoints n) (checkpointVotes n) (lastStableCheckpoint n) (viewChangeLog n) (hasPendingClientRequest n) (requestCallbacks n) (stateReplicator n).
Definition set_isPrimary v n := MkPBFTNode (nodeID n) (view n) (sequence n) (state n) (f n) (totalNodes n) v (prepareLog n) (commitLog n) (requestLog n) (messageQueue n) (viewTimeout n) (ctx_done n) (handlers n) (checkpoints n) (checkpointVotes n) (lastStableCheckpoint n) (viewChangeLog n) (hasPendingClientRequest n) (requestCallbacks n) (stateReplicator n).
Definition set_prepareLog v n := MkPBFTNode (nodeID n) (view n) (sequence n) (state n) (f n) (totalNodes n) (isPrimary n) v (commitLog n) (requestLog n) (messageQueue n) (viewTimeout n) (ctx_done n) (handlers n) (checkpoints n) (checkpointVotes n) (lastStableCheckpoint n) (viewChangeLog n) (hasPendingClientRequest n) (requestCallbacks n) (stateReplicator n).
Definition set_commitLog v n := MkPBFTNode (nodeID n) (view n) (sequence n) (state n) (f n) (totalNodes n) (isPrimary n) (prepareLog n) v (requestLog n) (messageQueue n) (viewTimeout n) (ctx_done n) (handlers n) (checkpoints n) (checkpointVotes n) (lastStableCheckpoint n) (viewChangeLog n) (hasPendingClientRequest n) (requestCallbacks n) (stateReplicator n).
Definition set_requestLog v n := MkPBFTNode (nodeID n) (view n) (sequence n) (state n) (f n) (totalNodes n) (isPrimary n) (prepareLog n) (commitLog n) v (messageQueue n) (viewTimeout n) (ctx_done n) (handlers n) (checkpoints n) (checkpointVotes n) (lastStableCheckpoint n) (viewChangeLog n) (hasPendingClientRequest n) (requestCallbacks n) (stateReplicator n).
Definition set_messageQueue v n := MkPBFTNode (nodeID n) (view n) (sequence n) (state n) (f n) (totalNodes n) (isPrimary n) (prepareLog n) (commitLog n) (requestLog n) v (viewTimeout n) (ctx_done n) (handlers n) (checkpoints n) (checkpointVotes n) (lastStableCheckpoint n) (viewChangeLog n) (hasPendingClientRequest n) (requestCallbacks n) (stateReplicator n).
Definition set_ctx_done v n := MkPBFTNode (nodeID n) (view n) (sequence n) (state n) (f n) (totalNodes n) (isPrimary n) (prepareLog n) (commitLog n) (requestLog n) (messageQueue n) (viewTimeout n) v (handlers n) (checkpoints n) (checkpointVotes n) (lastStableCheckpoint n) (viewChangeLog n) (hasPendingClientRequest n) (requestCallbacks n) (stateReplicator n).
Definition set_handlers v n := MkPBFTNode (nodeID n) (view n) (sequence n) (state n) (f n) (totalNodes n) (isPrimary n) (prepareLog n) (commitLog n) (requestLog n) (messageQueue n) (viewTimeout n) (ctx_done n) v (checkpoints n) (checkpointVotes n) (lastStableCheckpoint n) (viewChangeLog n) (hasPendingClientRequest n) (requestCallbacks n) (stateReplicator n).
Definition set_checkpoints v n := MkPBFTNode (nodeID n) (view n) (sequence n) (state n) (f n) (totalNodes n) (isPrimary n) (prepareLog n) (commitLog n) (requestLog n) (messageQueue n) (viewTimeout n) (ctx_done n) (handlers n) v (checkpointVotes n) (lastStableCheckpoint n) (viewChangeLog n) (hasPendingClientRequest n) (requestCallbacks n) (stateReplicator n).
Definition set_checkpointVotes v n := MkPBFTNode (nodeID n) (view n) (sequence n) (state n) (f n) (totalNodes n) (isPrimary n) (prepareLog n) (commitLog n) (requestLog n) (messageQueue n) (viewTimeout n) (ctx_done n) (handlers n) (checkpoints n) v (lastStableCheckpoint n) (viewChangeLog n) (hasPendingClientRequest n) (requestCallbacks n) (stateReplicator n).
Definition set_lastStableCheckpoint v n := MkPBFTNode (nodeID n) (view n) (sequence n) (state n) (f n) (totalNodes n) (isPrimary n) (prepareLog n) (commitLog n) (requestLog n) (messageQueue n) (viewTimeout n) (ctx_done n) (handlers n) (checkpoints n) (checkpointVotes n) v (viewChangeLog n) (hasPendingClientRequest n) (requestCallbacks n) (stateReplicator n).
Definition set_viewChangeLog v n := MkPBFTNode (nodeID n) (view n) (sequence n) (state n) (f n) (totalNodes n) (isPrimary n) (prepareLog n) (commitLog n) (requestLog n) (messageQueue n) (viewTimeout n) (ctx_done n) (handlers n) (checkpoints n) (checkpointVotes n) (lastStableCheckpoint n) v (hasPendingClientRequest n) (requestCallbacks n) (stateReplicator n).
Definition set_pending v n := MkPBFTNode (nodeID n) (view n) (sequence n) (state n) (f n) (totalNodes n) (isPrimary n) (prepareLog n) (commitLog n) (requestLog n) (messageQueue n) (viewTimeout n) (ctx_done n) (handlers n) (checkpoints n) (checkpointVotes n) (lastStableCheckpoint n) (viewChangeLog n) v (requestCallbacks n) (stateReplicator n).
Definition set_requestCallbacks v n := MkPBFTNode (nodeID n) (view n) (sequence n) (state n) (f n) (totalNodes n) (isPrimary n) (prepareLog n) (commitLog n) (requestLog n) (messageQueue n) (viewTimeout n) (ctx_done n) (handlers n) (checkpoints n) (checkpointVotes n) (lastStableCheckpoint n) (viewChangeLog n) (hasPendingClientRequest n) v (stateReplicator n).
Definition set_stateReplicator v n := MkPBFTNode (nodeID n) (view n) (sequence n) (state n) (f n) (totalNodes n) (isPrimary n) (prepareLog n) (commitLog n) (requestLog n) (messageQueue n) (viewTimeout n) (ctx_done n) (handlers n) (checkpoints n) (checkpointVotes n) (lastStableCheckpoint n) (viewChangeLog n) (hasPendingClientRequest n) (requestCallbacks n) v.

(** [15 * time.Second] *)
Definition default_viewTimeout : Z := 15000000000.

Definition NewPBFTNode (cfg : Config) : PBFTNode :=
  let viewTimeout :=
    if (cfg_ViewTimeout cfg =? 0)%Z then default_viewTimeout else cfg_ViewTimeout cfg in
  {| nodeID := cfg_NodeID cfg; view := 0; sequence := 0; state := StateIdle;
     f := Z.quot (wrap_i64 (cfg_TotalNodes cfg - 1)) 3; totalNodes := cfg_TotalNodes cfg;
     isPrimary := cfg_IsPrimary cfg; prepareLog := ∅; commitLog := ∅; requestLog := ∅;
     messageQueue := []; viewTimeout := viewTimeout; ctx_done := false; handlers := [];
     checkpoints := ∅; checkpointVotes := ∅; lastStableCheckpoint := 0; viewChangeLog := ∅;
     hasPendingClientRequest := false; requestCallbacks := ∅; stateReplicator := None |}.

(** ** Digests and quorums *)

Definition digest_text (req : Request) : string :=
  RequestID req +:+ ":" +:+ TicketID req +:+ ":" +:+ Operation req +:+ ":"
    +:+ FormatInt (Timestamp req).

Definition computeDigest (req : Request) : string := Hashing.sha256_hex (digest_text req).

Definition required_votes (n : PBFTNode) : Z :=
  let required := (2 * f n + 1)%Z in
  if (required <? 1)%Z then 1%Z else required.

Definition checkQuorum (n : PBFTNode) (voteCount : Z) : bool := (required_votes n <=? voteCount)%Z.

Definition checkPrepareQuorum (n : PBFTNode) (sequence : Z) : bool :=
  checkQuorum n (count_votes (prepareLog n) sequence).

Definition checkCommitQuorum (n : PBFTNode) (sequence : Z) : bool :=
  checkQuorum n (count_votes (commitLog n) sequence).

(** ** Registration *)

Definition RegisterHandler (handler : ConsensusHandler) (n : PBFTNode) : PBFTNode :=
  set_handlers (handlers n ++ [handler]) n.

Definition RegisterCallback (requestID : string) (callback : option Callback) (n : PBFTNode) :
    PBFTNode :=
  set_requestCallbacks (<[requestID := callback]> (requestCallbacks n)) n.

Definition RegisterStateReplicator (replicator : option StateReplicator) (n : PBFTNode) : PBFTNode :=
  set_stateReplicator replicator n.

(** Calls and removes the callback of a request. *)
Definition invokeCallback (requestID : string) (success : bool) (err : error) (n : PBFTNode) :
    PBFTNode * list effect :=
  match requestCallbacks n !! requestID with
  | None => (n, [])
  | Some callback =>
      (set_requestCallbacks (delete requestID (requestCallbacks n)) n,
       match callback with Some cb => [ECallback cb success err] | None => [] end)
  end.

(** Fails every pending callback; the goroutines it starts have no order. *)
Definition failPendingCallbacks (reason : string) (n : PBFTNode) : PBFTNode * list effect :=
  let callbacks := copy_map (requestCallbacks n) in
  (set_requestCallbacks ∅ n,
   flat_map (λ e, match e.2 with
     | Some cb => [ECallback cb false
         (Some ("consensus failed: " +:+ reason +:+ " (request: " +:+ e.1 +:+ ")"))]
     | None => []
     end) (map_to_list callbacks)).

Context `{pb.ProtoMessage pb.ValidatorMessage, pb.ProtoMessage pb.PrePrepare,
  pb.ProtoMessage pb.Prepare, pb.ProtoMessage pb.Commit, pb.ProtoMessage pb.Request,
  pb.ProtoMessage pb.ViewChange, pb.ProtoMessage pb.Checkpoint}.

(** ** Checkpoints *)

Definition createCheckpoint (now sequence : Z) (n : PBFTNode) : PBFTNode * list effect :=
  let stateDigest := Hashing.sha256_hex (FormatInt sequence) in
  let ckpt := MkCheckpoint sequence stateDigest (nodeID n) now in
  let n := set_checkpoints (<[sequence := ckpt]> (checkpoints n)) n in
  let n := set_checkpointVotes (add_vote sequence (nodeID n) ckpt (checkpointVotes n)) n in
  match SerializeCheckpoint ckpt with
  | Err _ => (n, [])
  | Ok payload =>
      match SerializePBFTMessage 4 payload (nodeID n) with
      | Err _ => (n, [])
      | Ok data => (n, [EBroadcast data])
      end
  end.

Definition garbageCollect (upToSequence : Z) (n : PBFTNode) : PBFTNode :=
  let n := set_requestLog (drop_upto upToSequence (requestLog n)) n in
  let n := set_prepareLog (drop_upto upToSequence (prepareLog n)) n in
  let n := set_commitLog (drop_upto upToSequence (commitLog n)) n in
  set_checkpoints (drop_upto (upToSequence - 1) (checkpoints n)) n.

(** Votes per state digest: [digests[v.StateDigest]++] over the votes. *)
Definition count_digests (votes : gmap string Checkpoint) : gmap string Z :=
  foldl (λ digests e, <[cp_StateDigest e.2 := (map_get 0 digests (cp_StateDigest e.2) + 1)%Z]> digests)
    ∅ (map_to_list votes).

(** The loop over [digests] stops at the first digest with a quorum; what it then does does not
    depend on which one it is. *)
Definition HandleCheckpoint (ckpt : Checkpoint) (n : PBFTNode) : PBFTNode :=
  if (cp_Sequence ckpt <=? lastStableCheckpoint n)%Z then n else
  let n := set_checkpointVotes
    (add_vote (cp_Sequence ckpt) (cp_NodeID ckpt) ckpt (checkpointVotes n)) n in
  let votes := votes_at (checkpointVotes n) (cp_Sequence ckpt) in
  if (Z.of_nat (size votes) <? required_votes n)%Z then n else
  if existsb (λ e, (required_votes n <=? e.2)%Z) (map_to_list (count_digests votes)) then
    let n := set_lastStableCheckpoint (cp_Sequence ckpt) n in
    let n := garbageCollect (cp_Sequence ckpt) n in
    set_checkpointVotes (drop_upto (cp_Sequence ckpt) (checkpointVotes n)) n
  else n.

(** ** The three phases *)

(** The handlers in order, up to the first error. *)
Fixpoint call_handlers (hs : list ConsensusHandler) (req : Request) (w : W) : W * error :=
  match hs with
  | [] => (w, None)
  | handler :: hs =>
      match handler req w with
      | (w, Some err) => (w, Some err)
      | (w, None) => call_handlers hs req w
      end
  end.

Definition outputs : Type := (PBFTNode * W * list effect * error)%type.

Definition executeRequest (now sequence : Z) (n : PBFTNode) (w : W) : outputs :=
  match requestLog n !! sequence with
  | None => (n, w, [], Some ("request not found for sequence " +:+ FormatInt sequence))
  | Some req =>
      let n := set_state StateCommitted n in
      match call_handlers (handlers n) req w with
      | (w, Some handlerErr) =>
          let '(n, es) := invokeCallback (RequestID req) false (Some handlerErr) n in
          (n, w, es, Some handlerErr)
      | (w, None) =>
          let w := match stateReplicator n with
                   | Some replicate => fst (replicate req w)
                   | None => w
                   end in
          let '(n, es) := invokeCallback (RequestID req) true None n in
          let n := set_state StateIdle n in
          let n := set_pending false n in
          let n := set_requestLog (delete sequence (requestLog n)) n in
          let '(n, es') :=
            if (Z.rem sequence checkpointInterval =? 0)%Z then createCheckpoint now sequence n
            else (n, []) in
          (n, w, es ++ [ETimerReset (viewTimeout n)] ++ es', None)
      end
  end.

(** [SerializeX] followed by [SerializePBFTMessage]. *)
Definition envelope (msgType : Z) (payload : result string) (senderID : string) : result string :=
  try payload := payload in SerializePBFTMessage msgType payload senderID.

Definition moveToCommitPhase (now sequence : Z) (digest : string) (n : PBFTNode) (w : W) : outputs :=
  let n := set_state StateCommit n in
  let commit := MkCommitMsg (view n) sequence digest (nodeID n) in
  let n := set_commitLog (add_vote sequence (nodeID n) commit (commitLog n)) n in
  match envelope 2 (SerializeCommit commit) (nodeID n) with
  | Err err => (n, w, [], Some err)
  | Ok data =>
      if checkCommitQuorum n sequence then
        let '(n, w, es, err) := executeRequest now sequence n w in
        (n, w, EBroadcast data :: es, err)
      else (n, w, [EBroadcast data], None)
  end.

Definition handlePrePrepare (now : Z) (msg : PrePrepareMsg) (n : PBFTNode) (w : W) : outputs :=
  if negb (ppm_View msg =? view n)%Z then
    (n, w, [], Some ("view mismatch: expected " +:+ FormatInt (view n) +:+ ", got "
                     +:+ FormatInt (ppm_View msg)))
  else if negb (computeDigest (ppm_Request msg) =? ppm_Digest msg)%string then
    (n, w, [], Some "digest mismatch")
  else
    let n := set_requestLog (<[ppm_Sequence msg := ppm_Request msg]> (requestLog n)) n in
    let reset := ETimerReset (viewTimeout n) in
    let n := set_state StatePrepare n in
    let prepare := MkPrepareMsg (ppm_View msg) (ppm_Sequence msg) (ppm_Digest msg) (nodeID n) in
    let n := set_prepareLog (add_vote (ppm_Sequence msg) (nodeID n) prepare (prepareLog n)) n in
    match envelope 1 (SerializePrepare prepare) (nodeID n) with
    | Err err => (n, w, [reset], Some err)
    | Ok data =>
        let es := [reset; EBroadcast data] in
        if checkPrepareQuorum n (ppm_Sequence msg) then
          let '(n, w, es', err) :=
            moveToCommitPhase now (ppm_Sequence msg) (ppm_Digest msg) n w in
          (n, w, es ++ es', err)
        else if checkCommitQuorum n (ppm_Sequence msg) then
          let '(n, w, es', err) := executeRequest now (ppm_Sequence msg) n w in
          (n, w, es ++ es', err)
        else (n, w, es, None)
    end.

Definition HandlePrepare (now : Z) (msg : PrepareMsg) (n : PBFTNode) (w : W) : outputs :=
  if negb (pm_View msg =? view n)%Z then (n, w, [], Some "view mismatch") else
  let n := set_prepareLog (add_vote (pm_Sequence msg) (pm_NodeID msg) msg (prepareLog n)) n in
  if checkPrepareQuorum n (pm_Sequence msg) then
    match requestLog n !! pm_Sequence msg with
    | Some _ => moveToCommitPhase now (pm_Sequence msg) (pm_Digest msg) n w
    | None => (n, w, [], None)
    end
  else (n, w, [], None).

Definition HandleCommit (now : Z) (msg : CommitMsg) (n : PBFTNode) (w : W) : outputs :=
  if negb (cm_View msg =? view n)%Z then (n, w, [], Some "view mismatch") else
  let n := set_commitLog (add_vote (cm_Sequence msg) (cm_NodeID msg) msg (commitLog n)) n in
  if checkCommitQuorum n (cm_Sequence msg) then
    match requestLog n !! cm_Sequence msg with
    | Some _ => executeRequest now (cm_Sequence msg) n w
    | None => (n, w, [], None)
    end
  else (n, w, [], None).

(** The critical section of [ProposeRequest]: the checks, the next sequence number, and the
    PRE-PREPARE to send. *)
Definition propose_locked (peers : Z) (req : Request) (n : PBFTNode) :
    PBFTNode * result PrePrepareMsg :=
  if negb (isPrimary n) then (n, Err "only primary can propose requests") else
  let activeNodes := wrap_i64 (peers + 1) in
  let requiredQuorum := (2 * f n + 1)%Z in
  if negb (totalNodes n =? 1)%Z && (activeNodes <? requiredQuorum)%Z then
    (n, Err ("insufficient peers for consensus: have " +:+ FormatInt activeNodes
             +:+ " nodes (including self), need " +:+ FormatInt requiredQuorum
             +:+ " for quorum (connected peers: " +:+ FormatInt peers +:+ ", expected: "
             +:+ FormatInt (wrap_i64 (totalNodes n - 1)) +:+ ")"))
  else
    let n := set_sequence (wrap_i64 (sequence n + 1)) n in
    let seq := sequence n in
    let n := set_requestLog (<[seq := req]> (requestLog n)) n in
    (n, Ok (MkPrePrepareMsg (view n) seq (computeDigest req) req)).

(** The rest of [ProposeRequest]: broadcast, then process the PRE-PREPARE like any other. *)
Definition propose_send (now : Z) (prePrepare : PrePrepareMsg) (n : PBFTNode) (w : W) : outputs :=
  match envelope 0 (SerializePrePrepare prePrepare) (nodeID n) with
  | Err err => (n, w, [], Some err)
  | Ok data =>
      let '(n, w, es, err) := handlePrePrepare now prePrepare n w in
      (n, w, EBroadcast data :: es, err)
  end.

Definition ProposeRequest (now peers : Z) (req : Request) (n : PBFTNode) (w : W) : outputs :=
  match propose_locked peers req n with
  | (n, Err err) => (n, w, [], Some err)
  | (n, Ok prePrepare) => propose_send now prePrepare n w
  end.

(** One message of the queue, as [processMessages] handles it; [None] when the queue is empty and
    the goroutine waits. Errors are only printed. *)
Definition processMessage (now : Z) (n : PBFTNode) (w : W) : option outputs :=
  match messageQueue n with
  | [] => None
  | msg :: queue =>
      let n := set_messageQueue queue n in
      Some match msg with
           | MPrePrepare m => handlePrePrepare now m n w
           | MPrepare m => HandlePrepare now m n w
           | MCommit m => HandleCommit now m n w
           end
  end.

(** ** View changes *)

(** [fmt.Sprintf("node%d", view % int64(totalNodes))] *)
Definition primary_of (view totalNodes : Z) : outcome string :=
  if (totalNodes =? 0)%Z then Panic "integer divide by zero"
  else Done ("node" +:+ FormatInt (Z.rem view totalNodes)).

Definition initiateViewChange (n : PBFTNode) : outcome (PBFTNode * list effect) :=
  if (state n =? StateIdle)%string && negb (hasPendingClientRequest n) then
    Done (n, [ETimerReset (viewTimeout n)])
  else
    let n := set_pending false n in
    let n := set_view (wrap_i64 (view n + 1)) n in
    let newView := view n in
    let* expectedPrimaryID := primary_of (view n) (totalNodes n) in
    let n := set_isPrimary (nodeID n =? expectedPrimaryID)%string n in
    let n := set_state StateIdle n in
    let vote := MkViewChangeMsg newView (nodeID n) in
    let n := set_viewChangeLog (add_vote newView (nodeID n) vote (viewChangeLog n)) n in
    let es := match envelope 3 (SerializeViewChange vote) (nodeID n) with
              | Ok data => [EBroadcast data]
              | Err _ => []
              end in
    let '(n, es') := failPendingCallbacks "view timeout" n in
    Done (n, ETimerReset (viewTimeout n) :: es ++ es').

Definition HandleViewChange (msg : ViewChangeMsg) (n : PBFTNode) : outcome (PBFTNode * list effect) :=
  if (vcm_NewView msg <=? view n)%Z then Done (n, []) else
  let n := set_viewChangeLog
    (add_vote (vcm_NewView msg) (vcm_NodeID msg) msg (viewChangeLog n)) n in
  if (count_votes (viewChangeLog n) (vcm_NewView msg) <? required_votes n)%Z then Done (n, []) else
  let n := set_view (vcm_NewView msg) n in
  let* expectedPrimaryID := primary_of (view n) (totalNodes n) in
  let n := set_isPrimary (nodeID n =? expectedPrimaryID)%string n in
  let n := set_state StateIdle n in
  let n := set_pending false n in
  let n := set_viewChangeLog (drop_upto (view n) (viewChangeLog n)) n in
  let '(n, es) := failPendingCallbacks "view change" n in
  Done (n, ETimerReset (viewTimeout n) :: es).

(** ** The interface of the node *)

Definition IsPrimary (n : PBFTNode) : bool := isPrimary n.

Definition GetPrimary (n : PBFTNode) : outcome string := primary_of (view n) (totalNodes n).

Definition NotifyPendingRequest (n : PBFTNode) : PBFTNode * list effect :=
  (set_pending true n, [ETimerReset (viewTimeout n)]).

Definition ClearPendingRequest (n : PBFTNode) : PBFTNode := set_pending false n.

Definition Close (n : PBFTNode) : PBFTNode := set_ctx_done true n.

(** The [select] at the end of [HandleNetworkMessage]. *)
Definition enqueue (pick_done : bool) (msg : ConsensusMessage) (n : PBFTNode) : PBFTNode * error :=
  let room := bool_decide (length (messageQueue n) < queue_capacity) in
  if room && negb (ctx_done n && pick_done) then
    (set_messageQueue (messageQueue n ++ [msg]) n, None)
  else if ctx_done n then (n, Some "context canceled")
  else (n, Some "message queue full, dropping message").

Definition deserialize_error (err : string) : error :=
  Some ("failed to deserialize message: " +:+ err).

Definition HandleNetworkMessage (now peers : Z) (pick_done : bool) (msgType : Z) (payload : string)
    (n : PBFTNode) (w : W) : outcome outputs :=
  let queue (msg : result ConsensusMessage) :=
    match msg with
    | Err err => Done (n, w, [], deserialize_error err)
    | Ok msg => let '(n, err) := enqueue pick_done msg n in Done (n, w, [], err)
    end in
  if (msgType =? 0)%Z then
    queue (try m := DeserializePrePrepare payload in Ok (MPrePrepare m))
  else if (msgType =? 1)%Z then
    queue (try m := DeserializePrepare payload in Ok (MPrepare m))
  else if (msgType =? 2)%Z then
    queue (try m := DeserializeCommit payload in Ok (MCommit m))
  else if (msgType =? 3)%Z then
    match DeserializeViewChange payload with
    | Err err => Done (n, w, [], Some ("failed to deserialize view change: " +:+ err))
    | Ok viewChangeMsg =>
        let* r := HandleViewChange viewChangeMsg n in
        Done (r.1, w, r.2, None)
    end
  else if (msgType =? 4)%Z then
    match DeserializeCheckpoint payload with
    | Err err => Done (n, w, [], Some ("failed to deserialize checkpoint: " +:+ err))
    | Ok ckpt => Done (HandleCheckpoint ckpt n, w, [], None)
    end
  else if (msgType =? 6)%Z then Done (n, w, [], None)
  else if (msgType =? 7)%Z then
    match DeserializeRequest payload with
    | Err err => Done (n, w, [], Some ("failed to deserialize client request: " +:+ err))
    | Ok req =>
        if negb (IsPrimary n) then
          let '(n, es) := NotifyPendingRequest n in Done (n, w, es, None)
        else Done (ProposeRequest now peers req n w)
    end
  else Done (n, w, [], Some ("unsupported PBFT message type: " +:+ FormatInt msgType)).

End node.
Arguments PBFTNode W : clear implicits.

End Pbft.
