(* ===== verification/PbftSpec.v ===== *)
(** The replication protocol as labelled moves, and the proof that every entry point of [Pbft] makes
    exactly the moves that its script allows.

    [move] lists what one replica can do in one go, and [spec_step] gives each move its guard and the
    whole state it leads to, every field of the node included. [script] says, for each entry point
    of the node ([src/pkg/consensus/pbft.go]), which moves it makes and in what order: what a message
    that fails a check may not do, where a vote ends without a quorum, when a timer that fires is
    ignored. [handle_performs] shows that the code keeps to its script. The invariants of [PbftInv]
    are proved on the moves. *)

From S2P Require Import Prelude Hashing Proto Messages Pbft.

Module PbftSpec.
Import Messages Pbft.
Local Open Scope go_scope.

Section spec.
Context {W : Type}.
Implicit Types n : PBFTNode W.
Implicit Types w : W.

(** What the application does on a committed request. *)
Definition replicated n (req : Request) w : W :=
  match stateReplicator n with Some r => fst (r req w) | None => w end.

(** 2f+1 votes, and at least one. *)
Definition quorum n (votes : Z) : Prop := (Z.max 1 (2 * f n + 1) ≤ votes)%Z.

#[export] Instance quorum_dec n votes : Decision (quorum n votes).
Proof. unfold quorum. apply _. Defined.

(** The votes of a checkpoint for one digest. *)
Definition digest_votes (digest : string) (votes : gmap string Checkpoint) : gmap string Checkpoint :=
  filter (λ kv, cp_StateDigest kv.2 = digest) votes.

(** ** Moves *)

Inductive move :=
| MRegisterHandler (h : ConsensusHandler (W:=W))
| MRegisterCallback (requestID : string) (cb : option Callback)
| MRegisterReplicator (r : option (StateReplicator (W:=W)))
| MClose
| MPending (pending : bool)
| MEnqueue (msg : ConsensusMessage)
| MDequeue (msg : ConsensusMessage)
| MAssign (s : Z) (req : Request)
| MAccept (m : PrePrepareMsg)
| MPrepareVote (m : PrepareMsg)
| MOwnCommit (m : CommitMsg)
| MCommitVote (m : CommitMsg)
| MExecute (s : Z) (req : Request)
| MReject (s : Z) (req : Request) (err : string)
| MOwnCheckpoint (now s : Z)
| MCheckpointVote (ckpt : Checkpoint)
| MStable (s : Z) (digest : string)
| MSuspect
| MViewVote (m : ViewChangeMsg)
| MEnterView (v : Z).

(** A checkpoint of the node itself: its state digest is that of the number. *)
Definition own_checkpoint (now s : Z) n : Checkpoint :=
  MkCheckpoint s (Hashing.sha256_hex (FormatInt s)) (nodeID n) now.

(** Entering view [v], whose primary is [p]: the node is idle and forgets callbacks and the pending
    request. *)
Definition enter_view (v : Z) (p : string) n : PBFTNode W :=
  set_requestCallbacks ∅ (set_pending false (set_state StateIdle
    (set_isPrimary (nodeID n =? p)%string (set_view v n)))).

Inductive spec_step : move → PBFTNode W * W → PBFTNode W * W → Prop :=
| SRegisterHandler n w h :
    spec_step (MRegisterHandler h) (n, w) (set_handlers (handlers n ++ [h]) n, w)
| SRegisterCallback n w id cb :
    spec_step (MRegisterCallback id cb) (n, w)
      (set_requestCallbacks (<[id := cb]> (requestCallbacks n)) n, w)
| SRegisterReplicator n w r :
    spec_step (MRegisterReplicator r) (n, w) (set_stateReplicator r n, w)
| SClose n w : spec_step MClose (n, w) (set_ctx_done true n, w)
| SPending n w b : spec_step (MPending b) (n, w) (set_pending b n, w)
| SEnqueue n w msg :
    length (messageQueue n) < queue_capacity →
    spec_step (MEnqueue msg) (n, w) (set_messageQueue (messageQueue n ++ [msg]) n, w)
| SDequeue n w msg queue :
    messageQueue n = msg :: queue →
    spec_step (MDequeue msg) (n, w) (set_messageQueue queue n, w)
| SAssign n w req :
    isPrimary n = true →
    let s := wrap_i64 (sequence n + 1) in
    spec_step (MAssign s req) (n, w)
      (set_requestLog (<[s := req]> (requestLog n)) (set_sequence s n), w)
| SAccept n w m :
    ppm_View m = view n →
    computeDigest (ppm_Request m) = ppm_Digest m →
    let prepare := MkPrepareMsg (view n) (ppm_Sequence m) (ppm_Digest m) (nodeID n) in
    spec_step (MAccept m) (n, w)
      (set_prepareLog (add_vote (ppm_Sequence m) (nodeID n) prepare (prepareLog n))
        (set_requestLog (<[ppm_Sequence m := ppm_Request m]> (requestLog n))
          (set_state StatePrepare n)), w)
| SPrepareVote n w m :
    pm_View m = view n →
    spec_step (MPrepareVote m) (n, w)
      (set_prepareLog (add_vote (pm_Sequence m) (pm_NodeID m) m (prepareLog n)) n, w)
| SOwnCommit n w m :
    cm_View m = view n → cm_NodeID m = nodeID n →
    is_Some (requestLog n !! cm_Sequence m) →
    quorum n (count_votes (prepareLog n) (cm_Sequence m)) →
    spec_step (MOwnCommit m) (n, w)
      (set_commitLog (add_vote (cm_Sequence m) (nodeID n) m (commitLog n)) (set_state StateCommit n), w)
| SCommitVote n w m :
    cm_View m = view n →
    spec_step (MCommitVote m) (n, w)
      (set_commitLog (add_vote (cm_Sequence m) (cm_NodeID m) m (commitLog n)) n, w)
| SExecute n w s req w1 :
    requestLog n !! s = Some req →
    quorum n (count_votes (commitLog n) s) →
    call_handlers (handlers n) req w = (w1, None) →
    spec_step (MExecute s req) (n, w)
      (set_requestLog (delete s (requestLog n)) (set_pending false (set_state StateIdle
        (set_requestCallbacks (delete (RequestID req) (requestCallbacks n)) n))), replicated n req w1)
| SReject n w s req w1 err :
    requestLog n !! s = Some req →
    quorum n (count_votes (commitLog n) s) →
    call_handlers (handlers n) req w = (w1, Some err) →
    spec_step (MReject s req err) (n, w)
      (set_requestCallbacks (delete (RequestID req) (requestCallbacks n)) (set_state StateCommitted n),
       w1)
| SOwnCheckpoint n w now s :
    Z.rem s checkpointInterval = 0%Z →
    spec_step (MOwnCheckpoint now s) (n, w)
      (set_checkpointVotes (add_vote s (nodeID n) (own_checkpoint now s n) (checkpointVotes n))
        (set_checkpoints (<[s := own_checkpoint now s n]> (checkpoints n)) n), w)
| SCheckpointVote n w ckpt :
    (lastStableCheckpoint n < cp_Sequence ckpt)%Z →
    spec_step (MCheckpointVote ckpt) (n, w)
      (set_checkpointVotes (add_vote (cp_Sequence ckpt) (cp_NodeID ckpt) ckpt (checkpointVotes n)) n,
       w)
| SStable n w s digest :
    (lastStableCheckpoint n < s)%Z →
    quorum n (Z.of_nat (size (digest_votes digest (votes_at (checkpointVotes n) s)))) →
    spec_step (MStable s digest) (n, w)
      (set_checkpointVotes (drop_upto s (checkpointVotes n))
        (garbageCollect s (set_lastStableCheckpoint s n)), w)
| SSuspect n w p :
    state n ≠ StateIdle ∨ hasPendingClientRequest n = true →
    let v := wrap_i64 (view n + 1) in
    primary_of v (totalNodes n) = Done p →
    spec_step MSuspect (n, w)
      (set_viewChangeLog (add_vote v (nodeID n) (MkViewChangeMsg v (nodeID n)) (viewChangeLog n))
        (enter_view v p n), w)
| SViewVote n w m :
    (view n < vcm_NewView m)%Z →
    spec_step (MViewVote m) (n, w)
      (set_viewChangeLog (add_vote (vcm_NewView m) (vcm_NodeID m) m (viewChangeLog n)) n, w)
| SEnterView n w v p :
    (view n < v)%Z →
    quorum n (count_votes (viewChangeLog n) v) →
    primary_of v (totalNodes n) = Done p →
    spec_step (MEnterView v) (n, w)
      (set_viewChangeLog (drop_upto v (viewChangeLog n)) (enter_view v p n), w).

(** Moves in a row. *)
Inductive moves_run : list move → PBFTNode W * W → PBFTNode W * W → Prop :=
| moves_done x : moves_run [] x x
| moves_next mv mvs x y z : spec_step mv x y → moves_run mvs y z → moves_run (mv :: mvs) x z.

Definition spec_run x y : Prop := ∃ mvs, moves_run mvs x y.

Lemma moves_run_app mvs1 mvs2 x y z :
  moves_run mvs1 x y → moves_run mvs2 y z → moves_run (mvs1 ++ mvs2) x z.
Proof. induction 1; [done|]. intros. econstructor; eauto. Qed.

Lemma spec_run_refl x : spec_run x x.
Proof. exists []. constructor. Qed.

Lemma spec_run_trans x y z : spec_run x y → spec_run y z → spec_run x z.
Proof. intros [m1 H1] [m2 H2]. exists (m1 ++ m2). by eapply moves_run_app. Qed.

(** ** The entry points of the node *)

Context `{pb.ProtoMessage pb.ValidatorMessage, pb.ProtoMessage pb.PrePrepare,
  pb.ProtoMessage pb.Prepare, pb.ProtoMessage pb.Commit, pb.ProtoMessage pb.Request,
  pb.ProtoMessage pb.ViewChange, pb.ProtoMessage pb.Checkpoint}.

Inductive event :=
| EvProposeLocked (peers : Z) (req : Request)
| EvProposeSend (now : Z) (m : PrePrepareMsg)
| EvNetwork (now peers : Z) (pick_done : bool) (msgType : Z) (payload : string)
| EvProcess (now : Z)
| EvTimeout
| EvNotifyPending
| EvClearPending
| EvRegisterHandler (h : ConsensusHandler (W:=W))
| EvRegisterCallback (requestID : string) (cb : option Callback)
| EvRegisterReplicator (r : option (StateReplicator (W:=W)))
| EvClose.

(** One entry point; [EvProposeLocked] then [EvProposeSend] make up [ProposeRequest], and other
    events may come between them. *)
Definition handle (ev : event) n w : outcome (outputs (W:=W)) :=
  match ev with
  | EvProposeLocked peers req =>
      let '(n, r) := propose_locked peers req n in
      Done (n, w, [], match r with Ok _ => None | Err err => Some err end)
  | EvProposeSend now m => Done (propose_send now m n w)
  | EvNetwork now peers pick_done msgType payload =>
      HandleNetworkMessage now peers pick_done msgType payload n w
  | EvProcess now =>
      Done match processMessage now n w with Some out => out | None => (n, w, [], None) end
  | EvTimeout =>
      outcome_bind (initiateViewChange n) (λ r, Done (r.1, w, r.2, None))
  | EvNotifyPending => let '(n, es) := NotifyPendingRequest n in Done (n, w, es, None)
  | EvClearPending => Done (ClearPendingRequest n, w, [], None)
  | EvRegisterHandler h => Done (RegisterHandler h n, w, [], None)
  | EvRegisterCallback requestID cb => Done (RegisterCallback requestID cb n, w, [], None)
  | EvRegisterReplicator r => Done (RegisterStateReplicator r n, w, [], None)
  | EvClose => Done (Close n, w, [], None)
  end.

Fixpoint run (evs : list event) n w : outcome (PBFTNode W * W) :=
  match evs with
  | [] => Done (n, w)
  | ev :: evs => outcome_bind (handle ev n w) (λ o, run evs (fst (fst (fst o))) (snd (fst (fst o))))
  end.

(** ** What each entry point may do

    A script relates the error an operation returns to the moves it has made. *)

Definition plan : Type := error → list move → Prop.

(** Nothing happens. *)
Definition refuses : plan := λ err mvs, mvs = [] ∧ err ≠ None.
Definition skips : plan := λ err mvs, mvs = [] ∧ err = None.

(** One move and then the rest. *)
Definition then_ (mv : move) (rest : plan) : plan := λ err mvs, ∃ mvs', mvs = mv :: mvs' ∧ rest err mvs'.

(** What the node sends is encoded first; when that fails the operation stops there. *)
Definition sending (data : result string) (rest : plan) : plan :=
  match data with Ok _ => rest | Err why => λ err mvs, mvs = [] ∧ err = Some why end.

(** Number [s] is executed: a handler refuses the request, which is the error returned, or the request
    is done and gone, with a checkpoint on every tenth number. *)
Definition executes (now s : Z) : plan := λ err mvs, ∃ req,
  (∃ why, mvs = [MReject s req why] ∧ err = Some why) ∨
  (mvs = MExecute s req ::
     (if decide (Z.rem s checkpointInterval = 0%Z) then [MOwnCheckpoint now s] else []) ∧ err = None).

(** The node votes to commit, and executes if that completes the quorum. *)
Definition commits (now s : Z) (digest : string) n : plan :=
  let commit := MkCommitMsg (view n) s digest (nodeID n) in
  then_ (MOwnCommit commit) (sending (envelope 2 (SerializeCommit commit) (nodeID n))
    (if decide (quorum n (count_votes (add_vote s (nodeID n) commit (commitLog n)) s))
     then executes now s else skips)).

Definition on_preprepare (now : Z) (m : PrePrepareMsg) n : plan :=
  let s := ppm_Sequence m in
  let prepare := MkPrepareMsg (view n) s (ppm_Digest m) (nodeID n) in
  if decide (ppm_View m = view n ∧ computeDigest (ppm_Request m) = ppm_Digest m) then
    then_ (MAccept m) (sending (envelope 1 (SerializePrepare prepare) (nodeID n))
      (if decide (quorum n (count_votes (add_vote s (nodeID n) prepare (prepareLog n)) s))
       then commits now s (ppm_Digest m) n
       else if decide (quorum n (count_votes (commitLog n) s)) then executes now s else skips))
  else refuses.

Definition on_prepare (now : Z) (m : PrepareMsg) n : plan :=
  let s := pm_Sequence m in
  if decide (pm_View m = view n) then
    then_ (MPrepareVote m)
      (if decide (quorum n (count_votes (add_vote s (pm_NodeID m) m (prepareLog n)) s) ∧
                  is_Some (requestLog n !! s))
       then commits now s (pm_Digest m) n else skips)
  else refuses.

Definition on_commit (now : Z) (m : CommitMsg) n : plan :=
  let s := cm_Sequence m in
  if decide (cm_View m = view n) then
    then_ (MCommitVote m)
      (if decide (quorum n (count_votes (add_vote s (cm_NodeID m) m (commitLog n)) s) ∧
                  is_Some (requestLog n !! s))
       then executes now s else skips)
  else refuses.

Definition on_message (now : Z) (msg : ConsensusMessage) n : plan :=
  match msg with
  | MPrePrepare m => on_preprepare now m n
  | MPrepare m => on_prepare now m n
  | MCommit m => on_commit now m n
  end.

(** Who may propose: the primary, if it sees 2f+1 live nodes or is alone. *)
Definition may_propose (peers : Z) n : Prop :=
  isPrimary n = true ∧ (totalNodes n = 1%Z ∨ (2 * f n + 1 ≤ wrap_i64 (peers + 1))%Z).

#[export] Instance may_propose_dec peers n : Decision (may_propose peers n).
Proof. unfold may_propose. apply _. Defined.

Definition next_number n : Z := wrap_i64 (sequence n + 1).

Definition on_propose_locked (peers : Z) (req : Request) n : plan :=
  if decide (may_propose peers n) then then_ (MAssign (next_number n) req) skips else refuses.

(** The node processes its own PRE-PREPARE like any other. *)
Definition on_propose_send (now : Z) (m : PrePrepareMsg) n : plan :=
  sending (envelope 0 (SerializePrePrepare m) (nodeID n)) (on_preprepare now m n).

Definition on_propose (now peers : Z) (req : Request) n : plan :=
  let s := next_number n in
  let m := MkPrePrepareMsg (view n) s (computeDigest req) req in
  if decide (may_propose peers n) then then_ (MAssign s req) (on_propose_send now m n) else refuses.

(** A timer that fires while nothing is going on is ignored. *)
Definition on_timeout n : plan :=
  if decide (state n = StateIdle ∧ hasPendingClientRequest n = false) then skips
  else then_ MSuspect skips.

Definition on_view_change (m : ViewChangeMsg) n : plan :=
  let v := vcm_NewView m in
  if decide (view n < v)%Z then
    then_ (MViewVote m)
      (if decide (quorum n (count_votes (add_vote v (vcm_NodeID m) m (viewChangeLog n)) v))
       then then_ (MEnterView v) skips else skips)
  else skips.

(** 2f+1 senders reported one digest for the number. *)
Definition agreed_on (s : Z) (digest : string) (votes : votelog Checkpoint) n : Prop :=
  quorum n (Z.of_nat (size (digest_votes digest (votes_at votes s)))).

Definition on_checkpoint (ckpt : Checkpoint) n : plan :=
  let s := cp_Sequence ckpt in
  let votes := add_vote s (cp_NodeID ckpt) ckpt (checkpointVotes n) in
  if decide (lastStableCheckpoint n < s)%Z then
    then_ (MCheckpointVote ckpt) (λ err mvs,
      (∃ digest, agreed_on s digest votes n ∧ then_ (MStable s digest) skips err mvs) ∨
      ((∀ digest, ¬ agreed_on s digest votes n) ∧ skips err mvs))
  else skips.

(** A message for the queue is put there if there is room. In a node that is closed [select] may choose
    ([pick_done]) to drop it nevertheless. *)
Definition on_queueable (pick_done : bool) (msg : result ConsensusMessage) n : plan :=
  match msg with
  | Err _ => refuses
  | Ok msg =>
      if decide (length (messageQueue n) < queue_capacity ∧ ¬ (ctx_done n = true ∧ pick_done = true))
      then then_ (MEnqueue msg) skips else refuses
  end.

Definition on_network (now peers : Z) (pick_done : bool) (msgType : Z) (payload : string) n : plan :=
  if decide (msgType = 0%Z) then
    on_queueable pick_done (try m := DeserializePrePrepare payload in Ok (MPrePrepare m)) n
  else if decide (msgType = 1%Z) then
    on_queueable pick_done (try m := DeserializePrepare payload in Ok (MPrepare m)) n
  else if decide (msgType = 2%Z) then
    on_queueable pick_done (try m := DeserializeCommit payload in Ok (MCommit m)) n
  else if decide (msgType = 3%Z) then
    match DeserializeViewChange payload with Err _ => refuses | Ok m => on_view_change m n end
  else if decide (msgType = 4%Z) then
    match DeserializeCheckpoint payload with Err _ => refuses | Ok ckpt => on_checkpoint ckpt n end
  else if decide (msgType = 6%Z) then skips
  else if decide (msgType = 7%Z) then
    match DeserializeRequest payload with
    | Err _ => refuses
    | Ok req => if isPrimary n then on_propose now peers req n else then_ (MPending true) skips
    end
  else refuses.

Definition script (ev : event) n : plan :=
  match ev with
  | EvProposeLocked peers req => on_propose_locked peers req n
  | EvProposeSend now m => on_propose_send now m n
  | EvNetwork now peers pick_done msgType payload => on_network now peers pick_done msgType payload n
  | EvProcess now =>
      match messageQueue n with
      | [] => skips
      | msg :: _ => then_ (MDequeue msg) (on_message now msg n)
      end
  | EvTimeout => on_timeout n
  | EvNotifyPending => then_ (MPending true) skips
  | EvClearPending => then_ (MPending false) skips
  | EvRegisterHandler h => then_ (MRegisterHandler h) skips
  | EvRegisterCallback requestID cb => then_ (MRegisterCallback requestID cb) skips
  | EvRegisterReplicator r => then_ (MRegisterReplicator r) skips
  | EvClose => then_ MClose skips
  end.

(** The entry points of a run with the errors they return. *)
Fixpoint answered (evs : list event) n w : list (event * error) :=
  match evs with
  | [] => []
  | ev :: evs =>
      match handle ev n w with
      | Done (n, w, _, err) => (ev, err) :: answered evs n w
      | Panic _ => []
      end
  end.

(** Entry points in a row, each making the moves that its script has for its error. *)
Inductive scripted : list (event * error) → PBFTNode W * W → PBFTNode W * W → Prop :=
| scripted_nil x : scripted [] x x
| scripted_cons ev err evs mvs x y z :
    script ev (fst x) err mvs → moves_run mvs x y → scripted evs y z →
    scripted ((ev, err) :: evs) x z.

(** ** The code keeps to its scripts *)

(** An operation that ended in [o] made moves of the plan. *)
Definition performs (p : plan) n w (o : outputs (W:=W)) : Prop :=
  ∃ mvs, p (snd o) mvs ∧ moves_run mvs (n, w) (fst (fst o)).

Lemma performs_skips n w es : performs skips n w (n, w, es, None).
Proof. exists []. split; [done|constructor]. Qed.

Lemma performs_refuses n w es err : performs refuses n w (n, w, es, Some err).
Proof. exists []. split; [done|constructor]. Qed.

Lemma performs_then mv p n w n1 w1 o :
  spec_step mv (n, w) (n1, w1) → performs p n1 w1 o → performs (then_ mv p) n w o.
Proof. intros Hs (mvs & Hp & Hr). exists (mv :: mvs). split; [by eexists|]. by econstructor. Qed.

Lemma performs_stops why p n w es : performs (sending (Err why) p) n w (n, w, es, Some why).
Proof. exists []. split; [done|constructor]. Qed.

(** Which messages and timer resets an operation starts does not matter here. *)
Lemma performs_effects p n w n' w' es es' err :
  performs p n w (n', w', es, err) → performs p n w (n', w', es', err).
Proof. done. Qed.

#[local] Hint Resolve performs_skips performs_refuses performs_stops : core.

Lemma quorum_required n v : quorum n v ↔ (required_votes n ≤ v)%Z.
Proof. unfold quorum, required_votes. case_match eqn:E; [apply Z.ltb_lt in E|apply Z.ltb_ge in E]; lia. Qed.

Lemma checkQuorum_true n v : checkQuorum n v = true ↔ quorum n v.
Proof. unfold checkQuorum. rewrite quorum_required. apply Z.leb_le. Qed.

Lemma checkQuorum_decide {A} n v (a b : A) :
  (if checkQuorum n v then a else b) = if decide (quorum n v) then a else b.
Proof.
  case_decide as Hq; [by apply checkQuorum_true in Hq as ->|].
  destruct (checkQuorum n v) eqn:E; [|done]. by apply checkQuorum_true in E.
Qed.

(** The callback of a request is forgotten, whether or not there is one. *)
Lemma invokeCallback_node id ok err n n' es :
  invokeCallback id ok err n = (n', es) →
  n' = set_requestCallbacks (delete id (requestCallbacks n)) n.
Proof.
  unfold invokeCallback. case_match eqn:Hid; intros [= <- _]; [done|].
  rewrite delete_id by done. by destruct n.
Qed.

Lemma createCheckpoint_node now s n n' es :
  createCheckpoint now s n = (n', es) →
  n' = set_checkpointVotes (add_vote s (nodeID n) (own_checkpoint now s n) (checkpointVotes n))
         (set_checkpoints (<[s := own_checkpoint now s n]> (checkpoints n)) n).
Proof. unfold createCheckpoint. repeat case_match; by intros [= <- _]. Qed.

Lemma executeRequest_performs now s n w :
  is_Some (requestLog n !! s) → quorum n (count_votes (commitLog n) s) →
  performs (executes now s) n w (executeRequest now s n w).
Proof.
  intros [req Hreq] Hq. unfold executeRequest. rewrite Hreq.
  change (handlers (set_state StateCommitted n)) with (handlers n).
  destruct (call_handlers (handlers n) req w) as [w1 [herr|]] eqn:Hcall;
    destruct (invokeCallback _ _ _ _) as [n1 es1] eqn:Hcb; apply invokeCallback_node in Hcb as ->.
  - exists [MReject s req herr]. split; [exists req; left; by eexists|].
    econstructor; [by eapply SReject|constructor].
  - destruct (Z.eqb_spec (Z.rem s checkpointInterval) 0) as [Hs|Hs].
    + destruct (createCheckpoint _ _ _) as [n2 es2] eqn:Hck. apply createCheckpoint_node in Hck as ->.
      exists [MExecute s req; MOwnCheckpoint now s]. split; [exists req; right; by rewrite decide_True|].
      econstructor; [by eapply SExecute|]. econstructor; [by apply SOwnCheckpoint|constructor].
    + exists [MExecute s req]. split; [exists req; right; by rewrite decide_False|].
      econstructor; [by eapply SExecute|constructor].
Qed.

Lemma moveToCommitPhase_performs now s digest n w :
  is_Some (requestLog n !! s) → quorum n (count_votes (prepareLog n) s) →
  performs (commits now s digest n) n w (moveToCommitPhase now s digest n w).
Proof.
  intros Hreq Hq. unfold moveToCommitPhase.
  cbv zeta. set (n1 := set_commitLog _ _).
  apply (performs_then _ _ n w n1 w);
    [by apply (SOwnCommit n w (MkCommitMsg (view n) s digest (nodeID n)))|].
  change (nodeID n1) with (nodeID n). destruct (envelope _ _ _); [|by auto]. cbn [sending].
  unfold checkCommitQuorum. rewrite checkQuorum_decide.
  destruct (decide (quorum n1 _)) as [Hc|Hc];
    [rewrite decide_True by exact Hc|rewrite decide_False by exact Hc; apply performs_skips].
  pose proof (executeRequest_performs now s n1 w Hreq Hc) as Hex. revert Hex.
  by destruct (executeRequest now s n1 w) as [[[n2 w2] es2] err2].
Qed.

Lemma handlePrePrepare_performs now m n w :
  performs (on_preprepare now m n) n w (handlePrePrepare now m n w).
Proof.
  unfold handlePrePrepare, on_preprepare.
  destruct (Z.eqb_spec (ppm_View m) (view n)) as [Hv|]; cbn [negb];
    [|rewrite decide_False by tauto; apply performs_refuses].
  destruct (String.eqb_spec (computeDigest (ppm_Request m)) (ppm_Digest m)) as [Hd|]; cbn [negb];
    [|rewrite decide_False by tauto; apply performs_refuses].
  rewrite decide_True by done. rewrite Hv. cbv zeta. set (n1 := set_prepareLog _ _).
  apply (performs_then _ _ n w n1 w); [by apply SAccept|].
  change (nodeID n1) with (nodeID n). destruct (envelope _ _ _); [|by auto]. cbn [sending].
  unfold checkPrepareQuorum, checkCommitQuorum. rewrite !checkQuorum_decide.
  assert (Hin : is_Some (requestLog n1 !! ppm_Sequence m)).
  { change (requestLog n1) with (<[ppm_Sequence m := ppm_Request m]> (requestLog n)).
    rewrite lookup_insert_eq. by eexists. }
  destruct (decide (quorum n1 (count_votes (prepareLog n1) _))) as [Hp|Hp];
    [rewrite decide_True by exact Hp|rewrite decide_False by exact Hp].
  - pose proof (moveToCommitPhase_performs now _ (ppm_Digest m) n1 w Hin Hp) as Hm. revert Hm.
    by destruct (moveToCommitPhase _ _ _ _ _) as [[[n2 w2] es2] err2].
  - destruct (decide (quorum n1 _)) as [Hc|Hc];
      [rewrite decide_True by exact Hc|rewrite decide_False by exact Hc; apply performs_skips].
    pose proof (executeRequest_performs now _ n1 w Hin Hc) as Hex. revert Hex.
    by destruct (executeRequest _ _ _ _) as [[[n2 w2] es2] err2].
Qed.

Lemma HandlePrepare_performs now m n w : performs (on_prepare now m n) n w (HandlePrepare now m n w).
Proof.
  unfold HandlePrepare, on_prepare.
  destruct (Z.eqb_spec (pm_View m) (view n)) as [Hv|]; cbn [negb];
    [|rewrite decide_False by done; apply performs_refuses].
  rewrite decide_True by done. eapply performs_then; [by apply SPrepareVote|].
  set (n1 := set_prepareLog _ _). unfold checkPrepareQuorum. rewrite checkQuorum_decide.
  destruct (decide (quorum n1 _)) as [Hp|Hp];
    [|rewrite decide_False by (intros [Hq _]; exact (Hp Hq)); apply performs_skips].
  change (requestLog n1) with (requestLog n). destruct (requestLog n !! pm_Sequence m) as [req|] eqn:Hreq.
  - rewrite decide_True by (split; [exact Hp|by eexists]).
    apply (moveToCommitPhase_performs now _ _ n1); [|done]. by eexists.
  - rewrite decide_False by (intros [_ [? ?]]; done). apply performs_skips.
Qed.

Lemma HandleCommit_performs now m n w : performs (on_commit now m n) n w (HandleCommit now m n w).
Proof.
  unfold HandleCommit, on_commit.
  destruct (Z.eqb_spec (cm_View m) (view n)) as [Hv|]; cbn [negb];
    [|rewrite decide_False by done; apply performs_refuses].
  rewrite decide_True by done. eapply performs_then; [by apply SCommitVote|].
  set (n1 := set_commitLog _ _). unfold checkCommitQuorum. rewrite checkQuorum_decide.
  destruct (decide (quorum n1 _)) as [Hp|Hp];
    [|rewrite decide_False by (intros [Hq _]; exact (Hp Hq)); apply performs_skips].
  change (requestLog n1) with (requestLog n). destruct (requestLog n !! cm_Sequence m) as [req|] eqn:Hreq.
  - rewrite decide_True by (split; [exact Hp|by eexists]).
    apply (executeRequest_performs now _ n1); [|done]. by eexists.
  - rewrite decide_False by (intros [_ [? ?]]; done). apply performs_skips.
Qed.

Lemma propose_locked_yes peers req n :
  may_propose peers n →
  propose_locked peers req n =
    (set_requestLog (<[next_number n := req]> (requestLog n)) (set_sequence (next_number n) n),
     Ok (MkPrePrepareMsg (view n) (next_number n) (computeDigest req) req)).
Proof.
  intros [Hp Henough]. unfold propose_locked. rewrite Hp; cbn [negb].
  destruct (Z.eqb_spec (totalNodes n) 1) as [|Hone]; cbn [negb andb]; [done|].
  destruct Henough as [?|Henough]; [done|]. by rewrite (proj2 (Z.ltb_ge _ _) Henough).
Qed.

Lemma propose_locked_no peers req n :
  ¬ may_propose peers n → ∃ err, propose_locked peers req n = (n, Err err).
Proof.
  intros Hno. unfold propose_locked. destruct (isPrimary n) eqn:Hp; cbn [negb]; [|by eexists].
  destruct (Z.eqb_spec (totalNodes n) 1) as [|Hone]; cbn [negb andb]; [destruct Hno; split; auto|].
  destruct (Z.ltb_spec (wrap_i64 (peers + 1)) (2 * f n + 1)); [by eexists|].
  destruct Hno. split; auto.
Qed.

Lemma propose_send_performs now m n w :
  performs (on_propose_send now m n) n w (propose_send now m n w).
Proof.
  unfold propose_send, on_propose_send. destruct (envelope _ _ _); [|by auto]. cbn [sending].
  pose proof (handlePrePrepare_performs now m n w) as Hp. revert Hp.
  by destruct (handlePrePrepare now m n w) as [[[n1 w1] es1] err1].
Qed.

Lemma ProposeRequest_performs now peers req n w :
  performs (on_propose now peers req n) n w (ProposeRequest now peers req n w).
Proof.
  unfold ProposeRequest, on_propose. case_decide as Hmay.
  2:{ destruct (propose_locked_no peers req n Hmay) as [err ->]. apply performs_refuses. }
  rewrite (propose_locked_yes _ _ _ Hmay). set (n1 := set_requestLog _ _).
  apply (performs_then _ _ n w n1 w); [apply SAssign; apply Hmay|].
  exact (propose_send_performs now (MkPrePrepareMsg (view n) (next_number n) (computeDigest req) req) n1 w).
Qed.

(** Counting the digests of a set of votes. *)
Lemma count_digests_get votes d :
  map_get 0%Z (count_digests votes) d = Z.of_nat (size (digest_votes d votes)).
Proof.
  unfold count_digests, digest_votes. rewrite <- (list_to_map_to_list votes) at 2.
  pose proof (NoDup_fst_map_to_list votes) as Hnd. revert Hnd.
  enough (Hgen : ∀ es acc, NoDup es.*1 →
    map_get 0%Z (foldl (λ digests e, <[cp_StateDigest e.2 :=
      (map_get 0 digests (cp_StateDigest e.2) + 1)%Z]> digests) acc es) d
    = (map_get 0 acc d + Z.of_nat (size (filter (λ kv, cp_StateDigest kv.2 = d)
        (list_to_map es : gmap string Checkpoint))))%Z).
  { intros Hnd. rewrite Hgen by done. rewrite map_get_empty. lia. }
  induction es as [|[k c] es IH]; intros acc Hnd; simpl.
  { rewrite map_filter_empty, map_size_empty. lia. }
  apply NoDup_cons in Hnd as [Hk Hnd]. rewrite IH, map_get_insert by done.
  apply not_elem_of_list_to_map_1 in Hk. case_decide as Hd.
  - rewrite map_filter_insert_True by done. rewrite map_size_insert_None.
    + rewrite Hd. lia.
    + apply map_lookup_filter_None. left. done.
  - rewrite map_filter_insert_not' by naive_solver. lia.
Qed.

Lemma count_digests_quorum_iff votes q :
  (0 < q)%Z →
  existsb (λ e, (q <=? e.2)%Z) (map_to_list (count_digests votes)) = true ↔
  ∃ d, (q ≤ Z.of_nat (size (digest_votes d votes)))%Z.
Proof.
  intros Hq. split.
  - intros He. apply existsb_exists in He as ([d c] & Hin & Hc).
    apply list_elem_of_In, elem_of_map_to_list in Hin. apply Z.leb_le in Hc; simpl in Hc.
    exists d. rewrite <- count_digests_get. unfold map_get. by rewrite Hin.
  - intros [d Hd]. rewrite <- count_digests_get in Hd. unfold map_get in Hd.
    destruct (count_digests votes !! d) as [c|] eqn:Hc; simpl in Hd; [|lia].
    apply existsb_exists. exists (d, c). split; [|by apply Z.leb_le].
    by apply list_elem_of_In, elem_of_map_to_list.
Qed.

Lemma digest_votes_le d votes : size (digest_votes d votes) ≤ size votes.
Proof. apply map_subseteq_size, map_filter_subseteq. Qed.

Lemma required_votes_pos n : (0 < required_votes n)%Z.
Proof. unfold required_votes. case_match eqn:E; [lia|]. apply Z.ltb_ge in E. lia. Qed.

(** The count over all votes that [HandleCheckpoint] makes first changes nothing. *)
Lemma HandleCheckpoint_agreed ckpt n :
  let s := cp_Sequence ckpt in
  let n1 := set_checkpointVotes (add_vote s (cp_NodeID ckpt) ckpt (checkpointVotes n)) n in
  (lastStableCheckpoint n < s)%Z →
  (∀ d, agreed_on s d (checkpointVotes n1) n1 →
    HandleCheckpoint ckpt n = set_checkpointVotes (drop_upto s (checkpointVotes n1))
      (garbageCollect s (set_lastStableCheckpoint s n1))) ∧
  ((∀ d, ¬ agreed_on s d (checkpointVotes n1) n1) → HandleCheckpoint ckpt n = n1).
Proof.
  intros s n1 Hlt. unfold HandleCheckpoint. fold s. fold n1.
  rewrite (proj2 (Z.leb_gt s (lastStableCheckpoint n)) Hlt).
  pose proof (count_digests_quorum_iff (votes_at (checkpointVotes n1) s) (required_votes n1)
    (required_votes_pos n1)) as Hiff.
  split.
  - intros d Hd. unfold agreed_on in Hd. rewrite quorum_required in Hd.
    pose proof (digest_votes_le d (votes_at (checkpointVotes n1) s)) as Hle.
    rewrite (proj2 (Z.ltb_ge _ _)) by lia. by rewrite (proj2 Hiff) by by exists d.
  - intros Hno. destruct (_ <? _)%Z; [done|]. destruct Hiff as [Hiff _]. revert Hiff.
    case_match; [|done]. intros Hiff. destruct (Hiff eq_refl) as [d Hd]. destruct (Hno d). by apply quorum_required.
Qed.

Lemma HandleCheckpoint_performs ckpt n w es :
  performs (on_checkpoint ckpt n) n w (HandleCheckpoint ckpt n, w, es, None).
Proof.
  unfold on_checkpoint. case_decide as Hlt.
  2:{ unfold HandleCheckpoint. rewrite (proj2 (Z.leb_le _ _)) by lia. apply performs_skips. }
  destruct (HandleCheckpoint_agreed ckpt n Hlt) as [Hyes Hno].
  set (n1 := set_checkpointVotes _ n) in *. set (s := cp_Sequence ckpt) in *.
  eapply performs_then; [by apply SCheckpointVote|]. fold s. fold n1.
  destruct (existsb (λ e, (required_votes n1 <=? e.2)%Z)
    (map_to_list (count_digests (votes_at (checkpointVotes n1) s)))) eqn:He.
  - apply count_digests_quorum_iff in He as [d Hd]; [|apply required_votes_pos].
    apply quorum_required in Hd. rewrite (Hyes d Hd).
    exists [MStable s d]. split; [left; exists d; by split; [|exists []]|].
    econstructor; [by apply SStable|constructor].
  - assert (Hn : ∀ d, ¬ agreed_on s d (checkpointVotes n1) n1).
    { intros d Hd. apply quorum_required in Hd. apply not_true_iff_false in He. apply He.
      apply count_digests_quorum_iff; [apply required_votes_pos|by exists d]. }
    rewrite (Hno Hn). exists []. split; [right; done|constructor].
Qed.

Lemma initiateViewChange_performs n w n' es :
  initiateViewChange n = Done (n', es) → performs (on_timeout n) n w (n', w, es, None).
Proof.
  unfold initiateViewChange, on_timeout.
  destruct (String.eqb_spec (state n) StateIdle) as [Hs|Hs], (hasPendingClientRequest n) eqn:Hp;
    cbn [andb negb].
  2:{ rewrite decide_True by done. intros [= <- _]. apply performs_skips. }
  all: rewrite decide_False by naive_solver;
    destruct (primary_of _ _) as [p|] eqn:Hprim; cbn [outcome_bind]; [|done];
    intros [= <- _]; (eapply performs_then; [apply (SSuspect n w p); [tauto|exact Hprim]|]); apply performs_skips.
Qed.

Lemma HandleViewChange_performs m n w n' es :
  HandleViewChange m n = Done (n', es) → performs (on_view_change m n) n w (n', w, es, None).
Proof.
  unfold HandleViewChange, on_view_change.
  destruct (Z.leb_spec (vcm_NewView m) (view n)).
  { intros [= <- _]. rewrite decide_False by lia. apply performs_skips. }
  rewrite decide_True by done. set (n1 := set_viewChangeLog _ n). intros Hr.
  eapply performs_then; [by apply SViewVote|]. fold n1. revert Hr.
  change (quorum n (count_votes (add_vote _ _ m (viewChangeLog n)) _))
    with (quorum n1 (count_votes (viewChangeLog n1) (vcm_NewView m))).
  case_match eqn:Hq.
  { apply Z.ltb_lt in Hq. intros [= <- _]. rewrite decide_False; [apply performs_skips|].
    rewrite quorum_required. lia. }
  apply Z.ltb_ge, quorum_required in Hq. rewrite decide_True by done.
  destruct (primary_of _ _) as [p|] eqn:Hprim; cbn [outcome_bind]; [|done]. intros [= <- _].
  eapply performs_then; [by apply (SEnterView n1 w (vcm_NewView m) p)|]. apply performs_skips.
Qed.

Lemma enqueue_performs pick msg n w n' err es :
  enqueue pick msg n = (n', err) → performs (on_queueable pick (Ok msg) n) n w (n', w, es, err).
Proof.
  unfold enqueue, on_queueable. case_decide as Hroom.
  - destruct Hroom as [Hlen Hdone]. rewrite bool_decide_eq_true_2 by done.
    replace (ctx_done n && pick) with false by (symmetry; apply andb_false_iff; destruct (ctx_done n), pick; naive_solver).
    intros [= <- <-]. eapply performs_then; [by apply SEnqueue|]. apply performs_skips.
  - assert (bool_decide (length (messageQueue n) < queue_capacity) && negb (ctx_done n && pick) = false) as ->.
    { apply andb_false_iff. case_bool_decide; destruct (ctx_done n), pick; naive_solver. }
    destruct (ctx_done n); intros [= <- <-]; apply performs_refuses.
Qed.

Lemma HandleNetworkMessage_performs now peers pick ty payload n w o :
  HandleNetworkMessage now peers pick ty payload n w = Done o →
  performs (on_network now peers pick ty payload n) n w o.
Proof.
  assert (Hqueue : ∀ msg, match msg with
    | Err err => Done (n, w, [], deserialize_error err)
    | Ok msg => let '(n, err) := enqueue pick msg n in Done (n, w, [], err)
    end = Done o → performs (on_queueable pick msg n) n w o).
  { intros [msg|err]; [|intros [= <-]; apply performs_refuses].
    destruct (enqueue pick msg n) as [nq errq] eqn:Hq. intros [= <-]. by eapply enqueue_performs. }
  unfold HandleNetworkMessage, on_network.
  destruct (Z.eqb_spec ty 0); [rewrite decide_True by done; apply Hqueue|rewrite decide_False by done].
  destruct (Z.eqb_spec ty 1); [rewrite decide_True by done; apply Hqueue|rewrite decide_False by done].
  destruct (Z.eqb_spec ty 2); [rewrite decide_True by done; apply Hqueue|rewrite decide_False by done].
  destruct (Z.eqb_spec ty 3); [rewrite decide_True by done|rewrite decide_False by done].
  { destruct (DeserializeViewChange payload) as [m|]; [|intros [= <-]; apply performs_refuses].
    destruct (HandleViewChange m n) as [[nv esv]|] eqn:Hv; cbn [outcome_bind]; [|done].
    intros [= <-]. by eapply HandleViewChange_performs. }
  destruct (Z.eqb_spec ty 4); [rewrite decide_True by done|rewrite decide_False by done].
  { destruct (DeserializeCheckpoint payload) as [c|]; intros [= <-];
      [apply HandleCheckpoint_performs|apply performs_refuses]. }
  destruct (Z.eqb_spec ty 6); [rewrite decide_True by done|rewrite decide_False by done].
  { intros [= <-]. apply performs_skips. }
  destruct (Z.eqb_spec ty 7); [rewrite decide_True by done|rewrite decide_False by done].
  2:{ intros [= <-]. apply performs_refuses. }
  destruct (DeserializeRequest payload) as [req|]; [|intros [= <-]; apply performs_refuses].
  unfold IsPrimary. destruct (isPrimary n); cbn [negb].
  - intros [= <-]. apply ProposeRequest_performs.
  - intros [= <-]. eapply performs_then; [apply SPending|]. apply performs_skips.
Qed.

(** Every entry point makes the moves of its script. *)
Lemma handle_performs ev n w o : handle ev n w = Done o → performs (script ev n) n w o.
Proof.
  destruct ev; cbn [handle script];
    try (intros [= <-]; eapply performs_then; [constructor|apply performs_skips]).
  - unfold on_propose_locked. case_decide as Hmay.
    + rewrite (propose_locked_yes _ _ _ Hmay). intros [= <-]. eapply performs_then; [apply SAssign; apply Hmay|]. apply performs_skips.
    + destruct (propose_locked_no peers req n Hmay) as [err ->]. intros [= <-]. apply performs_refuses.
  - intros [= <-]. apply propose_send_performs.
  - apply HandleNetworkMessage_performs.
  - unfold processMessage. destruct (messageQueue n) as [|msg queue] eqn:Hq; intros [= <-];
      [apply performs_skips|].
    eapply performs_then; [by eapply SDequeue|].
    destruct msg; [apply (handlePrePrepare_performs now _ (set_messageQueue queue n)) |
      apply (HandlePrepare_performs now _ (set_messageQueue queue n)) |
      apply (HandleCommit_performs now _ (set_messageQueue queue n))].
  - destruct (initiateViewChange n) as [[nv esv]|] eqn:Hv; cbn [outcome_bind]; [|done].
    intros [= <-]. by eapply initiateViewChange_performs.
Qed.

Lemma handle_scripted ev n w n' w' es err :
  handle ev n w = Done (n', w', es, err) →
  ∃ mvs, script ev n err mvs ∧ moves_run mvs (n, w) (n', w').
Proof. intros Hh. by apply handle_performs in Hh. Qed.

Lemma run_scripted evs n w n' w' :
  run evs n w = Done (n', w') → scripted (answered evs n w) (n, w) (n', w').
Proof.
  revert n w. induction evs as [|ev evs IH]; simpl; intros n w Hr; [simplify_eq; constructor|].
  destruct (handle ev n w) as [[[[n1 w1] es1] err1]|] eqn:Hh; simplify_eq/=.
  apply handle_scripted in Hh as (mvs & Hs & Hm). econstructor; [exact Hs|exact Hm|]. by apply IH.
Qed.

Lemma handle_refines ev n w n' w' es err :
  handle ev n w = Done (n', w', es, err) → spec_run (n, w) (n', w').
Proof. intros (mvs & _ & Hm)%handle_scripted. by exists mvs. Qed.

Lemma run_refines evs n w n' w' : run evs n w = Done (n', w') → spec_run (n, w) (n', w').
Proof.
  intros Hr%run_scripted. induction Hr as [x|ev err evs' mvs x y z _ Hm _ IH]; [apply spec_run_refl|].
  eapply spec_run_trans; [by exists mvs|done].
Qed.

Lemma run_app evs1 evs2 n w :
  run (evs1 ++ evs2) n w = outcome_bind (run evs1 n w) (λ x, run evs2 x.1 x.2).
Proof.
  revert n w. induction evs1 as [|ev evs1 IH]; simpl; intros n w; [done|].
  destruct (handle ev n w) as [[[[n1 w1] es1] err1]|]; simpl; [apply IH|done].
Qed.

End spec.
Arguments event W : clear implicits.
Arguments move W : clear implicits.
End PbftSpec.
