(* ===== verification/PbftInv.v ===== *)
(** Invariants and safety of a PBFT node: what its logs contain in every reachable state, what an
    execution, a stable checkpoint and a view change require, and when the node can panic. *)

From S2P Require Import Prelude Hashing Proto Messages Pbft PbftSpec.

Module PbftInv.
Import Messages Pbft PbftSpec.

(** * Vote logs *)

Lemma votes_at_add {T} s id (m : T) log s' :
  votes_at (add_vote s id m log) s' =
    if decide (s = s') then <[id := m]> (votes_at log s') else votes_at log s'.
Proof.
  unfold votes_at, add_vote. case_decide as E; [subst; by rewrite lookup_insert_eq|].
  by rewrite lookup_insert_ne.
Qed.

Lemma votes_at_drop {T} b (log : votelog T) s :
  votes_at (drop_upto b log) s = if decide (b < s)%Z then votes_at log s else ∅.
Proof. unfold votes_at. rewrite lookup_drop_upto. by case_decide. Qed.

(** Every recorded vote satisfies [P] of its sequence (or view) and its node. *)
Definition votes_ok {T} (P : Z → string → T → Prop) (log : votelog T) : Prop :=
  ∀ s id m, votes_at log s !! id = Some m → P s id m.

Lemma votes_ok_empty {T} (P : Z → string → T → Prop) : votes_ok P ∅.
Proof. intros s id m. unfold votes_at. by rewrite lookup_empty. Qed.

Lemma votes_ok_add {T} (P : Z → string → T → Prop) s id m log :
  P s id m → votes_ok P log → votes_ok P (add_vote s id m log).
Proof.
  intros Hm Hlog s' id' m'. rewrite votes_at_add. case_decide as E; [subst|apply Hlog].
  rewrite lookup_insert_Some. intros [[<- <-]|[_ Hl]]; [done|by apply Hlog].
Qed.

Lemma votes_ok_drop {T} (P : Z → string → T → Prop) b log :
  votes_ok P log → votes_ok P (drop_upto b log).
Proof.
  intros Hlog s id m. rewrite votes_at_drop. case_decide; [apply Hlog|]. by rewrite lookup_empty.
Qed.

Lemma count_votes_add_le {T} s id (m : T) log s' :
  (count_votes log s' ≤ count_votes (add_vote s id m log) s')%Z.
Proof.
  unfold count_votes. rewrite votes_at_add. case_decide; [|lia].
  rewrite map_size_insert. destruct (votes_at log s' !! id) as [v|]; simpl; lia.
Qed.

#[local] Hint Resolve votes_ok_empty votes_ok_add votes_ok_drop : core.

(** * The invariant *)

Section inv.
Context {W : Type}.
Implicit Types n : PBFTNode W.
Implicit Types w : W.

(** Every vote is filed under its own sequence (or view) and sender; own checkpoints are the
    node's, with the digest of their sequence; the configuration never changes. *)
Record node_inv (cfg : Config) n : Prop := {
  inv_id : nodeID n = cfg_NodeID cfg;
  inv_total : totalNodes n = cfg_TotalNodes cfg;
  inv_f : f n = Z.quot (wrap_i64 (cfg_TotalNodes cfg - 1)) 3;
  inv_prepare : votes_ok (λ s id m, pm_Sequence m = s ∧ pm_NodeID m = id) (prepareLog n);
  inv_commit : votes_ok (λ s id m, cm_Sequence m = s ∧ cm_NodeID m = id) (commitLog n);
  inv_checkpoint : votes_ok (λ s id c, cp_Sequence c = s ∧ cp_NodeID c = id) (checkpointVotes n);
  inv_viewchange : votes_ok (λ v id m, vcm_NewView m = v ∧ vcm_NodeID m = id) (viewChangeLog n);
  inv_own : map_Forall (λ s c, cp_Sequence c = s ∧ cp_NodeID c = nodeID n ∧
    cp_StateDigest c = Hashing.sha256_hex (FormatInt s)) (checkpoints n);
  inv_stable : (0 ≤ lastStableCheckpoint n)%Z;
}.

Lemma map_Forall_drop_upto {V} (P : Z → V → Prop) b m :
  map_Forall P m → map_Forall P (drop_upto b m).
Proof.
  intros Hm k v. rewrite lookup_drop_upto. case_decide; [apply Hm|done].
Qed.

Lemma NewPBFTNode_inv cfg : node_inv cfg (NewPBFTNode cfg).
Proof. split; simpl; auto; [apply map_Forall_empty | done]. Qed.

Lemma spec_step_inv cfg mv x y : spec_step mv x y → node_inv cfg (fst x) → node_inv cfg (fst y).
Proof.
  destruct 1; simpl; intros Hinv; destruct Hinv; split; simpl; auto.
  - by apply map_Forall_insert_2; [|].
  - by apply map_Forall_drop_upto.
  - lia.
Qed.

Lemma moves_run_inv cfg mvs x y : moves_run mvs x y → node_inv cfg (fst x) → node_inv cfg (fst y).
Proof. induction 1; eauto using spec_step_inv. Qed.

Lemma spec_run_inv cfg x y : spec_run x y → node_inv cfg (fst x) → node_inv cfg (fst y).
Proof. intros [mvs Hr]. by apply (moves_run_inv _ mvs). Qed.

(** * Who is primary *)

(** Only the node named in the configuration of view 0 starts as primary. *)
Definition config_ok (cfg : Config) : Prop :=
  cfg_IsPrimary cfg = (cfg_NodeID cfg =? "node0")%string.

Definition primary_inv n : Prop :=
  ∀ p, GetPrimary n = Done p → isPrimary n = (nodeID n =? p)%string.

Lemma NewPBFTNode_primary cfg : config_ok cfg → primary_inv (NewPBFTNode cfg).
Proof.
  intros Hc p. unfold GetPrimary, primary_of; simpl. case_match; [done|].
  intros [= <-]. rewrite Z.rem_0_l; [done|]. by apply Z.eqb_neq.
Qed.

Lemma spec_step_primary mv x y : spec_step mv x y → primary_inv (fst x) → primary_inv (fst y).
Proof.
  unfold primary_inv, GetPrimary.
  destruct 1; simpl; intros Hinv; auto; intros q Hq; congruence.
Qed.

Lemma spec_run_primary x y : spec_run x y → primary_inv (fst x) → primary_inv (fst y).
Proof. intros [mvs Hr]. induction Hr; eauto using spec_step_primary. Qed.

(** * What a step may do to the application *)

Definition apply_request n (req : Request) w : W :=
  match call_handlers (handlers n) req w with
  | (w, None) => replicated n req w
  | (w, Some _) => w
  end.

(** The fields an execution does not read or change. *)
Definition frame n :=
  (nodeID n, view n, sequence n, (f n, totalNodes n), isPrimary n, lastStableCheckpoint n,
   viewChangeLog n, (handlers n, stateReplicator n), messageQueue n, ctx_done n).

Context `{pb.ProtoMessage pb.ValidatorMessage, pb.ProtoMessage pb.PrePrepare,
  pb.ProtoMessage pb.Prepare, pb.ProtoMessage pb.Commit, pb.ProtoMessage pb.Request,
  pb.ProtoMessage pb.ViewChange, pb.ProtoMessage pb.Checkpoint}.

Lemma invokeCallback_frame id ok err n n' es :
  invokeCallback id ok err n = (n', es) →
  frame n' = frame n ∧ commitLog n' = commitLog n
    ∧ prepareLog n' = prepareLog n ∧ requestLog n' = requestLog n.
Proof. unfold invokeCallback. case_match; intros; by simplify_eq. Qed.

Lemma createCheckpoint_frame now s n n' es :
  createCheckpoint now s n = (n', es) →
  frame n' = frame n ∧ commitLog n' = commitLog n ∧ prepareLog n' = prepareLog n
    ∧ requestLog n' = requestLog n.
Proof. unfold createCheckpoint. repeat case_match; intros; by simplify_eq. Qed.

(** What [executeRequest] leaves: its request is gone exactly when no handler failed. *)
Lemma executeRequest_spec now s n w n' w' es err :
  executeRequest now s n w = (n', w', es, err) →
  frame n' = frame n ∧ commitLog n' = commitLog n ∧ prepareLog n' = prepareLog n ∧
  match requestLog n !! s with
  | None => w' = w ∧ requestLog n' = requestLog n
  | Some req =>
      w' = apply_request n req w ∧
      requestLog n' = match snd (call_handlers (handlers n) req w) with
                      | None => delete s (requestLog n)
                      | Some _ => requestLog n
                      end
  end.
Proof.
  unfold executeRequest, apply_request. destruct (requestLog n !! s) as [req|]; [|by intros [= <- <- _ _]].
  change (handlers (set_state StateCommitted n)) with (handlers n).
  destruct (call_handlers (handlers n) req w) as [w1 [herr|]]; simpl;
    destruct (invokeCallback _ _ _ _) as [n1 es1] eqn:Hcb;
    apply invokeCallback_frame in Hcb as (Hfr & Hc & Hp & Hr); simpl in *.
  - by intros [= <- <- _ _].
  - set (n2 := set_requestLog _ _).
    assert (frame n2 = frame n) as Hfr2 by (rewrite <- (eq_refl : frame n1 = frame n2), Hfr; done).
    destruct (Z.eqb_spec (Z.rem s checkpointInterval) 0).
    + destruct (createCheckpoint now s n2) as [n3 es3] eqn:Hck.
      apply createCheckpoint_frame in Hck as (Hfr3 & Hc3 & Hp3 & Hr3). intros [= <- <- _ _].
      rewrite Hfr3, Hc3, Hp3, Hr3. unfold n2; simpl. by rewrite Hr.
    + intros [= <- <- _ _]. unfold n2; simpl. by rewrite Hr.
Qed.

Lemma frame_eq n n' : frame n' = frame n →
  nodeID n' = nodeID n ∧ view n' = view n ∧ f n' = f n ∧ totalNodes n' = totalNodes n ∧
  isPrimary n' = isPrimary n ∧ lastStableCheckpoint n' = lastStableCheckpoint n ∧
  handlers n' = handlers n ∧ stateReplicator n' = stateReplicator n ∧ sequence n' = sequence n.
Proof. unfold frame. intros ?. by simplify_eq. Qed.

Lemma apply_request_frame n n' req w :
  handlers n' = handlers n → stateReplicator n' = stateReplicator n →
  apply_request n' req w = apply_request n req w.
Proof. intros Hh Hr. unfold apply_request, replicated. by rewrite Hh, Hr. Qed.

Lemma moveToCommitPhase_spec now s digest n w n' w' es err :
  moveToCommitPhase now s digest n w = (n', w', es, err) → frame n' = frame n.
Proof.
  unfold moveToCommitPhase. cbv zeta. set (n1 := set_commitLog _ _).
  destruct (envelope _ _ _); [|intros; by simplify_eq]. case_match; [|intros; by simplify_eq].
  destruct (executeRequest _ _ _ _) as [[[n2 w2] es2] err2] eqn:Hex. intros; simplify_eq.
  by apply executeRequest_spec in Hex as [-> _].
Qed.

Lemma handlePrePrepare_spec now m n w n' w' es err :
  handlePrePrepare now m n w = (n', w', es, err) → frame n' = frame n.
Proof.
  unfold handlePrePrepare. case_match; [intros; by simplify_eq|]. case_match; [intros; by simplify_eq|].
  cbv zeta. set (n1 := set_prepareLog _ _). destruct (envelope _ _ _); [|intros; by simplify_eq].
  case_match; [|case_match; [|intros; by simplify_eq]].
  - destruct (moveToCommitPhase _ _ _ _ _) as [[[n2 w2] es2] err2] eqn:Hm. intros; simplify_eq.
    by apply moveToCommitPhase_spec in Hm as ->.
  - destruct (executeRequest _ _ _ _) as [[[n2 w2] es2] err2] eqn:Hex. intros; simplify_eq.
    by apply executeRequest_spec in Hex as [-> _].
Qed.

Lemma HandlePrepare_spec now m n w n' w' es err :
  HandlePrepare now m n w = (n', w', es, err) → frame n' = frame n.
Proof.
  unfold HandlePrepare. case_match; [intros; by simplify_eq|].
  case_match; [|intros; by simplify_eq]. case_match; [|intros; by simplify_eq].
  intros Hm. by apply moveToCommitPhase_spec in Hm as ->.
Qed.

Lemma HandleCommit_spec now m n w n' w' es err :
  HandleCommit now m n w = (n', w', es, err) → frame n' = frame n.
Proof.
  unfold HandleCommit. case_match; [intros; by simplify_eq|].
  case_match; [|intros; by simplify_eq]. case_match; [|intros; by simplify_eq].
  intros Hex. by apply executeRequest_spec in Hex as [-> _].
Qed.

Lemma propose_send_spec now m n w n' w' es err :
  propose_send now m n w = (n', w', es, err) → frame n' = frame n.
Proof.
  unfold propose_send. case_match; [|intros; by simplify_eq].
  destruct (handlePrePrepare now m n w) as [[[n1 w1] es1] err1] eqn:Hh. intros; simplify_eq.
  by eapply handlePrePrepare_spec.
Qed.

(** ** Causes

    Properties of every run of a plan compose along the plan. *)

Definition every (P : list (move W) → Prop) (p : plan (W:=W)) : Prop := ∀ err mvs, p err mvs → P mvs.

Lemma every_sending P data p : P [] → every P p → every P (sending data p).
Proof. intros Hnil Hp. destruct data; [done|]. by intros err mvs [-> _]. Qed.

Lemma every_if {A} P (d : {A} + {¬ A}) p1 p2 :
  (A → every P p1) → (¬ A → every P p2) → every P (if d then p1 else p2).
Proof. destruct d; auto. Qed.

Section pointwise.
Variable P : move W → Prop.

Lemma every_skips : every (Forall P) skips.
Proof. intros err mvs [-> _]. constructor. Qed.

Lemma every_refuses : every (Forall P) refuses.
Proof. intros err mvs [-> _]. constructor. Qed.

Lemma every_then mv p : P mv → every (Forall P) p → every (Forall P) (then_ mv p).
Proof. intros Hmv Hp err mvs (mvs' & -> & Hr). constructor; [done|by eapply Hp]. Qed.

Lemma every_executes now s :
  (∀ req, P (MExecute s req)) → (∀ req why, P (MReject s req why)) → P (MOwnCheckpoint now s) →
  every (Forall P) (executes now s).
Proof.
  intros He Hr Hc err mvs (req & [(why & -> & _)|[-> _]]); repeat constructor; auto.
  case_decide; repeat constructor; auto.
Qed.
End pointwise.

(** The request is put under number [s] by this call, at a node in this state: it proposes it and
    may, or it processes a PRE-PREPARE of its view whose digest is right. *)
Definition accepted n (m : PrePrepareMsg) (s : Z) (req : Request) : Prop :=
  ppm_View m = view n ∧ computeDigest (ppm_Request m) = ppm_Digest m ∧
  ppm_Sequence m = s ∧ ppm_Request m = req.

Definition takes (ev : event W) n (s : Z) (req : Request) : Prop :=
  match ev with
  | EvProposeLocked peers r => may_propose peers n ∧ s = next_number n ∧ req = r
  | EvProposeSend _ m => accepted n m s req
  | EvNetwork _ peers _ msgType payload =>
      msgType = 7%Z ∧ DeserializeRequest payload = Ok req ∧ may_propose peers n ∧ s = next_number n
  | EvProcess _ => ∃ m, head (messageQueue n) = Some (MPrePrepare m) ∧ accepted n m s req
  | _ => False
  end.

(** The PREPARE that this call records: the one it processes, or its own for the request it takes. *)
Definition prepares (ev : event W) n (p : PrepareMsg) : Prop :=
  pm_View p = view n ∧
  ((∃ now, ev = EvProcess now ∧ head (messageQueue n) = Some (MPrepare p)) ∨
   (pm_NodeID p = nodeID n ∧ ∃ req, takes ev n (pm_Sequence p) req ∧ pm_Digest p = computeDigest req)).

(** The COMMIT that this call records: the one it processes, or its own, which takes 2f+1 PREPAREs. *)
Definition votes_commit (ev : event W) n (m : CommitMsg) : Prop :=
  cm_View m = view n ∧
  ((∃ now, ev = EvProcess now ∧ head (messageQueue n) = Some (MCommit m)) ∨
   (cm_NodeID m = nodeID n ∧ ∃ p, prepares ev n p ∧ pm_Sequence p = cm_Sequence m ∧
      quorum n (count_votes (add_vote (pm_Sequence p) (pm_NodeID p) p (prepareLog n)) (cm_Sequence m)))).

(** The VIEW-CHANGE that this call records from the network. *)
Definition votes_view (ev : event W) n (m : ViewChangeMsg) : Prop :=
  ∃ now peers pick payload, ev = EvNetwork now peers pick 3 payload ∧
    DeserializeViewChange payload = Ok m ∧ (view n < vcm_NewView m)%Z.

Definition caused (ev : event W) n (mv : move W) : Prop :=
  match mv with
  | MAssign s req => takes ev n s req
  | MAccept m => takes ev n (ppm_Sequence m) (ppm_Request m)
  | MCommitVote m | MOwnCommit m => votes_commit ev n m
  | MViewVote m => votes_view ev n m
  | MEnterView v => ∃ m, votes_view ev n m ∧ vcm_NewView m = v ∧
      quorum n (count_votes (add_vote v (vcm_NodeID m) m (viewChangeLog n)) v)
  | MStable _ _ => ∃ now peers pick payload, ev = EvNetwork now peers pick 4 payload
  | MSuspect => ev = EvTimeout ∧ (state n ≠ StateIdle ∨ hasPendingClientRequest n = true)
  | _ => True
  end.

#[local] Hint Resolve every_skips every_refuses every_sending every_then : core.

Lemma executes_caused ev n now s : every (Forall (caused ev n)) (executes now s).
Proof. by apply every_executes. Qed.

Lemma commits_caused ev n now s digest p :
  prepares ev n p → pm_Sequence p = s →
  quorum n (count_votes (add_vote s (pm_NodeID p) p (prepareLog n)) s) →
  every (Forall (caused ev n)) (commits now s digest n).
Proof.
  intros Hp Hs Hq. apply every_then.
  - split; [done|]. right. split; [done|]. exists p. cbn [cm_Sequence]. by rewrite Hs.
  - apply every_sending; [by constructor|]. apply every_if; intros _; [apply executes_caused|auto].
Qed.

Lemma on_preprepare_caused ev n now m :
  (∀ s req, accepted n m s req → takes ev n s req) →
  every (Forall (caused ev n)) (on_preprepare now m n).
Proof.
  intros Htake. apply every_if; [|auto]. intros [Hv Hd].
  assert (takes ev n (ppm_Sequence m) (ppm_Request m)) as Ht by by apply Htake.
  apply every_then; [done|]. apply every_sending; [by constructor|]. apply every_if; intros Hp.
  - apply (commits_caused _ _ _ _ _ (MkPrepareMsg (view n) (ppm_Sequence m) (ppm_Digest m) (nodeID n)));
      [|done..].
    split; [done|]. right. split; [done|]. eauto.
  - apply every_if; intros _; [apply executes_caused|auto].
Qed.

Lemma on_message_caused n now msg queue :
  messageQueue n = msg :: queue → every (Forall (caused (EvProcess now) n)) (on_message now msg n).
Proof.
  intros Hq. destruct msg as [m|m|m]; cbn [on_message].
  - apply on_preprepare_caused. intros s req Ha. exists m. by rewrite Hq.
  - apply every_if; [|auto]. intros Hv. apply every_then; [done|]. apply every_if; [|auto].
    intros [Hquo _]. apply (commits_caused _ _ _ _ _ m); [|done..].
    split; [done|]. left. exists now. by rewrite Hq.
  - apply every_if; [|auto]. intros Hv. apply every_then.
    + split; [done|]. left. exists now. by rewrite Hq.
    + apply every_if; [|auto]. intros _. apply executes_caused.
Qed.

Lemma on_network_caused n now peers pick ty payload :
  every (Forall (caused (EvNetwork now peers pick ty payload) n)) (on_network now peers pick ty payload n).
Proof.
  assert (Hqueue : ∀ msg ev, every (Forall (caused ev n)) (on_queueable pick msg n)).
  { intros [msg|err] ev; cbn [on_queueable]; [|auto]. by apply every_if; [intros _; apply every_then|auto]. }
  apply every_if; [auto|]. intros _. apply every_if; [auto|]. intros _. apply every_if; [auto|].
  intros _. apply every_if.
  { intros ->. destruct (DeserializeViewChange payload) as [m|] eqn:Hm; [|auto].
    apply every_if; [|auto]. intros Hlt.
    assert (votes_view (EvNetwork now peers pick 3 payload) n m) as Hv by (do 4 eexists; eauto).
    apply every_then; [done|]. apply every_if; [|auto]. intros Hq. apply every_then; [|auto].
    exists m. eauto. }
  intros _. apply every_if.
  { intros ->. destruct (DeserializeCheckpoint payload) as [c|]; [|auto]. apply every_if; [|auto].
    intros _. apply every_then; [done|]. intros err mvs [(d & _ & mvs' & -> & -> & _)|[_ [-> _]]];
      [|constructor]. repeat constructor. by do 4 eexists. }
  intros _. apply every_if; [auto|]. intros _. apply every_if; [|auto]. intros ->.
  destruct (DeserializeRequest payload) as [req|] eqn:Hreq; [|auto].
  destruct (isPrimary n); [|by apply every_then]. apply every_if; [|auto]. intros Hmay.
  apply every_then; [done|]. apply every_sending; [by constructor|]. apply on_preprepare_caused.
  by intros s r (_ & _ & <- & <-).
Qed.

(** Every move has its cause in the call and in the state the call started from. *)
Lemma script_caused ev n : every (Forall (caused ev n)) (script ev n).
Proof.
  destruct ev; cbn [script]; try (by apply every_then).
  - apply every_if; [|auto]. intros Hmay. by apply every_then.
  - apply every_sending; [by constructor|]. by apply on_preprepare_caused.
  - apply on_network_caused.
  - destruct (messageQueue n) as [|msg queue] eqn:Hq; [auto|]. apply every_then; [done|].
    by eapply on_message_caused.
  - apply every_if; [auto|]. intros Hbusy. apply every_then; [|auto]. split; [done|].
    destruct (decide (state n = StateIdle)), (hasPendingClientRequest n); tauto.
Qed.

(** ** Executions *)

(** The request a move runs. *)
Definition runs (mv : move W) : option (Z * Request) :=
  match mv with MExecute s req | MReject s req _ => Some (s, req) | _ => None end.

(** Moves that record something, before an execution. *)
Definition records (mv : move W) : bool :=
  match mv with
  | MDequeue _ | MAssign _ _ | MAccept _ | MPrepareVote _ | MOwnCommit _ | MCommitVote _ => true
  | _ => false
  end.

Definition checkpoints_only (mv : move W) : bool :=
  match mv with MOwnCheckpoint _ _ => true | _ => false end.

(** A call runs at most one request, after it has recorded what it was given. *)
Inductive one_run : list (move W) → Prop :=
| run_none mvs : Forall (λ mv, runs mv = None) mvs → one_run mvs
| run_later mv mvs : records mv = true → one_run mvs → one_run (mv :: mvs)
| run_now mv mvs :
    is_Some (runs mv) → Forall (λ mv, checkpoints_only mv = true) mvs → one_run (mv :: mvs).

Lemma one_run_skips : every one_run skips.
Proof. intros err mvs [-> _]. by apply run_none. Qed.

Lemma one_run_refuses : every one_run refuses.
Proof. intros err mvs [-> _]. by apply run_none. Qed.

Lemma one_run_then mv p : records mv = true → every one_run p → every one_run (then_ mv p).
Proof. intros Hmv Hp err mvs (mvs' & -> & Hr). apply run_later; [done|by eapply Hp]. Qed.

Lemma one_run_quiet p : every (Forall (λ mv, runs mv = None)) p → every one_run p.
Proof. intros Hp err mvs Hr. by apply run_none, (Hp err). Qed.

Lemma one_run_executes now s : every one_run (executes now s).
Proof.
  intros err mvs (req & [(why & -> & _)|[-> _]]); (apply run_now; [by eexists|]); [constructor|].
  case_decide; by repeat constructor.
Qed.

#[local] Hint Resolve one_run_skips one_run_refuses one_run_executes : core.

Lemma one_run_commits now s digest n : every one_run (commits now s digest n).
Proof.
  apply one_run_then; [done|]. apply every_sending; [by constructor|]. apply every_if; auto.
Qed.

#[local] Hint Resolve one_run_commits : core.

Lemma one_run_preprepare now m n : every one_run (on_preprepare now m n).
Proof.
  apply every_if; [|auto]. intros _. apply one_run_then; [done|]. apply every_sending; [by constructor|].
  apply every_if; [auto|]. intros _. apply every_if; auto.
Qed.

Lemma one_run_message now msg n : every one_run (on_message now msg n).
Proof.
  destruct msg; cbn [on_message]; [apply one_run_preprepare|..];
    (apply every_if; [|auto]; intros _; apply one_run_then; [done|]; apply every_if; auto).
Qed.

Lemma one_run_network now peers pick ty payload n : every one_run (on_network now peers pick ty payload n).
Proof.
  assert (Hqueue : ∀ msg, every one_run (on_queueable pick msg n)).
  { intros [msg|err]; cbn [on_queueable]; [|auto]. apply every_if; [|auto]. intros _.
    apply one_run_quiet. by apply every_then. }
  apply every_if; [auto|]. intros _. apply every_if; [auto|]. intros _. apply every_if; [auto|].
  intros _. apply every_if.
  { intros _. apply one_run_quiet. destruct (DeserializeViewChange payload) as [m|]; [|auto].
    apply every_if; [|auto]. intros _. apply every_then; [done|]. apply every_if; [|auto].
    intros _. by apply every_then. }
  intros _. apply every_if.
  { intros _. apply one_run_quiet. destruct (DeserializeCheckpoint payload) as [c|]; [|auto].
    apply every_if; [|auto]. intros _. apply every_then; [done|].
    intros err mvs [(d & _ & mvs' & -> & -> & _)|[_ [-> _]]]; by repeat constructor. }
  intros _. apply every_if; [auto|]. intros _. apply every_if; [|auto]. intros _.
  destruct (DeserializeRequest payload) as [req|]; [|auto].
  destruct (isPrimary n); [|by apply one_run_quiet, every_then]. apply every_if; [|auto]. intros _.
  apply one_run_then; [done|]. apply every_sending; [by constructor|]. apply one_run_preprepare.
Qed.

Lemma script_one_run ev n : every one_run (script ev n).
Proof.
  destruct ev; cbn [script]; try (by apply one_run_quiet, every_then).
  - apply one_run_quiet, every_if; [|auto]. intros _. by apply every_then.
  - apply every_sending; [by constructor|]. apply one_run_preprepare.
  - apply one_run_network.
  - destruct (messageQueue n) as [|msg queue]; [auto|]. apply one_run_then; [done|].
    apply one_run_message.
  - apply one_run_quiet, every_if; [auto|]. intros _. by apply every_then.
Qed.

(** What a recording move leaves alone. *)
Lemma records_frame mv x y :
  spec_step mv x y → records mv = true →
  snd y = snd x ∧ f (fst y) = f (fst x) ∧ handlers (fst y) = handlers (fst x) ∧
  stateReplicator (fst y) = stateReplicator (fst x).
Proof. by destruct 1. Qed.

Lemma checkpoints_only_frame mvs x y :
  moves_run mvs x y → Forall (λ mv, checkpoints_only mv = true) mvs →
  snd y = snd x ∧ commitLog (fst y) = commitLog (fst x).
Proof.
  induction 1 as [x|mv mvs x y z Hs _ IH]; [done|]. intros [Hmv Hmvs]%Forall_cons.
  destruct (IH Hmvs) as [-> ->]. by destruct Hs.
Qed.

Lemma runs_none_keeps mvs x y :
  moves_run mvs x y → Forall (λ mv, runs mv = None) mvs → snd y = snd x.
Proof.
  induction 1 as [x|mv mvs x y z Hs _ IH]; [done|]. intros [Hmv Hmvs]%Forall_cons.
  rewrite (IH Hmvs). by destruct Hs.
Qed.

(** The application changes by one request on a quorum of commit votes, if at all. *)
Lemma one_run_effect mvs x y :
  moves_run mvs x y → one_run mvs →
  snd y = snd x ∨ ∃ s req mvs1 mvs2 z,
    mvs = mvs1 ++ mvs2 ∧ moves_run mvs1 x z ∧ requestLog (fst z) !! s = Some req ∧
    quorum (fst x) (count_votes (commitLog (fst y)) s) ∧ snd y = apply_request (fst x) req (snd x).
Proof.
  intros Hr Hone. revert x y Hr.
  induction Hone as [mvs Hq|mv mvs Hrec _ IH|mv mvs Hrun Hck]; intros x z Hr.
  - left. by eapply runs_none_keeps.
  - inversion Hr as [|mv' mvs' x' y z' Hs Hr']; subst.
    destruct (records_frame _ _ _ Hs Hrec) as (Hw & Hf & Hh & Hrep).
    destruct (IH _ _ Hr') as [Hsame|(s & req & m1 & m2 & u & -> & Hr1 & Hreq & Hquo & Happ)];
      [left; congruence|].
    right. exists s, req, (mv :: m1), m2, u. split_and!; [done|by econstructor|done| |].
    + revert Hquo. unfold quorum. by rewrite Hf.
    + rewrite Happ, Hw. unfold apply_request, replicated. by rewrite Hh, Hrep.
  - inversion Hr as [|mv' mvs' x' y z' Hs Hr']; subst.
    destruct (checkpoints_only_frame _ _ _ Hr' Hck) as [Hw Hc]. right.
    destruct Hs; try (by destruct Hrun); cbn [fst snd] in *.
    all: eexists s, req, [], (_ :: mvs), (n, w); rewrite Hw, Hc;
      (split_and!; [done|constructor|done|done|]); unfold apply_request;
      match goal with Hcall : call_handlers _ _ _ = _ |- _ => by rewrite Hcall end.
Qed.

(** Where logged requests and votes come from. *)
Lemma moves_requests (mvs : list (move W)) x y s req :
  moves_run mvs x y → requestLog (fst y) !! s = Some req →
  requestLog (fst x) !! s = Some req ∨ MAssign s req ∈ mvs ∨
  ∃ m, MAccept m ∈ mvs ∧ ppm_Sequence m = s ∧ ppm_Request m = req.
Proof.
  induction 1 as [x|mv mvs x y z Hs _ IH]; [by left|]. intros Hreq.
  destruct (IH Hreq) as [Hy|[Hin|(m & Hin & Hm)]].
  - destruct Hs; cbn [fst] in *; try (by left); simpl in Hy.
    + apply lookup_insert_Some in Hy as [[<- <-]|[_ Hy]]; [|by left]. right. left. by left.
    + apply lookup_insert_Some in Hy as [[<- <-]|[_ Hy]]; [|by left]. right. right. exists m. by split; [left|].
    + apply lookup_delete_Some in Hy as [_ Hy]. by left.
    + rewrite lookup_drop_upto in Hy. case_decide; [by left|done].
  - right. left. by right.
  - right. right. exists m. by split; [right|].
Qed.

Lemma moves_commits (mvs : list (move W)) x y s id m :
  moves_run mvs x y → votes_at (commitLog (fst y)) s !! id = Some m →
  votes_at (commitLog (fst x)) s !! id = Some m ∨
  (cm_Sequence m = s ∧ cm_NodeID m = id ∧ (MCommitVote m ∈ mvs ∨ MOwnCommit m ∈ mvs)).
Proof.
  induction 1 as [x|mv mvs x y z Hs _ IH]; [by left|]. intros Hv.
  destruct (IH Hv) as [Hy|(Hm & Hid & Hin)].
  - destruct Hs; cbn [fst] in *; try (by left); simpl in Hy.
    + rewrite votes_at_add in Hy. case_decide as Hsq; [|by left].
      apply lookup_insert_Some in Hy as [[<- <-]|[_ Hy]]; [|by left].
      right. split_and!; [done..|]. right. by left.
    + rewrite votes_at_add in Hy. case_decide as Hsq; [|by left].
      apply lookup_insert_Some in Hy as [[<- <-]|[_ Hy]]; [|by left].
      right. split_and!; [done..|]. left. by left.
    + rewrite votes_at_drop in Hy. case_decide; [by left|done].
  - right. split_and!; [done..|]. destruct Hin; [left|right]; by right.
Qed.

(** ** View changes *)

(** The callbacks that an operation calls, with what they are told. *)
Definition calls (es : list effect) : list (Callback * bool * error) :=
  omap (λ e, match e with ECallback cb ok err => Some (cb, ok, err) | _ => None end) es.

(** What every registered callback is told when the node gives up on its view. *)
Definition failures (reason : string) (callbacks : gmap string (option Callback)) :
    list (Callback * bool * error) :=
  omap (λ e, (λ cb, (cb, false, Some ("consensus failed: " +:+ reason +:+ " (request: " +:+ e.1 +:+ ")")))
    <$> e.2) (map_to_list callbacks).

(** The part of [initiateViewChange] and [HandleViewChange] that runs in the new view [v]: the
    callbacks called are the registered ones, each of them once. *)
Definition entered n v (reason : string) n' (es : list effect) : Prop :=
  view n' = v ∧ state n' = StateIdle ∧ hasPendingClientRequest n' = false ∧
  requestCallbacks n' = ∅ ∧
  (isPrimary n' = true ↔ GetPrimary n' = Done (nodeID n')) ∧
  calls es ≡ₚ failures reason (requestCallbacks n) ∧
  (prepareLog n', commitLog n', requestLog n', sequence n')
    = (prepareLog n, commitLog n, requestLog n, sequence n).

Lemma calls_app es es' : calls (es ++ es') = calls es ++ calls es'.
Proof. apply omap_app. Qed.

Lemma failPendingCallbacks_all reason n n' es :
  failPendingCallbacks reason n = (n', es) →
  n' = set_requestCallbacks ∅ n ∧ calls es = failures reason (requestCallbacks n).
Proof.
  unfold failPendingCallbacks. intros [= <- <-]. split; [done|].
  rewrite copy_map_id. unfold failures. induction (map_to_list (requestCallbacks n)) as [|[id [cb|]] l IH];
    [done| |]; simpl; by rewrite ?IH.
Qed.

Lemma eqb_primary (id p : string) : (id =? p)%string = true ↔ @Done string p = Done id.
Proof. rewrite String.eqb_eq. split; [by intros ->|by intros [= ->]]. Qed.

(** Something is pending: a consensus round, or a client request the primary has not started. *)
Definition busy n : bool := negb ((state n =? StateIdle)%string && negb (hasPendingClientRequest n)).

Lemma initiateViewChange_spec n n' es :
  initiateViewChange n = Done (n', es) →
  if busy n then entered n (wrap_i64 (view n + 1)) "view timeout" n' es else n' = n.
Proof.
  unfold initiateViewChange, busy.
  destruct (_ && _); cbn [negb]; [by intros [= <- _]|].
  destruct (primary_of _ _) as [p|] eqn:Hprim; cbn [outcome_bind]; [|done].
  destruct (failPendingCallbacks _ _) as [n2 es2] eqn:Hf.
  apply failPendingCallbacks_all in Hf as [-> Hall]. intros [= <- <-].
  unfold entered, GetPrimary; simpl in *. rewrite Hprim. split_and!; try done.
  - apply eqb_primary.
  - rewrite <- Hall. destruct (envelope _ _ _); done.
Qed.

Lemma HandleViewChange_spec m n n' es :
  HandleViewChange m n = Done (n', es) →
  if decide (vcm_NewView m ≤ view n)%Z then n' = n else
  let votes := add_vote (vcm_NewView m) (vcm_NodeID m) m (viewChangeLog n) in
  if decide (count_votes votes (vcm_NewView m) < required_votes n)%Z then
    n' = set_viewChangeLog votes n
  else entered n (vcm_NewView m) "view change" n' es.
Proof.
  unfold HandleViewChange.
  destruct (Z.leb_spec (vcm_NewView m) (view n)); [rewrite decide_True by done; by intros [= <- _]|].
  rewrite decide_False by lia. set (n1 := set_viewChangeLog _ n).
  change (required_votes n) with (required_votes n1).
  change (add_vote _ _ _ _) with (viewChangeLog n1).
  destruct (Z.ltb_spec (count_votes (viewChangeLog n1) (vcm_NewView m)) (required_votes n1));
    [rewrite decide_True by done; by intros [= <- _]|]. rewrite decide_False by lia.
  destruct (primary_of _ _) as [p|] eqn:Hprim; cbn [outcome_bind]; [|done].
  destruct (failPendingCallbacks _ _) as [n2 es2] eqn:Hf.
  apply failPendingCallbacks_all in Hf as [-> Hall]. intros [= <- <-].
  unfold entered, GetPrimary; simpl in *. rewrite Hprim. split_and!; try done.
  - apply eqb_primary.
  - by rewrite <- Hall.
Qed.

(** ** Checkpoints *)

(** All logs of [n'] are those of [n] above [s], and empty up to [s]. *)
Definition collected s n n' : Prop :=
  ∀ k,
    requestLog n' !! k = (if decide (s < k)%Z then requestLog n !! k else None) ∧
    votes_at (prepareLog n') k = (if decide (s < k)%Z then votes_at (prepareLog n) k else ∅) ∧
    votes_at (commitLog n') k = (if decide (s < k)%Z then votes_at (commitLog n) k else ∅) ∧
    votes_at (checkpointVotes n') k =
      (if decide (s < k)%Z then votes_at (checkpointVotes n) k else ∅) ∧
    checkpoints n' !! k = (if decide (s ≤ k)%Z then checkpoints n !! k else None).

Lemma garbageCollect_collected s n :
  collected s n (set_checkpointVotes (drop_upto s (checkpointVotes n)) (garbageCollect s n)).
Proof.
  intros k; simpl. rewrite !votes_at_drop, !lookup_drop_upto.
  repeat case_decide; try lia; by split_and!.
Qed.

End inv.
End PbftInv.
