(* ===== verification/PbftSafety.v ===== *)
(** Safety of one PBFT node ([src/pkg/consensus/pbft.go]), over every sequence of its entry points
    and every interleaving of the two halves of [ProposeRequest] with the rest. The single-node
    facts come from [PbftInv]; the concrete runs use the codec of [Proto]. *)

From S2P Require Import Prelude Hashing Proto Messages Pbft PbftSpec PbftInv.

Module PbftSafety.
Import Messages Pbft PbftSpec PbftInv.

Section safety.
Context {W : Type}.
Context `{pb.ProtoMessage pb.ValidatorMessage, pb.ProtoMessage pb.PrePrepare,
  pb.ProtoMessage pb.Prepare, pb.ProtoMessage pb.Commit, pb.ProtoMessage pb.Request,
  pb.ProtoMessage pb.ViewChange, pb.ProtoMessage pb.Checkpoint}.
Implicit Types n : PBFTNode W.
Implicit Types w : W.

(** * One entry point *)

Definition turns (mv : move W) : bool :=
  match mv with MSuspect | MEnterView _ => true | _ => false end.

Lemma moves_keep_view (mvs : list (move W)) x y :
  moves_run mvs x y → Forall (λ mv, turns mv = false) mvs →
  view (fst y) = view (fst x) ∧ isPrimary (fst y) = isPrimary (fst x).
Proof.
  induction 1 as [x|mv mvs x y z Hs _ IH]; [done|]. intros [Hmv Hmvs]%Forall_cons.
  destruct (IH Hmvs) as [-> ->]. by destruct Hs.
Qed.

Lemma handle_view ev n w n' w' es err :
  handle ev n w = Done (n', w', es, err) →
  (view n' = view n ∧ isPrimary n' = isPrimary n) ∨
  (ev = EvTimeout ∧ busy n = true ∧ entered n (wrap_i64 (view n + 1)) "view timeout" n' es) ∨
  (∃ m, votes_view ev n m ∧ entered n (vcm_NewView m) "view change" n' es ∧
    quorum n (count_votes (add_vote (vcm_NewView m) (vcm_NodeID m) m (viewChangeLog n)) (vcm_NewView m))).
Proof.
  intros Hh. pose proof (handle_scripted _ _ _ _ _ _ _ Hh) as (mvs & Hs & Hr).
  pose proof (script_caused ev n err mvs Hs) as Hcause. rewrite Forall_forall in Hcause.
  destruct (decide (Forall (λ mv, turns mv = false) mvs)) as [Hno|Hex].
  { left. by apply (moves_keep_view mvs (n, w) (n', w')). }
  right. apply not_Forall_Exists, Exists_exists in Hex as (mv & Hin & Hmv); [|apply _].
  apply Hcause in Hin. destruct mv; cbn in Hin, Hmv; try by destruct Hmv.
  - left. destruct Hin as [-> Hb]. cbn in Hh.
      destruct (initiateViewChange n) as [[n1 es1]|] eqn:Hv; simplify_eq/=.
      apply initiateViewChange_spec in Hv.
      assert (busy n = true) as Hbusy.
      { unfold busy. destruct (String.eqb_spec (state n) StateIdle); [|done].
        destruct Hb as [?|Hb]; [done|by rewrite Hb]. }
      by rewrite Hbusy in Hv.
  - right. destruct Hin as (m & Hm & <- & Hq). exists m. split_and!; [done| |done].
      destruct Hm as (now & peers & pick & payload & -> & Hd & Hlt). cbn in Hh. rewrite Hd in Hh.
      destruct (HandleViewChange m n) as [[n1 es1]|] eqn:Hv; simplify_eq/=.
      apply HandleViewChange_spec in Hv. rewrite decide_False in Hv by lia. cbv zeta in Hv.
      rewrite decide_False in Hv; [done|]. apply quorum_required in Hq. lia.
Qed.

(** ** History *)

(** Some call of the run [evs], made at the node and state the run had come to, is as [Q] says. *)
Definition happened (cfg : Config) w0 (evs : list (event W)) (Q : event W → PBFTNode W → Prop) : Prop :=
  ∃ evs1 ev evs2 n1 w1,
    evs = evs1 ++ ev :: evs2 ∧ run evs1 (NewPBFTNode cfg) w0 = Done (n1, w1) ∧ Q ev n1.

Lemma happened_earlier cfg w0 evs ev Q : happened cfg w0 evs Q → happened cfg w0 (evs ++ [ev]) Q.
Proof.
  intros (evs1 & ev1 & evs2 & n1 & w1 & -> & Hr & HQ). exists evs1, ev1, (evs2 ++ [ev]), n1, w1.
  by rewrite <- app_assoc.
Qed.

Lemma happened_now cfg w0 evs ev n w (Q : event W → PBFTNode W → Prop) :
  run evs (NewPBFTNode cfg) w0 = Done (n, w) → Q ev n → happened cfg w0 (evs ++ [ev]) Q.
Proof. intros Hr HQ. by exists evs, ev, [], n, w. Qed.

Lemma run_snoc evs ev n0 w0 n w :
  run (evs ++ [ev]) n0 w0 = Done (n, w) →
  ∃ n1 w1 es err, run evs n0 w0 = Done (n1, w1) ∧ handle ev n1 w1 = Done (n, w, es, err).
Proof.
  rewrite run_app. destruct (run evs n0 w0) as [[n1 w1]|]; cbn; [|done].
  destruct (handle ev n1 w1) as [[[[n2 w2] es] err]|] eqn:Hh; cbn; [|done].
  intros [= <- <-]. by exists n1, w1, es, err.
Qed.

(** The moves of a call and their causes. *)
Lemma handle_moves ev n w n' w' es err :
  handle ev n w = Done (n', w', es, err) →
  ∃ mvs, moves_run mvs (n, w) (n', w') ∧ one_run mvs ∧ ∀ mv, mv ∈ mvs → caused ev n mv.
Proof.
  intros (mvs & Hs & Hr)%handle_scripted. exists mvs. split_and!; [done|by eapply script_one_run|].
  apply Forall_forall. by eapply script_caused.
Qed.

(** Every logged request was proposed here or came in a PRE-PREPARE. *)
Lemma logged_request_taken cfg w0 evs n w s req :
  run evs (NewPBFTNode cfg) w0 = Done (n, w) → requestLog n !! s = Some req →
  happened cfg w0 evs (λ e k, takes e k s req).
Proof.
  revert n w. induction evs as [|ev evs IH] using rev_ind; intros n w Hr Hreq.
  { injection Hr as <- <-. cbn in Hreq. by rewrite lookup_empty in Hreq. }
  apply run_snoc in Hr as (n1 & w1 & es & err & Hr & Hh).
  apply handle_moves in Hh as (mvs & Hm & _ & Hcause).
  destruct (moves_requests _ _ _ _ _ Hm Hreq) as [Hold|[Hin|(m & Hin & <- & <-)]].
  - by eapply happened_earlier, IH.
  - eapply happened_now; [done|]. by apply Hcause in Hin.
  - eapply happened_now; [done|]. by apply Hcause in Hin.
Qed.

(** Every commit vote on record was received here in its view or cast here. *)
Lemma logged_commit_cast cfg w0 evs n w s id m :
  run evs (NewPBFTNode cfg) w0 = Done (n, w) → votes_at (commitLog n) s !! id = Some m →
  happened cfg w0 evs (λ e k, votes_commit e k m).
Proof.
  revert n w. induction evs as [|ev evs IH] using rev_ind; intros n w Hr Hv.
  { injection Hr as <- <-. cbn in Hv. unfold votes_at in Hv. by rewrite lookup_empty in Hv. }
  apply run_snoc in Hr as (n1 & w1 & es & err & Hr & Hh).
  apply handle_moves in Hh as (mvs & Hm & _ & Hcause).
  destruct (moves_commits _ _ _ _ _ _ Hm Hv) as [Hold|(_ & _ & [Hin|Hin])].
  - by eapply happened_earlier, IH.
  - eapply happened_now; [done|]. by apply Hcause in Hin.
  - eapply happened_now; [done|]. by apply Hcause in Hin.
Qed.

(** ** Panics *)

Lemma primary_of_total v t : t ≠ 0%Z → ¬ ∃ why, primary_of v t = Panic why.
Proof. intros Ht [why]. unfold primary_of in *. apply Z.eqb_neq in Ht. by rewrite Ht in *. Qed.

Lemma initiateViewChange_total n :
  totalNodes n ≠ 0%Z → ∃ n' es, initiateViewChange n = Done (n', es).
Proof.
  intros Ht. unfold initiateViewChange. destruct (_ && _); [by do 2 eexists|].
  destruct (primary_of _ _) as [p|why] eqn:Hp; cbn [outcome_bind].
  - destruct (failPendingCallbacks _ _) as [n2 es2]. by do 2 eexists.
  - exfalso. apply (primary_of_total (wrap_i64 (view n + 1)) _ Ht). exists why. exact Hp.
Qed.

Lemma HandleViewChange_total m n :
  totalNodes n ≠ 0%Z → ∃ n' es, HandleViewChange m n = Done (n', es).
Proof.
  intros Ht. unfold HandleViewChange. destruct (_ <=? _)%Z; [by do 2 eexists|].
  destruct (_ <? _)%Z; [by do 2 eexists|].
  destruct (primary_of _ _) as [p|why] eqn:Hp; cbn [outcome_bind].
  - destruct (failPendingCallbacks _ _) as [n2 es2]. by do 2 eexists.
  - exfalso. apply (primary_of_total (vcm_NewView m) _ Ht). exists why. exact Hp.
Qed.

Lemma handle_total ev n w :
  totalNodes n ≠ 0%Z → ∃ n' w' es err, handle ev n w = Done (n', w', es, err).
Proof.
  intros Ht. destruct ev; simpl; try (by do 4 eexists).
  - destruct (propose_locked _ _ _). by do 4 eexists.
  - destruct (propose_send now m n w) as [[[]]]. by do 4 eexists.
  - unfold HandleNetworkMessage. repeat (case_match; try by do 4 eexists).
    + destruct (HandleViewChange_total a n Ht) as (n1 & es1 & ->). by do 4 eexists.
    + destruct (ProposeRequest _ _ _ _ _) as [[[]]]. by do 4 eexists.
  - destruct (processMessage now n w) as [[[[]]]|]; by do 4 eexists.
  - destruct (initiateViewChange_total n Ht) as (n1 & es1 & ->). by do 4 eexists.
Qed.

Lemma spec_run_totalNodes x y : spec_run (W:=W) x y → totalNodes (fst y) = totalNodes (fst x).
Proof. intros [mvs Hr]. induction Hr as [|mv mvs x y z Hs _ IH]; [done|]. rewrite IH. by destruct Hs. Qed.

Lemma initiateViewChange_zero n :
  totalNodes n = 0%Z → busy n = true → initiateViewChange n = Panic "integer divide by zero".
Proof.
  intros Ht. unfold busy, initiateViewChange. destruct (_ && _); [done|]. intros _.
  destruct (primary_of _ _) as [p|why] eqn:Hp; cbn [outcome_bind];
    unfold primary_of in Hp; cbn [totalNodes set_view set_pending] in Hp; rewrite Ht in Hp;
    [done|]. by injection Hp as <-.
Qed.

(** * The claims *)

(** C9: refinement: whatever sequence of entry points a node goes through, proposals, network
    messages, queue processing, timeouts, registrations, each of them makes exactly the moves that its
    script gives it for the error it returns, in that order. The script follows from the call and the
    state: which checks refuse it, where a vote completes a quorum, what happens when the node cannot
    encode what it sends. A move has a guard and says what every field of the node and the application
    become: a timer that fires while nothing is pending makes none; a message of another view or with a
    wrong digest makes none and is an error; a message that finds room is queued; a request is executed
    only on a commit quorum and is then gone from the log; handlers, replicator, queue, pending flag and
    callbacks change only by the moves that name them. Messages sent and callbacks called are not part
    of a move. *)
Theorem operations_refine_protocol evs n w n' w' :
  run evs n w = Done (n', w') → scripted (answered evs n w) (n, w) (n', w').
Proof. apply run_scripted. Qed.

(** C20: in every reachable state each vote is filed under the sequence (or view) and the sender it
    names, so a log with k entries holds votes of k different senders; own checkpoints carry the
    digest of their sequence; identity, size and fault bound are those of the configuration. *)
Theorem reachable_logs_wellformed evs cfg w n' w' :
  run evs (NewPBFTNode cfg) w = Done (n', w') → node_inv cfg n'.
Proof.
  intros Hr. apply run_refines in Hr.
  apply (spec_run_inv cfg _ _ Hr), NewPBFTNode_inv.
Qed.

(** C2: in a run of a node from its configuration, a call changes the application only by running one
    request, its handlers, and its replication when they all succeed. That request was put under
    its number by a call of this very run: the node proposed it as primary with enough nodes up, or
    processed a PRE-PREPARE of its view with the right digest. The commit votes on record for that
    number are those of at least 2f+1 distinct senders, each filed under its own sender, and each was
    recorded by a call of this run: a COMMIT that the node received in the vote's view, or its own,
    cast when 2f+1 PREPAREs were on record. *)
Theorem execution_needs_commit_quorum cfg evs ev w0 n w n' w' es err :
  run evs (NewPBFTNode cfg) w0 = Done (n, w) →
  handle ev n w = Done (n', w', es, err) → w' ≠ w →
  ∃ s req,
    happened cfg w0 (evs ++ [ev]) (λ e k, takes e k s req) ∧
    w' = apply_request n req w ∧
    quorum n (Z.of_nat (size (votes_at (commitLog n') s))) ∧
    ∀ id m, votes_at (commitLog n') s !! id = Some m →
      cm_Sequence m = s ∧ cm_NodeID m = id ∧
      happened cfg w0 (evs ++ [ev]) (λ e k, votes_commit e k m).
Proof.
  intros Hr Hh Hw.
  assert (Hr' : run (evs ++ [ev]) (NewPBFTNode cfg) w0 = Done (n', w')).
  { rewrite run_app, Hr. cbn. by rewrite Hh. }
  pose proof (spec_run_inv cfg _ _ (run_refines _ _ _ _ _ Hr') (NewPBFTNode_inv cfg)) as Hinv.
  apply handle_moves in Hh as (mvs & Hm & Hone & Hcause).
  destruct (one_run_effect _ _ _ Hm Hone) as [|(s & req & m1 & m2 & [n1 w1] & -> & Hm1 & Hreq & Hq & Happ)];
    [done|].
  exists s, req. split_and!; [|done|done|].
  - destruct (moves_requests _ _ _ _ _ Hm1 Hreq) as [Hold|[Hin|(m & Hin & <- & <-)]].
    + by eapply happened_earlier, logged_request_taken.
    + eapply happened_now; [done|]. apply (Hcause (MAssign s req)), elem_of_app. by left.
    + eapply happened_now; [done|]. apply (Hcause (MAccept m)), elem_of_app. by left.
  - intros id m Hv. destruct (inv_commit _ _ Hinv _ _ _ Hv) as [<- <-]. split_and!; [done..|].
    by eapply logged_commit_cast.
Qed.

(** C23: a node changes view only (1) by one, when its timer fires while a round or a forwarded
    request is pending, or (2) when it receives a VIEW-CHANGE for a higher view and this vote and
    those on record for that view are of 2f+1 distinct senders, each filed under its own; it goes to
    that view. It then is primary exactly if the view's number says so, is idle, calls every
    registered callback exactly once, with the failure of its request, calls no other and forgets
    them, and keeps its logs and its sequence counter. *)
Theorem view_moves_need_cause cfg ev n w n' w' es err :
  node_inv cfg n → handle ev n w = Done (n', w', es, err) →
  view n' ≠ view n ∨ isPrimary n' ≠ isPrimary n →
  (ev = EvTimeout ∧ busy n = true ∧ entered n (wrap_i64 (view n + 1)) "view timeout" n' es) ∨
  (∃ m, votes_view ev n m ∧ entered n (vcm_NewView m) "view change" n' es ∧
    let votes := votes_at (add_vote (vcm_NewView m) (vcm_NodeID m) m (viewChangeLog n)) (vcm_NewView m) in
    quorum n (Z.of_nat (size votes)) ∧
    ∀ id m', votes !! id = Some m' → vcm_NewView m' = vcm_NewView m ∧ vcm_NodeID m' = id).
Proof.
  intros Hinv Hh Hne. apply handle_view in Hh as [[? ?]|[Ht|(m & Hm & He & Hq)]].
  - exfalso. naive_solver.
  - by left.
  - right. exists m. split_and!; [done..|]. intros votes. split; [exact Hq|]. intros id m'.
    apply (votes_ok_add (λ v id m, vcm_NewView m = v ∧ vcm_NodeID m = id)); [done|].
    apply Hinv.
Qed.

(** C24: in a cluster whose nodes agree on its size and start with node0 as primary, two nodes that
    are in the same view are never both primary, however each of them got there. *)
Theorem one_primary_per_view evs1 evs2 cfg1 cfg2 w1 w2 n1 n2 w1' w2' :
  config_ok cfg1 → config_ok cfg2 → cfg_TotalNodes cfg1 = cfg_TotalNodes cfg2 →
  cfg_TotalNodes cfg1 ≠ 0%Z → cfg_NodeID cfg1 ≠ cfg_NodeID cfg2 →
  run evs1 (NewPBFTNode cfg1) w1 = Done (n1, w1') →
  run evs2 (NewPBFTNode cfg2) w2 = Done (n2, w2') →
  view n1 = view n2 → ¬ (isPrimary n1 = true ∧ isPrimary n2 = true).
Proof.
  intros Hc1 Hc2 Ht Hz Hid Hr1 Hr2 Hv [Hp1 Hp2]. apply run_refines in Hr1, Hr2.
  pose proof (spec_run_primary _ _ Hr1 (NewPBFTNode_primary _ Hc1)) as Hi1.
  pose proof (spec_run_primary _ _ Hr2 (NewPBFTNode_primary _ Hc2)) as Hi2.
  pose proof (spec_run_inv cfg1 _ _ Hr1 (NewPBFTNode_inv _)) as Hn1.
  pose proof (spec_run_inv cfg2 _ _ Hr2 (NewPBFTNode_inv _)) as Hn2.
  unfold primary_inv, GetPrimary, primary_of in Hi1, Hi2; simpl in *.
  rewrite (inv_total _ _ Hn1) in Hi1. rewrite (inv_total _ _ Hn2), <- Ht, <- Hv in Hi2.
  apply Z.eqb_neq in Hz. rewrite Hz in Hi1, Hi2.
  specialize (Hi1 _ eq_refl). specialize (Hi2 _ eq_refl).
  rewrite Hp1 in Hi1. rewrite Hp2 in Hi2. symmetry in Hi1, Hi2.
  apply String.eqb_eq in Hi1, Hi2. destruct Hid.
  by rewrite <- (inv_id _ _ Hn1), <- (inv_id _ _ Hn2), Hi1, Hi2.
Qed.

(** C25: a checkpoint message either is below the stable checkpoint and ignored, or is recorded;
    the checkpoint becomes stable exactly when 2f+1 senders reported the same digest for its
    sequence, and then the request, prepare, commit and vote logs lose everything up to it and
    nothing above it. The stable checkpoint never moves back. *)
Theorem stable_checkpoint_by_agreement ckpt n :
  let n' := HandleCheckpoint ckpt n in
  let s := cp_Sequence ckpt in
  let recorded := set_checkpointVotes
    (add_vote s (cp_NodeID ckpt) ckpt (checkpointVotes n)) n in
  ((s ≤ lastStableCheckpoint n)%Z → n' = n) ∧
  ((lastStableCheckpoint n < s)%Z →
    let agreed := ∃ d, quorum n (Z.of_nat (size (digest_votes d (votes_at (checkpointVotes recorded) s)))) in
    (agreed → lastStableCheckpoint n' = s ∧ collected s recorded n') ∧
    (¬ agreed → n' = recorded)) ∧
  (lastStableCheckpoint n ≤ lastStableCheckpoint n')%Z.
Proof.
  intros n' s recorded. unfold n'. destruct (Z.le_gt_cases s (lastStableCheckpoint n)) as [Hle|Hlt].
  { assert (HandleCheckpoint ckpt n = n) as ->.
    { unfold HandleCheckpoint. fold s. by rewrite (proj2 (Z.leb_le _ _) Hle). }
    split_and!; [done|lia|lia]. }
  destruct (HandleCheckpoint_agreed ckpt n Hlt) as [Hyes Hno]. fold s recorded in Hyes, Hno.
  assert (Hag : (∃ d, agreed_on s d (checkpointVotes recorded) n) →
    lastStableCheckpoint (HandleCheckpoint ckpt n) = s ∧ collected s recorded (HandleCheckpoint ckpt n)).
  { intros [d Hd]. rewrite (Hyes d Hd). split; [done|].
    apply (garbageCollect_collected s (set_lastStableCheckpoint s recorded)). }
  split_and!; [lia| |].
  - intros _. split; [exact Hag|]. intros Hn. apply Hno. intros d Hd. apply Hn. by exists d.
  - destruct (existsb (λ e, (required_votes n <=? e.2)%Z)
      (map_to_list (count_digests (votes_at (checkpointVotes recorded) s)))) eqn:He.
    + apply count_digests_quorum_iff in He as [d Hd]; [|apply required_votes_pos].
      destruct Hag as [-> _]; [|lia]. exists d. by apply quorum_required.
    + rewrite Hno; [done|]. intros d Hd. apply not_true_iff_false in He. apply He.
      apply count_digests_quorum_iff; [apply required_votes_pos|]. exists d. by apply quorum_required.
Qed.

(** C26: the node never panics when it is configured with a non-zero number of nodes; with zero
    nodes, asking for the primary panics and so does a timeout while something is pending. *)
Theorem no_panic_unless_zero_nodes evs n w :
  (totalNodes n ≠ 0%Z → ∃ n' w', run evs n w = Done (n', w')) ∧
  (totalNodes n = 0%Z →
    GetPrimary n = Panic "integer divide by zero" ∧
    (busy n = true → initiateViewChange n = Panic "integer divide by zero")).
Proof.
  split.
  - revert n w. induction evs as [|ev evs IH]; intros n w Hn; simpl; [by do 2 eexists|].
    destruct (handle_total ev n w Hn) as (n1 & w1 & es1 & err1 & Ho). rewrite Ho; simpl.
    apply IH. apply handle_refines, spec_run_totalNodes in Ho. simpl in Ho. congruence.
  - intros Hn. split; [|by apply initiateViewChange_zero].
    unfold GetPrimary, primary_of. by rewrite Hn.
Qed.

(** A proposal is refused, leaving the node unchanged, exactly when the node is not primary or
    a cluster of more than one node sees fewer than 2f+1 live nodes including itself; otherwise
    the request gets the next sequence number, and the PRE-PREPARE carries the node's view, that
    number and a digest that a receiver of a well-named operation recomputes from what it decodes. *)
Theorem proposal_guard peers req n :
  let enough := totalNodes n = 1%Z ∨ (2 * f n + 1 ≤ wrap_i64 (peers + 1))%Z in
  (isPrimary n = true ∧ enough →
    ∃ n' m, propose_locked peers req n = (n', Ok m) ∧
      sequence n' = wrap_i64 (sequence n + 1) ∧ ppm_Sequence m = sequence n' ∧
      ppm_View m = view n ∧ ppm_Request m = req ∧
      requestLog n' = <[sequence n' := req]> (requestLog n) ∧
      (known_op (Operation req) →
        computeDigest (received_in_preprepare (ppm_Request m)) = ppm_Digest m)) ∧
  (¬ (isPrimary n = true ∧ enough) → ∃ err, propose_locked peers req n = (n, Err err)).
Proof.
  intros enough. unfold propose_locked. destruct (isPrimary n); simpl.
  2:{ split; [naive_solver|]. intros _. by eexists. }
  destruct (Z.eqb_spec (totalNodes n) 1) as [Hone|Hone]; simpl.
  - split.
    + intros _. do 2 eexists. split; [done|]. simpl. split_and!; [done..|].
      intros Hop. unfold computeDigest, digest_text; simpl. by rewrite normal_op_known.
    + intros Hne. destruct Hne. split; [done|by left].
  - destruct (Z.ltb_spec (wrap_i64 (peers + 1)) (2 * f n + 1)) as [Hlt|Hge].
    + split; [|by eexists]. intros [_ [?|?]]; [done|lia].
    + split.
      * intros _. do 2 eexists. split; [done|]. simpl. split_and!; [done..|].
        intros Hop. unfold computeDigest, digest_text; simpl. by rewrite normal_op_known.
      * intros Hne. destruct Hne. split; [done|by right].
Qed.

End safety.

(** * Concrete runs *)

#[local] Existing Instance pb.bit_codec.

Abbreviation app := (list Request).

(** A handler that records the requests it is given. *)
Definition record_handler : ConsensusHandler (W:=app) := λ req w, (w ++ [req], None).

Definition node_cfg (total i : Z) : Config :=
  MkConfig ("node" +:+ FormatInt i) total (i =? 0)%Z 0.

Definition fresh_node (total i : Z) : PBFTNode app :=
  RegisterHandler record_handler (NewPBFTNode (node_cfg total i)).

Definition request_T1 : Request := MkRequest "validate-T1-7" "T1" "VALIDATE" "payload" 7 "node0".

Definition preprepare_T1 : PrePrepareMsg := MkPrePrepareMsg 0 1 (computeDigest request_T1) request_T1.

Lemma fresh_node_inv total i : node_inv (node_cfg total i) (fresh_node total i).
Proof.
  apply (spec_step_inv _ (MRegisterHandler record_handler) (NewPBFTNode (node_cfg total i), [])
    (fresh_node total i, [])); [constructor|]. apply NewPBFTNode_inv.
Qed.

(** A cluster of one node proposes and executes; then its timer fires with nothing pending. *)
Definition single_node_run : list (event app) :=
  [EvRegisterHandler record_handler; EvProposeLocked 0 request_T1; EvProposeSend 5 preprepare_T1;
   EvTimeout].

(** node1 of four is told of a client request, times out, and becomes primary of view 1; the same
    events make node0 a replica. *)
Definition takeover_run : list (event app) := [EvNotifyPending; EvTimeout].

Lemma operations_refine_protocol_witness : ∃ n',
  run single_node_run (NewPBFTNode (node_cfg 1 0)) [] = Done (n', [request_T1]) ∧
  snd <$> answered single_node_run (NewPBFTNode (node_cfg 1 0)) [] = [None; None; None; None] ∧
  scripted (answered single_node_run (NewPBFTNode (node_cfg 1 0)) [])
    (NewPBFTNode (node_cfg 1 0), []) (n', [request_T1]).
Proof.
  eexists. split; [vm_compute; reflexivity|]. split; [vm_compute; reflexivity|].
  refine (operations_refine_protocol single_node_run _ _ _ _ _). vm_compute; reflexivity.
Defined.

Lemma reachable_logs_wellformed_witness : ∃ n' w',
  run single_node_run (NewPBFTNode (node_cfg 1 0)) [] = Done (n', w') ∧ node_inv (node_cfg 1 0) n'.
Proof.
  do 2 eexists. split; [vm_compute; reflexivity|].
  refine (reachable_logs_wellformed single_node_run (node_cfg 1 0) [] _ _ _). vm_compute; reflexivity.
Defined.

(** The same node up to the step that executes. *)
Definition proposed_run : list (event app) :=
  [EvRegisterHandler record_handler; EvProposeLocked 0 request_T1].

Lemma execution_needs_commit_quorum_witness : ∃ n n' es err s req,
  run proposed_run (NewPBFTNode (node_cfg 1 0)) [] = Done (n, []) ∧
  handle (EvProposeSend 5 preprepare_T1) n [] = Done (n', [request_T1], es, err) ∧
  happened (node_cfg 1 0) [] (proposed_run ++ [EvProposeSend 5 preprepare_T1]) (λ e k, takes e k s req) ∧
  [request_T1] = apply_request n req [].
Proof.
  assert (∃ n, run proposed_run (NewPBFTNode (node_cfg 1 0)) [] = Done (n, []) ∧
    (propose_send 5 preprepare_T1 n []).1.1.2 = [request_T1]) as (n & Hr & Happ).
  { eexists. split; [vm_compute; reflexivity|]. vm_compute. reflexivity. }
  destruct (propose_send 5 preprepare_T1 n []) as [[[n' w'] es] err] eqn:Ho.
  simpl in Happ. subst w'.
  assert (handle (EvProposeSend 5 preprepare_T1) n [] = Done (n', [request_T1], es, err)) as Hh
    by (simpl; by rewrite Ho).
  assert ([request_T1] ≠ []) as Hw by discriminate.
  pose proof (execution_needs_commit_quorum _ _ _ _ _ _ _ _ _ _ Hr Hh Hw) as (s & req & Htake & Heff & _).
  exists n, n', es, err, s, req. exact (conj Hr (conj Hh (conj Htake Heff))).
Defined.

Lemma view_moves_need_cause_witness :
  let n := set_requestCallbacks {["r1" := Some 7]} (set_pending true (fresh_node 4 1)) in
  ∃ n' es, handle EvTimeout n [] = Done (n', [], es, None) ∧
    ((EvTimeout (W:=app) = EvTimeout ∧ busy n = true ∧
       entered n (wrap_i64 (view n + 1)) "view timeout" n' es) ∨
     (∃ m, votes_view (EvTimeout (W:=app)) n m ∧ entered n (vcm_NewView m) "view change" n' es ∧
      let votes := votes_at (add_vote (vcm_NewView m) (vcm_NodeID m) m (viewChangeLog n)) (vcm_NewView m) in
      quorum n (Z.of_nat (size votes)) ∧
      ∀ id m', votes !! id = Some m' → vcm_NewView m' = vcm_NewView m ∧ vcm_NodeID m' = id)).
Proof.
  intros n.
  destruct (initiateViewChange_total n ltac:(discriminate)) as (n' & es & Hv).
  assert (handle EvTimeout n [] = Done (n', [], es, None)) as Hh.
  { cbn [handle]. rewrite Hv. reflexivity. }
  assert (busy n = true) as Hb by reflexivity.
  pose proof (initiateViewChange_spec n n' es Hv) as He. rewrite Hb in He. destruct He as [He _].
  exists n', es. split; [exact Hh|].
  refine (view_moves_need_cause (node_cfg 4 1) EvTimeout n [] n' [] es None _ Hh _).
  - apply (moves_run_inv _ [MPending true; MRegisterCallback "r1" (Some 7)] (fresh_node 4 1, [] : app) (n, []));
      [|apply fresh_node_inv].
    econstructor; [constructor|]. econstructor; [|constructor].
    exact (SRegisterCallback (set_pending true (fresh_node 4 1)) ([] : app) "r1" (Some 7)).
  - left. rewrite He. discriminate.
Defined.

Lemma one_primary_per_view_witness : ∃ n1 n2 w1 w2,
  run takeover_run (NewPBFTNode (node_cfg 4 1)) [] = Done (n1, w1) ∧
  run takeover_run (NewPBFTNode (node_cfg 4 0)) [] = Done (n2, w2) ∧
  view n1 = view n2 ∧ isPrimary n1 = true ∧ ¬ (isPrimary n1 = true ∧ isPrimary n2 = true).
Proof.
  do 4 eexists. split; [vm_compute; reflexivity|]. split; [vm_compute; reflexivity|].
  split; [reflexivity|]. split; [reflexivity|].
  refine (one_primary_per_view takeover_run takeover_run (node_cfg 4 1) (node_cfg 4 0) [] [] _ _ _ _
    _ _ _ _ _ _ _ _); first [discriminate | vm_compute; reflexivity].
Defined.

Lemma stable_checkpoint_by_agreement_witness :
  let n := fresh_node 1 0 in
  let ckpt := MkCheckpoint 10 (Hashing.sha256_hex "10") "node0" 5 in
  lastStableCheckpoint (HandleCheckpoint ckpt n) = 10%Z.
Proof.
  intros n ckpt. refine (proj1 (proj1 (proj1 (proj2 (stable_checkpoint_by_agreement ckpt n)) _) _)).
  - reflexivity.
  - exists (Hashing.sha256_hex "10"). unfold quorum. vm_compute. discriminate.
Defined.

Lemma no_panic_unless_zero_nodes_witness :
  ∃ n' w', run takeover_run (NewPBFTNode (node_cfg 4 1)) [] = Done (n', w').
Proof.
  refine (proj1 (no_panic_unless_zero_nodes takeover_run (NewPBFTNode (node_cfg 4 1)) []) _).
  discriminate.
Defined.

Lemma proposal_guard_witness : ∃ n' m,
  propose_locked 2 request_T1 (fresh_node 4 0) = (n', Ok m) ∧ sequence n' = wrap_i64 (0 + 1) ∧
  ∃ err, propose_locked 1 request_T1 (fresh_node 4 0) = (fresh_node 4 0, Err err).
Proof.
  destruct (proj1 (proposal_guard 2 request_T1 (fresh_node 4 0))) as (n' & m & Hp & Hs & _).
  { split; [reflexivity|right]. vm_compute. discriminate. }
  exists n', m. split; [exact Hp|]. split; [exact Hs|].
  refine (proj2 (proposal_guard 1 request_T1 (fresh_node 4 0)) _).
  intros [_ [Hone|Hq]]; [discriminate|]. apply Hq. reflexivity.
Defined.

End PbftSafety.
