(* ===== verification/PbftLive.v ===== *)
(** Progress of a PBFT node ([src/pkg/consensus/pbft.go]): the messages of one consensus round,
    processed from the queue in any order, execute its request exactly once; and where the protocol of
    the code gives less than PBFT does: commit votes count for whatever request takes their number. *)

From S2P Require Import Prelude Hashing Proto Messages Pbft PbftSpec PbftInv PbftSafety.

Module PbftLive.
Import Messages Pbft PbftSpec PbftInv PbftSafety.

Section live.
Context {W : Type}.
Context `{pb.ProtoMessage pb.ValidatorMessage, pb.ProtoMessage pb.PrePrepare,
  pb.ProtoMessage pb.Prepare, pb.ProtoMessage pb.Commit, pb.ProtoMessage pb.Request,
  pb.ProtoMessage pb.ViewChange, pb.ProtoMessage pb.Checkpoint}.
Implicit Types n : PBFTNode W.
Implicit Types w : W.

(** The node [n0] before the round, the sequence and request of the round. *)
Context (n0 : PBFTNode W) (w0 : W) (s : Z) (req : Request).

(** The votes a node sends in this round can be encoded. *)
Definition sendable : Prop :=
  (∀ d, ∃ data, envelope 1 (SerializePrepare (MkPrepareMsg (view n0) s d (nodeID n0))) (nodeID n0)
    = Ok data) ∧
  (∀ d, ∃ data, envelope 2 (SerializeCommit (MkCommitMsg (view n0) s d (nodeID n0))) (nodeID n0)
    = Ok data).

Definition handlers_succeed : Prop := snd (call_handlers (handlers n0) req w0) = None.

Context (Hsend : sendable) (Hok : handlers_succeed).

(** The round is over, or waits for more commit votes. *)
Definition settled n w : Prop :=
  (requestLog n !! s = None ∧ w = apply_request n0 req w0) ∨
  (requestLog n !! s = Some req ∧ w = w0 ∧ (count_votes (commitLog n) s < required_votes n0)%Z).

Definition commit_senders n : gset string := dom (votes_at (commitLog n) s).

(** [n'] is [n0] as far as the round is concerned, and has the commit votes [senders] at least. *)
Definition in_round (senders : gset string) n : Prop :=
  nodeID n = nodeID n0 ∧ view n = view n0 ∧ f n = f n0 ∧ handlers n = handlers n0 ∧
  stateReplicator n = stateReplicator n0 ∧ senders ⊆ commit_senders n.

Lemma in_round_required senders n : in_round senders n → required_votes n = required_votes n0.
Proof. intros (_ & _ & Hf & _). unfold required_votes. by rewrite Hf. Qed.

Lemma in_round_frame senders n n' :
  frame n' = frame n → commit_senders n ⊆ commit_senders n' →
  in_round senders n → in_round senders n'.
Proof.
  intros Hfr Hc (Hi & Hv & Hf & Hh & Hr & Hs). apply frame_eq in Hfr. unfold in_round.
  split_and!; [naive_solver congruence..|]. by etrans.
Qed.

Lemma add_vote_senders {T} id (m : T) (log : votelog T) :
  dom (votes_at (add_vote s id m log) s) = {[ id ]} ∪ dom (votes_at log s).
Proof. rewrite votes_at_add, decide_True by done. by rewrite dom_insert_L. Qed.

Lemma execute_settles now senders n n' w' es err :
  in_round senders n → requestLog n !! s = Some req →
  executeRequest now s n w0 = (n', w', es, err) →
  in_round senders n' ∧ settled n' w'.
Proof.
  intros Hin Hreq Hr. apply executeRequest_spec in Hr as (Hfr & Hc & _ & Hr).
  rewrite Hreq in Hr. destruct Hr as [-> Hlog]. split.
  - apply (in_round_frame senders n); [done| |done]. unfold commit_senders. by rewrite Hc.
  - left. destruct Hin as (_ & _ & _ & Hh & Hs & _). split.
    + rewrite Hlog, Hh. unfold handlers_succeed in Hok. rewrite Hok. apply lookup_delete_eq.
    + by apply apply_request_frame.
Qed.

Lemma moveToCommit_settles now senders digest n n' w' es err :
  in_round senders n → requestLog n !! s = Some req →
  moveToCommitPhase now s digest n w0 = (n', w', es, err) →
  in_round senders n' ∧ settled n' w'.
Proof.
  intros Hin Hreq. unfold moveToCommitPhase; simpl. set (n1 := set_commitLog _ _).
  assert (in_round senders n1) as Hin1.
  { apply (in_round_frame senders n); [done| |done]. unfold commit_senders, n1; simpl.
    rewrite add_vote_senders. set_solver. }
  destruct Hin as (Hi & Hv & _). destruct (proj2 Hsend digest) as [data Hd].
  rewrite Hi, Hv, Hd. case_match eqn:Hq.
  - destruct (executeRequest now s n1 w0) as [[[n2 w2] es2] err2] eqn:Hex. intros; simplify_eq.
    by eapply execute_settles.
  - intros; simplify_eq. split; [done|]. right. split_and!; [done..|].
    unfold checkCommitQuorum, checkQuorum in Hq. apply Z.leb_gt in Hq.
    by rewrite (in_round_required _ _ Hin1) in Hq.
Qed.

(** ** The messages of the round *)

Definition dispatch now (msg : ConsensusMessage) n w : outputs (W:=W) :=
  match msg with
  | MPrePrepare m => handlePrePrepare now m n w
  | MPrepare m => HandlePrepare now m n w
  | MCommit m => HandleCommit now m n w
  end.

Definition commit_sender (msg : ConsensusMessage) : gset string :=
  match msg with MCommit m => {[ cm_NodeID m ]} | _ => ∅ end.

Definition is_preprepare (msg : ConsensusMessage) : bool :=
  match msg with MPrePrepare _ => true | _ => false end.

(** A message of the round: its sequence number and the view of the node. *)
Definition of_round (msg : ConsensusMessage) : Prop := GetSequence msg = s ∧ GetView msg = view n0.

(** Before the PRE-PREPARE votes are only recorded; after it the round is settled. *)
Definition progress (accepted : bool) n w : Prop :=
  if accepted then settled n w else requestLog n !! s = None ∧ w = w0.

(** A round whose request is not (or no longer) in the log is not affected by new votes. *)
Lemma progress_idle accepted n n1 w :
  requestLog n !! s = None → requestLog n1 !! s = None →
  progress accepted n w → progress accepted n1 w.
Proof.
  destruct accepted; simpl; [|naive_solver].
  intros Hn Hn1 [[_ ->]|[? _]]; [by left|congruence].
Qed.

Lemma vote_recorded msg senders n n1 :
  in_round senders n → frame n1 = frame n →
  dom (votes_at (commitLog n1) s) = commit_sender msg ∪ commit_senders n →
  in_round (commit_sender msg ∪ senders) n1.
Proof.
  intros (Hi & Hv & Hf & Hh & Hr & Hs) Hfr Hd. apply frame_eq in Hfr. unfold in_round.
  split_and!; [naive_solver congruence..|]. unfold commit_senders. rewrite Hd. set_solver.
Qed.

Lemma vote_progress accepted now msg senders n w n' w' es err :
  is_preprepare msg = false → of_round msg → in_round senders n → progress accepted n w →
  dispatch now msg n w = (n', w', es, err) →
  in_round (commit_sender msg ∪ senders) n' ∧ progress accepted n' w'.
Proof.
  intros Hpp [Hs Hv] Hin Hp Hd. pose proof Hin as (_ & Hview & _).
  destruct msg as [m|m|m]; [done|..]; simpl in *.
  - unfold HandlePrepare in Hd. rewrite Hv, Hview, Hs, Z.eqb_refl in Hd; simpl in Hd.
    set (n1 := set_prepareLog _ n) in Hd.
    assert (in_round (∅ ∪ senders) n1) as Hin1.
    { apply (vote_recorded (MPrepare m) senders n); [done..|]. simpl. set_solver. }
    destruct (checkPrepareQuorum n1 _); [|by simplify_eq].
    destruct (requestLog n !! s) as [r|] eqn:Hr; [|by simplify_eq].
    destruct accepted; simpl in *; [|naive_solver].
    destruct Hp as [[? _]|(Hreq & -> & _)]; [congruence|].
    by eapply moveToCommit_settles.
  - unfold HandleCommit in Hd. rewrite Hv, Hview, Hs, Z.eqb_refl in Hd; simpl in Hd.
    set (n1 := set_commitLog _ n) in Hd.
    assert (in_round ({[cm_NodeID m]} ∪ senders) n1) as Hin1.
    { apply (vote_recorded (MCommit m) senders n); [done..|]. simpl. apply add_vote_senders. }
    destruct (checkCommitQuorum n1 _) eqn:Hq.
    + destruct (requestLog n !! s) as [r|] eqn:Hr; [|simplify_eq; split; [done|by eapply progress_idle]].
      destruct accepted; simpl in *; [|naive_solver].
      destruct Hp as [[? _]|(Hreq & -> & _)]; [congruence|].
      by eapply execute_settles.
    + simplify_eq. split; [done|]. destruct accepted; [|done]; simpl in *.
      destruct Hp as [[? ?]|(? & ? & _)]; [by left|right]. split_and!; [done..|].
      unfold checkCommitQuorum, checkQuorum in Hq. apply Z.leb_gt in Hq.
      by rewrite (in_round_required _ _ Hin1) in Hq.
Qed.

Lemma preprepare_progress now m senders n n' w' es err :
  of_round (MPrePrepare m) → ppm_Request m = req → computeDigest req = ppm_Digest m →
  in_round senders n →
  dispatch now (MPrePrepare m) n w0 = (n', w', es, err) →
  in_round senders n' ∧ settled n' w'.
Proof.
  intros [Hs Hv] Hreq Hdig Hin Hd. pose proof Hin as (Hid & Hview & _). simpl in *.
  unfold handlePrePrepare in Hd.
  rewrite Hreq, Hdig, Hv, Hview, Z.eqb_refl, String.eqb_refl, Hs in Hd; simpl in Hd.
  set (n1 := set_prepareLog _ _) in Hd.
  assert (in_round senders n1) as Hin1 by (by apply (in_round_frame senders n)).
  assert (requestLog n1 !! s = Some req) as Hr1 by apply lookup_insert_eq.
  destruct (proj1 Hsend (ppm_Digest m)) as [data Hdata]. rewrite Hid, Hdata in Hd.
  destruct (checkPrepareQuorum n1 s).
  - destruct (moveToCommitPhase now s (ppm_Digest m) n1 w0) as [[[n2 w2] es2] err2] eqn:Hm.
    simplify_eq. by eapply moveToCommit_settles.
  - destruct (checkCommitQuorum n1 s) eqn:Hq.
    + destruct (executeRequest now s n1 w0) as [[[n2 w2] es2] err2] eqn:Hex. simplify_eq.
      by eapply execute_settles.
    + simplify_eq. split; [done|]. right. split_and!; [done..|].
      unfold checkCommitQuorum, checkQuorum in Hq. apply Z.leb_gt in Hq.
      by rewrite (in_round_required _ _ Hin1) in Hq.
Qed.

(** ** Processing the queue *)

Definition queue_senders (ms : list ConsensusMessage) : gset string := ⋃ (commit_sender <$> ms).

Lemma process_event now msg ms n w :
  messageQueue n = msg :: ms →
  handle (EvProcess now) n w = Done (dispatch now msg (set_messageQueue ms n) w).
Proof. intros Hq. simpl. unfold processMessage. rewrite Hq. by destruct msg. Qed.

Lemma dispatch_queue now msg n w n' w' es err :
  dispatch now msg n w = (n', w', es, err) → messageQueue n' = messageQueue n.
Proof.
  intros Hd. assert (frame n' = frame n) as Hfr.
  { destruct msg; simpl in Hd; [eapply handlePrePrepare_spec | eapply HandlePrepare_spec |
      eapply HandleCommit_spec]; done. }
  unfold frame in Hfr. by simplify_eq.
Qed.

(** One message: what it adds to the round. *)
Lemma run_process accepted accepted' now msg ms senders n w
    (Hstep : ∀ n1 n2 w2 es err, in_round senders n1 → progress accepted n1 w →
      dispatch now msg n1 w = (n2, w2, es, err) →
      in_round (commit_sender msg ∪ senders) n2 ∧ progress accepted' n2 w2) :
  messageQueue n = msg :: ms → in_round senders n → progress accepted n w →
  ∃ n2 w2, messageQueue n2 = ms ∧ in_round (commit_sender msg ∪ senders) n2 ∧
    progress accepted' n2 w2 ∧
    ∀ evs, run (EvProcess now :: evs) n w = run evs n2 w2.
Proof.
  intros Hq Hin Hp.
  destruct (dispatch now msg (set_messageQueue ms n) w) as [[[n2 w2] es] err] eqn:Hd.
  destruct (Hstep (set_messageQueue ms n) n2 w2 es err Hin Hp Hd) as [Hin2 Hp2].
  exists n2, w2. split_and!; [by apply dispatch_queue in Hd|done..|].
  intros evs. cbn [run]. rewrite (process_event now msg ms n w Hq), Hd. done.
Qed.

Lemma votes_processed accepted now ms senders n w :
  Forall (λ m, is_preprepare m = false ∧ of_round m) ms →
  ∀ rest, messageQueue n = ms ++ rest → in_round senders n → progress accepted n w →
  ∃ n2 w2, messageQueue n2 = rest ∧ in_round (queue_senders ms ∪ senders) n2 ∧
    progress accepted n2 w2 ∧
    ∀ evs, run (replicate (length ms) (EvProcess now) ++ evs) n w = run evs n2 w2.
Proof.
  intros Hms rest. revert senders n w.
  induction Hms as [|msg ms [Hnp Hr] Hms IH]; intros senders n w Hq Hin Hp.
  { exists n, w. split_and!; [done| |done..]. unfold queue_senders; simpl. by rewrite union_empty_l_L. }
  simpl in Hq.
  destruct (run_process accepted accepted now msg (ms ++ rest) senders n w) as (n1 & w1 & Hq1 & Hin1 & Hp1 & Hrun1);
    [by eauto using vote_progress|done..|].
  destruct (IH _ n1 w1 Hq1 Hin1 Hp1) as (n2 & w2 & Hq2 & Hin2 & Hp2 & Hrun2).
  exists n2, w2. split_and!; [done| |done|].
  - replace (queue_senders (msg :: ms) ∪ senders) with (queue_senders ms ∪ (commit_sender msg ∪ senders));
      [done|]. unfold queue_senders; simpl. set_solver.
  - intros evs. etrans; [apply Hrun1 | apply Hrun2].
Qed.

Lemma settled_with_quorum senders n w :
  in_round senders n → settled n w → (required_votes n0 ≤ Z.of_nat (size senders))%Z →
  requestLog n !! s = None ∧ w = apply_request n0 req w0.
Proof.
  intros (_ & _ & _ & _ & _ & Hs) [Hd|(_ & _ & Hlt)] Hq; [done|].
  apply subseteq_size in Hs. unfold commit_senders in Hs. rewrite size_dom in Hs.
  unfold count_votes in Hlt. lia.
Qed.

End live.

Section exactly_once.
Context {W : Type}.
Context `{pb.ProtoMessage pb.ValidatorMessage, pb.ProtoMessage pb.PrePrepare,
  pb.ProtoMessage pb.Prepare, pb.ProtoMessage pb.Commit, pb.ProtoMessage pb.Request,
  pb.ProtoMessage pb.ViewChange, pb.ProtoMessage pb.Checkpoint}.

(** C7: a round terminates with exactly one execution, in any order of arrival: when the queue of a
    node holds one valid PRE-PREPARE for a free sequence number and otherwise PREPAREs and COMMITs
    for it in the node's view, in any order, and the COMMITs come from 2f+1 distinct senders, then
    processing the queue applies that request to the application once, whatever the order: votes
    that arrive before the PRE-PREPARE are counted, and votes after the execution change nothing.
    Conditions: every handler succeeds on the request in the application as it is before the round
    (when one fails the request stays in the log and every later COMMIT runs it again); the node can
    encode its own votes; and nothing but this queue is processed meanwhile, in particular no
    CHECKPOINT, VIEW-CHANGE or timer. *)
Theorem executes_exactly_once (n : PBFTNode W) (w : W) now s req m before after :
  sendable n s → handlers_succeed n w req →
  messageQueue n = before ++ MPrePrepare m :: after →
  ppm_Request m = req → computeDigest req = ppm_Digest m → of_round n s (MPrePrepare m) →
  Forall (λ msg, is_preprepare msg = false ∧ of_round n s msg) (before ++ after) →
  requestLog n !! s = None →
  (required_votes n ≤ Z.of_nat (size (queue_senders (before ++ after))))%Z →
  ∃ n', run (replicate (length (before ++ MPrePrepare m :: after)) (EvProcess now)) n w
      = Done (n', apply_request n req w) ∧
    requestLog n' !! s = None ∧ messageQueue n' = [] ∧ view n' = view n.
Proof.
  intros Hsend Hok Hq Hreq Hdig Hround Hall Hfree Hquorum.
  apply Forall_app in Hall as [Hbefore Hafter].
  assert (in_round n s ∅ n) as Hin by (unfold in_round; split_and!; [done..|set_solver]).
  destruct (votes_processed n w s req Hsend Hok false now before ∅ n w Hbefore _ Hq Hin)
    as (n1 & w1 & Hq1 & Hin1 & [Hf1 ->] & Hrun1); [done|].
  destruct (run_process n w s req false true now (MPrePrepare m) after
    (queue_senders before ∪ ∅) n1 w) as (n2 & w2 & Hq2 & Hin2 & Hp2 & Hrun2); [|done..|].
  { intros n1' n2 w2 es err Hin' [_ _] Hd. simpl. rewrite union_empty_l_L.
    by eapply preprepare_progress. }
  destruct (votes_processed n w s req Hsend Hok true now after
    (commit_sender (MPrePrepare m) ∪ (queue_senders before ∪ ∅)) n2 w2 Hafter [])
    as (n3 & w3 & Hq3 & Hin3 & Hp3 & Hrun3); [by rewrite app_nil_r|done..|].
  destruct (settled_with_quorum n w s req _ n3 w3 Hin3 Hp3) as [Hn3 ->].
  - etrans; [exact Hquorum|]. apply inj_le, subseteq_size. unfold queue_senders.
    rewrite fmap_app, union_list_app_L. simpl. set_solver.
  - exists n3. split_and!; [|done|done|apply Hin3].
    rewrite length_app, replicate_add. simpl.
    etrans; [apply Hrun1|]. etrans; [apply Hrun2|].
    rewrite <- (app_nil_r (replicate _ _)). apply Hrun3.
Qed.

(** ** Votes that outlive their round *)

Definition is_checkpoint_msg (ev : event W) : bool :=
  match ev with EvNetwork _ _ _ msgType _ => (msgType =? 4)%Z | _ => false end.

(** Only a stable checkpoint removes votes. *)
Lemma moves_keep_commits (mvs : list (move W)) x y s :
  moves_run mvs x y → (∀ k d, MStable k d ∉ mvs) →
  f (fst y) = f (fst x) ∧ dom (votes_at (commitLog (fst x)) s) ⊆ dom (votes_at (commitLog (fst y)) s).
Proof.
  induction 1 as [x|mv mvs x y z Hs _ IH]; intros Hno; [done|].
  destruct IH as [-> Hyz]. { intros k d Hin. apply (Hno k d). by right. }
  assert (∀ k d, mv ≠ MStable k d) as Hmv. { intros k d ->. apply (Hno k d). by left. }
  enough (f (fst y) = f (fst x) ∧
    dom (votes_at (commitLog (fst x)) s) ⊆ dom (votes_at (commitLog (fst y)) s)) as [-> Hxy].
  { split; [done|]. by etrans. }
  assert (∀ k id c (log : votelog CommitMsg), dom (votes_at log s) ⊆ dom (votes_at (add_vote k id c log) s)) as Hadd.
  { intros k id c log. rewrite votes_at_add. case_decide; [|done]. rewrite dom_insert_L. apply union_subseteq_r. }
  destruct Hs; try (split; [done|]; first [reflexivity|apply Hadd]).
  by destruct (Hmv s0 digest).
Qed.

Lemma run_keeps_commits evs s n w n' w' :
  Forall (λ ev, is_checkpoint_msg ev = false) evs → run evs n w = Done (n', w') →
  f n' = f n ∧ dom (votes_at (commitLog n) s) ⊆ dom (votes_at (commitLog n') s).
Proof.
  intros Hevs. revert n w. induction Hevs as [|ev evs Hev _ IH]; intros n w Hr; [by simplify_eq/=|].
  cbn [run] in Hr. destruct (handle ev n w) as [[[[n1 w1] es] err]|] eqn:Hh; [|done].
  cbn [outcome_bind fst snd] in Hr. destruct (IH _ _ Hr) as [-> Hsub].
  apply handle_moves in Hh as (mvs & Hm & _ & Hcause).
  destruct (moves_keep_commits _ _ _ s Hm) as [Hf Hsub'].
  - intros k d Hin. apply Hcause in Hin as (now & peers & pick & payload & ->). done.
  - split; [done|]. by etrans.
Qed.

(** A PRE-PREPARE for a number with a commit quorum on record is executed on the spot. *)
Lemma preprepare_executes_at_once now m (n0 n : PBFTNode W) (w : W) senders n' w' es err :
  let s := ppm_Sequence m in
  ppm_View m = view n0 → computeDigest (ppm_Request m) = ppm_Digest m → sendable n0 s →
  handlers_succeed n0 w (ppm_Request m) →
  in_round n0 s senders n → (required_votes n0 ≤ Z.of_nat (size senders))%Z →
  handlePrePrepare now m n w = (n', w', es, err) →
  in_round n0 s senders n' ∧ requestLog n' !! s = None ∧ w' = apply_request n0 (ppm_Request m) w.
Proof.
  intros s Hv Hd Hsend Hok Hin Hq Hh.
  assert (of_round n0 s (MPrePrepare m)) as Hround by by split.
  destruct (preprepare_progress n0 w s (ppm_Request m) Hsend Hok now m senders n n' w' es err
    Hround eq_refl Hd Hin Hh) as [Hin' Hset].
  split; [done|]. by apply (settled_with_quorum n0 w s (ppm_Request m) senders).
Qed.

(** C40: commit votes outlive their round and their view, and count for whatever request takes their
    number. When a node has the COMMITs of 2f+1 senders on record for a number, of whatever views and
    digests, and then anything happens but the arrival of a CHECKPOINT (timers, changes of view,
    proposals, other rounds), the next PRE-PREPARE of its view for that number with the right digest
    is executed at once, though nobody has voted for its request; and the votes are still there: the
    same PRE-PREPARE delivered again is executed again. Conditions: the node can encode its votes
    and every handler succeeds on the request. *)
Theorem votes_outlive_rounds evs now m (n : PBFTNode W) (w : W) n1 w1 :
  let s := ppm_Sequence m in
  let req := ppm_Request m in
  quorum n (count_votes (commitLog n) s) →
  Forall (λ ev, is_checkpoint_msg ev = false) evs → run evs n w = Done (n1, w1) →
  ppm_View m = view n1 → computeDigest req = ppm_Digest m → sendable n1 s →
  handlers_succeed n1 w1 req →
  let w2 := apply_request n1 req w1 in
  ∃ n2 es err, handlePrePrepare now m n1 w1 = (n2, w2, es, err) ∧ requestLog n2 !! s = None ∧
    (handlers_succeed n1 w2 req →
     ∃ n3 es' err', handlePrePrepare now m n2 w2 = (n3, apply_request n1 req w2, es', err') ∧
       requestLog n3 !! s = None).
Proof.
  intros s req Hq Hevs Hr Hv Hd Hsend Hok w2.
  destruct (run_keeps_commits _ s _ _ _ _ Hevs Hr) as [Hf Hsub].
  set (senders := dom (votes_at (commitLog n) s)) in Hsub.
  assert (required_votes n1 ≤ Z.of_nat (size senders))%Z as Hn.
  { apply quorum_required in Hq. unfold senders. rewrite size_dom. unfold required_votes in *. by rewrite Hf. }
  assert (in_round n1 s senders n1) as Hin by (unfold in_round; by split_and!).
  destruct (handlePrePrepare now m n1 w1) as [[[n2 w2'] es] err] eqn:Hh.
  destruct (preprepare_executes_at_once _ _ _ _ _ _ _ _ _ _ Hv Hd Hsend Hok Hin Hn Hh) as (Hin2 & Hgone & ->).
  exists n2, es, err. split_and!; [done|done|]. intros Hok2.
  destruct (handlePrePrepare now m n2 w2) as [[[n3 w3] es'] err'] eqn:Hh'.
  destruct (preprepare_executes_at_once _ _ _ _ _ _ _ _ _ _ Hv Hd Hsend Hok2 Hin2 Hn Hh') as (_ & Hgone3 & ->).
  by exists n3, es', err'.
Qed.

End exactly_once.

(** * Concrete rounds *)

#[local] Existing Instance pb.bit_codec.

Lemma bit_codec_sendable (n : PBFTNode app) s : sendable n s.
Proof.
  split; intros d; unfold envelope, SerializePrepare, SerializeCommit, SerializePBFTMessage; simpl;
    repeat case_decide; simpl; by eexists.
Qed.

(** The votes of nodes 0, 1 and 3 of four, around the PRE-PREPARE, as node 2 receives them. *)
Definition digest_T1 : string := computeDigest request_T1.
Definition prepare_from (view : Z) (d id : string) : ConsensusMessage :=
  MPrepare (MkPrepareMsg view 1 d id).
Definition commit_from (view : Z) (d id : string) : ConsensusMessage :=
  MCommit (MkCommitMsg view 1 d id).

Definition early_votes : list ConsensusMessage :=
  [commit_from 0 digest_T1 "node0"; prepare_from 0 digest_T1 "node1"; commit_from 0 digest_T1 "node1"].
Definition late_votes : list ConsensusMessage :=
  [prepare_from 0 digest_T1 "node0"; commit_from 0 digest_T1 "node3"; prepare_from 0 digest_T1 "node3"].

Lemma executes_exactly_once_witness :
  let queue := early_votes ++ MPrePrepare preprepare_T1 :: late_votes in
  ∃ n', run (replicate (length queue) (EvProcess 5)) (set_messageQueue queue (fresh_node 4 2)) []
      = Done (n', [request_T1]) ∧
    requestLog n' !! 1%Z = None ∧ messageQueue n' = [] ∧ view n' = 0%Z.
Proof.
  intros queue.
  refine (executes_exactly_once (set_messageQueue queue (fresh_node 4 2)) [] 5 1 request_T1
    preprepare_T1 early_votes late_votes _ _ _ _ _ _ _ _ _).
  - apply bit_codec_sendable.
  - reflexivity.
  - reflexivity.
  - reflexivity.
  - vm_compute; reflexivity.
  - split; reflexivity.
  - repeat (apply Forall_cons; split; [repeat split|]). apply Forall_nil; exact I.
  - reflexivity.
  - vm_compute. discriminate.
Defined.

(** A message arriving from the network and taken from the queue. *)
Definition payload (r : result string) : string := match r with Ok data => data | Err _ => "" end.
Definition arrive (msg : ConsensusMessage) : list (event app) :=
  match msg with
  | MPrePrepare m => [EvNetwork 5 3 false 0 (payload (SerializePrePrepare m)); EvProcess 5]
  | MPrepare m => [EvNetwork 5 3 false 1 (payload (SerializePrepare m)); EvProcess 5]
  | MCommit m => [EvNetwork 5 3 false 2 (payload (SerializeCommit m)); EvProcess 5]
  end.
Definition arrive_all (ms : list ConsensusMessage) : list (event app) := flat_map arrive ms.

(** What became of the application; [None] when the node panicked. *)
Definition executed (evs : list (event app)) (n : PBFTNode app) : option app :=
  match run evs n [] with Done (_, w) => Some w | Panic _ => None end.

(** A complete round of view 0 for [request_T1], sequence 1. *)
Definition round_T1 : list (event app) :=
  arrive_all (MPrePrepare preprepare_T1 :: late_votes ++ early_votes).

(** Nodes 0, 1 and 3 vote for view 1. *)
Definition enter_view_1 : list (event app) :=
  (λ id, EvNetwork 5 3 false 3 (payload (SerializeViewChange (MkViewChangeMsg 1 id))))
    <$> ["node0"; "node1"; "node3"].

Definition request_T2 : Request := MkRequest "dispute-T2-9" "T2" "DISPUTE" "" 9 "node1".

(** The first proposal of the new primary: it never advanced its own sequence, so this is 1 again. *)
Definition preprepare_T2 : PrePrepareMsg := MkPrePrepareMsg 1 1 (computeDigest request_T2) request_T2.

(** Node 2 has three COMMITs of view 0 on record for number 1, for three digests; view 1 begins. *)
Definition stale_votes : PBFTNode app :=
  set_commitLog (add_vote 1 "node3" (MkCommitMsg 0 1 "d3" "node3")
    (add_vote 1 "node1" (MkCommitMsg 0 1 "d1" "node1")
    (add_vote 1 "node0" (MkCommitMsg 0 1 "d0" "node0") ∅))) (fresh_node 4 2).

Lemma votes_outlive_rounds_witness : ∃ n1 n2 es err,
  run enter_view_1 stale_votes [] = Done (n1, []) ∧
  handlePrePrepare 5 preprepare_T2 n1 [] = (n2, [request_T2], es, err) ∧
  requestLog n2 !! 1%Z = None.
Proof.
  assert (∃ n1, run enter_view_1 stale_votes [] = Done (n1, []) ∧ view n1 = 1%Z ∧
    handlers n1 = [record_handler] ∧ stateReplicator n1 = None) as (n1 & Hr & Hv & Hh & Hrep).
  { eexists. split; [vm_compute; reflexivity|]. by split_and!. }
  assert (apply_request n1 request_T2 [] = [request_T2]) as Happ.
  { unfold apply_request, replicated. rewrite Hh, Hrep. reflexivity. }
  destruct (votes_outlive_rounds enter_view_1 5 preprepare_T2 stale_votes [] n1 []) as (n2 & es & err & He & Hgone & _).
  - unfold quorum. vm_compute. discriminate.
  - repeat (apply Forall_cons; split; [reflexivity|]). apply Forall_nil; exact I.
  - exact Hr.
  - rewrite Hv. reflexivity.
  - exact (eq_refl (computeDigest request_T2)).
  - apply bit_codec_sendable.
  - unfold handlers_succeed. rewrite Hh. reflexivity.
  - exists n1, n2, es, err. cbn [ppm_Request preprepare_T2] in He. rewrite Happ in He.
    split; [exact Hr|]. split; [exact He|exact Hgone].
Defined.

(** Votes outlive their view. After a complete round for one request in view 0 and a change to
    view 1, the PRE-PREPARE of the new primary, which numbers its first request 1 again, executes
    at once: no node has voted for the new request or in the new view, the old votes recorded
    under sequence 1 count. *)
Theorem old_votes_execute_in_new_view :
  executed (round_T1 ++ enter_view_1 ++ arrive (MPrePrepare preprepare_T2)) (fresh_node 4 2)
    = Some [received_in_preprepare request_T1; received_in_preprepare request_T2].
Proof. vm_compute. reflexivity. Qed.

(** A PRE-PREPARE that is delivered again after its round executes its request again; nothing
    records that the sequence number was executed. *)
Theorem repeated_preprepare_executes_twice :
  executed (round_T1 ++ arrive (MPrePrepare preprepare_T1)) (fresh_node 4 2)
    = Some [received_in_preprepare request_T1; received_in_preprepare request_T1].
Proof. vm_compute. reflexivity. Qed.

(** Quorums do not compare digests: three COMMITs for other requests than the one accepted
    execute it. *)
Theorem commits_for_other_digests_count :
  executed (arrive_all [MPrePrepare preprepare_T1; commit_from 0 "d0" "node0";
      commit_from 0 "d1" "node1"; commit_from 0 "d3" "node3"]) (fresh_node 4 2)
    = Some [received_in_preprepare request_T1].
Proof. vm_compute. reflexivity. Qed.

(** Sequence number 10, at which the nodes checkpoint; the digest of a checkpoint depends on the
    number only. *)
Definition request_T10 : Request := MkRequest "validate-T10-7" "T10" "VALIDATE" "" 7 "node0".
Definition preprepare_T10 : PrePrepareMsg := MkPrePrepareMsg 0 10 (computeDigest request_T10) request_T10.
Definition votes_T10 : list ConsensusMessage :=
  (λ id, MCommit (MkCommitMsg 0 10 (computeDigest request_T10) id)) <$> ["node0"; "node1"; "node3"].
Definition checkpoints_T10 : list (event app) :=
  (λ id, EvNetwork 5 3 false 4 (payload (SerializeCheckpoint
    (MkCheckpoint 10 (Hashing.sha256_hex "10") id 5)))) <$> ["node0"; "node1"; "node3"].

(** The three other nodes are ahead: their checkpoints arrive before their COMMITs. The node drops the
    request it has accepted, and the COMMITs find nothing to execute. *)
Theorem checkpoint_drops_request :
  executed (arrive_all (MPrePrepare preprepare_T10 :: votes_T10)) (fresh_node 4 2)
    = Some [received_in_preprepare request_T10] ∧
  executed (arrive (MPrePrepare preprepare_T10) ++ checkpoints_T10 ++ arrive_all votes_T10) (fresh_node 4 2)
    = Some [].
Proof. split; vm_compute; reflexivity. Qed.

End PbftLive.
