(* ===== verification/Cluster.v ===== *)
(** Agreement in a cluster of PBFT nodes ([src/pkg/consensus/pbft.go]) that stays in its first view.

    [Cluster] is a set of nodes with what they have broadcast. The network may lose, repeat, delay
    and reorder messages, and anybody may send votes, checkpoints and client requests with any
    content; PRE-PREPAREs and VIEW-CHANGEs, whose senders the code does not check, come from the
    nodes. Timers do not fire: what happens after a view change is shown in [PbftLive]. *)

From stdpp Require Import relations.
From S2P Require Import Prelude Hashing Proto Messages Pbft PbftSpec PbftInv PbftSafety.

Module Cluster.
Import Messages Pbft PbftSpec PbftInv.

Section cluster.
Context {W : Type}.
Context `{HLv : pb.ProtoLaws pb.ValidatorMessage pb.unset_ValidatorMessage,
  HLpp : pb.ProtoLaws pb.PrePrepare pb.unset_PrePrepare,
  !pb.ProtoMessage pb.Prepare, !pb.ProtoMessage pb.Commit, !pb.ProtoMessage pb.Request,
  !pb.ProtoMessage pb.ViewChange, !pb.ProtoMessage pb.Checkpoint}.
Implicit Types n : PBFTNode W.
Implicit Types w : W.

(** * The cluster *)

Record Cluster := MkCluster {
  c_nodes : gmap string (PBFTNode W * W);
  c_sent : list string;
  c_pending : list (string * PrePrepareMsg);  (** assigned by [ProposeRequest], not yet sent *)
  c_assigned : gmap Z Request;  (** the requests the primary has numbered *)
}.

Definition broadcasts (es : list effect) : list string :=
  omap (λ e, match e with EBroadcast data => Some data | _ => None end) es.

Definition is_Ok {A} (r : result A) : Prop := ∃ a, r = Ok a.

(** What the network may hand to a node. *)
Definition deliverable (c : Cluster) (ty : Z) (payload : string) : Prop :=
  (ty ≠ 0 ∧ ty ≠ 3)%Z ∨
  ∃ data msg, data ∈ c_sent c ∧ DeserializeValidatorMessage data = Ok msg ∧
    pb.vm_Type msg = ty ∧ pb.vm_Payload msg = payload.

(** Calls of the node's owner that concern neither the protocol nor the network. *)
Definition is_local (ev : event W) : bool :=
  match ev with
  | EvNotifyPending | EvClearPending | EvRegisterHandler _ | EvRegisterCallback _ _
  | EvRegisterReplicator _ | EvClose => true
  | _ => false
  end.

(** [i] goes to [n'] and [w'] and broadcasts the messages in [es]. *)
Definition update (i : string) n' w' (es : list effect) (c : Cluster) : Cluster :=
  MkCluster (<[i := (n', w')]> (c_nodes c)) (c_sent c ++ broadcasts es) (c_pending c) (c_assigned c).

(** A request that reaches the primary, from the API or as a CLIENT_REQUEST, is [CPropose] and then
    [CSend]; anything may come between them. The primary has not used up the sequence numbers. *)
Inductive cluster_step : Cluster → Cluster → Prop :=
| CPropose c i n w peers req n' m :
    c_nodes c !! i = Some (n, w) → (sequence n < 2 ^ 63 - 1)%Z →
    propose_locked peers req n = (n', Ok m) →
    cluster_step c (MkCluster (<[i := (n', w)]> (c_nodes c)) (c_sent c) ((i, m) :: c_pending c)
      (<[ppm_Sequence m := req]> (c_assigned c)))
| CSend c i n w now m l1 l2 n' w' es err :
    c_nodes c !! i = Some (n, w) → c_pending c = l1 ++ (i, m) :: l2 →
    propose_send now m n w = (n', w', es, err) →
    cluster_step c (update i n' w' es (MkCluster (c_nodes c) (c_sent c) (l1 ++ l2) (c_assigned c)))
| CDeliver c i n w now peers pick_done ty payload n' w' es err :
    c_nodes c !! i = Some (n, w) → deliverable c ty payload →
    (ty = 7%Z → isPrimary n = false) →
    handle (EvNetwork now peers pick_done ty payload) n w = Done (n', w', es, err) →
    cluster_step c (update i n' w' es c)
| CProcess c i n w now n' w' es err :
    c_nodes c !! i = Some (n, w) →
    handle (EvProcess now) n w = Done (n', w', es, err) →
    cluster_step c (update i n' w' es c)
| CLocal c i n w ev n' w' es err :
    c_nodes c !! i = Some (n, w) → is_local ev = true →
    handle ev n w = Done (n', w', es, err) →
    cluster_step c (update i n' w' es c).

(** Nothing has happened yet, and nobody but [p] is configured as primary. *)
Definition initial (p : string) (c : Cluster) : Prop :=
  c_sent c = [] ∧ c_pending c = [] ∧ c_assigned c = ∅ ∧
  ∀ i n w, c_nodes c !! i = Some (n, w) →
    ∃ cfg, n = NewPBFTNode cfg ∧ (cfg_IsPrimary cfg = true → i = p).

(** The same request up to what the PRE-PREPARE does not carry: the originating node (and an
    operation that is not one of the protocol's). *)
Definition same_request (r r' : Request) : Prop :=
  received_in_preprepare r = received_in_preprepare r'.

(** A CLIENT_REQUEST that reaches the primary is a proposal, which is its two halves in a row. *)
Lemma client_request_is_proposal now peers pick_done payload req n w :
  DeserializeRequest payload = Ok req → isPrimary n = true →
  HandleNetworkMessage now peers pick_done 7 payload n w =
  Done (match propose_locked peers req n with
        | (n1, Ok m) => propose_send now m n1 w
        | (n1, Err err) => (n1, w, [], Some err)
        end).
Proof.
  intros Hd Hp. unfold HandleNetworkMessage, IsPrimary. cbn [Z.eqb Pos.eqb]. rewrite Hd, Hp. cbn [negb].
  unfold ProposeRequest. by destruct (propose_locked peers req n) as [n1 [m|err]].
Qed.

(** A proposal is broadcast as a PRE-PREPARE. *)
Lemma propose_send_delivers now m n w n' w' es err nodes sent pending A :
  is_Ok (SerializePrePrepare m) → is_Ok (envelope 0 (SerializePrePrepare m) (nodeID n)) →
  propose_send now m n w = (n', w', es, err) →
  ∃ payload, deliverable (MkCluster nodes (sent ++ broadcasts es) pending A) 0 payload ∧
    DeserializePrePrepare payload = Ok (MkPrePrepareMsg (ppm_View m) (ppm_Sequence m) (ppm_Digest m)
      (received_in_preprepare (ppm_Request m))).
Proof.
  unfold propose_send, envelope. intros [payload Hser]. rewrite Hser. cbn [result_bind]. intros [data Hd].
  rewrite Hd. destruct (handlePrePrepare now m n w) as [[[n1 w1] es1] err1]. intros; simplify_eq.
  exists payload. split; [|by apply PrePrepare_decodes]. right. apply envelope_decodes in Hd.
  do 2 eexists. split_and!; [|exact Hd|done..]. cbn. apply elem_of_app. right. by left.
Qed.

(** * One node *)

Section one_node.
Context (P : Z → Request → Prop).

Definition log_ok n : Prop := ∀ s r, requestLog n !! s = Some r → P s r.

(** The application is untouched or executed a request with [P] on a commit quorum. *)
Definition applied n w n' w' : Prop :=
  w' = w ∨ ∃ s r, P s r ∧ quorum n (count_votes (commitLog n') s) ∧ w' = apply_request n r w.

(** A message that is neither a PRE-PREPARE nor a VIEW-CHANGE. *)
Definition harmless (data : string) : Prop :=
  ∃ msg, DeserializeValidatorMessage data = Ok msg ∧ (pb.vm_Type msg ≠ 0 ∧ pb.vm_Type msg ≠ 3)%Z.

Definition quiet (es : list effect) : Prop := Forall harmless (broadcasts es).

Definition handled n w n' w' es : Prop := log_ok n' ∧ applied n w n' w' ∧ quiet es.

Lemma quiet_app es es' : quiet es → quiet es' → quiet (es ++ es').
Proof. intros. unfold quiet, broadcasts. rewrite omap_app. by apply Forall_app. Qed.

Lemma quiet_broadcast data es : harmless data → quiet es → quiet (EBroadcast data :: es).
Proof. intros. by apply Forall_cons. Qed.

Lemma quiet_reset d es : quiet es → quiet (ETimerReset d :: es).
Proof. done. Qed.

Lemma quiet_nil : quiet [].
Proof. by apply Forall_nil. Qed.

Hint Resolve quiet_app quiet_broadcast quiet_reset quiet_nil : core.

Lemma packed_harmless ty payload id data :
  (ty ≠ 0 ∧ ty ≠ 3)%Z → SerializePBFTMessage ty payload id = Ok data → harmless data.
Proof. intros Hty Hd. apply envelope_decodes in Hd. by eexists. Qed.

Lemma envelope_harmless ty payload id data :
  (ty ≠ 0 ∧ ty ≠ 3)%Z → envelope ty payload id = Ok data → harmless data.
Proof.
  unfold envelope. destruct payload as [payload|]; [|done]. cbn. apply packed_harmless.
Qed.

Lemma invokeCallback_quiet id ok err n n' es : invokeCallback id ok err n = (n', es) → quiet es.
Proof. unfold invokeCallback. repeat case_match; intros; simplify_eq; apply quiet_nil. Qed.

Lemma createCheckpoint_quiet now s n n' es : createCheckpoint now s n = (n', es) → quiet es.
Proof.
  unfold createCheckpoint. repeat case_match; intros; simplify_eq; auto.
  apply quiet_broadcast; [|done]. by eapply packed_harmless; [|eassumption].
Qed.

Lemma executeRequest_quiet now s n w n' w' es err :
  executeRequest now s n w = (n', w', es, err) → quiet es.
Proof.
  unfold executeRequest. destruct (requestLog n !! s); [|by intros; simplify_eq].
  destruct (call_handlers _ _ _) as [w1 [herr|]].
  - destruct (invokeCallback _ _ _ _) eqn:Hi. intros; simplify_eq. by eapply invokeCallback_quiet.
  - destruct (invokeCallback _ _ _ _) as [n1 es1] eqn:Hi. apply invokeCallback_quiet in Hi.
    cbv zeta. destruct (Z.rem s checkpointInterval =? 0)%Z; [|intros; simplify_eq; auto].
    destruct (createCheckpoint _ _ _) as [n2 es2] eqn:Hc. apply createCheckpoint_quiet in Hc.
    intros; simplify_eq. auto.
Qed.

Lemma executeRequest_handled now s n w n' w' es err :
  log_ok n → quorum n (count_votes (commitLog n) s) →
  executeRequest now s n w = (n', w', es, err) → handled n w n' w' es.
Proof.
  intros Hlog Hq Hex. pose proof (executeRequest_quiet _ _ _ _ _ _ _ _ Hex) as Hquiet.
  apply executeRequest_spec in Hex as (_ & Hc & _ & Hr).
  destruct (requestLog n !! s) as [req|] eqn:Hreq; destruct Hr as [-> Hr].
  - (unfold handled; split_and!); [|right; exists s, req; rewrite Hc; auto|done].
    intros s' r. rewrite Hr. destruct (snd _); [apply Hlog|].
    rewrite lookup_delete. case_decide; [done|apply Hlog].
  - (unfold handled; split_and!); [|by left|done]. intros s' r. rewrite Hr. apply Hlog.
Qed.

(** Handling may go on from a node that differs in its votes only. *)
Lemma handled_after n n1 w n' w' es :
  f n1 = f n → handlers n1 = handlers n → stateReplicator n1 = stateReplicator n →
  handled n1 w n' w' es → handled n w n' w' es.
Proof.
  intros Hf Hh Hs (Hlog & Happ & Hq). (unfold handled; split_and!); [done| |done].
  destruct Happ as [->|(s & r & HP & Hquo & ->)]; [by left|right]. exists s, r.
  split_and!; [done| |by apply apply_request_frame].
  revert Hquo. unfold quorum, required_votes. by rewrite Hf.
Qed.

Lemma handled_still n n1 w : log_ok n1 → handled n w n1 w [].
Proof. intros. (unfold handled; split_and!); [done|by left|done]. Qed.

Lemma moveToCommitPhase_handled now s digest n w n' w' es err :
  log_ok n → moveToCommitPhase now s digest n w = (n', w', es, err) → handled n w n' w' es.
Proof.
  intros Hlog. unfold moveToCommitPhase; cbv zeta. set (n1 := set_commitLog _ _).
  assert (log_ok n1) as Hlog1 by done.
  destruct (envelope _ _ _) as [data|] eqn:He; [|intros; simplify_eq; by apply handled_still].
  apply envelope_harmless in He; [|done].
  case_match eqn:Hc.
  - apply checkQuorum_true in Hc.
    destruct (executeRequest _ _ _ _) as [[[n2 w2] es2] err2] eqn:Hex. intros; simplify_eq.
    apply executeRequest_handled in Hex as (? & Happ & Hq); [|done..].
    apply (handled_after n n1); [done..|]. (unfold handled; split_and!); auto.
  - intros; simplify_eq. (unfold handled; split_and!); [done|by left|auto].
Qed.

Lemma handlePrePrepare_handled now m n w n' w' es err :
  log_ok n → (ppm_View m = view n → P (ppm_Sequence m) (ppm_Request m)) →
  handlePrePrepare now m n w = (n', w', es, err) → handled n w n' w' es.
Proof.
  intros Hlog HP. unfold handlePrePrepare.
  destruct (Z.eqb_spec (ppm_View m) (view n)) as [Hv|]; cbn [negb];
    [|intros; simplify_eq; by apply handled_still].
  destruct (negb _); [intros; simplify_eq; by apply handled_still|]. cbv zeta.
  set (n1 := set_prepareLog _ _).
  assert (log_ok n1) as Hlog1.
  { intros s r. unfold n1; cbn [requestLog set_prepareLog set_state set_requestLog].
    rewrite lookup_insert. case_decide as Hs; [|apply Hlog]. intros [= <-]. subst s. auto. }
  destruct (envelope _ _ _) as [data|] eqn:He;
    [|intros; simplify_eq; (unfold handled; split_and!); [done|by left|auto]].
  apply envelope_harmless in He; [|done].
  case_match eqn:Hp.
  - destruct (moveToCommitPhase _ _ _ _ _) as [[[n2 w2] es2] err2] eqn:Hm. intros; simplify_eq.
    apply moveToCommitPhase_handled in Hm as (? & ? & ?); [|done].
    apply (handled_after n n1); [done..|]. (unfold handled; split_and!); auto.
  - case_match eqn:Hc; [|intros; simplify_eq; (unfold handled; split_and!); [done|by left|auto]].
    apply checkQuorum_true in Hc.
    destruct (executeRequest _ _ _ _) as [[[n2 w2] es2] err2] eqn:Hex. intros; simplify_eq.
    apply executeRequest_handled in Hex as (? & ? & ?); [|done..].
    apply (handled_after n n1); [done..|]. (unfold handled; split_and!); auto.
Qed.

Lemma HandlePrepare_handled now m n w n' w' es err :
  log_ok n → HandlePrepare now m n w = (n', w', es, err) → handled n w n' w' es.
Proof.
  intros Hlog. unfold HandlePrepare. destruct (negb _); [intros; simplify_eq; by apply handled_still|].
  cbv zeta. set (n1 := set_prepareLog _ _).
  case_match; [|intros; simplify_eq; by apply handled_still].
  case_match; [|intros; simplify_eq; by apply handled_still].
  intros Hm. apply (handled_after n n1); [done..|]. by eapply moveToCommitPhase_handled.
Qed.

Lemma HandleCommit_handled now m n w n' w' es err :
  log_ok n → HandleCommit now m n w = (n', w', es, err) → handled n w n' w' es.
Proof.
  intros Hlog. unfold HandleCommit. destruct (negb _); [intros; simplify_eq; by apply handled_still|].
  cbv zeta. set (n1 := set_commitLog _ _).
  case_match eqn:Hc; [|intros; simplify_eq; by apply handled_still].
  case_match; [|intros; simplify_eq; by apply handled_still].
  apply checkQuorum_true in Hc. intros Hm. apply (handled_after n n1); [done..|].
  by eapply executeRequest_handled.
Qed.

End one_node.

(** * The cluster's invariant *)

(** [r] is the request the primary numbered [s], as a node may hold it. *)
Definition agreed (A : gmap Z Request) (s : Z) (r : Request) : Prop :=
  ∃ r0, A !! s = Some r0 ∧ same_request r r0.

Definition queue_ok (P : Z → Request → Prop) n : Prop :=
  ∀ m, MPrePrepare m ∈ messageQueue n → P (ppm_Sequence m) (ppm_Request m).

(** [n] is a node of the first view; the counter of the primary is past every number given. *)
Record node_ok (p : string) (A : gmap Z Request) (i : string) n : Prop := {
  no_view : view n = 0%Z;
  no_primary : isPrimary n = true → i = p;
  no_log : log_ok (agreed A) n;
  no_queue : queue_ok (agreed A) n;
  no_counter : (0 ≤ sequence n)%Z ∧
    (i = p → ∀ s, is_Some (A !! s) → (s ≤ sequence n)%Z);
}.

(** A broadcast is no PRE-PREPARE or VIEW-CHANGE, or the PRE-PREPARE of an assigned request. *)
Definition announced (A : gmap Z Request) (data : string) : Prop :=
  harmless data ∨
  ∃ msg m, DeserializeValidatorMessage data = Ok msg ∧ pb.vm_Type msg = 0%Z ∧
    DeserializePrePrepare (pb.vm_Payload msg) = Ok m ∧ agreed A (ppm_Sequence m) (ppm_Request m).

Record cluster_inv (p : string) (c : Cluster) : Prop := {
  ci_node : ∀ i n w, c_nodes c !! i = Some (n, w) → node_ok p (c_assigned c) i n;
  ci_sent : Forall (announced (c_assigned c)) (c_sent c);
  ci_pending : ∀ i m, (i, m) ∈ c_pending c → agreed (c_assigned c) (ppm_Sequence m) (ppm_Request m);
}.

Lemma same_request_received r : same_request (received_in_preprepare r) r.
Proof.
  unfold same_request, received_in_preprepare; cbn. f_equal. unfold normal_op.
  repeat case_decide; naive_solver.
Qed.

Lemma initial_inv p c : initial p c → cluster_inv p c.
Proof.
  intros (Hs & Hp & Ha & Hn). split.
  - intros i n w Hi. destruct (Hn i n w Hi) as (cfg & -> & Hcfg). split; try done.
    + intros m Hm. by apply elem_of_nil in Hm.
    + split; [done|]. intros _ s. rewrite Ha, lookup_empty. by intros [? ?].
  - rewrite Hs. by apply Forall_nil.
  - intros i m. rewrite Hp. by intros ?%elem_of_nil.
Qed.

(** A node that keeps its view, its role and its counter is still good when its log and queue are. *)
Lemma node_ok_kept p A i n n' :
  view n' = view n → isPrimary n' = isPrimary n → sequence n' = sequence n →
  log_ok (agreed A) n' → queue_ok (agreed A) n' → node_ok p A i n → node_ok p A i n'.
Proof.
  intros Hv Hp Hs Hl Hq [K1 K2 K3 K4 [K5 K6]]. split; try done; [congruence|by rewrite Hp|].
  rewrite Hs. auto.
Qed.

Lemma frame_node_ok p A i n n' :
  frame n' = frame n → log_ok (agreed A) n' → node_ok p A i n → node_ok p A i n'.
Proof.
  intros Hf Hl Hok. assert (messageQueue n' = messageQueue n) as Hq by (unfold frame in Hf; by simplify_eq).
  apply frame_eq in Hf as (_ & Hv & _ & _ & Hp & _ & _ & _ & Hs).
  apply (node_ok_kept p A i n); [done..| |done]. intros m. rewrite Hq. apply Hok.
Qed.

Lemma update_inv p c i n' w' es :
  cluster_inv p c → node_ok p (c_assigned c) i n' → Forall (announced (c_assigned c)) (broadcasts es) →
  cluster_inv p (update i n' w' es c).
Proof.
  intros [Hn Hs Hp] Hok Hes. split; cbn; [|by apply Forall_app|done].
  intros j n w. rewrite lookup_insert. case_decide as Hj; [|apply Hn].
  intros [= <- <-]. by subst j.
Qed.

Lemma quiet_announced A es : quiet es → Forall (announced A) (broadcasts es).
Proof. intros Hq. eapply Forall_impl; [exact Hq|]. by left. Qed.

(** ** Proposals *)

Lemma propose_locked_Ok peers req n n' m :
  propose_locked peers req n = (n', Ok m) →
  let s := wrap_i64 (sequence n + 1) in
  isPrimary n = true ∧ n' = set_requestLog (<[s := req]> (requestLog n)) (set_sequence s n) ∧
  ppm_Sequence m = s ∧ ppm_Request m = req.
Proof.
  unfold propose_locked. destruct (isPrimary n); [cbn [negb]|by intros ?; simplify_eq].
  case_match; [by intros; simplify_eq|]. intros ?; simplify_eq. done.
Qed.

Lemma agreed_mono (A A' : gmap Z Request) s r : A ⊆ A' → agreed A s r → agreed A' s r.
Proof. intros Hsub (r0 & Hr & Hs). exists r0. split; [by eapply lookup_weaken|done]. Qed.

Lemma announced_mono (A A' : gmap Z Request) data : A ⊆ A' → announced A data → announced A' data.
Proof.
  intros Hsub [Hh|(msg & m & ? & ? & ? & ?)]; [by left|right]. exists msg, m.
  split_and!; [done..|]. by eapply agreed_mono.
Qed.

Lemma propose_fresh p c i n w :
  cluster_inv p c → c_nodes c !! i = Some (n, w) → isPrimary n = true →
  (sequence n < 2 ^ 63 - 1)%Z →
  wrap_i64 (sequence n + 1) = (sequence n + 1)%Z ∧ c_assigned c !! (sequence n + 1)%Z = None.
Proof.
  intros Hinv Hi Hp Hroom. destruct (ci_node _ _ Hinv _ _ _ Hi) as [_ Hpi _ _ [Hpos Hle]]. split.
  - apply wrap_i64_id. unfold is_i64. lia.
  - apply eq_None_not_Some. intros Hs. apply Hle in Hs; [lia|auto].
Qed.

Lemma propose_inv p c i n w peers req n' m :
  cluster_inv p c → c_nodes c !! i = Some (n, w) → (sequence n < 2 ^ 63 - 1)%Z →
  propose_locked peers req n = (n', Ok m) →
  let c' := MkCluster (<[i := (n', w)]> (c_nodes c)) (c_sent c) ((i, m) :: c_pending c)
      (<[ppm_Sequence m := req]> (c_assigned c)) in
  cluster_inv p c' ∧ c_assigned c ⊆ c_assigned c'.
Proof.
  intros Hinv Hi Hroom Hl c'. apply propose_locked_Ok in Hl as (Hpr & Hn' & Hseq & Hreq).
  destruct (propose_fresh _ _ _ _ _ Hinv Hi Hpr Hroom) as [Hw Hfresh]. rewrite Hw in *.
  assert (c_assigned c ⊆ c_assigned c') as Hsub by (cbn; rewrite Hseq; by apply insert_subseteq).
  assert (agreed (c_assigned c') (sequence n + 1) req) as Hnew.
  { exists req. split; [cbn; rewrite Hseq; apply lookup_insert_eq|done]. }
  split; [|done]. split.
  - intros j nj wj. cbn [c_nodes c']. rewrite lookup_insert.
    case_decide as Hj; intros Hjn.
    + injection Hjn as <- <-. subst j n'.
      destruct (ci_node _ _ Hinv _ _ _ Hi) as [K1 K2 K3 K4 [K5 K6]]. split; cbn; try done.
      * intros s r. cbn. rewrite lookup_insert. case_decide as Hs; [by intros [= <-]; subst|].
        intros Hr. eapply agreed_mono; [done|]. by apply K3.
      * intros m' Hm'. eapply agreed_mono; [done|]. by apply K4.
      * split; [lia|]. intros Hip s. rewrite Hseq, lookup_insert. case_decide; [lia|].
        intros Hs. specialize (K6 Hip s Hs). lia.
    + destruct (ci_node _ _ Hinv _ _ _ Hjn) as [K1 K2 K3 K4 [K5 K6]]. split; try done.
      * intros s r Hr. eapply agreed_mono; [done|]. by apply K3.
      * intros m' Hm'. eapply agreed_mono; [done|]. by apply K4.
      * split; [done|]. intros ->. exfalso. apply Hj.
        exact (no_primary _ _ _ _ (ci_node _ _ Hinv _ _ _ Hi) Hpr).
  - eapply Forall_impl; [apply Hinv|]. intros data. by apply announced_mono.
  - intros j m' Hin. apply elem_of_cons in Hin as [Heq|Hin].
    + injection Heq as -> ->. by rewrite Hseq, Hreq.
    + eapply agreed_mono; [exact Hsub|]. exact (ci_pending _ _ Hinv _ _ Hin).
Qed.

Lemma propose_send_announced A now m n w n' w' es err :
  log_ok (agreed A) n → agreed A (ppm_Sequence m) (ppm_Request m) →
  propose_send now m n w = (n', w', es, err) →
  log_ok (agreed A) n' ∧ applied (agreed A) n w n' w' ∧ Forall (announced A) (broadcasts es).
Proof.
  intros Hl Hm. unfold propose_send, envelope.
  destruct (SerializePrePrepare m) as [payload|] eqn:Hser; cbn [result_bind];
    [|intros; simplify_eq; split_and!; [done|by left|by apply Forall_nil]].
  destruct (SerializePBFTMessage 0 payload (nodeID n)) as [data|] eqn:Hd;
    [|intros; simplify_eq; split_and!; [done|by left|by apply Forall_nil]].
  destruct (handlePrePrepare now m n w) as [[[n1 w1] es1] err1] eqn:Hh. intros; simplify_eq.
  apply (handlePrePrepare_handled (agreed A)) in Hh as (? & ? & Hq); [|done..].
  split_and!; [done..|]. apply Forall_cons. split; [|by apply quiet_announced].
  right. apply envelope_decodes in Hd. apply PrePrepare_decodes in Hser.
  do 2 eexists. split_and!; [exact Hd|done|exact Hser|]. cbn.
  destruct Hm as (r0 & Hr0 & Hs). exists r0. split; [done|].
  unfold same_request. rewrite <- Hs. apply same_request_received.
Qed.

(** ** The other steps *)

(** What is queued after [msg] arrives. *)
Lemma enqueue_ok P pick_done msg n n' err :
  queue_ok P n → (∀ m, msg = MPrePrepare m → P (ppm_Sequence m) (ppm_Request m)) →
  enqueue pick_done msg n = (n', err) →
  queue_ok P n' ∧ requestLog n' = requestLog n ∧ view n' = view n ∧ isPrimary n' = isPrimary n ∧
  sequence n' = sequence n.
Proof.
  intros Hq Hm. unfold enqueue. repeat case_match; intros; simplify_eq; try by split_and!.
  split_and!; try done. intros m'. cbn. rewrite elem_of_app, list_elem_of_singleton.
  intros [?|<-]; [by apply Hq|by apply Hm].
Qed.

Lemma HandleCheckpoint_kept ckpt n P :
  log_ok P n → log_ok P (HandleCheckpoint ckpt n) ∧
  messageQueue (HandleCheckpoint ckpt n) = messageQueue n ∧ view (HandleCheckpoint ckpt n) = view n ∧
  isPrimary (HandleCheckpoint ckpt n) = isPrimary n ∧ sequence (HandleCheckpoint ckpt n) = sequence n.
Proof.
  intros Hl. unfold HandleCheckpoint. repeat (case_match; try by split_and!).
  split_and!; try done. intros s r. cbn. rewrite lookup_drop_upto. case_decide; [apply Hl|done].
Qed.

(** A delivered message changes no application; only a PRE-PREPARE adds a request to the queue. *)
Lemma delivery_ok p A i n w now peers pick_done ty payload n' w' es err :
  node_ok p A i n → ty ≠ 3%Z → (ty = 7%Z → isPrimary n = false) →
  (ty = 0%Z → ∀ m, DeserializePrePrepare payload = Ok m → agreed A (ppm_Sequence m) (ppm_Request m)) →
  HandleNetworkMessage now peers pick_done ty payload n w = Done (n', w', es, err) →
  node_ok p A i n' ∧ w' = w ∧ broadcasts es = [].
Proof.
  intros Hok Hty3 Hty7 Hpp. pose proof (no_log _ _ _ _ Hok) as Hl. pose proof (no_queue _ _ _ _ Hok) as Hq.
  assert (∀ msg n1 err1, (∀ m, msg = MPrePrepare m → agreed A (ppm_Sequence m) (ppm_Request m)) →
    enqueue pick_done msg n = (n1, err1) → node_ok p A i n1) as Hen.
  { intros msg n1 err1 Hm He. apply (enqueue_ok (agreed A)) in He as (? & Hr & ? & ? & ?); [|done..].
    apply (node_ok_kept p A i n); try done. intros s r. rewrite Hr. apply Hl. }
  unfold HandleNetworkMessage.
  destruct (Z.eqb_spec ty 0) as [Ht|_].
  { destruct (DeserializePrePrepare payload) as [m|] eqn:Hd; cbn; [|intros; by simplify_eq].
    destruct (enqueue _ _ _) as [n1 err1] eqn:He. intros; simplify_eq. split_and!; [|done..].
    eapply Hen; [|exact He]. intros m' [= <-]. by apply Hpp. }
  destruct (Z.eqb_spec ty 1) as [Ht|_].
  { destruct (DeserializePrepare payload) as [m|] eqn:Hd; cbn; [|intros; by simplify_eq].
    destruct (enqueue _ _ _) as [n1 err1] eqn:He. intros; simplify_eq. split_and!; [|done..].
    by eapply Hen; [|exact He]. }
  destruct (Z.eqb_spec ty 2) as [Ht|_].
  { destruct (DeserializeCommit payload) as [m|] eqn:Hd; cbn; [|intros; by simplify_eq].
    destruct (enqueue _ _ _) as [n1 err1] eqn:He. intros; simplify_eq. split_and!; [|done..].
    by eapply Hen; [|exact He]. }
  destruct (Z.eqb_spec ty 3) as [Ht|_]; [done|].
  destruct (Z.eqb_spec ty 4) as [Ht|_].
  { destruct (DeserializeCheckpoint payload) as [ckpt|] eqn:Hd; intros; simplify_eq; [|done].
    destruct (HandleCheckpoint_kept ckpt n (agreed A) Hl) as (? & Hm & ? & ? & ?).
    split_and!; [|done..]. apply (node_ok_kept p A i n); try done. intros m. rewrite Hm. apply Hq. }
  destruct (Z.eqb_spec ty 6) as [Ht|_]; [intros; by simplify_eq|].
  destruct (Z.eqb_spec ty 7) as [Ht|_]; [|intros; by simplify_eq].
  destruct (DeserializeRequest payload) as [req|]; [|intros; by simplify_eq].
  unfold IsPrimary. rewrite (Hty7 Ht). cbn. intros; simplify_eq. split_and!; [|done..].
  by apply (node_ok_kept p A i n).
Qed.

Lemma deliverable_announced p c ty payload :
  cluster_inv p c → deliverable c ty payload →
  ty ≠ 3%Z ∧ (ty = 0%Z → ∀ m, DeserializePrePrepare payload = Ok m →
    agreed (c_assigned c) (ppm_Sequence m) (ppm_Request m)).
Proof.
  intros Hinv [[Hn0 Hn3]|(data & msg & Hin & Hd & Hty & Hpl)]; [by split|].
  pose proof (ci_sent _ _ Hinv) as Hs. rewrite Forall_forall in Hs. specialize (Hs _ Hin).
  destruct Hs as [(msg' & Hd' & Hne & Hne')|(msg' & m' & Hd' & Hty' & Hpl' & Hm')];
    rewrite Hd in Hd'; injection Hd' as <-; rewrite Hty in *; subst payload.
  - split; [done|]. intros ->. done.
  - split; [lia|]. intros _ m Hm. rewrite Hpl' in Hm. by injection Hm as <-.
Qed.

Lemma process_ok p A i n w now n' w' es err :
  node_ok p A i n → handle (EvProcess now) n w = Done (n', w', es, err) →
  node_ok p A i n' ∧ applied (agreed A) n w n' w' ∧ quiet es.
Proof.
  intros Hok. cbn [handle]. unfold processMessage.
  destruct (messageQueue n) as [|msg queue] eqn:Hq.
  { intros; simplify_eq. split_and!; [done|by left|by apply Forall_nil]. }
  set (n1 := set_messageQueue queue n).
  assert (node_ok p A i n1) as Hok1.
  { apply (node_ok_kept p A i n); try done; [exact (no_log _ _ _ _ Hok)|].
    intros m Hm. apply (no_queue _ _ _ _ Hok). rewrite Hq. by right. }
  assert (log_ok (agreed A) n1) as Hl1 by apply Hok1.
  intros Hd.
  assert (frame n' = frame n1 ∧ handled (agreed A) n1 w n' w' es) as [Hfr Hh].
  { injection Hd as Hd. destruct msg as [m|m|m].
    - split; [by eapply handlePrePrepare_spec|]. eapply handlePrePrepare_handled; [done| |exact Hd].
      intros _. apply (no_queue _ _ _ _ Hok). rewrite Hq. by left.
    - split; [by eapply HandlePrepare_spec|]. by eapply HandlePrepare_handled.
    - split; [by eapply HandleCommit_spec|]. by eapply HandleCommit_handled. }
  apply (handled_after (agreed A) n n1) in Hh as (Hl & Happ & Hqu); [|done..].
  split_and!; [by apply (frame_node_ok p A i n1)|done|done].
Qed.

Lemma local_ok p A i n w ev n' w' es err :
  node_ok p A i n → is_local ev = true → handle ev n w = Done (n', w', es, err) →
  node_ok p A i n' ∧ w' = w ∧ broadcasts es = [].
Proof.
  intros Hok Hev. destruct ev; try done; cbn; intros; simplify_eq; (split_and!; [|done..]);
    by apply (node_ok_kept p A i n); try done; apply Hok.
Qed.

(** Every step keeps the invariant, only adds assigned requests, and justifies what it executes. *)
Lemma cluster_step_ok p c c' :
  cluster_inv p c → cluster_step c c' →
  cluster_inv p c' ∧ c_assigned c ⊆ c_assigned c' ∧
  ∀ i n w n' w', c_nodes c !! i = Some (n, w) → c_nodes c' !! i = Some (n', w') →
    applied (agreed (c_assigned c')) n w n' w'.
Proof.
  intros Hinv Hstep.
  assert (∀ (nodes : gmap string (PBFTNode W * W)) (P : Z → Request → Prop) i n w n1 w1,
    nodes !! i = Some (n, w) → applied P n w n1 w1 →
    ∀ j n w n' w', nodes !! j = Some (n, w) → <[i := (n1, w1)]> nodes !! j = Some (n', w') →
      applied P n w n' w') as Happ.
  { intros nodes P i n w n1 w1 Hi Ha j nj wj n' w' Hj. rewrite lookup_insert. case_decide as Hij.
    - intros [= <- <-]. subst j. rewrite Hi in Hj. by injection Hj as <- <-.
    - rewrite Hj. intros [= <- <-]. by left. }
  destruct Hstep as [c i n w peers req n' m Hi Hroom Hl|c i n w now m l1 l2 n' w' es err Hi Hp Hs
    |c i n w now peers pick_done ty payload n' w' es err Hi Hdel Hty Hh
    |c i n w now n' w' es err Hi Hh|c i n w ev n' w' es err Hi Hev Hh].
  - destruct (propose_inv _ _ _ _ _ _ _ _ _ Hinv Hi Hroom Hl) as [Hinv' Hsub].
    split_and!; [done..|]. eapply Happ; [exact Hi|by left].
  - pose proof (ci_node _ _ Hinv _ _ _ Hi) as Hok.
    assert (agreed (c_assigned c) (ppm_Sequence m) (ppm_Request m)) as Hm.
    { eapply (ci_pending _ _ Hinv i). rewrite Hp. apply elem_of_app. right. by left. }
    pose proof (propose_send_spec _ _ _ _ _ _ _ _ Hs) as Hfr.
    apply (propose_send_announced (c_assigned c)) in Hs as (Hl & Ha & Hes); [|apply Hok|done].
    split_and!; [|done|by eapply Happ]. apply update_inv; [|by apply (frame_node_ok p _ i n)|done].
    split; [apply Hinv..|]. cbn. intros j m' Hin. eapply (ci_pending _ _ Hinv j). rewrite Hp.
    apply elem_of_app in Hin as [?|?]; apply elem_of_app; [by left|right; by right].
  - pose proof (ci_node _ _ Hinv _ _ _ Hi) as Hok.
    destruct (deliverable_announced _ _ _ _ Hinv Hdel) as [Hty3 Hpp].
    eapply delivery_ok in Hh as (Hok' & -> & Hes); [|done..].
    split_and!; [|done|by eapply Happ; [|left]].
    apply update_inv; [done|done|]. rewrite Hes. by apply Forall_nil.
  - pose proof (ci_node _ _ Hinv _ _ _ Hi) as Hok.
    eapply process_ok in Hh as (Hok' & Ha & Hq); [|done].
    split_and!; [|done|by eapply Happ]. apply update_inv; [done..|]. by apply quiet_announced.
  - pose proof (ci_node _ _ Hinv _ _ _ Hi) as Hok.
    eapply local_ok in Hh as (Hok' & -> & Hes); [|done..].
    split_and!; [|done|by eapply Happ; [|left]].
    apply update_inv; [done|done|]. rewrite Hes. by apply Forall_nil.
Qed.

Lemma cluster_run_ok p c c' :
  cluster_inv p c → rtc cluster_step c c' → cluster_inv p c' ∧ c_assigned c ⊆ c_assigned c'.
Proof.
  intros Hinv Hrun. induction Hrun as [|c c1 c' Hstep _ IH]; [done|].
  destruct (cluster_step_ok _ _ _ Hinv Hstep) as (Hinv1 & Hsub & _).
  destruct (IH Hinv1) as [? ?]. split; [done|]. by etrans.
Qed.

(** * Agreement *)

(** C1: agreement in a view: while no timer fires, whatever the network does with the nodes'
    messages and whatever votes, checkpoints and client requests are forged, the primary gives each
    sequence number to one request; two nodes that hold a request under the same number hold the
    same one (up to its originating node); and when a node's application changes, it executed the
    request of a number whose commit votes are a quorum there, as the primary assigned it. An
    assignment never changes, so what two nodes ever execute under one number is the same. *)
Theorem one_request_per_number p c0 c :
  initial p c0 → rtc cluster_step c0 c →
  (∀ i j n1 w1 n2 w2 s r1 r2,
    c_nodes c !! i = Some (n1, w1) → c_nodes c !! j = Some (n2, w2) →
    requestLog n1 !! s = Some r1 → requestLog n2 !! s = Some r2 → same_request r1 r2) ∧
  (∀ c1 i n w n' w',
    cluster_step c c1 → c_nodes c !! i = Some (n, w) → c_nodes c1 !! i = Some (n', w') → w' ≠ w →
    ∃ s r r0, c_assigned c1 !! s = Some r0 ∧ same_request r r0 ∧
      quorum n (count_votes (commitLog n') s) ∧ w' = apply_request n r w) ∧
  (∀ c1, rtc cluster_step c c1 → c_assigned c ⊆ c_assigned c1).
Proof.
  intros Hinit Hrun. destruct (cluster_run_ok _ _ _ (initial_inv _ _ Hinit) Hrun) as [Hinv _].
  split_and!.
  - intros i j n1 w1 n2 w2 s r1 r2 Hi Hj Hr1 Hr2.
    apply (no_log _ _ _ _ (ci_node _ _ Hinv _ _ _ Hi)) in Hr1 as (r0 & Hr0 & Hs1).
    apply (no_log _ _ _ _ (ci_node _ _ Hinv _ _ _ Hj)) in Hr2 as (r0' & Hr0' & Hs2).
    rewrite Hr0 in Hr0'. injection Hr0' as <-. unfold same_request in *. congruence.
  - intros c1 i n w n' w' Hstep Hi Hi' Hne.
    destruct (cluster_step_ok _ _ _ Hinv Hstep) as (_ & _ & Happ).
    destruct (Happ _ _ _ _ _ Hi Hi') as [|(s & r & (r0 & Hr0 & Hs) & Hq & Hw)]; [done|].
    by exists s, r, r0.
  - intros c1 Hrun1. by apply (cluster_run_ok p c c1).
Qed.

End cluster.
Arguments Cluster : clear implicits.

(** * A run of two of four nodes *)

#[local] Existing Instance pb.bit_codec.
#[local] Existing Instance pb.bit_codec_laws.

Definition replica (i : Z) : PBFTNode unit := NewPBFTNode (PbftSafety.node_cfg 4 i).

Definition two_nodes : Cluster unit :=
  MkCluster {[ "node0" := (replica 0, ()); "node1" := (replica 1, ()) ]} [] [] ∅.

Lemma two_nodes_initial : initial "node0" two_nodes.
Proof.
  split_and!; try done. intros i n w Hi. cbn in Hi.
  apply lookup_insert_Some in Hi as [[<- [= <- <-]]|[_ Hi]].
  - by eexists.
  - apply lookup_singleton_Some in Hi as [<- [= <- <-]]. by eexists.
Qed.

(** The request as node1 has it. *)
Definition preprepare_on_the_wire : PrePrepareMsg :=
  MkPrePrepareMsg 0 1 (computeDigest PbftSafety.request_T1)
    (received_in_preprepare PbftSafety.request_T1).

Lemma bit_codec_marshals {M} `{Countable M, pb.Unset M} (m : M) : ∃ data, pb.Marshal m = Ok data.
Proof. unfold pb.Marshal, pb.bit_codec. case_decide; by eexists. Qed.

Lemma bit_codec_serializes m id :
  is_Ok (SerializePrePrepare m) ∧ is_Ok (envelope 0 (SerializePrePrepare m) id).
Proof.
  unfold envelope, SerializePrePrepare.
  match goal with |- context [pb.Marshal ?x] => destruct (bit_codec_marshals x) as [payload ->] end.
  split; [by eexists|]. cbn [wrap_err result_bind]. unfold SerializePBFTMessage.
  match goal with |- context [pb.Marshal ?x] => destruct (bit_codec_marshals x) as [data ->] end.
  by eexists.
Qed.

Lemma one_request_per_number_witness : ∃ c n1 w1 n2 w2 r1 r2,
  rtc cluster_step two_nodes c ∧
  c_nodes c !! "node0" = Some (n1, w1) ∧ c_nodes c !! "node1" = Some (n2, w2) ∧
  requestLog n1 !! 1%Z = Some r1 ∧ requestLog n2 !! 1%Z = Some r2 ∧ same_request r1 r2.
Proof.
  destruct (propose_locked 3 PbftSafety.request_T1 (replica 0)) as [n1 r] eqn:Hl.
  assert (r = Ok PbftSafety.preprepare_T1) as Hr by
    (change r with ((n1, r).2); rewrite <- Hl; vm_compute; reflexivity).
  rewrite Hr in Hl.
  destruct (propose_send 5 PbftSafety.preprepare_T1 n1 ()) as [[[n1' w1'] es1] err1] eqn:Hs.
  set (n2 := set_messageQueue [MPrePrepare preprepare_on_the_wire] (replica 1)).
  destruct (handlePrePrepare 5 preprepare_on_the_wire (replica 1) ()) as [[[n2' w2'] es2] err2] eqn:Hp.
  assert (requestLog n1' !! 1%Z = Some PbftSafety.request_T1) as Hlog1.
  { change n1' with ((n1', w1', es1, err1).1.1.1). rewrite <- Hs.
    change n1 with ((n1, @Ok PrePrepareMsg PbftSafety.preprepare_T1).1). rewrite <- Hl.
    vm_compute. reflexivity. }
  assert (requestLog n2' !! 1%Z = Some (received_in_preprepare PbftSafety.request_T1)) as Hlog2.
  { change n2' with ((n2', w2', es2, err2).1.1.1). rewrite <- Hp. vm_compute. reflexivity. }
  set (A := <[1%Z := PbftSafety.request_T1]> (∅ : gmap Z Request)).
  destruct (propose_send_delivers 5 PbftSafety.preprepare_T1 n1 () n1' w1' es1 err1
    (<["node0" := (n1', w1')]> (<["node0" := (n1, ())]> (c_nodes two_nodes))) [] [] A)
    as (payload & Hdel & Hdes); 
    [apply (bit_codec_serializes _ "")|apply bit_codec_serializes|exact Hs|].
  set (c := update "node1" n2' w2' es2 (update "node1" n2 () []
    (update "node0" n1' w1' es1 (MkCluster (<["node0" := (n1, ())]> (c_nodes two_nodes)) [] [] A)))).
  assert (rtc cluster_step two_nodes c) as Hrun.
  { eapply rtc_l; [eapply (CPropose two_nodes "node0" (replica 0) () 3); [reflexivity|reflexivity|exact Hl]|].
    eapply rtc_l; [eapply (CSend _ "node0" n1 () 5 PbftSafety.preprepare_T1 [] []); [reflexivity|reflexivity|exact Hs]|].
    eapply rtc_l; [eapply (CDeliver _ "node1" (replica 1) () 5 3 false 0 payload n2 () [] None);
      [reflexivity|exact Hdel|discriminate|]|].
    { cbn [handle]. unfold HandleNetworkMessage. cbn [Z.eqb]. rewrite Hdes. reflexivity. }
    eapply rtc_l; [eapply (CProcess _ "node1" n2 () 5 n2' w2' es2 err2); [reflexivity|]|apply rtc_refl].
    cbn [handle]. f_equal. exact Hp. }
  destruct (one_request_per_number "node0" two_nodes c two_nodes_initial Hrun) as [Hagree _].
  assert (c_nodes c !! "node0" = Some (n1', w1')) as Hn1 by reflexivity.
  assert (c_nodes c !! "node1" = Some (n2', w2')) as Hn2 by reflexivity.
  exists c, n1', w1', n2', w2', PbftSafety.request_T1, (received_in_preprepare PbftSafety.request_T1).
  split; [exact Hrun|]. split; [exact Hn1|]. split; [exact Hn2|]. split; [exact Hlog1|].
  split; [exact Hlog2|]. exact (Hagree "node0" "node1" _ _ _ _ _ _ _ Hn1 Hn2 Hlog1 Hlog2).
Defined.

End Cluster.
