(* ===== verification/PbftRound.v ===== *)
(** A whole consensus round ([src/pkg/consensus/pbft.go]): the nodes that are up exchange the messages
    of one request over a network that delivers them in any order; the round ends, and every one of
    these nodes has executed the request.

    Nodes that are down neither send nor receive. A delivered message is taken from the node's queue
    before the node receives another. Timers do not fire during the round, and the sequence number is
    not a multiple of the checkpoint interval: at those, a stable checkpoint can overtake the round
    ([checkpoint_drops_request]). *)

From stdpp Require Import relations.
From S2P Require Import Prelude Hashing Proto Messages Pbft PbftSpec PbftInv PbftSafety PbftLive Cluster.

Module PbftRound.
Import Messages Pbft PbftSpec PbftInv PbftSafety PbftLive.

(** * One node of the round *)

Section node.
Context {W : Type}.
Context `{pb.ProtoMessage pb.ValidatorMessage, pb.ProtoMessage pb.PrePrepare,
  pb.ProtoMessage pb.Prepare, pb.ProtoMessage pb.Commit, pb.ProtoMessage pb.Request,
  pb.ProtoMessage pb.ViewChange, pb.ProtoMessage pb.Checkpoint}.
Implicit Types n : PBFTNode W.
Implicit Types w : W.

Abbreviation broadcasts := Cluster.broadcasts.

(** The node before the round, and the request as the node gets it. *)
Variables (n0 : PBFTNode W) (w0 : W) (s : Z) (req : Request).
Hypothesis Hsend : sendable n0 s.
Hypothesis Hok : handlers_succeed n0 w0 req.
Hypothesis Hck : Z.rem s checkpointInterval ≠ 0%Z.

Let me := nodeID n0.
Let d := computeDigest req.

Definition prepare_data : string :=
  payload (envelope 1 (SerializePrepare (MkPrepareMsg (view n0) s d me)) me).
Definition commit_data : string :=
  payload (envelope 2 (SerializeCommit (MkCommitMsg (view n0) s d me)) me).

(** The node has accepted the PRE-PREPARE ([a]), has broadcast a COMMIT ([b]), and has votes from
    [Pv] and [Cv]. *)
Record node_at (a b : bool) (Pv Cv : gset string) n w : Prop := {
  na_in : in_round n0 s ∅ n;
  na_queue : messageQueue n = [];
  na_prep : dom (votes_at (prepareLog n) s) = Pv;
  na_com : commit_senders s n = Cv;
  na_state :
    if a then me ∈ Pv ∧ (b = true → me ∈ Cv) ∧
      ((requestLog n !! s = None ∧ w = apply_request n0 req w0 ∧
        (required_votes n0 ≤ Z.of_nat (size Cv))%Z) ∨
       (requestLog n !! s = Some req ∧ w = w0 ∧ (Z.of_nat (size Cv) < required_votes n0)%Z ∧
        ((required_votes n0 ≤ Z.of_nat (size Pv))%Z → b = true)))
    else requestLog n !! s = None ∧ w = w0 ∧ b = false;
}.

Lemma size_senders {T} (log : votelog T) (X : gset string) :
  dom (votes_at log s) = X → count_votes log s = Z.of_nat (size X).
Proof. intros <-. unfold count_votes. by rewrite size_dom. Qed.

Lemma broadcasts_app es es' : broadcasts (es ++ es') = broadcasts es ++ broadcasts es'.
Proof. apply omap_app. Qed.

Lemma broadcasts_cons x es : broadcasts (EBroadcast x :: es) = x :: broadcasts es.
Proof. done. Qed.

Lemma execute_broadcasts now n w n' w' es err :
  executeRequest now s n w = (n', w', es, err) → broadcasts es = [].
Proof.
  assert (Hcb : ∀ id ok e n1 n2 es1, invokeCallback id ok e n1 = (n2, es1) → broadcasts es1 = []).
  { intros id ok e n1 n2 es1. unfold invokeCallback. repeat case_match; by intros; simplify_eq. }
  unfold executeRequest. destruct (requestLog n !! s) as [r|]; [|by intros; simplify_eq].
  destruct (call_handlers _ r w) as [w1 [e|]].
  - destruct (invokeCallback _ _ _ _) as [n1 es1] eqn:Hes. apply Hcb in Hes. by intros; simplify_eq.
  - destruct (invokeCallback _ _ _ _) as [n1 es1] eqn:Hes. apply Hcb in Hes.
    destruct (Z.eqb_spec (Z.rem s checkpointInterval) 0); [done|].
    intros; simplify_eq. by rewrite !broadcasts_app, Hes.
Qed.

Lemma execute_at now b Pv Cv n n' w' es err :
  in_round n0 s ∅ n → messageQueue n = [] → dom (votes_at (prepareLog n) s) = Pv →
  commit_senders s n = Cv → requestLog n !! s = Some req → me ∈ Pv → (b = true → me ∈ Cv) →
  (required_votes n0 ≤ Z.of_nat (size Cv))%Z →
  executeRequest now s n w0 = (n', w', es, err) →
  node_at true b Pv Cv n' w' ∧ broadcasts es = [].
Proof.
  intros Hin Hq Hp Hc Hreq Hme Hb Hn Hex. split; [|by eapply execute_broadcasts].
  pose proof Hex as Hspec. apply executeRequest_spec in Hspec as (Hfr & Hcl & Hpl & _).
  assert (Hq' : messageQueue n' = []) by (unfold frame in Hfr; congruence).
  destruct (execute_settles n0 w0 s req Hok now ∅ n n' w' es err Hin Hreq Hex) as [Hin' Hset].
  assert (Hc' : commit_senders s n' = Cv) by (unfold commit_senders; by rewrite Hcl).
  split; [done | done | by rewrite Hpl | done |]. split_and!; [done | done |]. left.
  destruct Hset as [[? ?]|(_ & _ & Hlt)]; [done|].
  rewrite (size_senders _ Cv Hc') in Hlt. lia.
Qed.

Lemma commit_at now Pv Cv n n' w' es err :
  in_round n0 s ∅ n → messageQueue n = [] → dom (votes_at (prepareLog n) s) = Pv →
  commit_senders s n = Cv → requestLog n !! s = Some req → me ∈ Pv →
  moveToCommitPhase now s d n w0 = (n', w', es, err) →
  node_at true true Pv ({[me]} ∪ Cv) n' w' ∧ broadcasts es = [commit_data].
Proof.
  intros Hin Hq Hp Hc Hreq Hme. unfold moveToCommitPhase; simpl. set (n1 := set_commitLog _ _).
  assert (Hc1 : commit_senders s n1 = {[me]} ∪ Cv).
  { unfold commit_senders, n1; simpl. rewrite add_vote_senders.
    destruct Hin as (-> & _). by rewrite <- Hc. }
  assert (Hin1 : in_round n0 s ∅ n1).
  { apply (in_round_frame n0 s ∅ n); [done| |done]. rewrite Hc1, Hc. set_solver. }
  destruct (proj2 Hsend d) as [data Hd]. pose proof Hin as (Hi & Hv & _).
  rewrite Hi, Hv, Hd. assert (Hcd : commit_data = data) by (unfold commit_data, me; by rewrite Hd).
  unfold checkCommitQuorum, checkQuorum.
  rewrite (size_senders (commitLog n1) _ Hc1), (in_round_required n0 s ∅ n1 Hin1).
  destruct (Z.leb_spec (required_votes n0) (Z.of_nat (size ({[me]} ∪ Cv)))) as [Hle|Hlt].
  - destruct (executeRequest now s n1 w0) as [[[n2 w2] es2] err2] eqn:Hex. intros [= <- <- <- <-].
    destruct (execute_at now true Pv ({[me]} ∪ Cv) n1 n2 w2 es2 err2) as [Hat Hb]; try done; [set_solver|].
    split; [done|]. by rewrite broadcasts_cons, Hb, Hcd.
  - intros [= <- <- <- <-]. split; [|by rewrite Hcd].
    split; [done | done | done | done |]. split_and!; [done | set_solver | right]. done.
Qed.

(** ** The three kinds of messages *)

Lemma preprepare_at now m n n' w' es err Pv Cv :
  in_round n0 s ∅ n → messageQueue n = [] → dom (votes_at (prepareLog n) s) = Pv →
  commit_senders s n = Cv →
  ppm_View m = view n0 → ppm_Sequence m = s → ppm_Digest m = d → ppm_Request m = req →
  handlePrePrepare now m n w0 = (n', w', es, err) →
  ∃ b, node_at true b ({[me]} ∪ Pv) (if b then {[me]} ∪ Cv else Cv) n' w' ∧
    broadcasts es = prepare_data :: (if b then [commit_data] else []).
Proof.
  intros Hin Hq Hp Hc Hv Hs Hd Hr. pose proof Hin as (Hi & Hview & _). unfold handlePrePrepare.
  rewrite Hv, Hview, Hs, Hd, Hr, Z.eqb_refl. fold d. rewrite String.eqb_refl. simpl. rewrite Hi.
  set (n1 := set_prepareLog _ _).
  assert (Hin1 : in_round n0 s ∅ n1) by by apply (in_round_frame n0 s ∅ n).
  assert (Hp1 : dom (votes_at (prepareLog n1) s) = {[me]} ∪ Pv).
  { unfold n1; simpl. rewrite add_vote_senders. by rewrite <- Hp. }
  assert (Hr1 : requestLog n1 !! s = Some req) by apply lookup_insert_eq.
  destruct (proj1 Hsend d) as [data Hdata]. rewrite Hdata.
  assert (Hpd : prepare_data = data) by (unfold prepare_data, me; by rewrite Hdata).
  unfold checkPrepareQuorum, checkCommitQuorum, checkQuorum.
  rewrite (size_senders _ _ Hp1), (size_senders (commitLog n1) Cv Hc), (in_round_required n0 s ∅ n1 Hin1).
  destruct (Z.leb_spec (required_votes n0) (Z.of_nat (size ({[me]} ∪ Pv)))) as [Hle|Hlt].
  - destruct (moveToCommitPhase now s d n1 w0) as [[[n2 w2] es2] err2] eqn:Hm. intros [= <- <- <- <-].
    exists true. destruct (commit_at now ({[me]} ∪ Pv) Cv n1 n2 w2 es2 err2) as [Hat Hb]; try done; [set_solver|].
    split; [done|]. trans (data :: broadcasts es2); [done | by rewrite Hb, Hpd].
  - destruct (Z.leb_spec (required_votes n0) (Z.of_nat (size Cv))) as [Hle'|Hlt'].
    + destruct (executeRequest now s n1 w0) as [[[n2 w2] es2] err2] eqn:Hex. intros [= <- <- <- <-].
      exists false. destruct (execute_at now false ({[me]} ∪ Pv) Cv n1 n2 w2 es2 err2) as [Hat Hb]; try done; [set_solver|].
      split; [done|]. trans (data :: broadcasts es2); [done | by rewrite Hb, Hpd].
    + intros [= <- <- <- <-]. exists false. split; [|by rewrite Hpd]. split; [done | done | done | done |].
      split_and!; [set_solver | done | right]. split_and!; [done | done | done | lia].
Qed.

Lemma prepare_at now a b Pv Cv n w k n' w' es err :
  node_at a b Pv Cv n w →
  HandlePrepare now (MkPrepareMsg (view n0) s d k) n w = (n', w', es, err) →
  ∃ c : bool, node_at a (b || c) ({[k]} ∪ Pv) (if c then {[me]} ∪ Cv else Cv) n' w' ∧
    broadcasts es = (if c then [commit_data] else []) ∧ (c = true → a = true).
Proof.
  intros [Hin Hq Hp Hc Hst]. pose proof Hin as (Hi & Hview & _). unfold HandlePrepare; simpl.
  rewrite Hview, Z.eqb_refl; simpl. set (n1 := set_prepareLog _ n).
  assert (Hin1 : in_round n0 s ∅ n1) by by apply (in_round_frame n0 s ∅ n).
  assert (Hp1 : dom (votes_at (prepareLog n1) s) = {[k]} ∪ Pv).
  { unfold n1; simpl. rewrite add_vote_senders. by rewrite <- Hp. }
  unfold checkPrepareQuorum, checkQuorum.
  rewrite (size_senders _ _ Hp1), (in_round_required n0 s ∅ n1 Hin1).
  destruct a.
  2: { destruct Hst as (Hr & -> & ->). rewrite Hr. intros Heq. exists false.
       assert ((n', w', es, err) = (n1, w0, [], None)) as [= -> -> -> ->] by by case_match.
       by split_and!. }
  destruct Hst as (Hme & Hb & Hst).
  destruct (Z.leb_spec (required_votes n0) (Z.of_nat (size ({[k]} ∪ Pv)))) as [Hle|Hlt].
  - destruct Hst as [(Hr & Hw & Hn)|(Hr & -> & Hn & _)]; rewrite Hr.
    + intros [= <- <- <- <-]. exists false. rewrite orb_false_r. split_and!; [|done|done].
      split; [done | done | done | done |]. split_and!; [set_solver | done | by left].
    + intros Hm. exists true. rewrite orb_true_r.
      destruct (commit_at now ({[k]} ∪ Pv) Cv n1 n' w' es err) as [Hat Hbr]; try done. set_solver.
  - intros [= <- <- <- <-]. exists false. rewrite orb_false_r. split_and!; [|done|done].
    split; [done | done | done | done |]. split_and!; [set_solver | done |].
    destruct Hst as [?|(? & ? & ? & _)]; [by left | right]. split_and!; [done | done | done | lia].
Qed.

Lemma commit_vote_at now a b Pv Cv n w k n' w' es err :
  node_at a b Pv Cv n w →
  HandleCommit now (MkCommitMsg (view n0) s d k) n w = (n', w', es, err) →
  node_at a b Pv ({[k]} ∪ Cv) n' w' ∧ broadcasts es = [].
Proof.
  intros [Hin Hq Hp Hc Hst]. pose proof Hin as (Hi & Hview & _). unfold HandleCommit; simpl.
  rewrite Hview, Z.eqb_refl; simpl. set (n1 := set_commitLog _ n).
  assert (Hc1 : commit_senders s n1 = {[k]} ∪ Cv).
  { unfold commit_senders, n1; simpl. rewrite add_vote_senders. by rewrite <- Hc. }
  assert (Hin1 : in_round n0 s ∅ n1).
  { apply (in_round_frame n0 s ∅ n); [done| |done]. rewrite Hc1, Hc. set_solver. }
  unfold checkCommitQuorum, checkQuorum.
  rewrite (size_senders (commitLog n1) _ Hc1), (in_round_required n0 s ∅ n1 Hin1).
  destruct a.
  2: { destruct Hst as (Hr & -> & ->). rewrite Hr. intros Heq.
       assert ((n', w', es, err) = (n1, w0, [], None)) as [= -> -> -> ->] by by case_match.
       by split_and!. }
  destruct Hst as (Hme & Hb & Hst).
  assert (Hsz : size Cv ≤ size ({[k]} ∪ Cv)) by (apply subseteq_size; set_solver).
  destruct (Z.leb_spec (required_votes n0) (Z.of_nat (size ({[k]} ∪ Cv)))) as [Hle|Hlt].
  - destruct Hst as [(Hr & Hw & Hn)|(Hr & -> & Hn & _)]; rewrite Hr.
    + intros [= <- <- <- <-]. split; [|done]. split; [done | done | done | done |].
      split_and!; [done | set_solver | by left].
    + intros Hm. destruct (execute_at now b Pv ({[k]} ∪ Cv) n1 n' w' es err) as [Hat Hbr]; try done. set_solver.
  - intros [= <- <- <- <-]. split; [|done]. split; [done | done | done | done |].
    split_and!; [done | set_solver |].
    destruct Hst as [(_ & _ & ?)|(? & ? & ? & ?)]; [lia | right]. by split_and!.
Qed.
End node.

(** * The round *)

Section round.
Context {W : Type}.
Context `{HLv : pb.ProtoLaws pb.ValidatorMessage pb.unset_ValidatorMessage,
  HLpp : pb.ProtoLaws pb.PrePrepare pb.unset_PrePrepare,
  HLp : pb.ProtoLaws pb.Prepare pb.unset_Prepare,
  HLc : pb.ProtoLaws pb.Commit pb.unset_Commit,
  !pb.ProtoMessage pb.Request, !pb.ProtoMessage pb.ViewChange, !pb.ProtoMessage pb.Checkpoint}.
Implicit Types n : PBFTNode W.
Implicit Types w : W.

(** The nodes that are up. *)
Variable ids : list string.

(** What is on its way: to whom, and the message. *)
Record Round := MkRound {
  r_nodes : gmap string (PBFTNode W * W);
  r_flight : list (string * string);
}.

Definition peers_of (i : string) : list string := List.filter (λ j, negb (j =? i)%string) ids.

(** [Broadcast] sends to all peers. *)
Definition to_peers (i : string) (datas : list string) : list (string * string) :=
  flat_map (λ data, map (λ j, (j, data)) (peers_of i)) datas.

(** A message arrives and, where it goes to the queue, is taken from it. *)
Definition receive (now peers : Z) (data : string) n w : option (PBFTNode W * W * list effect) :=
  match DeserializeValidatorMessage data with
  | Err _ => None
  | Ok msg =>
      match HandleNetworkMessage now peers false (pb.vm_Type msg) (pb.vm_Payload msg) n w with
      | Panic _ => None
      | Done (n, w, es, _) =>
          match processMessage now n w with
          | Some (n, w, es', _) => Some (n, w, es ++ es')
          | None => Some (n, w, es)
          end
      end
  end.

Inductive round_step : Round → Round → Prop :=
| RDeliver c x i data n w now peers n' w' es :
    r_flight c !! x = Some (i, data) → r_nodes c !! i = Some (n, w) →
    receive now peers data n w = Some (n', w', es) →
    round_step c (MkRound (<[i := (n', w')]> (r_nodes c))
      (delete x (r_flight c) ++ to_peers i (Cluster.broadcasts es))).

(** ** The messages of a round *)

Variables (start : string → PBFTNode W * W) (p : string) (req : Request) (v s R : Z).

Let D := computeDigest req.

(** The request as node [i] gets it. *)
Definition own (i : string) : Request := if decide (i = p) then req else received_in_preprepare req.

Let m : PrePrepareMsg := MkPrePrepareMsg v s D req.

(** The nodes are ready for the round. *)
Record ready : Prop := Ready {
  rd_nodup : NoDup ids;
  rd_primary : p ∈ ids;
  rd_known : normal_op (Operation req) = Operation req;
  rd_interval : Z.rem s checkpointInterval ≠ 0%Z;
  rd_quorum : (R ≤ Z.of_nat (length ids))%Z;
  rd_preprepare : ∃ data, envelope 0 (SerializePrePrepare m) p = Ok data;
  rd_node i : i ∈ ids → let '(n, w) := start i in
    nodeID n = i ∧ i ≠ ""%string ∧ view n = v ∧ required_votes n = R ∧ messageQueue n = [] ∧
    votes_at (prepareLog n) s = ∅ ∧ votes_at (commitLog n) s = ∅ ∧ requestLog n !! s = None ∧
    sendable n s ∧ handlers_succeed n w (own i);
}.
Hypothesis Hready : ready.

Inductive kind := KPre | KPrep | KCom.

Definition wire (k : kind) (i : string) : string :=
  match k with
  | KPre => payload (envelope 0 (SerializePrePrepare m) p)
  | KPrep => payload (envelope 1 (SerializePrepare (MkPrepareMsg v s D i)) i)
  | KCom => payload (envelope 2 (SerializeCommit (MkCommitMsg v s D i)) i)
  end.

Definition message (k : kind) (i : string) : ConsensusMessage :=
  match k with
  | KPre => MPrePrepare (MkPrePrepareMsg v s D (received_in_preprepare req))
  | KPrep => MPrepare (MkPrepareMsg v s D i)
  | KCom => MCommit (MkCommitMsg v s D i)
  end.

Lemma envelope_Ok ty ser i data :
  envelope ty ser i = Ok data → ∃ b, ser = Ok b ∧
    DeserializeValidatorMessage data = Ok (pb.MkValidatorMessage ty b "" 0 i).
Proof.
  unfold envelope. destruct ser as [b|]; simpl; [|done]. intros Hd. exists b. split; [done|].
  by apply envelope_decodes in Hd.
Qed.

Lemma set_empty_queue n : messageQueue n = [] → set_messageQueue [] n = n.
Proof. destruct n; simpl. by intros ->. Qed.

(** A message of the round is put into the empty queue and taken from it. *)
Lemma receive_wire now peers k i n w :
  (k = KPre → i = p) → i ∈ ids → messageQueue n = [] →
  receive now peers (wire k i) n w =
    let '(n', w', es, _) := dispatch now (message k i) n w in Some (n', w', es).
Proof.
  intros Hp Hi Hq. destruct Hready as [_ _ _ _ _ [pdata Hpre] Hn]. specialize (Hn i Hi).
  destruct (start i) as [n0 w0]. destruct Hn as (Hid & Hne & Hv & _ & _ & _ & _ & _ & Hsend & _).
  assert (Hdec : ∃ ty b, DeserializeValidatorMessage (wire k i) = Ok (pb.MkValidatorMessage ty b "" 0 i) ∧
    HandleNetworkMessage now peers false ty b n w =
      let '(n, err) := enqueue false (message k i) n in Done (n, w, [], err)).
  { destruct k; unfold wire.
    - rewrite Hpre; simpl. apply envelope_Ok in Hpre as (b & Hser & Hdes). rewrite (Hp eq_refl).
      exists 0%Z, b. split; [done|]. unfold HandleNetworkMessage. cbn [Z.eqb].
      by rewrite (PrePrepare_decodes _ _ Hser).
    - destruct (proj1 Hsend D) as [data Hd]. rewrite Hv, Hid in Hd. rewrite Hd; simpl.
      apply envelope_Ok in Hd as (b & Hser & Hdes). exists 1%Z, b. split; [done|].
      unfold HandleNetworkMessage. cbn [Z.eqb Pos.eqb].
      rewrite (Prepare_decodes (MkPrepareMsg v s D i)) with (data := b); [done | by intros [= _ _ _ ?] | done].
    - destruct (proj2 Hsend D) as [data Hd]. rewrite Hv, Hid in Hd. rewrite Hd; simpl.
      apply envelope_Ok in Hd as (b & Hser & Hdes). exists 2%Z, b. split; [done|].
      unfold HandleNetworkMessage. cbn [Z.eqb Pos.eqb]. by rewrite (Commit_decodes _ _ Hser). }
  destruct Hdec as (ty & b & Hdes & Hh). unfold receive. rewrite Hdes. simpl. rewrite Hh.
  unfold enqueue. rewrite Hq. rewrite bool_decide_true by (simpl; unfold queue_capacity; lia).
  rewrite andb_false_r. simpl. unfold processMessage. simpl.
  change (set_messageQueue [] (set_messageQueue [message k i] n)) with (set_messageQueue [] n).
  rewrite (set_empty_queue n Hq).
  unfold dispatch. destruct (message k i).
  - by destruct (handlePrePrepare now m0 n w) as [[[? ?] ?] ?].
  - by destruct (HandlePrepare now m0 n w) as [[[? ?] ?] ?].
  - by destruct (HandleCommit now m0 n w) as [[[? ?] ?] ?].
Qed.

(** ** The state of the round *)

Abbreviation note := (kind * string * string)%type.  (** kind, sender, receiver *)

#[local] Instance kind_eq_dec : EqDecision kind.
Proof. solve_decision. Defined.

Definition is_pre (x : note) : Prop := x.1.1 = KPre.
#[local] Instance is_pre_dec x : Decision (is_pre x) := decide (x.1.1 = KPre).

Definition encode (x : note) : string * string := (x.2, wire x.1.1 x.1.2).

Definition notes_to_peers (i : string) (ks : list kind) : list note :=
  flat_map (λ k, map (λ j, (k, i, j)) (peers_of i)) ks.

Lemma encode_to_peers i ks :
  map encode (notes_to_peers i ks) = to_peers i (map (λ k, wire k i) ks).
Proof.
  unfold notes_to_peers, to_peers. induction ks as [|k ks IH]; simpl; [done|].
  rewrite map_app, IH. f_equal. by rewrite map_map.
Qed.

Lemma elem_of_peers i j : j ∈ peers_of i ↔ j ∈ ids ∧ j ≠ i.
Proof.
  unfold peers_of. rewrite !list_elem_of_In, filter_In. f_equiv.
  destruct (String.eqb_spec j i); naive_solver.
Qed.

Lemma elem_of_notes i ks k i' j : (k, i', j) ∈ notes_to_peers i ks ↔ k ∈ ks ∧ i' = i ∧ j ∈ ids ∧ j ≠ i.
Proof.
  unfold notes_to_peers. rewrite list_elem_of_In, in_flat_map. setoid_rewrite in_map_iff.
  setoid_rewrite <- list_elem_of_In. setoid_rewrite elem_of_peers. naive_solver.
Qed.

(** Who has accepted the request, who has broadcast a COMMIT, and whose votes each node has. *)
Record roles := MkRoles {
  ro_accepted : gset string;
  ro_committed : gset string;
  ro_prepares : string → gset string;
  ro_commits : string → gset string;
}.

Definition node_ok (ro : roles) (c : Round) (i : string) : Prop :=
  ∃ n w, r_nodes c !! i = Some (n, w) ∧
    node_at (start i).1 (start i).2 s (own i) (bool_decide (i ∈ ro_accepted ro))
      (bool_decide (i ∈ ro_committed ro)) (ro_prepares ro i) (ro_commits ro i) n w.

(** A message on its way has a reason, and what has been sent has arrived or is on its way. *)
Record roles_ok (ro : roles) (fl : list note) : Prop := RolesOk {
  rk_primary : p ∈ ro_accepted ro;
  rk_committed : ro_committed ro ⊆ ro_accepted ro;
  rk_flight k i j : (k, i, j) ∈ fl → i ∈ ids ∧ j ∈ ids ∧
    match k with
    | KPre => i = p ∧ j ∉ ro_accepted ro
    | KPrep => i ∈ ro_accepted ro
    | KCom => i ∈ ro_committed ro
    end;
  rk_once : NoDup (filter is_pre fl);
  rk_pre j : j ∈ ids → j ∉ ro_accepted ro → (KPre, p, j) ∈ fl;
  rk_prep i j : i ∈ ids → j ∈ ids → i ∈ ro_accepted ro → i ∈ ro_prepares ro j ∨ (KPrep, i, j) ∈ fl;
  rk_com i j : i ∈ ids → j ∈ ids → i ∈ ro_committed ro → i ∈ ro_commits ro j ∨ (KCom, i, j) ∈ fl;
  rk_votes i j : j ∈ ids → i ∈ ro_commits ro j → i ∈ ids ∧ i ∈ ro_committed ro;
}.

(** *** The end of the round *)

Lemma round_end ro c i :
  (∀ i, i ∈ ids → node_ok ro c i) → roles_ok ro [] → i ∈ ids →
  ∃ n, r_nodes c !! i = Some (n, apply_request (start i).1 (own i) (start i).2) ∧ requestLog n !! s = None.
Proof.
  intros Hnodes [Hprim Hsub _ _ Hpre Hprep Hcom Hvotes] Hi.
  assert (Hacc : ∀ j, j ∈ ids → j ∈ ro_accepted ro).
  { intros j Hj. destruct (decide (j ∈ ro_accepted ro)) as [|Hn]; [done|].
    by apply (Hpre j Hj), elem_of_nil in Hn. }
  assert (HR : ∀ j, j ∈ ids → required_votes (start j).1 = R).
  { intros j Hj. pose proof (rd_node Hready j Hj) as Hn. destruct (start j). naive_solver. }
  assert (Hids : ∀ X : gset string, list_to_set ids ⊆ X → (R ≤ Z.of_nat (size X))%Z).
  { intros X HX. etrans; [apply (rd_quorum Hready)|]. apply inj_le.
    rewrite <- (size_list_to_set (C := gset string)) by apply Hready. by apply subseteq_size. }
  assert (Hall : ∀ j, j ∈ ids → (R ≤ Z.of_nat (size (ro_prepares ro j)))%Z).
  { intros j Hj. apply Hids. intros k Hk%elem_of_list_to_set.
    destruct (Hprep k j Hk Hj (Hacc k Hk)) as [|Hf]; [done|]. by apply elem_of_nil in Hf. }
  assert (Hdone : ∀ j, j ∈ ids → ∃ n w, r_nodes c !! j = Some (n, w) ∧
    ((requestLog n !! s = None ∧ w = apply_request (start j).1 (own j) (start j).2 ∧
      (R ≤ Z.of_nat (size (ro_commits ro j)))%Z) ∨
     (j ∈ ro_committed ro ∧ (Z.of_nat (size (ro_commits ro j)) < R)%Z))).
  { intros j Hj. destruct (Hnodes j Hj) as (n & w & Hn & [_ _ _ _ Hst]). exists n, w. split; [done|].
    rewrite bool_decide_true in Hst by auto. rewrite (HR j Hj) in Hst.
    destruct Hst as (_ & _ & [(? & ? & ?)|(_ & _ & Hlt & Hb)]); [by left | right].
    split; [|done]. specialize (Hb (Hall j Hj)). by apply bool_decide_eq_true in Hb. }
  destruct (Hdone i Hi) as (n & w & Hn & [(Hr & -> & _)|(_ & Hlt)]); [by exists n|]. exfalso.
  assert (Hown : ro_committed ro ∩ list_to_set ids ⊆ ro_commits ro i).
  { intros k [Hk Hkid%elem_of_list_to_set]%elem_of_intersection.
    destruct (Hcom k i Hkid Hi Hk) as [|Hf]; [done|]. by apply elem_of_nil in Hf. }
  apply subseteq_size in Hown.
  assert (Hall' : list_to_set ids ⊆ ro_committed ro ∩ list_to_set ids).
  { intros k Hk. apply elem_of_intersection. split; [|done]. apply elem_of_list_to_set in Hk.
    destruct (Hdone k Hk) as (nk & wk & _ & [(_ & _ & Hle)|[? _]]); [|done]. exfalso.
    assert (Hsub' : ro_commits ro k ⊆ ro_committed ro ∩ list_to_set ids).
    { intros j [? ?]%(Hvotes j k Hk). apply elem_of_intersection. by rewrite elem_of_list_to_set. }
    apply subseteq_size in Hsub'. lia. }
  apply Hids in Hall'. lia.
Qed.

(** *** A delivery *)

(** What node [j] broadcasts on a message of kind [k], where [c] says whether a COMMIT is among it. *)
Definition sends (k : kind) (c : bool) : list kind :=
  (if decide (k = KPre) then [KPrep] else []) ++ (if c then [KCom] else []).

Definition upd (j : string) (X : gset string) (f : string → gset string) (i : string) : gset string :=
  if decide (i = j) then X else f i.

Definition roles_after (ro : roles) (k : kind) (j : string) (c : bool) (Pj Cj : gset string) : roles :=
  MkRoles (if decide (k = KPre) then {[j]} ∪ ro_accepted ro else ro_accepted ro)
    (if c then {[j]} ∪ ro_committed ro else ro_committed ro)
    (upd j Pj (ro_prepares ro)) (upd j Cj (ro_commits ro)).

Lemma upd_grows j X f i i' : f j ⊆ X → i ∈ f i' → i ∈ upd j X f i'.
Proof. unfold upd. case_decide; [subst; set_solver | done]. Qed.

Lemma upd_eq j X f : upd j X f j = X.
Proof. unfold upd. by rewrite decide_True. Qed.

Lemma upd_ne j X f i : i ≠ j → upd j X f i = f i.
Proof. intros Hne. unfold upd. by rewrite decide_False. Qed.

Lemma elem_of_sends k c k' : k' ∈ sends k c ↔ (k' = KPrep ∧ k = KPre) ∨ (k' = KCom ∧ c = true).
Proof.
  unfold sends. rewrite elem_of_app. case_decide; destruct c; rewrite ?list_elem_of_singleton, ?elem_of_nil;
    naive_solver.
Qed.

Lemma sends_not_pre j k c : filter is_pre (notes_to_peers j (sends k c)) = [].
Proof.
  apply elem_of_nil_inv. intros [[k' i'] j'] [Hp Hin]%list_elem_of_filter.
  apply elem_of_notes in Hin as [Hk' _]. unfold is_pre in Hp. simpl in Hp. subst.
  apply elem_of_sends in Hk'. naive_solver.
Qed.

Lemma roles_after_other ro k j c Pj Cj l :
  l ≠ j →
  (l ∈ ro_accepted (roles_after ro k j c Pj Cj) ↔ l ∈ ro_accepted ro) ∧
  (l ∈ ro_committed (roles_after ro k j c Pj Cj) ↔ l ∈ ro_committed ro).
Proof.
  intros Hne. unfold roles_after; simpl. split; [case_decide; set_solver | destruct c; set_solver].
Qed.

Lemma roles_step ro fl x k i j (c : bool) Pj Cj :
  roles_ok ro fl → fl !! x = Some (k, i, j) →
  ro_prepares ro j ⊆ Pj → ro_commits ro j ⊆ Cj →
  (k = KPrep → i ∈ Pj) → (k = KCom → i ∈ Cj) →
  (k = KPre → j ∈ Pj) → (c = true → j ∈ Cj) →
  (∀ l, l ∈ Cj → l ∈ ro_commits ro j ∨ (k = KCom ∧ l = i) ∨ (c = true ∧ l = j)) →
  (c = true → k = KPre ∨ j ∈ ro_accepted ro) →
  roles_ok (roles_after ro k j c Pj Cj) (delete x fl ++ notes_to_peers j (sends k c)).
Proof.
  intros [Hprim Hsub Hfl Honce Hpre Hprep Hcom Hvotes] Hx HP HC HPi HCi HPj HCj HCj' HcA.
  pose proof (delete_Permutation _ _ _ Hx) as Hperm.
  assert (Hin : ∀ z, z ∈ fl ↔ z = (k, i, j) ∨ z ∈ delete x fl).
  { intros z. rewrite <- elem_of_cons. by rewrite <- Hperm. }
  destruct (Hfl k i j) as (Hi & Hj & Hwhy); [apply Hin; by left|].
  assert (HA : ∀ l, l ∈ (if decide (k = KPre) then {[j]} ∪ ro_accepted ro else ro_accepted ro) ↔
    (k = KPre ∧ l = j) ∨ l ∈ ro_accepted ro) by (intros l; case_decide; set_solver).
  assert (HB : ∀ l, l ∈ (if c then {[j]} ∪ ro_committed ro else ro_committed ro) ↔
    (c = true ∧ l = j) ∨ l ∈ ro_committed ro) by (intros l; destruct c; set_solver).
  split; unfold roles_after; cbn [ro_accepted ro_committed ro_prepares ro_commits].
  - apply HA. by right.
  - intros l. rewrite HA, HB. intros [[Hc ->]|Hl]; [destruct (HcA Hc); [by left | by right] | right; by apply Hsub].
  - intros k' i' j' [Hd|Hn]%elem_of_app.
    + destruct (Hfl k' i' j') as (? & ? & Hw); [apply Hin; by right|]. split_and!; [done|done|].
      destruct k'; [|apply HA; by right|apply HB; by right]. destruct Hw as [-> Hna]. split; [done|].
      rewrite HA. intros [[-> ->]|?]; [|done]. destruct Hwhy as [-> _].
      rewrite Hperm in Honce. rewrite filter_cons_True in Honce by done.
      apply NoDup_cons in Honce as [Hn _]. apply Hn, list_elem_of_filter. done.
    + apply elem_of_notes in Hn as (Hk & -> & Hj' & _). split_and!; [done|done|].
      apply elem_of_sends in Hk as [[-> ->]|[-> Hc]]; [apply HA | apply HB]; by left.
  - rewrite filter_app, sends_not_pre, app_nil_r. rewrite Hperm in Honce.
    destruct (decide (is_pre (k, i, j))).
    + rewrite filter_cons_True in Honce by done. by apply NoDup_cons in Honce as [_ ?].
    + by rewrite filter_cons_False in Honce by done.
  - intros l Hl Hna. rewrite HA in Hna. apply elem_of_app. left.
    destruct (proj1 (Hin (KPre, p, l))) as [Heq|]; [apply Hpre; naive_solver| |done].
    simplify_eq. naive_solver.
  - intros l l' Hl Hl' Hacc. rewrite HA in Hacc. destruct Hacc as [[-> ->]|Hacc].
    + destruct (decide (l' = j)) as [->|Hne]; [left; rewrite upd_eq; by apply HPj|].
      right. apply elem_of_app. right. apply elem_of_notes. split_and!; [|done..]. apply elem_of_sends. by left.
    + destruct (Hprep l l' Hl Hl' Hacc) as [Hv|Hf]; [left; by apply upd_grows|].
      apply Hin in Hf as [Heq|Hf]; [|right; apply elem_of_app; by left].
      simplify_eq. left. rewrite upd_eq. by apply HPi.
  - intros l l' Hl Hl' Hb. rewrite HB in Hb. destruct Hb as [[Hc ->]|Hb].
    + destruct (decide (l' = j)) as [->|Hne]; [left; rewrite upd_eq; by apply HCj|].
      right. apply elem_of_app. right. apply elem_of_notes. split_and!; [|done..]. apply elem_of_sends. by right.
    + destruct (Hcom l l' Hl Hl' Hb) as [Hv|Hf]; [left; by apply upd_grows|].
      apply Hin in Hf as [Heq|Hf]; [|right; apply elem_of_app; by left].
      simplify_eq. left. rewrite upd_eq. by apply HCi.
  - intros l l' Hl'. rewrite HB. unfold upd. destruct (decide (l' = j)) as [->|Hne]; [|by intros [? ?]%Hvotes; auto].
    intros [Hv|[[-> ->]|[Hc ->]]]%HCj'; [destruct (Hvotes l j Hj Hv); auto | auto | auto].
Qed.

Lemma own_digest i : computeDigest (own i) = D.
Proof.
  unfold own. case_decide; [done|]. unfold computeDigest, digest_text, received_in_preprepare, D; simpl.
  by rewrite (rd_known Hready).
Qed.

Lemma start_facts i :
  i ∈ ids → nodeID (start i).1 = i ∧ view (start i).1 = v ∧ required_votes (start i).1 = R ∧
    sendable (start i).1 s ∧ handlers_succeed (start i).1 (start i).2 (own i).
Proof.
  intros Hi. pose proof (rd_node Hready i Hi) as Hn. destruct (start i) as [n w].
  destruct Hn as (? & ? & ? & ? & ? & ? & ? & ? & ? & ?). by split_and!.
Qed.

Lemma prepare_data_wire i : i ∈ ids → prepare_data (start i).1 s (own i) = wire KPrep i.
Proof.
  intros Hi. destruct (start_facts i Hi) as (Hid & Hv & _). unfold prepare_data, wire.
  by rewrite Hid, Hv, own_digest.
Qed.

Lemma commit_data_wire i : i ∈ ids → commit_data (start i).1 s (own i) = wire KCom i.
Proof.
  intros Hi. destruct (start_facts i Hi) as (Hid & Hv & _). unfold commit_data, wire.
  by rewrite Hid, Hv, own_digest.
Qed.

(** What a message of the round does at its receiver *)
Lemma deliver_at now ro k i j n w n' w' es err :
  j ∈ ids → (k = KPre → (j ∉ ro_accepted ro) ∧ j ≠ p) → ro_committed ro ⊆ ro_accepted ro →
  node_at (start j).1 (start j).2 s (own j) (bool_decide (j ∈ ro_accepted ro))
    (bool_decide (j ∈ ro_committed ro)) (ro_prepares ro j) (ro_commits ro j) n w →
  dispatch now (message k i) n w = (n', w', es, err) →
  ∃ (c : bool) Pj Cj,
    node_at (start j).1 (start j).2 s (own j)
      (bool_decide (j ∈ ro_accepted (roles_after ro k j c Pj Cj)))
      (bool_decide (j ∈ ro_committed (roles_after ro k j c Pj Cj))) Pj Cj n' w' ∧
    Cluster.broadcasts es = map (λ k, wire k j) (sends k c) ∧
    ro_prepares ro j ⊆ Pj ∧ ro_commits ro j ⊆ Cj ∧
    (k = KPrep → i ∈ Pj) ∧ (k = KCom → i ∈ Cj) ∧ (k = KPre → j ∈ Pj) ∧ (c = true → j ∈ Cj) ∧
    (∀ l, l ∈ Cj → l ∈ ro_commits ro j ∨ (k = KCom ∧ l = i) ∨ (c = true ∧ l = j)) ∧
    (c = true → k = KPre ∨ j ∈ ro_accepted ro) ∧ (k = KCom → c = false).
Proof.
  intros Hj Hpre Hsub Hat Hd. destruct (start_facts j Hj) as (Hid & Hv & _ & Hsend & Hok).
  pose proof (rd_interval Hready) as Hck. pose proof (prepare_data_wire j Hj) as Hpd.
  pose proof (commit_data_wire j Hj) as Hcd.
  assert (HcA : ∀ c : bool, bool_decide (j ∈ (if c then {[j]} ∪ ro_committed ro else ro_committed ro)) =
    bool_decide (j ∈ ro_committed ro) || c).
  { intros []; [rewrite bool_decide_true by set_solver; by rewrite orb_true_r | by rewrite orb_false_r]. }
  unfold roles_after; cbn [ro_accepted ro_committed].
  destruct k; unfold sends; simpl; setoid_rewrite HcA; simpl in Hd.
  - destruct (Hpre eq_refl) as [Hna Hjp]. rewrite bool_decide_false in Hat by done.
    destruct Hat as [Hin Hq Hp Hc (Hr & -> & Hb)].
    destruct (preprepare_at (start j).1 (start j).2 s (own j) Hsend Hok Hck now
      (MkPrePrepareMsg v s D (received_in_preprepare req)) n n' w' es err
      (ro_prepares ro j) (ro_commits ro j)) as (c & Hat' & Hbr); try done.
    { simpl. by rewrite own_digest. }
    { simpl. unfold own. by rewrite decide_False. }
    rewrite Hid in Hat'. rewrite Hpd, Hcd in Hbr.
    exists c, ({[j]} ∪ ro_prepares ro j), (if c then {[j]} ∪ ro_commits ro j else ro_commits ro j).
    rewrite Hb, (bool_decide_true (j ∈ {[j]} ∪ _)) by set_solver. simpl.
    split_and!; try done; [by destruct c | set_solver | destruct c; set_solver | set_solver |
      intros ->; set_solver | intros l; destruct c; set_solver | by left].
  - destruct (prepare_at (start j).1 (start j).2 s (own j) Hsend Hok Hck now
      (bool_decide (j ∈ ro_accepted ro)) (bool_decide (j ∈ ro_committed ro)) (ro_prepares ro j)
      (ro_commits ro j) n w i n' w' es err) as (c & Hat' & Hbr & Hc); [done | by rewrite Hv, own_digest |].
    rewrite Hid in Hat'. rewrite Hcd in Hbr.
    exists c, ({[i]} ∪ ro_prepares ro j), (if c then {[j]} ∪ ro_commits ro j else ro_commits ro j).
    split_and!; try done; [by destruct c | set_solver | destruct c; set_solver | set_solver |
      intros ->; set_solver | intros l; destruct c; set_solver |].
    intros Hct. right. specialize (Hc Hct). by apply bool_decide_eq_true in Hc.
  - destruct (commit_vote_at (start j).1 (start j).2 s (own j) Hsend Hok Hck now
      (bool_decide (j ∈ ro_accepted ro)) (bool_decide (j ∈ ro_committed ro)) (ro_prepares ro j)
      (ro_commits ro j) n w i n' w' es err) as (Hat' & Hbr); [done | by rewrite Hv, own_digest |].
    exists false, (ro_prepares ro j), ({[i]} ∪ ro_commits ro j). rewrite orb_false_r.
    split_and!; try done; set_solver.
Qed.

(** *** The number of deliveries *)

Let size_ids := length ids.

Definition weight (k : kind) : nat :=
  match k with KPre => size_ids * size_ids | KPrep => size_ids | KCom => 1 end.

Definition cost (fl : list note) : nat := list_sum (map (λ x : note, weight x.1.1) fl).

Lemma cost_app fl fl' : cost (fl ++ fl') = cost fl + cost fl'.
Proof. unfold cost. by rewrite map_app, list_sum_app. Qed.

Lemma cost_notes j ks : cost (notes_to_peers j ks) = list_sum (map weight ks) * length (peers_of j).
Proof.
  induction ks as [|k ks IH]; simpl; [done|]. rewrite cost_app.
  assert (Hone : cost (map (λ j', (k, j, j')) (peers_of j)) = weight k * length (peers_of j)).
  { clear IH. unfold cost. rewrite map_map. cbn [fst]. generalize (weight k). intros b.
    induction (peers_of j); simpl; lia. }
  fold (notes_to_peers j ks). rewrite Hone, IH. lia.
Qed.

Lemma length_peers j : j ∈ ids → length (peers_of j) < size_ids.
Proof.
  unfold peers_of, size_ids. induction ids as [|i l IH]; [by intros ?%elem_of_nil|].
  intros [->|Hj]%elem_of_cons; simpl.
  - rewrite String.eqb_refl. simpl. pose proof (List.filter_length_le (λ j, negb (j =? i)%string) l). lia.
  - specialize (IH Hj). destruct (negb _); simpl; lia.
Qed.

Lemma cost_delete fl x k i j : fl !! x = Some (k, i, j) → cost fl = weight k + cost (delete x fl).
Proof.
  revert x. induction fl as [|y fl IH]; intros [|x] Hx; [done|done|by simplify_eq/=|].
  simpl in Hx |- *. specialize (IH x Hx). unfold cost in *. simpl. lia.
Qed.

Lemma cost_step fl x k i j c :
  j ∈ ids → fl !! x = Some (k, i, j) → (k = KCom → c = false) →
  S (cost (delete x fl ++ notes_to_peers j (sends k c))) ≤ cost fl.
Proof.
  intros Hj Hx Hc. rewrite (cost_delete _ _ _ _ _ Hx), cost_app, cost_notes.
  pose proof (length_peers j Hj). destruct k; unfold sends; simpl.
  - destruct c; simpl; nia.
  - destruct c; simpl; nia.
  - rewrite Hc by done. simpl. lia.
Qed.

(** The state of the round after [k] deliveries *)
Definition round_after (k : nat) (c : Round) : Prop :=
  ∃ ro fl, r_flight c = map encode fl ∧ (∀ i, i ∈ ids → node_ok ro c i) ∧ roles_ok ro fl ∧
    k + cost fl < size_ids * size_ids * size_ids.

Lemma round_after_step k0 c c' : round_after k0 c → round_step c c' → round_after (S k0) c'.
Proof.
  intros (ro & fl & Hflight & Hnodes & Hok & Hcost) Hstep. destruct Hstep as [c x j data n w now peers n' w' es Hx Hn Hrec].
  rewrite Hflight, list_lookup_fmap in Hx.
  destruct (fl !! x) as [[[k i] j']|] eqn:Hfx; [|done]. injection Hx as -> <-.
  pose proof Hok as [Hprim Hsub Hfl _ _ _ _ _].
  destruct (Hfl k i j) as (Hi & Hj & Hwhy); [by eapply list_elem_of_lookup_2|].
  destruct (Hnodes j Hj) as (n0 & w0 & Hn0 & Hat). assert (n0 = n ∧ w0 = w) as [-> ->] by naive_solver.
  rewrite receive_wire in Hrec; [|by intros ->; apply Hwhy | done | by destruct Hat].
  destruct (dispatch now (message k i) n w) as [[[n1 w1] es1] err] eqn:Hd. simplify_eq.
  destruct (deliver_at now ro k i j n w n' w' es err) as (cm & Pj & Cj & Hat' & Hbr & Hc1 & Hc2 & Hc3 & Hc4 & Hc5 & Hc6 & Hc7 & Hc8 & Hc9);
    try done.
  { intros ->. destruct Hwhy as [_ Hna]. split; [done|]. by intros ->. }
  exists (roles_after ro k j cm Pj Cj), (delete x fl ++ notes_to_peers j (sends k cm)). split_and!.
  - simpl. rewrite Hflight, Hbr, map_app, encode_to_peers. f_equal. symmetry. apply list_fmap_delete.
  - intros l Hl. unfold node_ok. cbn [r_nodes]. destruct (decide (l = j)) as [->|Hne].
    + exists n', w'. rewrite lookup_insert_eq. split; [done|]. cbn [roles_after ro_prepares ro_commits]. by rewrite !upd_eq.
    + destruct (Hnodes l Hl) as (nl & wl & Hnl & Hatl). exists nl, wl. rewrite lookup_insert_ne by done.
      split; [done|]. cbn [roles_after ro_prepares ro_commits]. rewrite !upd_ne by done.
      destruct (roles_after_other ro k j cm Pj Cj l Hne) as [HA HB].
      by rewrite (bool_decide_ext _ _ HA), (bool_decide_ext _ _ HB).
  - by apply (roles_step ro fl x k i j cm Pj Cj).
  - pose proof (cost_step fl x k i j cm Hj Hfx Hc9). lia.
Qed.

(** A message that is on its way can be delivered. *)
Lemma round_progress k0 c : round_after k0 c → r_flight c ≠ [] → ∃ c', round_step c c'.
Proof.
  intros (ro & fl & Hflight & Hnodes & Hok & _) Hne. destruct fl as [|[[k i] j] fl]; [by rewrite Hflight in Hne|].
  destruct (rk_flight _ _ Hok k i j) as (Hi & Hj & Hwhy); [by left|].
  destruct (Hnodes j Hj) as (n & w & Hn & Hat).
  destruct (dispatch 0 (message k i) n w) as [[[n1 w1] es1] err] eqn:Hd.
  eexists. apply (RDeliver c 0 j (wire k i) n w 0 0 n1 w1 es1); [by rewrite Hflight | done |].
  rewrite receive_wire; [by rewrite Hd | by intros ->; apply Hwhy | done | by destruct Hat].
Qed.

Lemma NoDup_pre_notes j b : NoDup (filter is_pre (notes_to_peers j (KPre :: sends KPre b))).
Proof.
  change (KPre :: sends KPre b) with ([KPre] ++ sends KPre b). unfold notes_to_peers.
  rewrite flat_map_app, filter_app. fold (notes_to_peers j (sends KPre b)). rewrite sends_not_pre, app_nil_r.
  apply NoDup_filter. cbn [flat_map]. rewrite app_nil_r. apply (NoDup_fmap_2_strong (λ j', (KPre, j, j'))).
  - by intros ? ? _ _ [= ->].
  - unfold peers_of. rewrite NoDup_ListNoDup. apply List.NoDup_filter. rewrite <- NoDup_ListNoDup. apply Hready.
Qed.

(** The primary has accepted its own request and told the others. *)
Lemma roles_begin (b : bool) :
  p ∈ ids →
  roles_ok (MkRoles {[p]} (if b then {[p]} else ∅) (upd p ({[p]} ∪ ∅) (λ _, ∅))
    (upd p (if b then {[p]} ∪ ∅ else ∅) (λ _, ∅))) (notes_to_peers p (KPre :: sends KPre b)).
Proof.
  intros Hp.
  assert (HB : ∀ l, l ∈ (if b then {[p]} else ∅ : gset string) ↔ b = true ∧ l = p)
    by (intros l; destruct b; set_solver).
  split; cbn [ro_accepted ro_committed ro_prepares ro_commits].
  - by apply elem_of_singleton.
  - intros l [_ ->]%HB. by apply elem_of_singleton.
  - intros k i j (Hk & -> & Hj & Hne)%elem_of_notes. split_and!; [done|done|].
    apply elem_of_cons in Hk as [->|[[-> _]|[-> Hb]]%elem_of_sends].
    + split; [done|]. by rewrite elem_of_singleton.
    + by apply elem_of_singleton.
    + by apply HB.
  - apply NoDup_pre_notes.
  - intros j Hj Hne. apply elem_of_notes. split_and!; [by left | done | done | by rewrite elem_of_singleton in Hne].
  - intros i j Hi Hj ->%elem_of_singleton. destruct (decide (j = p)) as [->|Hne].
    + left. rewrite upd_eq. set_solver.
    + right. apply elem_of_notes. split_and!; [|done..]. apply elem_of_cons. right. apply elem_of_sends. by left.
  - intros i j Hi Hj [Hb ->]%HB. destruct (decide (j = p)) as [->|Hne].
    + left. rewrite upd_eq, Hb. set_solver.
    + right. apply elem_of_notes. split_and!; [|done..]. apply elem_of_cons. right. apply elem_of_sends. by right.
  - intros i j Hj. unfold upd. case_decide as Hd; [|set_solver]. destruct b; set_solver.
Qed.

(** The primary proposes the request; the others have not heard of it. *)
Lemma round_begins now peers n1 n' w' es err c :
  propose_locked peers req (start p).1 = (n1, Ok m) →
  propose_send now m n1 (start p).2 = (n', w', es, err) →
  r_nodes c !! p = Some (n', w') → (∀ i, i ∈ ids → i ≠ p → r_nodes c !! i = Some (start i)) →
  r_flight c = to_peers p (Cluster.broadcasts es) → round_after 0 c.
Proof.
  intros Hlock Hsendp Hp Hothers Hflight. pose proof (rd_primary Hready) as Hpi.
  destruct (start_facts p Hpi) as (Hid & Hv & _ & Hsend & Hok).
  pose proof (rd_node Hready p Hpi) as Hnode.
  destruct (start p) as [np wp] eqn:Hstart. cbn [fst snd] in *.
  destruct Hnode as (_ & Hne & _ & _ & Hq & Hpl & Hcl & Hrl & _ & _).
  unfold propose_locked in Hlock. repeat case_match; simplify_eq.
  set (n1 := set_requestLog _ _) in Hsendp.
  assert (Hin : in_round np s ∅ n1) by (unfold in_round; split_and!; done).
  unfold propose_send in Hsendp. destruct (rd_preprepare Hready) as [data Hdata].
  replace (nodeID n1) with p in Hsendp by done. fold D in Hsendp. fold m in Hsendp. rewrite Hdata in Hsendp.
  destruct (handlePrePrepare now m n1 wp) as [[[n2 w2] es2] err2] eqn:Hh. simplify_eq.
  assert (Hown : own p = req) by (unfold own; by rewrite decide_True).
  destruct (preprepare_at np wp s (own p) Hsend Hok (rd_interval Hready) now m n1 n' w' es2 err ∅ ∅)
    as (b & Hat & Hbr); try done.
  { unfold n1; simpl. by rewrite Hpl, dom_empty_L. }
  { unfold commit_senders, n1; simpl. by rewrite Hcl, dom_empty_L. }
  { by rewrite own_digest. }
  pose proof (prepare_data_wire p Hpi) as Hpd. pose proof (commit_data_wire p Hpi) as Hcd.
  rewrite Hstart in Hpd, Hcd. cbn [fst] in Hpd, Hcd. rewrite Hpd, Hcd in Hbr.
  assert (Hdw : data = wire KPre p) by (unfold wire; by rewrite Hdata).
  exists (MkRoles {[p]} (if b then {[p]} else ∅) (upd p ({[p]} ∪ ∅) (λ _, ∅))
    (upd p (if b then {[p]} ∪ ∅ else ∅) (λ _, ∅))), (notes_to_peers p (KPre :: sends KPre b)).
  split_and!.
  - rewrite Hflight, broadcasts_cons, Hbr, encode_to_peers, Hdw. by destruct b.
  - intros i Hi. unfold node_ok. cbn [ro_accepted ro_committed ro_prepares ro_commits].
    destruct (decide (i = p)) as [->|Hip].
    + exists n', w'. split; [done|]. rewrite !upd_eq, Hstart. cbn [fst snd]. rewrite Hid in Hat.
      rewrite bool_decide_true by set_solver. by destruct b; [rewrite bool_decide_true by set_solver | rewrite bool_decide_false by set_solver].
    + pose proof (rd_node Hready i Hi) as Hn. destruct (start i) as [ni wi] eqn:Hsi.
      destruct Hn as (? & ? & ? & ? & ? & Hpi' & Hci' & ? & ? & ?).
      exists ni, wi. split; [by rewrite (Hothers i Hi Hip), Hsi|]. rewrite !upd_ne by done.
      rewrite !bool_decide_false by (destruct b; set_solver). cbn [fst snd].
      split; [by split_and! | done | by rewrite Hpi', dom_empty_L | by unfold commit_senders; rewrite Hci', dom_empty_L | done].
  - by apply roles_begin.
  - rewrite cost_notes. pose proof (length_peers p Hpi). unfold sends. destruct b; simpl; nia.
Qed.

(** However the messages are delivered, the round ends. *)
Lemma round_runs k c0 c :
  round_after 0 c0 → nsteps round_step k c0 c →
  k < length ids * length ids * length ids ∧
  ((∃ c', round_step c c') ∨
   r_flight c = [] ∧ ∀ i, i ∈ ids → ∃ n,
     r_nodes c !! i = Some (n, apply_request (start i).1 (own i) (start i).2) ∧ requestLog n !! s = None).
Proof.
  intros Hbeg Hsteps.
  assert (Hinv : round_after k c).
  { change k with (0 + k). revert Hbeg. generalize 0 as k0.
    induction Hsteps as [c|k c c1 c2 Hstep _ IH]; intros k0 Hk0; [by rewrite Nat.add_0_r|].
    rewrite <- Nat.add_succ_comm. apply IH. by eapply round_after_step. }
  pose proof Hinv as (ro & fl & Hfl & Hnodes & Hok & Hcost). split; [unfold size_ids in Hcost; lia|].
  destruct (decide (r_flight c = [])) as [Hnil|Hne]; [right | left; by eapply round_progress].
  split; [done|]. intros i Hi. destruct fl; [|by rewrite Hfl in Hnil]. by apply (round_end ro).
Qed.

(** C6: a consensus round ends, with every node that is up having executed the request. Where at least
    2f+1 nodes are up, ready and in one view, and the primary among them proposes a request, the network
    may deliver the messages of these nodes in any order: there are fewer than N^3 deliveries (N nodes
    are up), as long as a message is on its way it can be delivered, and when none is left each of the
    nodes has applied the request to its application exactly once and has nothing of the round left to
    execute. Ready means: the number of the request is not a multiple of the checkpoint interval (at
    every tenth number the nodes exchange checkpoints, and a stable one can drop the request at a node
    that has not executed it yet, as [checkpoint_drops_request] shows); at each node the handlers
    succeed on the request in its present application, the queue and the logs are empty at that
    number, and its messages can be encoded; the operation is one of the protocol's. No timer
    fires during the round and no other message arrives. *)
Theorem round_completes now peers n1 n' w' es err k c0 c :
  propose_locked peers req (start p).1 = (n1, Ok (MkPrePrepareMsg v s (computeDigest req) req)) →
  propose_send now (MkPrePrepareMsg v s (computeDigest req) req) n1 (start p).2 = (n', w', es, err) →
  r_nodes c0 !! p = Some (n', w') → (∀ i, i ∈ ids → i ≠ p → r_nodes c0 !! i = Some (start i)) →
  r_flight c0 = to_peers p (Cluster.broadcasts es) →
  nsteps round_step k c0 c →
  k < length ids * length ids * length ids ∧
  ((∃ c', round_step c c') ∨
   r_flight c = [] ∧ ∀ i, i ∈ ids → ∃ n,
     r_nodes c !! i = Some (n, apply_request (start i).1 (own i) (start i).2) ∧ requestLog n !! s = None).
Proof. intros. eapply round_runs; [by eapply round_begins | done]. Qed.
End round.

(** * Three of four nodes *)

#[local] Existing Instance pb.bit_codec.
#[local] Existing Instance pb.bit_codec_laws.

Definition three_nodes : list string := ["node0"; "node1"; "node2"].

Definition three_start (i : string) : PBFTNode app * app :=
  (fresh_node 4 (if (i =? "node0")%string then 0 else if (i =? "node1")%string then 1 else 2), []).

Lemma three_ready : ready three_nodes three_start "node0" request_T1 0 1 3.
Proof.
  split; try done.
  - apply (bool_decide_unpack _). vm_compute. exact I.
  - by left.
  - apply Cluster.bit_codec_serializes.
  - intros i Hi. unfold three_start. split_and!; try done; [|intros ->|apply bit_codec_sendable].
    + unfold three_nodes in Hi. repeat (apply elem_of_cons in Hi as [->|Hi]; [reflexivity|]).
      by apply elem_of_nil in Hi.
    + unfold three_nodes in Hi. repeat (apply elem_of_cons in Hi as [[=]|Hi]). by apply elem_of_nil in Hi.
Qed.

Lemma three_others x i :
  i ∈ three_nodes → i ≠ "node0"%string →
  (<["node0" := x]> {[ "node1" := three_start "node1"; "node2" := three_start "node2" ]} :
    gmap string (PBFTNode app * app)) !! i = Some (three_start i).
Proof.
  intros Hi Hne. unfold three_nodes in Hi. apply elem_of_cons in Hi as [->|Hi]; [done|].
  repeat (apply elem_of_cons in Hi as [->|Hi]; [reflexivity|]). by apply elem_of_nil in Hi.
Qed.

Lemma round_completes_witness : ∃ n1 n' w' es err c0,
  let m := MkPrePrepareMsg 0 1 (computeDigest request_T1) request_T1 in
  propose_locked 2 request_T1 (three_start "node0").1 = (n1, Ok m) ∧
  propose_send 5 m n1 (three_start "node0").2 = (n', w', es, err) ∧
  r_nodes c0 !! "node0" = Some (n', w') ∧ r_flight c0 = to_peers three_nodes "node0" (Cluster.broadcasts es) ∧
  (0 < length three_nodes * length three_nodes * length three_nodes ∧
  ((∃ c', round_step three_nodes c0 c') ∨
   r_flight c0 = [] ∧ ∀ i, i ∈ three_nodes → ∃ n,
     r_nodes c0 !! i = Some (n, apply_request (three_start i).1 (own "node0" request_T1 i) (three_start i).2) ∧
     requestLog n !! 1%Z = None)).
Proof.
  set (m := MkPrePrepareMsg 0 1 (computeDigest request_T1) request_T1).
  destruct (propose_locked 2 request_T1 (three_start "node0").1) as [n1 r] eqn:Hl.
  assert (Hr : r = Ok m) by (change r with ((n1, r).2); rewrite <- Hl; vm_compute; reflexivity).
  rewrite Hr in Hl.
  destruct (propose_send 5 m n1 (three_start "node0").2) as [[[n' w'] es] err] eqn:Hs.
  set (c0 := MkRound (<["node0" := (n', w')]> {[ "node1" := three_start "node1"; "node2" := three_start "node2" ]})
    (to_peers three_nodes "node0" (Cluster.broadcasts es))).
  pose proof (round_completes three_nodes three_start "node0" request_T1 0 1 3 three_ready 5 2 n1 n' w' es err
    0 c0 c0 Hl Hs (lookup_insert_eq _ _ _) (three_others (n', w')) eq_refl (nsteps_O _ _)) as Hdone.
  exists n1, n', w', es, err, c0. split; [rewrite Hr; reflexivity|]. split; [exact Hs|]. split; [apply lookup_insert_eq|].
  split; [reflexivity | exact Hdone].
Defined.
End PbftRound.
