(* ===== verification/ViewChange.v ===== *)
(** A change of view among all nodes that are up ([src/pkg/consensus/pbft.go], modelled in [Pbft]): their
    timers fire at any time, the VIEW-CHANGE messages arrive in any order, and in the end all of them
    are in the next view, with what they had logged. Besides, what becomes of a node whose timer fires
    alone. *)

From stdpp Require Import relations.
From S2P Require Import Prelude Hashing Proto Messages Pbft PbftSpec PbftInv PbftSafety PbftLive Cluster PbftRound.

Module ViewChange.
Import Messages Pbft PbftSpec PbftInv PbftSafety PbftLive PbftRound.

Section change.
Context {W : Type}.
Context `{HLv : pb.ProtoLaws pb.ValidatorMessage pb.unset_ValidatorMessage,
  HLvc : pb.ProtoLaws pb.ViewChange pb.unset_ViewChange,
  !pb.ProtoMessage pb.PrePrepare, !pb.ProtoMessage pb.Prepare, !pb.ProtoMessage pb.Commit,
  !pb.ProtoMessage pb.Request, !pb.ProtoMessage pb.Checkpoint}.
Implicit Types n : PBFTNode W.
Implicit Types w : W.

(** The nodes that are up, as they are before the change; the next view, its primary, and the quorum. *)
Variables (ids : list string) (start : string → PBFTNode W * W) (v' R : Z) (next : string).

(** A timer fires at a node that has something pending, or a message arrives. *)
Inductive change_step : Round → Round → Prop :=
| CTimer c i n w n' es :
    i ∈ ids → r_nodes c !! i = Some (n, w) → busy n = true → initiateViewChange n = Done (n', es) →
    change_step c (MkRound (<[i := (n', w)]> (r_nodes c)) (r_flight c ++ to_peers ids i (Cluster.broadcasts es)))
| CDeliver c c' : round_step ids c c' → change_step c c'.

(** ** Nodes *)

(** The node in the next view: everything but its role, what it waits for and the votes for views is
    as before. *)
Definition moved (log : votelog ViewChangeMsg) n : PBFTNode W :=
  set_requestCallbacks ∅ (set_viewChangeLog log (set_pending false (set_state StateIdle
    (set_isPrimary (nodeID n =? next)%string (set_view v' n))))).

Record in_place : Prop := InPlace {
  ip_nodup : NoDup ids;
  ip_node i : i ∈ ids → let n := (start i).1 in
    nodeID n = i ∧ i ≠ ""%string ∧ wrap_i64 (view n + 1) = v' ∧ (view n < v')%Z ∧ required_votes n = R ∧
    messageQueue n = [] ∧ votes_at (viewChangeLog n) v' = ∅ ∧ primary_of v' (totalNodes n) = Done next ∧
    ∃ data, envelope 3 (SerializeViewChange (MkViewChangeMsg v' i)) i = Ok data;
}.
Hypothesis Hplace : in_place.

Definition wire (i : string) : string :=
  payload (envelope 3 (SerializeViewChange (MkViewChangeMsg v' i)) i).

(** Node [i] when its own timer has fired ([out]), or the votes of [got] have arrived. *)
Definition node_at (out : bool) (got : gset string) (n0 n : PBFTNode W) : Prop :=
  if out || bool_decide (R ≤ Z.of_nat (size got))%Z then ∃ log, n = moved log n0
  else ∃ log, n = set_viewChangeLog log n0 ∧ dom (votes_at log v') = got.

Lemma failed_broadcasts reason n : Cluster.broadcasts (snd (failPendingCallbacks reason n)) = [].
Proof.
  unfold failPendingCallbacks. cbn [snd]. induction (map_to_list _) as [|[id [cb|]] l IH]; [done| |]; done.
Qed.

Lemma moved_idle log n : busy (moved log n) = false.
Proof. done. Qed.

(** Its own timer fires: the node enters the next view and tells the others. *)
Lemma timer_at i got n n' es :
  i ∈ ids → node_at false got (start i).1 n → busy n = true → initiateViewChange n = Done (n', es) →
  node_at true got (start i).1 n' ∧ Cluster.broadcasts es = [wire i].
Proof.
  intros Hi Hat Hbusy Hv. destruct (ip_node Hplace i Hi) as (Hid & _ & Hwrap & _ & _ & _ & _ & Hprim & [data Hdata]).
  unfold node_at in Hat. cbn [orb] in Hat. case_bool_decide; [by destruct Hat as [log ->]|].
  destruct Hat as (log & -> & _). unfold busy in Hbusy. revert Hv. unfold initiateViewChange.
  destruct (_ && _); [done|].
  cbn [view set_view set_pending set_viewChangeLog set_isPrimary set_state totalNodes nodeID]. rewrite Hwrap, Hprim, Hid.
  cbn [outcome_bind]. rewrite Hdata. unfold wire. rewrite Hdata.
  match goal with |- context [failPendingCallbacks ?r ?n] =>
    pose proof (failed_broadcasts r n) as Hf; destruct (failPendingCallbacks r n) as [n2 es2] eqn:Hn2 end.
  intros [= <- <-]. injection Hn2 as <- _. split.
  - eexists. unfold moved. rewrite Hid. reflexivity.
  - change (data :: Cluster.broadcasts es2 = [data]). cbn [snd] in Hf. by rewrite Hf.
Qed.

Lemma node_queue i out got n : i ∈ ids → node_at out got (start i).1 n → messageQueue n = [].
Proof.
  intros Hi Hat. destruct (ip_node Hplace i Hi) as (_ & _ & _ & _ & _ & Hq & _). unfold node_at in Hat.
  destruct (out || _); [by destruct Hat as [log ->] | by destruct Hat as (log & -> & _)].
Qed.

(** A vote is counted, unless the node is in the next view already. *)
Lemma vote_at i j out got n :
  j ∈ ids → node_at out got (start j).1 n → ∃ n' es,
  HandleViewChange (MkViewChangeMsg v' i) n = Done (n', es) ∧
  node_at out ({[i]} ∪ got) (start j).1 n' ∧ Cluster.broadcasts es = [].
Proof.
  intros Hj Hat. destruct (ip_node Hplace j Hj) as (Hid & _ & _ & Hv & HR & _ & _ & Hprim & _).
  assert (Hmono : size got ≤ size ({[i]} ∪ got)) by (apply subseteq_size; set_solver).
  unfold HandleViewChange. cbn [vcm_NewView vcm_NodeID]. unfold node_at in Hat.
  destruct (out || bool_decide (R ≤ Z.of_nat (size got))%Z) eqn:Hmoved.
  - destruct Hat as [log ->]. rewrite (proj2 (Z.leb_le v' _)) by (cbn; lia). eexists _, []. split_and!; [done| |done].
    unfold node_at. replace (out || _) with true; [by exists log|]. symmetry.
    apply orb_true_iff in Hmoved as [->|Hm%bool_decide_eq_true]; [done|]. rewrite bool_decide_true by lia. by rewrite orb_true_r.
  - destruct Hat as (log & -> & Hdom). apply orb_false_iff in Hmoved as [-> Hsmall%bool_decide_eq_false].
    cbn [view set_viewChangeLog viewChangeLog]. rewrite (proj2 (Z.leb_gt v' _)) by lia.
    set (log' := add_vote v' i _ log).
    assert (Hdom' : dom (votes_at log' v') = {[i]} ∪ got) by (unfold log'; rewrite add_vote_senders; by rewrite Hdom).
    rewrite (size_senders v' log' _ Hdom').
    change (required_votes _) with (required_votes (start j).1). rewrite HR. unfold node_at. cbn [orb].
    destruct (Z.ltb_spec (Z.of_nat (size ({[i]} ∪ got))) R).
    + eexists _, []. split_and!; [done| |done]. rewrite bool_decide_false by lia. by exists log'.
    + cbn [set_view view totalNodes set_viewChangeLog]. rewrite Hprim, bool_decide_true by lia. cbn [outcome_bind].
      match goal with |- context [failPendingCallbacks ?r ?n] => pose proof (failed_broadcasts r n) as Hf end.
      unfold failPendingCallbacks in *. cbn [snd] in Hf.
      eexists _, _. split_and!; [reflexivity| | exact Hf]. eexists. reflexivity.
Qed.

Lemma receive_vote now peers i j out got n w :
  i ∈ ids → j ∈ ids → node_at out got (start j).1 n → ∃ n' es,
  receive now peers (wire i) n w = Some (n', w, es) ∧
  node_at out ({[i]} ∪ got) (start j).1 n' ∧ Cluster.broadcasts es = [].
Proof.
  intros Hi Hj Hat. destruct (ip_node Hplace i Hi) as (_ & Hne & _ & _ & _ & _ & _ & _ & [data Hdata]).
  destruct (vote_at i j out got n Hj Hat) as (n' & es & Hh & Hat' & Hbr). exists n', es. split; [|done].
  unfold wire, receive. rewrite Hdata. cbn [payload]. apply envelope_Ok in Hdata as (b & Hser & Hdes). rewrite Hdes.
  cbn [pb.vm_Type pb.vm_Payload]. unfold HandleNetworkMessage. cbn [Z.eqb Pos.eqb].
  rewrite (ViewChange_decodes (MkViewChangeMsg v' i)) with (data := b); [|by intros [= _ ?]|done].
  rewrite Hh. cbn [outcome_bind fst snd]. unfold processMessage. by rewrite (node_queue j out _ n' Hj Hat').
Qed.
(** ** All nodes *)

(** Who has left the view because of its own timer, whose votes each node has, and the votes on their
    way: of whom, and to whom. *)
Record votes := MkVotes {
  vo_out : gset string;
  vo_got : string → gset string;
  vo_flight : list (string * string);
}.

Definition encode_vote (x : string * string) : string * string := (x.2, wire x.1).

Definition to_others (i : string) : list (string * string) := map (λ j, (i, j)) (peers_of ids i).

Lemma encode_to_others i : map encode_vote (to_others i) = to_peers ids i [wire i].
Proof. unfold to_others, to_peers. cbn [flat_map]. by rewrite app_nil_r, map_map. Qed.

Lemma elem_of_to_others i a j : (a, j) ∈ to_others i ↔ a = i ∧ j ∈ ids ∧ j ≠ i.
Proof.
  unfold to_others. rewrite list_elem_of_In, in_map_iff. setoid_rewrite <- list_elem_of_In.
  setoid_rewrite elem_of_peers. naive_solver.
Qed.

Definition node_ok (vo : votes) (c : Round) (i : string) : Prop :=
  ∃ n, r_nodes c !! i = Some (n, (start i).2) ∧
    node_at (bool_decide (i ∈ vo_out vo)) (vo_got vo i) (start i).1 n.

(** Every vote on its way has been cast, and every vote cast is on its way or has arrived. *)
Record votes_ok (vo : votes) : Prop := VotesOk {
  vk_out i : i ∈ vo_out vo → i ∈ ids;
  vk_flight i j : (i, j) ∈ vo_flight vo → i ∈ vo_out vo ∧ j ∈ ids;
  vk_cast i j : i ∈ vo_out vo → j ∈ ids → i ≠ j → i ∈ vo_got vo j ∨ (i, j) ∈ vo_flight vo;
  vk_got j : vo_got vo j ⊆ vo_out vo;
}.

Definition change_after (k : nat) (c : Round) : Prop :=
  ∃ vo, r_flight c = map encode_vote (vo_flight vo) ∧ (∀ i, i ∈ ids → node_ok vo c i) ∧ votes_ok vo ∧
    k + length (vo_flight vo) + length ids * (length ids - size (vo_out vo)) ≤ length ids * length ids.

Definition after_timer (vo : votes) (i : string) : votes :=
  MkVotes ({[i]} ∪ vo_out vo) (vo_got vo) (vo_flight vo ++ to_others i).

Definition after_vote (vo : votes) (x : nat) (i j : string) : votes :=
  MkVotes (vo_out vo) (upd j ({[i]} ∪ vo_got vo j) (vo_got vo)) (delete x (vo_flight vo)).

Lemma timer_votes_ok vo i : i ∈ ids → votes_ok vo → votes_ok (after_timer vo i).
Proof.
  intros Hi [Hout Hfl Hcast Hgot]. split; cbn [after_timer vo_out vo_got vo_flight].
  - intros a [->%elem_of_singleton|Ha]%elem_of_union; [done | by apply Hout].
  - intros a j [Ha|(-> & Hj & _)%elem_of_to_others]%elem_of_app; [|set_solver].
    destruct (Hfl a j Ha). set_solver.
  - intros a j [->%elem_of_singleton|Ha]%elem_of_union Hj Hne.
    + right. apply elem_of_app. right. apply elem_of_to_others. by split_and!.
    + destruct (Hcast a j Ha Hj Hne); [by left | right]. apply elem_of_app. by left.
  - intros j. specialize (Hgot j). set_solver.
Qed.

Lemma vote_votes_ok vo x i j : vo_flight vo !! x = Some (i, j) → votes_ok vo → votes_ok (after_vote vo x i j).
Proof.
  intros Hx [Hout Hfl Hcast Hgot]. pose proof (Hfl i j (list_elem_of_lookup_2 _ _ _ Hx)) as [Hi Hj].
  pose proof (delete_Permutation _ _ _ Hx) as Hperm. split; cbn [after_vote vo_out vo_got vo_flight].
  - done.
  - intros a b Hab. apply Hfl. rewrite Hperm. apply elem_of_cons. by right.
  - intros a b Ha Hb Hne. unfold upd. case_decide as Hd.
    + subst b. destruct (decide (a = i)) as [->|Hai]; [left; set_solver|].
      destruct (Hcast a j Ha Hb Hne) as [?|Hin]; [left; set_solver | right].
      rewrite Hperm in Hin. apply elem_of_cons in Hin as [[= ->]|Hin]; done.
    + destruct (Hcast a b Ha Hb Hne) as [?|Hin]; [by left | right].
      rewrite Hperm in Hin. apply elem_of_cons in Hin as [[= -> ->]|Hin]; done.
  - intros b. unfold upd. pose proof (Hgot b). pose proof (Hgot j). case_decide; set_solver.
Qed.

Lemma voters_bound vo : votes_ok vo → size (vo_out vo) ≤ length ids.
Proof.
  intros Hok. rewrite <- (size_list_to_set (C := gset string) ids) by apply Hplace.
  apply subseteq_size. intros i Hi. apply elem_of_list_to_set. by apply Hok.
Qed.

Lemma change_timer k c i n w n' es :
  i ∈ ids → r_nodes c !! i = Some (n, w) → busy n = true → initiateViewChange n = Done (n', es) → change_after k c →
  change_after (S k) (MkRound (<[i := (n', w)]> (r_nodes c)) (r_flight c ++ to_peers ids i (Cluster.broadcasts es))).
Proof.
  intros Hi Hn Hbusy Hv (vo & Hflight & Hnodes & Hok & Hcost).
  destruct (Hnodes i Hi) as (n1 & Hn1 & Hat). assert (n1 = n ∧ w = (start i).2) as [-> ->] by naive_solver.
  case_bool_decide as Hout; [by destruct Hat as [log ->]|].
  destruct (timer_at i _ n n' es Hi Hat Hbusy Hv) as [Hat' Hbr].
  pose proof (timer_votes_ok vo i Hi Hok) as Hok'. pose proof (voters_bound _ Hok') as Hbound.
  exists (after_timer vo i). split_and!; [| |done|].
  - cbn [r_flight after_timer vo_flight]. by rewrite map_app, encode_to_others, Hflight, Hbr.
  - intros l Hl. unfold node_ok. cbn [r_nodes after_timer vo_out vo_got]. destruct (decide (l = i)) as [->|Hne].
    + exists n'. rewrite lookup_insert_eq, bool_decide_true by set_solver. done.
    + destruct (Hnodes l Hl) as (nl & Hnl & Hatl). exists nl. rewrite lookup_insert_ne by done. split; [done|].
      rewrite (bool_decide_ext (l ∈ {[i]} ∪ vo_out vo) (l ∈ vo_out vo)) by set_solver. done.
  - cbn [after_timer vo_out vo_flight] in *. rewrite size_union in * by set_solver. rewrite size_singleton in *.
    rewrite length_app. unfold to_others. rewrite length_map. pose proof (length_peers ids i Hi). nia.
Qed.

Lemma change_deliver k c c' : round_step ids c c' → change_after k c → change_after (S k) c'.
Proof.
  intros Hstep (vo & Hflight & Hnodes & Hok & Hcost). destruct Hstep as [c x j data n w now peers n' w' es Hx Hn Hrec].
  rewrite Hflight, list_lookup_fmap in Hx.
  destruct (vo_flight vo !! x) as [[i j']|] eqn:Hfx; [|done]. injection Hx as -> <-. cbn [fst snd] in *.
  destruct (vk_flight vo Hok i j (list_elem_of_lookup_2 _ _ _ Hfx)) as [Hi%(vk_out vo Hok) Hj].
  destruct (Hnodes j Hj) as (n1 & Hn1 & Hat). assert (n1 = n ∧ w = (start j).2) as [-> ->] by naive_solver.
  destruct (receive_vote now peers i j _ _ n (start j).2 Hi Hj Hat) as (n2 & es2 & Hrec2 & Hat2 & Hbr).
  rewrite Hrec2 in Hrec. injection Hrec as <- <- <-.
  exists (after_vote vo x i j). split_and!; [| |by apply vote_votes_ok|].
  - cbn [r_flight after_vote vo_flight]. rewrite Hflight, Hbr. cbn [to_peers flat_map]. rewrite app_nil_r.
    symmetry. apply list_fmap_delete.
  - intros l Hl. unfold node_ok. cbn [r_nodes after_vote vo_out vo_got]. destruct (decide (l = j)) as [->|Hne].
    + exists n2. by rewrite lookup_insert_eq, upd_eq.
    + destruct (Hnodes l Hl) as (nl & Hnl & Hatl). exists nl. by rewrite lookup_insert_ne, upd_ne by done.
  - cbn [after_vote vo_out vo_flight]. rewrite length_delete by by rewrite Hfx.
    pose proof (lookup_lt_Some _ _ _ Hfx). lia.
Qed.

(** What is on its way can be delivered, and the timer of a node with something pending can fire. *)
Lemma change_progress k c :
  change_after k c → r_flight c ≠ [] ∨ (∃ i n w, i ∈ ids ∧ r_nodes c !! i = Some (n, w) ∧ busy n = true) →
  ∃ c', change_step c c'.
Proof.
  intros (vo & Hflight & Hnodes & Hok & _) [Hne|(i & n & w & Hi & Hn & Hbusy)].
  - destruct (vo_flight vo) as [|[i j] fl] eqn:Hfl; [by rewrite Hflight in Hne|].
    destruct (vk_flight vo Hok i j) as [Hi%(vk_out vo Hok) Hj]; [rewrite Hfl; by left|].
    destruct (Hnodes j Hj) as (n & Hn & Hat).
    destruct (receive_vote 0 0 i j _ _ n (start j).2 Hi Hj Hat) as (n' & es & Hrec & _).
    eexists. apply CDeliver. apply (RDeliver ids c 0 j (wire i) n (start j).2 0 0 n' (start j).2 es); [by rewrite Hflight | done | done].
  - destruct (Hnodes i Hi) as (n1 & Hn1 & Hat). assert (n1 = n) as -> by naive_solver. unfold node_at in Hat.
    destruct (_ || _); [by destruct Hat as [log ->]|]. destruct Hat as (log & -> & _).
    destruct (ip_node Hplace i Hi) as (_ & _ & Hwrap & _ & _ & _ & _ & Hprim & _).
    destruct (initiateViewChange (set_viewChangeLog log (start i).1)) as [[n' es]|] eqn:Hv.
    + eexists. by eapply CTimer.
    + exfalso. revert Hv. unfold initiateViewChange. destruct (_ && _); [done|].
      cbn [view set_view set_pending set_viewChangeLog totalNodes]. by rewrite Hwrap, Hprim.
Qed.

(** When no message is on its way and no node has anything pending, all are in the next view. *)
Lemma change_end k c (waiting : gset string) :
  (∀ i, i ∈ waiting → i ∈ ids ∧ busy (start i).1 = true) → (R ≤ Z.of_nat (size waiting))%Z →
  change_after k c → r_flight c = [] →
  ¬ (∃ i n w, i ∈ ids ∧ r_nodes c !! i = Some (n, w) ∧ busy n = true) →
  ∀ i, i ∈ ids → ∃ log, r_nodes c !! i = Some (moved log (start i).1, (start i).2).
Proof.
  intros Hwait HR (vo & Hflight & Hnodes & Hok & _) Hnil Hidle.
  destruct (vo_flight vo) eqn:Hfl; [|by rewrite Hflight in Hnil].
  assert (Hgot : ∀ j, j ∈ ids → j ∉ vo_out vo → vo_got vo j = vo_out vo).
  { intros j Hj Hnot. apply set_eq. intros a. split; [apply (vk_got vo Hok)|]. intros Ha.
    destruct (vk_cast vo Hok a j Ha Hj) as [?|Hin]; [by intros ->|done|]. rewrite Hfl in Hin. by apply elem_of_nil in Hin. }
  assert (Hout : (R ≤ Z.of_nat (size (vo_out vo)))%Z).
  { destruct (decide (waiting ⊆ vo_out vo)) as [Hsub%subseteq_size|Hnot]; [lia|].
    assert (∃ j, j ∈ waiting ∧ j ∉ vo_out vo) as (j & Hj & Hjo).
    { destruct (set_choose_or_empty (waiting ∖ vo_out vo)) as [[j Hj%elem_of_difference]|Hempty]; [by exists j|].
      destruct Hnot. intros a Ha. destruct (decide (a ∈ vo_out vo)); [done|]. exfalso.
      by apply (not_elem_of_empty (C := gset string) a), Hempty, elem_of_difference. }
    destruct (Hwait j Hj) as [Hji Hbusy]. destruct (Hnodes j Hji) as (n & Hn & Hat).
    rewrite bool_decide_false in Hat by done. unfold node_at in Hat. cbn [orb] in Hat. rewrite Hgot in Hat by done.
    case_bool_decide; [done|]. destruct Hat as (log & -> & _). destruct Hidle. by eexists _, _, _. }
  intros i Hi. destruct (Hnodes i Hi) as (n & Hn & Hat). unfold node_at in Hat.
  assert (bool_decide (i ∈ vo_out vo) || bool_decide (R ≤ Z.of_nat (size (vo_got vo i)))%Z = true) as Hm.
  { case_bool_decide; [done|]. cbn [orb]. rewrite Hgot by done. by apply bool_decide_true. }
  rewrite Hm in Hat. destruct Hat as [log ->]. by exists log.
Qed.

Lemma change_begins c :
  r_flight c = [] → (∀ i, i ∈ ids → r_nodes c !! i = Some (start i)) → change_after 0 c.
Proof.
  intros Hnil Hall. exists (MkVotes ∅ (λ _, ∅) []). split_and!; [done| | |].
  - intros i Hi. exists (start i).1. rewrite Hall by done. split; [by destruct (start i)|].
    destruct (ip_node Hplace i Hi) as (_ & _ & _ & _ & HR & _ & Hlog & _). pose proof (required_votes_pos (start i).1).
    unfold node_at. cbn [vo_out vo_got]. rewrite size_empty, (bool_decide_false (i ∈ ∅)), bool_decide_false by (set_solver || lia).
    exists (viewChangeLog (start i).1). split; [by destruct (start i).1|]. by rewrite Hlog, dom_empty_L.
  - split; cbn [vo_out vo_got vo_flight]; set_solver.
  - cbn [vo_out vo_flight length]. rewrite size_empty. lia.
Qed.

Definition waits (c : Round (W := W)) (i : string) : bool :=
  match r_nodes c !! i with Some (n, _) => busy n | None => false end.

Lemma some_waits (c : Round (W := W)) :
  existsb (waits c) ids = true ↔ ∃ i n w, i ∈ ids ∧ r_nodes c !! i = Some (n, w) ∧ busy n = true.
Proof.
  rewrite existsb_exists. setoid_rewrite <- list_elem_of_In. unfold waits. split.
  - intros (i & Hi & Hw). destruct (r_nodes c !! i) as [[n w]|] eqn:Hn; [|done]. by exists i, n, w.
  - intros (i & n & w & Hi & Hn & Hw). exists i. by rewrite Hn.
Qed.

(** However the change proceeds, it ends. *)
Lemma change_runs (waiting : gset string) k c0 c :
  (∀ i, i ∈ waiting → i ∈ ids ∧ busy (start i).1 = true) → (R ≤ Z.of_nat (size waiting))%Z →
  r_flight c0 = [] → (∀ i, i ∈ ids → r_nodes c0 !! i = Some (start i)) →
  nsteps change_step k c0 c →
  k ≤ length ids * length ids ∧
  ((∃ c', change_step c c') ∨
   r_flight c = [] ∧ ∀ i, i ∈ ids → ∃ log, r_nodes c !! i = Some (moved log (start i).1, (start i).2)).
Proof.
  intros Hwait HR Hnil Hall Hsteps.
  assert (Hinv : change_after k c).
  { assert (Hbeg : change_after 0 c0) by by apply change_begins.
    clear Hnil Hall. change k with (0 + k). revert Hbeg. generalize 0 as k0.
    induction Hsteps as [c|k c c1 c2 Hstep _ IH]; intros k0 Hk0; [by rewrite Nat.add_0_r|].
    rewrite <- Nat.add_succ_comm. apply IH. destruct Hstep; [by eapply change_timer | by eapply change_deliver]. }
  split; [destruct Hinv as (vo & _ & _ & _ & Hcost); lia|].
  destruct (decide (r_flight c = [])) as [Hdone|Hne]; [|left; apply (change_progress k c Hinv); by left].
  destruct (existsb (waits c) ids) eqn:Hex.
  - left. apply (change_progress k c Hinv). right. by apply some_waits.
  - right. split; [done|]. apply (change_end k c waiting Hwait HR Hinv Hdone). intros Hw%some_waits. congruence.
Qed.

(** C5: a view change completes, and loses nothing that was logged. Where the nodes that are up are in one
    view, and something is pending at 2f+1 of them or more, let their timers fire at any time and the
    network deliver the VIEW-CHANGE messages in any order: there are at most N^2 such steps (N nodes are
    up), and when no timer of a node with something pending and no delivery is left, all of the nodes are
    in the next view, also those whose timer never fired; exactly its primary takes itself for the
    primary, none waits for a request any more, and each has its application, its requests, the votes for
    them, its checkpoints and its sequence number as before the change. *)
Theorem view_change_completes (waiting : gset string) k c0 c :
  (∀ i, i ∈ waiting → i ∈ ids ∧ busy (start i).1 = true) → (R ≤ Z.of_nat (size waiting))%Z →
  r_flight c0 = [] → (∀ i, i ∈ ids → r_nodes c0 !! i = Some (start i)) →
  nsteps change_step k c0 c →
  k ≤ length ids * length ids ∧
  ((∃ c', change_step c c') ∨
   r_flight c = [] ∧ ∀ i, i ∈ ids → ∃ n, r_nodes c !! i = Some (n, (start i).2) ∧
     view n = v' ∧ GetPrimary n = Done next ∧ (isPrimary n = true ↔ i = next) ∧ busy n = false ∧
     requestCallbacks n = ∅ ∧
     (sequence n, requestLog n, prepareLog n, commitLog n, checkpoints n, checkpointVotes n, lastStableCheckpoint n)
     = let n0 := (start i).1 in
       (sequence n0, requestLog n0, prepareLog n0, commitLog n0, checkpoints n0, checkpointVotes n0,
        lastStableCheckpoint n0)).
Proof.
  intros Hwait HR Hnil Hall Hsteps. destruct (change_runs waiting k c0 c) as [Hk Hend]; [done..|]. split; [done|].
  destruct Hend as [|[Hdone Hend]]; [by left|]. right. split; [done|]. intros i Hi.
  destruct (ip_node Hplace i Hi) as (Hid & _ & _ & _ & _ & _ & _ & Hprim & _). destruct (Hend i Hi) as [log Hn].
  exists (moved log (start i).1). split_and!; try done; cbn; rewrite Hid; apply String.eqb_eq.
Qed.
End change.

(** * A node whose timer fires alone *)

Section lone.
Context {W : Type}.
Context `{pb.ProtoMessage pb.ValidatorMessage, pb.ProtoMessage pb.PrePrepare,
  pb.ProtoMessage pb.Prepare, pb.ProtoMessage pb.Commit, pb.ProtoMessage pb.Request,
  pb.ProtoMessage pb.ViewChange, pb.ProtoMessage pb.Checkpoint}.
Implicit Types n : PBFTNode W.

Definition message_view (msg : ConsensusMessage) : Z :=
  match msg with MPrePrepare m => ppm_View m | MPrepare m => pm_View m | MCommit m => cm_View m end.

(** It needs no quorum to leave its view, and takes no part in that view any more: it refuses every
    PRE-PREPARE, PREPARE and COMMIT of it, and votes for the view it is in, or an earlier one, do not move
    it. So it waits until the others come after it, or a quorum moves it further. *)
Theorem lone_node_takes_no_part n n' es :
  initiateViewChange n = Done (n', es) → busy n = true → (view n < wrap_i64 (view n + 1))%Z →
  (∀ now msg w, (message_view msg ≤ view n)%Z → ∃ err, dispatch now msg n' w = (n', w, [], Some err)) ∧
  (∀ m, (vcm_NewView m ≤ wrap_i64 (view n + 1))%Z → HandleViewChange m n' = Done (n', [])).
Proof.
  intros Hv Hbusy Hlt. apply initiateViewChange_spec in Hv. rewrite Hbusy in Hv. destruct Hv as [Hview _]. split.
  - intros now msg w Hm.
    assert (Hne : (message_view msg =? view n')%Z = false) by (apply Z.eqb_neq; lia).
    destruct msg; cbn [dispatch message_view] in *; unfold handlePrePrepare, HandlePrepare, HandleCommit; rewrite Hne; by eexists.
  - intros m Hm. unfold HandleViewChange. by rewrite (proj2 (Z.leb_le _ _)) by lia.
Qed.
End lone.

(** * Three of four nodes, whose primary is down *)

#[local] Existing Instance pb.bit_codec.
#[local] Existing Instance pb.bit_codec_laws.

Definition followers : list string := ["node1"; "node2"; "node3"].

(** Each waits for the primary to propose a request. *)
Definition waiting_start (i : string) : PBFTNode app * app :=
  (set_pending true (fresh_node 4
    (if (i =? "node1")%string then 1 else if (i =? "node2")%string then 2 else 3)), []).

Lemma bit_codec_envelope ty (msg : ViewChangeMsg) id : ∃ data, envelope ty (SerializeViewChange msg) id = Ok data.
Proof.
  unfold envelope, SerializeViewChange.
  match goal with |- context [pb.Marshal ?x] => destruct (Cluster.bit_codec_marshals x) as [b ->] end.
  cbn [wrap_err result_bind]. unfold SerializePBFTMessage.
  match goal with |- context [pb.Marshal ?x] => destruct (Cluster.bit_codec_marshals x) as [data ->] end. by eexists.
Qed.

Lemma followers_all (P : string → Prop) : P "node1" → P "node2" → P "node3" → ∀ i, i ∈ followers → P i.
Proof. intros ? ? ? i Hi. unfold followers in Hi. repeat (apply elem_of_cons in Hi as [->|Hi]; [done|]). by apply elem_of_nil in Hi. Qed.

Lemma followers_in_place : in_place followers waiting_start 1 3 "node1".
Proof.
  split; [apply (bool_decide_unpack _); vm_compute; exact I|].
  intros i Hi n. assert (∃ data, envelope 3 (SerializeViewChange (MkViewChangeMsg 1 i)) i = Ok data) as Hdata by apply bit_codec_envelope.
  revert i Hi n Hdata. refine (followers_all _ _ _ _); intros n Hdata; repeat split; try done; exact Hdata.
Qed.

Definition followers_waiting : Round :=
  MkRound {[ "node1" := waiting_start "node1"; "node2" := waiting_start "node2"; "node3" := waiting_start "node3" ]} [].

Lemma view_change_completes_witness : let c := followers_waiting in
  0 ≤ length followers * length followers ∧
  ((∃ c', change_step followers c c') ∨
   r_flight c = [] ∧ ∀ i, i ∈ followers → ∃ n, r_nodes c !! i = Some (n, (waiting_start i).2) ∧
     view n = 1%Z ∧ GetPrimary n = Done "node1" ∧ (isPrimary n = true ↔ i = "node1") ∧ busy n = false ∧
     requestCallbacks n = ∅ ∧
     (sequence n, requestLog n, prepareLog n, commitLog n, checkpoints n, checkpointVotes n, lastStableCheckpoint n)
     = let n0 := (waiting_start i).1 in
       (sequence n0, requestLog n0, prepareLog n0, commitLog n0, checkpoints n0, checkpointVotes n0,
        lastStableCheckpoint n0)).
Proof.
  apply (view_change_completes followers waiting_start 1 3 "node1" followers_in_place (list_to_set followers)
    0 followers_waiting followers_waiting).
  - intros i Hi%elem_of_list_to_set. split; [done|]. revert i Hi. by apply followers_all.
  - reflexivity.
  - reflexivity.
  - by apply followers_all.
  - constructor.
Defined.
End ViewChange.
