(* ===== verification/GossipCache.v ===== *)
(** The deduplication cache of the gossip engine: [src/pkg/gossip/cache.go].

    [MessageCache] is an LRU list (container/list) indexed by a map and guarded by a bloom filter.
    A list element is a record with its identity, so that the map can point at it. The cache stores
    message pointers; they are an abstract type here. Operations return [outcome] because the
    bloom filter divides by its size. The abstract cache is an association list, most recent
    first; every operation is proved to implement it. *)

From S2P Require Import Prelude Hashing.

Module GossipCache.
Local Open Scope go_scope.

(** * Bloom filter *)

Record BloomFilter := MkBloomFilter {
  bf_bits : list bool;
  bf_size : Z;
  hashCount : nat;
}.

Definition make_bits (size : Z) : list bool := replicate (Z.to_nat size) false.

(** The false-positive rate argument is not used by the code. *)
Definition NewBloomFilter (capacity : Z) : outcome BloomFilter :=
  let size := wrap_i64 (capacity * 10) in
  if (size <? 0)%Z then Panic "makeslice: len out of range"
  else Done {| bf_bits := make_bits size; bf_size := size; hashCount := 7 |}.

Definition getHashes (bf : BloomFilter) (key : string) : list Z :=
  let sum := Hashing.Sum64a key in
  let h1 := Z.land sum 0xffffffff in
  let h2 := Z.shiftr sum 32 in
  let h2 := if (h2 =? 0)%Z then 1%Z else h2 in
  (λ i, Z.land (wrap_i64 (h1 + wrap_i64 (Z.of_nat i * h2))) 0x7fffffff) <$> seq 0 (hashCount bf).

(** [bits[h % size]]: the index, or a panic when the size is 0. *)
Definition bit_index (bf : BloomFilter) (h : Z) : outcome nat :=
  if (bf_size bf =? 0)%Z then Panic "integer divide by zero"
  else Done (Z.to_nat (Z.rem h (bf_size bf))).

Definition set_bit (i : nat) (bf : BloomFilter) : BloomFilter :=
  {| bf_bits := <[i := true]> (bf_bits bf); bf_size := bf_size bf; hashCount := hashCount bf |}.

Fixpoint bloom_set (hashes : list Z) (bf : BloomFilter) : outcome BloomFilter :=
  match hashes with
  | [] => Done bf
  | h :: hashes => let* i := bit_index bf h in bloom_set hashes (set_bit i bf)
  end.

Definition bloom_Add (key : string) (bf : BloomFilter) : outcome BloomFilter :=
  bloom_set (getHashes bf key) bf.

Fixpoint bloom_test (hashes : list Z) (bf : BloomFilter) : outcome bool :=
  match hashes with
  | [] => Done true
  | h :: hashes =>
      let* i := bit_index bf h in
      if negb (default false (bf_bits bf !! i)) then Done false else bloom_test hashes bf
  end.

Definition bloom_Contains (bf : BloomFilter) (key : string) : outcome bool :=
  bloom_test (getHashes bf key) bf.

(** * The cache *)

Section cache.
Context {Msg : Type}.

(** A [*list.Element] holding a [*cacheEntry]; [el_id] is the pointer. *)
Record Element := MkElement {
  el_id : nat;
  el_key : string;
  el_message : Msg;
}.

Record MessageCache := MkMessageCache {
  capacity : Z;
  cache : gmap string nat;
  lru : list Element;
  bloom : BloomFilter;
  next_id : nat;  (** the next fresh pointer *)
}.

Definition NewMessageCache (capacity : Z) : outcome MessageCache :=
  let* bf := NewBloomFilter capacity in
  Done {| capacity := capacity; cache := ∅; lru := []; bloom := bf; next_id := 0 |}.

(** [lru.Remove(elem)] and [lru.MoveToFront(elem)] of container/list. *)
Definition Remove (id : nat) (l : list Element) : list Element := filter (λ e, el_id e ≠ id) l.

Definition MoveToFront (id : nat) (l : list Element) : list Element :=
  match list_find (λ e, el_id e = id) l with
  | Some (_, e) => e :: Remove id l
  | None => l
  end.

(** [elem.Value.( *cacheEntry).message = msg] *)
Definition set_message (id : nat) (msg : Msg) (l : list Element) : list Element :=
  (λ e, if decide (el_id e = id) then MkElement id (el_key e) msg else e) <$> l.

Definition evict (mc : MessageCache) : MessageCache :=
  match last (lru mc) with
  | None => mc
  | Some elem =>
      {| capacity := capacity mc; cache := delete (el_key elem) (cache mc);
         lru := Remove (el_id elem) (lru mc); bloom := bloom mc; next_id := next_id mc |}
  end.

(** [Add(msg)], with [msg.ID]. *)
Definition Add (ID : string) (msg : Msg) (mc : MessageCache) : outcome MessageCache :=
  match cache mc !! ID with
  | Some elem =>
      Done {| capacity := capacity mc; cache := cache mc;
              lru := set_message elem msg (MoveToFront elem (lru mc));
              bloom := bloom mc; next_id := next_id mc |}
  | None =>
      let* bf := bloom_Add ID (bloom mc) in
      let elem := next_id mc in
      let mc :=
        {| capacity := capacity mc; cache := <[ID := elem]> (cache mc);
           lru := MkElement elem ID msg :: lru mc; bloom := bf; next_id := S elem |} in
      Done (if (capacity mc <? Z.of_nat (length (lru mc)))%Z then evict mc else mc)
  end.

Definition Contains (mc : MessageCache) (msgID : string) : outcome bool :=
  let* maybe := bloom_Contains (bloom mc) msgID in
  if negb maybe then Done false else Done (bool_decide (is_Some (cache mc !! msgID))).

Definition Get (msgID : string) (mc : MessageCache) : MessageCache * option Msg :=
  match cache mc !! msgID with
  | Some elem =>
      ({| capacity := capacity mc; cache := cache mc; lru := MoveToFront elem (lru mc);
          bloom := bloom mc; next_id := next_id mc |},
       el_message <$> (snd <$> list_find (λ e, el_id e = elem) (lru mc)))
  | None => (mc, None)
  end.

Definition GetDigests (mc : MessageCache) : list string := fst <$> map_to_list (cache mc).

Definition Size (mc : MessageCache) : Z := Z.of_nat (length (lru mc)).

Definition Clear (mc : MessageCache) : outcome MessageCache :=
  let* bf := NewBloomFilter (capacity mc) in
  Done {| capacity := capacity mc; cache := ∅; lru := []; bloom := bf; next_id := next_id mc |}.

End cache.
Arguments MessageCache : clear implicits.
Arguments Element : clear implicits.

(** * No false negatives *)

Definition bloom_wf (bf : BloomFilter) : Prop :=
  (0 < bf_size bf)%Z ∧ length (bf_bits bf) = Z.to_nat (bf_size bf).

(** The bits of a key. *)
Definition key_bits (bf : BloomFilter) (key : string) : list nat :=
  (λ h, Z.to_nat (Z.rem h (bf_size bf))) <$> getHashes bf key.

Definition bloom_has (bf : BloomFilter) (key : string) : Prop :=
  Forall (λ i, bf_bits bf !! i = Some true) (key_bits bf key).

Lemma getHashes_nonneg bf key : Forall (λ h, 0 ≤ h)%Z (getHashes bf key).
Proof.
  apply Forall_fmap, Forall_true. intros i. unfold compose. apply Z.land_nonneg. right. lia.
Qed.

Lemma bit_index_lt bf h :
  bloom_wf bf → (0 ≤ h)%Z → Z.to_nat (Z.rem h (bf_size bf)) < length (bf_bits bf).
Proof.
  intros [Hs Hl] Hh. rewrite Hl. pose proof (Z.rem_bound_pos h (bf_size bf) Hh Hs). lia.
Qed.

(** The filter with more bits set: same shape, and every set bit stays set. *)
Definition bloom_le (bf bf' : BloomFilter) : Prop :=
  bf_size bf' = bf_size bf ∧ hashCount bf' = hashCount bf ∧ length (bf_bits bf') = length (bf_bits bf) ∧
  ∀ i, bf_bits bf !! i = Some true → bf_bits bf' !! i = Some true.

#[export] Instance bloom_le_preorder : PreOrder bloom_le.
Proof.
  split.
  - intros bf. by unfold bloom_le.
  - intros b1 b2 b3 (? & ? & ? & H12) (? & ? & ? & H23). split_and!; [congruence..|]. eauto.
Qed.

Lemma bloom_le_wf bf bf' : bloom_le bf bf' → bloom_wf bf → bloom_wf bf'.
Proof. intros (Hs & _ & Hl & _) [? ?]. split; congruence. Qed.

Lemma bloom_le_has bf bf' key : bloom_le bf bf' → bloom_has bf key → bloom_has bf' key.
Proof.
  intros (Hs & Hc & _ & Hb). unfold bloom_has, key_bits, getHashes. rewrite Hs, Hc.
  intros Hh. eapply Forall_impl; [exact Hh|]. exact Hb.
Qed.

Lemma set_bit_le i bf : bloom_le bf (set_bit i bf).
Proof.
  split_and!; [done..|by simpl; rewrite length_insert|]. intros j Hj. simpl.
  destruct (decide (i = j)) as [<-|Hne].
  - apply list_lookup_insert_eq. by eapply lookup_lt_Some.
  - by rewrite list_lookup_insert_ne.
Qed.

Lemma bloom_set_spec hashes bf :
  bloom_wf bf → Forall (λ h, 0 ≤ h)%Z hashes →
  ∃ bf', bloom_set hashes bf = Done bf' ∧ bloom_le bf bf' ∧
    Forall (λ h, bf_bits bf' !! Z.to_nat (Z.rem h (bf_size bf)) = Some true) hashes.
Proof.
  intros Hwf Hh. revert bf Hwf. induction Hh as [|h hashes Hpos Hh IH]; intros bf Hwf.
  { exists bf. by split_and!. }
  pose proof (bit_index_lt bf h Hwf Hpos) as Hlt. simpl.
  unfold bit_index. destruct (Z.eqb_spec (bf_size bf) 0) as [H0|_]; [destruct Hwf; lia|]. simpl.
  set (i := Z.to_nat (Z.rem h (bf_size bf))) in *.
  destruct (IH (set_bit i bf)) as (bf' & Hset & Hle & Hall).
  { eapply bloom_le_wf; [apply set_bit_le|done]. }
  exists bf'. split_and!; [done|by etrans; [apply set_bit_le|]|]. constructor; [|done].
  apply Hle. by apply list_lookup_insert_eq.
Qed.

Lemma bloom_Add_spec key bf :
  bloom_wf bf → ∃ bf', bloom_Add key bf = Done bf' ∧ bloom_le bf bf' ∧ bloom_has bf' key.
Proof.
  intros Hwf. destruct (bloom_set_spec (getHashes bf key) bf Hwf (getHashes_nonneg bf key))
    as (bf' & Hset & Hle & Hall).
  exists bf'. split_and!; [done..|]. destruct Hle as (Hs & Hc & _).
  unfold bloom_has, key_bits, getHashes. rewrite Hs, Hc. by apply Forall_fmap.
Qed.

Lemma bloom_test_spec hashes bf :
  bloom_wf bf →
  bloom_test hashes bf =
    Done (bool_decide (Forall (λ h, bf_bits bf !! Z.to_nat (Z.rem h (bf_size bf)) = Some true) hashes)).
Proof.
  intros [Hs _]. induction hashes as [|h hashes IH].
  { by rewrite bool_decide_true by constructor. }
  cbn [bloom_test]. unfold bit_index at 1.
  destruct (Z.eqb_spec (bf_size bf) 0) as [H0|_]; [lia|]. cbn [outcome_bind].
  destruct (bf_bits bf !! _) as [[|]|] eqn:Hb; cbn [default from_option id negb].
  - rewrite IH. f_equal. apply bool_decide_ext. rewrite Forall_cons. naive_solver.
  - rewrite bool_decide_false; [done|]. rewrite Forall_cons. naive_solver.
  - rewrite bool_decide_false; [done|]. rewrite Forall_cons. naive_solver.
Qed.

Lemma bloom_Contains_spec bf key :
  bloom_wf bf → ∃ b, bloom_Contains bf key = Done b ∧ (bloom_has bf key → b = true).
Proof.
  intros Hwf. unfold bloom_Contains. rewrite bloom_test_spec by done. eexists. split; [done|].
  intros Hh. apply bool_decide_true. unfold bloom_has, key_bits in Hh. by rewrite Forall_fmap in Hh.
Qed.

Lemma filter_all {A} (P : A → Prop) `{!∀ x, Decision (P x)} (l : list A) :
  (∀ x, x ∈ l → P x) → filter P l = l.
Proof.
  induction l as [|x l IH]; intros Hl; [done|].
  rewrite filter_cons_True by (apply Hl; by left). f_equal. apply IH. intros. apply Hl. by right.
Qed.

(** * The abstract LRU cache *)

Section lru_spec.
Context {Msg : Type}.
Implicit Types l : list (string * Msg).

(** Most recently used first. *)
Definition without (id : string) l : list (string * Msg) := filter (λ kv, kv.1 ≠ id) l.

Definition lru_add (cap : nat) (id : string) (msg : Msg) l : list (string * Msg) :=
  take cap ((id, msg) :: without id l).

Definition lru_find (id : string) l : option Msg :=
  snd <$> (snd <$> list_find (λ kv, kv.1 = id) l).

Definition lru_touch (id : string) l : list (string * Msg) :=
  match lru_find id l with Some msg => (id, msg) :: without id l | None => l end.

End lru_spec.

(** * Refinement *)

Section refinement.
Context {Msg : Type}.
Implicit Types mc : MessageCache Msg.
Implicit Types e : Element Msg.

Definition pair_of e : string * Msg := (el_key e, el_message e).
Definition contents mc : list (string * Msg) := pair_of <$> lru mc.

Record cache_inv mc : Prop := {
  ci_cap : (0 < capacity mc)%Z;
  ci_len : (Z.of_nat (length (lru mc)) ≤ capacity mc)%Z;
  ci_ids : NoDup (el_id <$> lru mc);
  ci_next : Forall (λ e, el_id e < next_id mc) (lru mc);
  ci_map : ∀ k i, cache mc !! k = Some i ↔ ∃ e, e ∈ lru mc ∧ el_key e = k ∧ el_id e = i;
  ci_bloom : bloom_wf (bloom mc);
  ci_has : ∀ k, is_Some (cache mc !! k) → bloom_has (bloom mc) k;
}.

Lemma NoDup_fmap_same {A B} (g : A → B) (l : list A) x y :
  NoDup (g <$> l) → x ∈ l → y ∈ l → g x = g y → x = y.
Proof.
  induction l as [|z l IH]; intros Hnd Hx Hy Heq; [by apply elem_of_nil in Hx|].
  simpl in Hnd. apply NoDup_cons in Hnd as [Hz Hnd].
  apply elem_of_cons in Hx as [->|Hx], Hy as [->|Hy]; try done.
  - destruct Hz. apply list_elem_of_fmap. by exists y.
  - destruct Hz. apply list_elem_of_fmap. by exists x.
  - by apply IH.
Qed.

Lemma inv_key mc e k : cache_inv mc → e ∈ lru mc → el_key e = k ↔ cache mc !! k = Some (el_id e).
Proof.
  intros Hinv He. rewrite (ci_map _ Hinv). split; [intros <-; by exists e|].
  intros (e' & He' & <- & Hid). f_equal. symmetry. eapply NoDup_fmap_same; by eauto using ci_ids.
Qed.

(** The element the map points at. *)
Lemma inv_find mc k i :
  cache_inv mc → cache mc !! k = Some i →
  ∃ j e, list_find (λ e, el_id e = i) (lru mc) = Some (j, e) ∧ e ∈ lru mc ∧ el_key e = k ∧ el_id e = i.
Proof.
  intros Hinv Hk. pose proof Hk as (e & He & Hke & Hie)%(ci_map _ Hinv).
  destruct (list_find (λ e, el_id e = i) (lru mc)) as [[j e']|] eqn:Hf.
  - apply list_find_Some in Hf as (Hj & Hi & _). apply list_elem_of_lookup_2 in Hj.
    exists j, e'. split_and!; [done..| |done]. apply (inv_key mc e' k Hinv Hj). congruence.
  - apply list_find_None in Hf. rewrite Forall_forall in Hf. by destruct (Hf e He).
Qed.

Lemma MoveToFront_spec mc k i :
  cache_inv mc → cache mc !! k = Some i →
  ∃ e, el_key e = k ∧ el_id e = i ∧ e ∈ lru mc ∧ MoveToFront i (lru mc) = e :: Remove i (lru mc).
Proof.
  intros Hinv Hk. destruct (inv_find mc k i Hinv Hk) as (j & e & Hf & He & Hke & Hie).
  exists e. unfold MoveToFront. by rewrite Hf.
Qed.

Lemma Remove_contents mc k i :
  cache_inv mc → cache mc !! k = Some i →
  pair_of <$> Remove i (lru mc) = without k (contents mc).
Proof.
  intros Hinv Hk. unfold Remove, without, contents.
  assert (∀ l : list (Element Msg), (∀ e, e ∈ l → e ∈ lru mc) →
    pair_of <$> filter (λ e, el_id e ≠ i) l = filter (λ kv, kv.1 ≠ k) (pair_of <$> l)) as Hgen;
    [|by apply Hgen].
  induction l as [|e l IH]; intros Hl; [done|]. rewrite fmap_cons, !filter_cons.
  rewrite <- IH by (intros; apply Hl; by right).
  assert (el_id e = i ↔ el_key e = k) as Heq.
  { rewrite (inv_key mc e k Hinv) by (apply Hl; by left). rewrite Hk. naive_solver. }
  repeat case_decide; simpl in *; naive_solver.
Qed.

Lemma list_find_contents mc k i :
  cache_inv mc → cache mc !! k = Some i →
  lru_find k (contents mc) = el_message <$> (snd <$> list_find (λ e, el_id e = i) (lru mc)).
Proof.
  intros Hinv Hk. unfold lru_find, contents.
  assert (∀ l : list (Element Msg), (∀ e, e ∈ l → e ∈ lru mc) →
    snd <$> (snd <$> list_find (λ kv, kv.1 = k) (pair_of <$> l))
    = el_message <$> (snd <$> list_find (λ e, el_id e = i) l)) as Hgen; [|by apply Hgen].
  induction l as [|e l IH]; intros Hl; [done|]. rewrite fmap_cons. cbn [list_find].
  assert (el_id e = i ↔ el_key e = k) as Heq.
  { rewrite (inv_key mc e k Hinv) by (apply Hl; by left). rewrite Hk. naive_solver. }
  specialize (IH (λ e' He', Hl e' (list_elem_of_further _ _ _ He'))).
  change ((pair_of e).1) with (el_key e).
  destruct (decide (el_id e = i)), (decide (el_key e = k)); try naive_solver.
  destruct (list_find (λ kv, kv.1 = k) (pair_of <$> l)) as [[]|],
    (list_find (λ e, el_id e = i) l) as [[]|]; simpl in *; congruence.
Qed.

Lemma lru_find_None mc k : cache_inv mc → cache mc !! k = None → lru_find k (contents mc) = None.
Proof.
  intros Hinv Hk. unfold lru_find.
  destruct (list_find _ (contents mc)) as [[j kv]|] eqn:Hf; [|done].
  apply list_find_Some in Hf as (Hj & Hkv & _). apply list_elem_of_lookup_2 in Hj.
  unfold contents in Hj. apply list_elem_of_fmap in Hj as (e & -> & He).
  simpl in Hkv. apply (inv_key mc e k Hinv He) in Hkv. congruence.
Qed.

Lemma without_None mc k : cache_inv mc → cache mc !! k = None → without k (contents mc) = contents mc.
Proof.
  intros Hinv Hk. unfold without. apply filter_all. intros kv Hin. unfold contents in Hin.
  apply list_elem_of_fmap in Hin as (e & -> & He). simpl. intros Hke.
  apply (inv_key mc e k Hinv He) in Hke. congruence.
Qed.

(** Moving the element of a cached key to the front, possibly with a new message. *)
Lemma touch_inv mc k i e (msg : Msg) :
  cache_inv mc → cache mc !! k = Some i → e ∈ lru mc → el_key e = k → el_id e = i →
  cache_inv (MkMessageCache (capacity mc) (cache mc) (MkElement i k msg :: Remove i (lru mc))
    (bloom mc) (next_id mc)).
Proof.
  intros Hinv Hk He Hke Hie. pose proof Hinv as [Hcap Hlen Hids Hnext Hmap Hbl Hhas].
  assert (∀ e', e' ∈ Remove i (lru mc) ↔ e' ∈ lru mc ∧ el_id e' ≠ i) as Hrem.
  { intros e'. unfold Remove. rewrite list_elem_of_filter. naive_solver. }
  split; simpl; try done.
  - etrans; [|exact Hlen]. apply Nat2Z.inj_le.
    destruct (list_elem_of_split _ _ He) as (l1 & l2 & Hl). unfold Remove. rewrite Hl.
    rewrite filter_app, filter_cons_False by (intros Hn; by apply Hn).
    rewrite !length_app. simpl.
    pose proof (length_filter (λ e, el_id e ≠ i) l1). pose proof (length_filter (λ e, el_id e ≠ i) l2). lia.
  - constructor.
    + intros (e' & Hi & Hin)%list_elem_of_fmap. apply Hrem in Hin as [_ Hne]. congruence.
    + eapply sublist_NoDup; [exact Hids|]. apply fmap_sublist, sublist_filter.
  - constructor; [rewrite Forall_forall in Hnext; specialize (Hnext e He); simpl; lia|].
    rewrite Forall_forall in *. intros e' [Hin _]%Hrem. by apply Hnext.
  - intros k' i'. rewrite Hmap. setoid_rewrite elem_of_cons. setoid_rewrite Hrem. split.
    + intros (e' & Hin & <- & <-). destruct (decide (el_id e' = i)) as [Heq|Hne].
      * exists (MkElement i k msg). split; [by left|]. simpl. split; [|done].
        assert (e' = e) as ->; [|done]. eapply NoDup_fmap_same; [exact Hids|done..|congruence].
      * exists e'. naive_solver.
    + intros (e' & [->|[Hin _]] & <- & <-); [|by exists e']. simpl. by exists e.
Qed.

Lemma evict_inv mc :
  (0 < capacity mc)%Z → Z.of_nat (length (lru mc)) = (capacity mc + 1)%Z →
  NoDup (el_id <$> lru mc) → Forall (λ e, el_id e < next_id mc) (lru mc) →
  (∀ k i, cache mc !! k = Some i ↔ ∃ e, e ∈ lru mc ∧ el_key e = k ∧ el_id e = i) →
  bloom_wf (bloom mc) → (∀ k, is_Some (cache mc !! k) → bloom_has (bloom mc) k) →
  cache_inv (evict mc) ∧ contents (evict mc) = take (Z.to_nat (capacity mc)) (contents mc) ∧
  capacity (evict mc) = capacity mc.
Proof.
  intros Hcap Hlen Hids Hnext Hmap Hbl Hhas. unfold evict.
  destruct (last (lru mc)) as [e|] eqn:Hlast.
  2:{ apply last_None in Hlast. rewrite Hlast in Hlen. simpl in Hlen. lia. }
  apply last_Some in Hlast as [l Hl]. unfold contents. simpl. rewrite Hl in *.
  rewrite length_app in Hlen. simpl in Hlen.
  rewrite fmap_app in Hids. apply NoDup_app in Hids as (Hids & Hdisj & _).
  assert (Remove (el_id e) (l ++ [e]) = l) as ->.
  { unfold Remove. rewrite filter_app, filter_cons_False by (intros Hn; by apply Hn).
    rewrite filter_nil, app_nil_r. apply filter_all. intros e' Hin Heq.
    apply (Hdisj (el_id e')); [by apply list_elem_of_fmap_2|]. simpl. rewrite Heq. by left. }
  apply Forall_app in Hnext as [Hnext _].
  split_and!; [|by rewrite fmap_app, take_app_length' by (rewrite length_fmap; lia)|done].
  split; simpl; try done; [lia| |].
  - intros k i. rewrite lookup_delete_Some, Hmap. split.
    + intros (Hne & e' & Hin & <- & <-). exists e'. split_and!; try done.
      apply elem_of_app in Hin as [|Hin]; [done|]. by apply list_elem_of_singleton in Hin as ->.
    + intros (e' & Hin & <- & <-). split; [|exists e'; split_and!; [by apply elem_of_app; left|done..]].
      intros Heq. apply (Hdisj (el_id e)); [|by left].
      assert (Some (el_id e) = Some (el_id e')) as [= ->]; [|by apply list_elem_of_fmap_2].
      rewrite <- (proj2 (Hmap (el_key e) (el_id e))), <- (proj2 (Hmap (el_key e') (el_id e'))).
      * by rewrite Heq.
      * exists e'. split_and!; [by apply elem_of_app; left|done..].
      * exists e. split_and!; [apply elem_of_app; right; by left|done..].
  - intros k [i Hk]. apply lookup_delete_Some in Hk as [_ Hk]. apply Hhas. by eexists.
Qed.

Lemma Add_refines ID (msg : Msg) mc :
  cache_inv mc → ∃ mc', Add ID msg mc = Done mc' ∧ cache_inv mc' ∧ capacity mc' = capacity mc ∧
    contents mc' = lru_add (Z.to_nat (capacity mc)) ID msg (contents mc).
Proof.
  intros Hinv. unfold Add, lru_add. destruct (cache mc !! ID) as [i|] eqn:Hk.
  - destruct (MoveToFront_spec mc ID i Hinv Hk) as (e & Hke & Hie & He & Hmove).
    pose proof (touch_inv mc ID i e msg Hinv Hk He Hke Hie) as Hinv'.
    eexists. split; [done|]. rewrite Hmove.
    assert (set_message i msg (e :: Remove i (lru mc)) = MkElement i ID msg :: Remove i (lru mc)) as ->.
    { unfold set_message. rewrite fmap_cons, decide_True, Hke by done. f_equal.
      rewrite <- list_fmap_id. apply list_fmap_ext. intros j e' Hj. simpl.
      apply list_elem_of_lookup_2, list_elem_of_filter in Hj as [Hne _]. by rewrite decide_False. }
    split_and!; [done..|]. rewrite <- (Remove_contents mc ID i Hinv Hk).
    unfold contents. simpl. rewrite take_ge; [done|].
    pose proof (ci_len _ Hinv') as Hlen. simpl in *. rewrite length_fmap. lia.
  - destruct (bloom_Add_spec ID (bloom mc) (ci_bloom _ Hinv)) as (bf & -> & Hle & Hhas). simpl.
    rewrite (without_None mc ID Hinv Hk).
    set (mc1 := MkMessageCache _ _ _ _ _).
    destruct Hinv as [Hcap Hlen Hids Hnext Hmap Hbl Hhas0].
    assert (NoDup (el_id <$> lru mc1)) as Hids1.
    { simpl. constructor; [|done]. intros (e' & Heq & Hin)%list_elem_of_fmap.
      rewrite Forall_forall in Hnext. specialize (Hnext _ Hin). lia. }
    assert (Forall (λ e, el_id e < next_id mc1) (lru mc1)) as Hnext1.
    { simpl. constructor; [simpl; lia|]. eapply Forall_impl; [done|]. simpl. lia. }
    assert (∀ k i, cache mc1 !! k = Some i ↔ ∃ e, e ∈ lru mc1 ∧ el_key e = k ∧ el_id e = i) as Hmap1.
    { intros k i. simpl. setoid_rewrite elem_of_cons. destruct (decide (ID = k)) as [<-|Hne].
      - rewrite lookup_insert_eq. split; [intros [= <-]; eexists; by split; [left|]|].
        intros (e & [->|Hin] & Hke & <-); [done|]. exfalso.
        assert (cache mc !! ID = Some (el_id e)) by (apply Hmap; by exists e). congruence.
      - rewrite lookup_insert_ne by done. rewrite Hmap. split; [naive_solver|].
        intros (e & [->|Hin] & Hke & <-); [done|by exists e]. }
    assert (bloom_wf (bloom mc1)) as Hbl1 by (by eapply bloom_le_wf).
    assert (∀ k, is_Some (cache mc1 !! k) → bloom_has (bloom mc1) k) as Hhas1.
    { intros k Hs. simpl in Hs. destruct (decide (ID = k)) as [<-|Hne]; [done|].
      rewrite lookup_insert_ne in Hs by done. eapply bloom_le_has; [done|by apply Hhas0]. }
    destruct (Z.ltb_spec (capacity mc) (Z.of_nat (S (length (lru mc))))) as [Hlt|Hge].
    + eexists. split; [done|]. destruct (evict_inv mc1) as (Hi & Hc & Hcap'); [done| |done..|].
      { simpl. lia. }
      by rewrite Hc.
    + exists mc1. split_and!; [done|by split|done|]. unfold contents. simpl.
      rewrite take_ge; [done|]. simpl. rewrite length_fmap. lia.
Qed.

Lemma Get_refines ID mc :
  cache_inv mc → ∃ mc', Get ID mc = (mc', lru_find ID (contents mc)) ∧ cache_inv mc' ∧
    capacity mc' = capacity mc ∧ contents mc' = lru_touch ID (contents mc).
Proof.
  intros Hinv. unfold Get, lru_touch. destruct (cache mc !! ID) as [i|] eqn:Hk.
  - rewrite (list_find_contents mc ID i Hinv Hk).
    destruct (inv_find mc ID i Hinv Hk) as (j & e & Hf & He & Hke & Hie).
    rewrite Hf. simpl. eexists. split; [done|].
    unfold MoveToFront. rewrite Hf.
    replace e with (MkElement i ID (el_message e)) by (destruct e; simpl in *; congruence).
    split_and!; [|done|]; simpl.
    + by apply (touch_inv mc ID i e).
    + by rewrite <- (Remove_contents mc ID i Hinv Hk).
  - rewrite (lru_find_None mc ID Hinv Hk). by exists mc.
Qed.

Lemma lru_find_is_Some (l : list (string * Msg)) k : is_Some (lru_find k l) ↔ k ∈ l.*1.
Proof.
  unfold lru_find. destruct (list_find _ l) as [[j kv]|] eqn:Hf; simpl.
  - apply list_find_Some in Hf as (Hj & <- & _). split; [|done]. intros _.
    apply list_elem_of_fmap_2. by eapply list_elem_of_lookup_2.
  - apply list_find_None in Hf. split; [by intros [? ?]|].
    intros (kv & -> & Hin)%list_elem_of_fmap. rewrite Forall_forall in Hf. by destruct (Hf kv Hin).
Qed.

Lemma cached_iff ID mc :
  cache_inv mc → is_Some (cache mc !! ID) ↔ ID ∈ (contents mc).*1.
Proof.
  intros Hinv. rewrite <- lru_find_is_Some. destruct (cache mc !! ID) as [i|] eqn:Hk.
  - rewrite (list_find_contents mc ID i Hinv Hk).
    destruct (inv_find mc ID i Hinv Hk) as (j & e & -> & _). simpl. by split; eexists.
  - by rewrite (lru_find_None mc ID Hinv Hk).
Qed.

Lemma Contains_refines ID mc :
  cache_inv mc → Contains mc ID = Done (bool_decide (ID ∈ (contents mc).*1)).
Proof.
  intros Hinv. unfold Contains.
  destruct (bloom_Contains_spec (bloom mc) ID (ci_bloom _ Hinv)) as (b & -> & Hb). simpl.
  rewrite (bool_decide_ext _ _ (cached_iff ID mc Hinv)).
  destruct b; [done|]. simpl. f_equal. symmetry. apply bool_decide_false.
  rewrite <- cached_iff by done. intros Hs. by specialize (Hb (ci_has _ Hinv _ Hs)).
Qed.

Lemma NewBloomFilter_wf cap :
  (0 < cap < 2 ^ 59)%Z → ∃ bf, NewBloomFilter cap = Done bf ∧ bloom_wf bf.
Proof.
  intros Hc. unfold NewBloomFilter. rewrite wrap_i64_id by (unfold is_i64; lia).
  destruct (Z.ltb_spec (cap * 10) 0); [lia|]. eexists. split; [done|].
  split; simpl; [lia|]. unfold make_bits; by rewrite length_replicate.
Qed.

Lemma empty_inv cap bf next :
  (0 < cap)%Z → bloom_wf bf → cache_inv (MkMessageCache cap ∅ [] bf next).
Proof.
  intros Hc Hbf. split; simpl; [done|lia|apply NoDup_nil_2|apply Forall_nil_2| |done|].
  - intros k i. rewrite lookup_empty. split; [done|]. intros (e & Hin & _). by apply elem_of_nil in Hin.
  - intros k [i Hk]. by rewrite lookup_empty in Hk.
Qed.

Lemma GetDigests_contents mc : cache_inv mc → GetDigests mc ≡ₚ (contents mc).*1.
Proof.
  intros Hinv. apply NoDup_Permutation.
  - apply NoDup_fst_map_to_list.
  - assert (NoDup (lru mc)) as Hnd by (eapply NoDup_fmap_1, Hinv).
    unfold contents. rewrite <- list_fmap_compose.
    assert (∀ l : list (Element Msg), NoDup l → (∀ e, e ∈ l → e ∈ lru mc) → NoDup ((fst ∘ pair_of) <$> l))
      as Hgen; [|by apply Hgen].
    induction 1 as [|e l He Hl IH]; intros Hsub; simpl; constructor.
    + intros (e' & Heq & Hin)%list_elem_of_fmap. apply He.
      assert (e = e') as ->; [|done]. eapply NoDup_fmap_same; [apply (ci_ids _ Hinv)|..].
      * apply Hsub. by left.
      * apply Hsub. by right.
      * assert (el_key e' = el_key e) as Hk by done.
        apply (inv_key mc e' _ Hinv) in Hk; [|apply Hsub; by right].
        pose proof (proj1 (inv_key mc e _ Hinv (Hsub e (list_elem_of_here _ _))) eq_refl). congruence.
    + apply IH. intros. apply Hsub. by right.
  - intros k. rewrite <- cached_iff by done. unfold GetDigests. rewrite list_elem_of_fmap.
    split.
    + intros ([k' i] & -> & Hin). apply elem_of_map_to_list in Hin. by eexists.
    + intros [i Hi]. exists (k, i). split; [done|]. by apply elem_of_map_to_list.
Qed.

(** ** Sequences of operations *)

Inductive cache_op :=
| OAdd (ID : string) (msg : Msg)
| OContains (ID : string)
| OGet (ID : string)
| OSize
| OClear.

Inductive cache_out :=
| RNone
| RBool (b : bool)
| RMsg (m : option Msg)
| RSize (z : Z).

Definition cache_step (op : cache_op) mc : outcome (MessageCache Msg * cache_out) :=
  match op with
  | OAdd ID msg => let* mc := Add ID msg mc in Done (mc, RNone)
  | OContains ID => let* b := Contains mc ID in Done (mc, RBool b)
  | OGet ID => let '(mc, m) := Get ID mc in Done (mc, RMsg m)
  | OSize => Done (mc, RSize (Size mc))
  | OClear => let* mc := Clear mc in Done (mc, RNone)
  end.

Definition lru_step (cap : nat) (op : cache_op) (l : list (string * Msg)) :
    list (string * Msg) * cache_out :=
  match op with
  | OAdd ID msg => (lru_add cap ID msg l, RNone)
  | OContains ID => (l, RBool (bool_decide (ID ∈ l.*1)))
  | OGet ID => (lru_touch ID l, RMsg (lru_find ID l))
  | OSize => (l, RSize (Z.of_nat (length l)))
  | OClear => ([], RNone)
  end.

Fixpoint run_cache (ops : list cache_op) mc : outcome (MessageCache Msg * list cache_out) :=
  match ops with
  | [] => Done (mc, [])
  | op :: ops =>
      let* r := cache_step op mc in
      let* rs := run_cache ops r.1 in
      Done (rs.1, r.2 :: rs.2)
  end.

Fixpoint run_lru (cap : nat) (ops : list cache_op) (l : list (string * Msg)) :
    list (string * Msg) * list cache_out :=
  match ops with
  | [] => (l, [])
  | op :: ops =>
      let r := lru_step cap op l in
      let rs := run_lru cap ops r.1 in
      (rs.1, r.2 :: rs.2)
  end.

Lemma cache_step_refines op mc :
  cache_inv mc → (capacity mc < 2 ^ 59)%Z →
  ∃ mc' out, cache_step op mc = Done (mc', out) ∧ cache_inv mc' ∧ capacity mc' = capacity mc ∧
    lru_step (Z.to_nat (capacity mc)) op (contents mc) = (contents mc', out).
Proof.
  intros Hinv Hcap. destruct op as [ID msg|ID|ID| |]; simpl.
  - destruct (Add_refines ID msg mc Hinv) as (mc' & -> & ? & ? & Hc). simpl.
    do 2 eexists. split_and!; [done..|]. by rewrite Hc.
  - rewrite (Contains_refines ID mc Hinv). simpl. by do 2 eexists.
  - destruct (Get_refines ID mc Hinv) as (mc' & -> & ? & ? & Hc).
    do 2 eexists. split_and!; [done..|]. by rewrite Hc.
  - do 2 eexists. split_and!; [done..|]. unfold Size, contents. by rewrite length_fmap.
  - unfold Clear. destruct (NewBloomFilter_wf (capacity mc)) as (bf & -> & Hbf).
    { pose proof (ci_cap _ Hinv). lia. }
    simpl. do 2 eexists. split_and!; [done| |done|done]. apply empty_inv; [apply Hinv|done].
Qed.

Lemma run_cache_refines ops mc :
  cache_inv mc → (capacity mc < 2 ^ 59)%Z →
  ∃ mc' outs, run_cache ops mc = Done (mc', outs) ∧ cache_inv mc' ∧ capacity mc' = capacity mc ∧
    run_lru (Z.to_nat (capacity mc)) ops (contents mc) = (contents mc', outs).
Proof.
  revert mc. induction ops as [|op ops IH]; intros mc Hinv Hcap; simpl; [by do 2 eexists|].
  destruct (cache_step_refines op mc Hinv Hcap) as (mc1 & out & -> & Hinv1 & Hc1 & ->). simpl.
  destruct (IH mc1 Hinv1 ltac:(by rewrite Hc1)) as (mc2 & outs & -> & Hinv2 & Hc2 & Hr). simpl.
  do 2 eexists. split_and!; [done|done|congruence|]. rewrite Hc1 in Hr. by rewrite Hr.
Qed.

(** C22: the cache is an LRU set: for every capacity from 1 (below 2^59, where the filter size does
    not overflow) and every sequence of [Add], [Contains], [Get], [Size] and [Clear], the linked
    list, the index map and the bloom filter answer exactly as a list of the most recently used
    messages of that length does; no call panics, the bloom filter never hides a cached message,
    and [GetDigests] lists the cached identifiers. *)
Theorem cache_refines_lru cap ops :
  (0 < cap < 2 ^ 59)%Z →
  ∃ mc mc' outs,
    NewMessageCache cap = Done mc ∧ run_cache ops mc = Done (mc', outs) ∧
    run_lru (Z.to_nat cap) ops [] = (contents mc', outs) ∧
    (Size mc' ≤ cap)%Z ∧ GetDigests mc' ≡ₚ (contents mc').*1.
Proof.
  intros Hcap. unfold NewMessageCache.
  destruct (NewBloomFilter_wf cap Hcap) as (bf & -> & Hbf). simpl.
  destruct (run_cache_refines ops (MkMessageCache cap ∅ [] bf 0)) as (mc' & outs & Hr & Hinv & Hc & Hl);
    [apply empty_inv; [lia|done]|simpl; lia|].
  do 3 eexists. split_and!; [done..| |by apply GetDigests_contents].
  simpl in Hc. rewrite <- Hc. apply (ci_len _ Hinv).
Qed.

End refinement.

(** Capacity 2: the third message evicts the least recently used one, which is the second after
    the first was read. *)
Definition evicting_ops : list (cache_op (Msg:=Z)) :=
  [OAdd "a" 1; OAdd "b" 2; OGet "a"; OAdd "c" 3; OContains "a"; OContains "b"; OGet "c"; OSize]%Z.

Lemma cache_refines_lru_witness :
  ∃ mc mc',
    NewMessageCache 2 = Done mc ∧
    run_cache evicting_ops mc = Done (mc', [RNone; RNone; RMsg (Some 1%Z); RNone; RBool true;
      RBool false; RMsg (Some 3%Z); RSize 2]) ∧
    GetDigests mc' ≡ₚ ["c"; "a"].
Proof.
  destruct (cache_refines_lru 2 evicting_ops ltac:(lia)) as (mc & mc' & outs & Hn & Hr & Hl & _ & Hd).
  assert (run_lru (Z.to_nat 2) evicting_ops [] = ([("c", 3%Z); ("a", 1%Z)],
    [RNone; RNone; RMsg (Some 1%Z); RNone; RBool true; RBool false; RMsg (Some 3%Z); RSize 2])) as He
    by (vm_compute; reflexivity).
  pose proof (eq_trans (eq_sym He) Hl) as Heq.
  pose proof (f_equal fst Heq) as Hc. pose proof (f_equal snd Heq) as Ho. cbn [fst snd] in Hc, Ho.
  subst outs.
  exists mc, mc'. split; [exact Hn|]. split; [exact Hr|]. rewrite <- Hc in Hd. exact Hd.
Defined.

End GossipCache.
