(* ===== verification/GossipEngine.v ===== *)
(** The gossip engine: [src/pkg/gossip/engine.go].

    Messages are heap objects: the cache and the queue hold pointers, and [ReceiveMessage] mutates
    the message after caching it, so the engine carries the heap of messages. The registered
    handlers change an application state [W]. What is read from outside is an argument: times,
    random numbers, the peers, the iteration order of a map, and the choice of a [select]. A send
    on the full channel of a running engine waits ([Waiting]). *)

From S2P Require Import Prelude Hashing GossipCache.

Module GossipEngine.
Import GossipCache.
Local Open Scope go_scope.

Definition DefaultTTL : Z := 10.
Definition MessageCacheSize : Z := 10000.
(** [10 * time.Minute], in nanoseconds *)
Definition SentMessagesTTL : Z := 600000000000.
Definition SentMessagesMaxSize : nat := Z.to_nat 50000.
Definition channel_capacity : nat := 1000.

Record Message := MkMessage {
  msg_ID : string;
  msg_Payload : string;
  msg_TTL : Z;
  msg_SeenBy : list string;
  msg_Timestamp : Z;
}.

(** A [*Message]. *)
Abbreviation Ref := nat.

Definition generateMessageID (payload : string) : string := Hashing.sha256_hex payload.

Definition serializeMessage (msg : Message) : string := msg_Payload msg.

Definition serializeDigests (digests : list string) : string := str_join digests ",".

(** ** Peer selection *)

(** [l[i], l[j] = l[j], l[i]] *)
Definition swap {A} (i j : nat) (l : list A) : list A :=
  match l !! i, l !! j with
  | Some x, Some y => <[j := x]> (<[i := y]> l)
  | _, _ => l
  end.

(** The shuffle from position [i], [rand] being the values [rand.Intn] returns. *)
Fixpoint shuffle {A} (n i : nat) (rand : nat → nat) (l : list A) : list A :=
  match n with
  | O => l
  | S n => shuffle n (S i) rand (swap i (i + rand i) l)
  end.

(** [rand i] is what [rand.Intn(len - i)] returns in the [i]-th iteration. *)
Definition selectRandomPeers {A} (rand : nat → nat) (peers : list A) (n : Z) : outcome (list A) :=
  if (Z.of_nat (length peers) <=? n)%Z then Done peers
  else if (n <? 0)%Z then Panic "slice bounds out of range"
  else Done (take (Z.to_nat n) (shuffle (Z.to_nat n) 0 rand peers)).

(** ** The cap on sent messages *)

(** One entry of [sentMessages]: identifier and time. *)
Abbreviation entry := (string * Z)%type.

(** The index of the latest entry of [oldest]: the loop with [maxIdx]. *)
Fixpoint max_from (i : nat) (rest oldest : list entry) (maxIdx : nat) : nat :=
  match rest with
  | [] => maxIdx
  | e :: rest =>
      let latest := match oldest !! maxIdx with Some m => snd m | None => 0%Z end in
      max_from (S i) rest oldest (if (latest <? snd e)%Z then i else maxIdx)
  end.

Definition newest_index (oldest : list entry) : nat := max_from 1 (drop 1 oldest) oldest 0.

(** One iteration over the map: keep the [excess] oldest entries seen so far. *)
Definition keep_oldest (excess : nat) (oldest : list entry) (e : entry) : list entry :=
  if bool_decide (length oldest < excess) then oldest ++ [e]
  else
    let maxIdx := newest_index oldest in
    match oldest !! maxIdx with
    | Some m => if (snd e <? snd m)%Z then <[maxIdx := e]> oldest else oldest
    | None => oldest
    end.

(** The second phase of the cleanup; [order] is the iteration order of the map. *)
Definition drop_excess (maxSize : nat) (order : list entry) (sent : gmap string Z) : gmap string Z :=
  if bool_decide (maxSize < size sent) then
    let excess := size sent - maxSize in
    let oldest := foldl (keep_oldest excess) [] order in
    foldl (λ m e, delete e.1 m) sent oldest
  else sent.

Section engine.
Context {W : Type}.

Definition MessageHandler : Type := Message → W → W * error.

Record GossipEngine := MkGossipEngine {
  nodeID : string;
  fanout : Z;
  g_cache : MessageCache Ref;
  messageChan : list Ref;
  ctx_done : bool;
  handlers : list MessageHandler;
  sentMessages : gmap string Z;
  receivedDigests : gmap string Z;
  heap : gmap Ref Message;
  next_ref : Ref;
}.

Definition set_cache v g := MkGossipEngine (nodeID g) (fanout g) v (messageChan g) (ctx_done g) (handlers g) (sentMessages g) (receivedDigests g) (heap g) (next_ref g).
Definition set_chan v g := MkGossipEngine (nodeID g) (fanout g) (g_cache g) v (ctx_done g) (handlers g) (sentMessages g) (receivedDigests g) (heap g) (next_ref g).
Definition set_fanout v g := MkGossipEngine (nodeID g) v (g_cache g) (messageChan g) (ctx_done g) (handlers g) (sentMessages g) (receivedDigests g) (heap g) (next_ref g).
Definition set_sent v g := MkGossipEngine (nodeID g) (fanout g) (g_cache g) (messageChan g) (ctx_done g) (handlers g) v (receivedDigests g) (heap g) (next_ref g).
Definition set_digests v g := MkGossipEngine (nodeID g) (fanout g) (g_cache g) (messageChan g) (ctx_done g) (handlers g) (sentMessages g) v (heap g) (next_ref g).
Definition set_heap v g := MkGossipEngine (nodeID g) (fanout g) (g_cache g) (messageChan g) (ctx_done g) (handlers g) (sentMessages g) (receivedDigests g) v (next_ref g).

(** [&Message{...}]: a new heap object. *)
Definition alloc (msg : Message) g : GossipEngine * Ref :=
  (MkGossipEngine (nodeID g) (fanout g) (g_cache g) (messageChan g) (ctx_done g) (handlers g)
     (sentMessages g) (receivedDigests g) (<[next_ref g := msg]> (heap g)) (S (next_ref g)),
   next_ref g).

Definition NewGossipEngine (id : string) (cfg_Fanout : Z) : outcome GossipEngine :=
  let fanout := if (cfg_Fanout =? 0)%Z then 3%Z else cfg_Fanout in
  let* c := NewMessageCache MessageCacheSize in
  Done {| nodeID := id; fanout := fanout; g_cache := c; messageChan := []; ctx_done := false;
          handlers := []; sentMessages := ∅; receivedDigests := ∅; heap := ∅; next_ref := 0 |}.

Definition RegisterHandler (h : MessageHandler) g : GossipEngine :=
  MkGossipEngine (nodeID g) (fanout g) (g_cache g) (messageChan g) (ctx_done g) (handlers g ++ [h])
    (sentMessages g) (receivedDigests g) (heap g) (next_ref g).

Definition Close g : GossipEngine :=
  MkGossipEngine (nodeID g) (fanout g) (g_cache g) (messageChan g) true (handlers g)
    (sentMessages g) (receivedDigests g) (heap g) (next_ref g).

(** How a call ends: it returns an error or [nil], or waits for room in the channel. *)
Inductive ending :=
| Returned (err : error)
| Waiting (msg : Ref).

(** [select { case g.messageChan <- msg: case <-g.ctx.Done(): return g.ctx.Err() }]; [pick_done]
    is the choice when both are ready. *)
Definition send (pick_done : bool) (msg : Ref) g : GossipEngine * ending :=
  let room := bool_decide (length (messageChan g) < channel_capacity) in
  if room && negb (ctx_done g && pick_done) then
    (set_chan (messageChan g ++ [msg]) g, Returned None)
  else if ctx_done g then (g, Returned (Some "context canceled"))
  else (g, Waiting msg).

Definition Publish (unix now : Z) (pick_done : bool) (payload : string) g :
    outcome (GossipEngine * ending) :=
  let msg := MkMessage (generateMessageID payload) payload DefaultTTL [nodeID g] unix in
  let '(g, r) := alloc msg g in
  let* c := Add (msg_ID msg) r (g_cache g) in
  let g := set_cache c g in
  let g := set_sent (<[msg_ID msg := now]> (sentMessages g)) g in
  Done (send pick_done r g).

(** The handlers in order; their errors are only printed. *)
Definition call_handlers (hs : list MessageHandler) (msg : Message) (w : W) : W :=
  foldl (λ w h, fst (h msg w)) w hs.

(** What the receiver does to the message. *)
Definition hop (id : string) (msg : Message) : Message :=
  MkMessage (msg_ID msg) (msg_Payload msg) (wrap_i32 (msg_TTL msg - 1)) (msg_SeenBy msg ++ [id])
    (msg_Timestamp msg).

(** [ReceiveMessage(r)]; [r] must point to a message. *)
Definition ReceiveMessage (pick_done : bool) (r : Ref) g (w : W) :
    outcome (GossipEngine * W * ending) :=
  match heap g !! r with
  | None => Panic "invalid memory address or nil pointer dereference"
  | Some msg =>
      let* seen := Contains (g_cache g) (msg_ID msg) in
      if seen then Done (g, w, Returned None)
      else
        let* c := Add (msg_ID msg) r (g_cache g) in
        let g := set_cache c g in
        let msg := hop (nodeID g) msg in
        let g := set_heap (<[r := msg]> (heap g)) g in
        let w := call_handlers (handlers g) msg w in
        if (0 <? msg_TTL msg)%Z then
          let '(g, e) := send pick_done r g in Done (g, w, e)
        else Done (g, w, Returned None)
  end.

(** The sends of one dissemination: peer and data, each in its own goroutine. *)
Definition disseminateMessage {Peer} (rand : nat → nat) (peers : list Peer) (msg : Message) g :
    outcome (list (Peer * string)) :=
  if bool_decide (length peers = 0) then Done []
  else
    let fanout := if (Z.of_nat (length peers) <? fanout g)%Z then Z.of_nat (length peers) else fanout g in
    let* selectedPeers := selectRandomPeers rand peers fanout in
    Done ((λ p, (p, serializeMessage msg)) <$> selectedPeers).

(** One message of the queue; [None] when it is empty and the goroutine waits. *)
Definition processMessage {Peer} (rand : nat → nat) (peers : list Peer) g :
    option (outcome (GossipEngine * list (Peer * string))) :=
  match messageChan g with
  | [] => None
  | r :: queue =>
      let g := set_chan queue g in
      Some match heap g !! r with
           | None => Panic "invalid memory address or nil pointer dereference"
           | Some msg => let* sends := disseminateMessage rand peers msg g in Done (g, sends)
           end
  end.

(** [pick] is what [rand.Intn(len(peers))] returns. *)
Definition performAntiEntropy {Peer} (pick : nat) (peers : list Peer) g : option (Peer * string) :=
  p ← peers !! pick; Some (p, serializeDigests (GetDigests (g_cache g))).

(** One tick of [adjustFanout]: [math.Sqrt] of a peer count, truncated. *)
Definition adjustFanout (peerCount : Z) g : GossipEngine :=
  let newFanout := Z.sqrt peerCount in
  let newFanout := if (newFanout <? 3)%Z then 3%Z else newFanout in
  let newFanout := if (10 <? newFanout)%Z then 10%Z else newFanout in
  set_fanout newFanout g.

(** [ts.Before(cutoff)] entries are deleted. *)
Definition evict_expired (cutoff : Z) (m : gmap string Z) : gmap string Z :=
  filter (λ kv, ¬ (kv.2 < cutoff)%Z) m.

(** [order] is the order in which the map is iterated after expired entries are gone. *)
Definition cleanupExpiredEntries (now : Z) (order : list entry) g : GossipEngine :=
  let cutoff := (now - SentMessagesTTL)%Z in
  let g := set_sent (evict_expired cutoff (sentMessages g)) g in
  let g := set_sent (drop_excess SentMessagesMaxSize order (sentMessages g)) g in
  set_digests (evict_expired cutoff (receivedDigests g)) g.

Definition GetCacheSize g : Z := Size (g_cache g).

End engine.
Arguments GossipEngine : clear implicits.

(** * Peer selection *)

Lemma swap_lookup {A} i j (l : list A) x y k :
  l !! i = Some x → l !! j = Some y →
  swap i j l !! k = l !! (if decide (k = i) then j else if decide (k = j) then i else k).
Proof.
  intros Hi Hj. unfold swap. rewrite Hi, Hj.
  pose proof (lookup_lt_Some _ _ _ Hi). pose proof (lookup_lt_Some _ _ _ Hj).
  destruct (decide (k = j)) as [->|Hkj].
  - rewrite list_lookup_insert_eq by (by rewrite length_insert).
    case_decide; [subst; congruence|done].
  - rewrite list_lookup_insert_ne by done. case_decide as Hki; [subst|].
    + by rewrite list_lookup_insert_eq.
    + by rewrite list_lookup_insert_ne.
Qed.

Lemma swap_perm {A} i j (l : list A) : swap i j l ≡ₚ l.
Proof.
  destruct (l !! i) as [x|] eqn:Hi; [|unfold swap; by rewrite Hi].
  destruct (l !! j) as [y|] eqn:Hj; [|unfold swap; by rewrite Hi, Hj].
  apply Permutation_inj. split.
  - unfold swap. rewrite Hi, Hj. by rewrite !length_insert.
  - exists (λ k, if decide (k = i) then j else if decide (k = j) then i else k). split.
    + intros a b. repeat case_decide; congruence.
    + intros k. by eapply swap_lookup.
Qed.

Lemma shuffle_perm {A} n i rand (l : list A) : shuffle n i rand l ≡ₚ l.
Proof.
  revert i l. induction n as [|n IH]; intros i l; simpl; [done|]. by rewrite IH, swap_perm.
Qed.

(** * The cap on sent messages *)

(** The invariant of [newest_index]: no entry seen so far is later than the chosen one. *)
Lemma max_from_spec oldest rest i maxIdx :
  oldest = take i oldest ++ rest → i ≤ length oldest → maxIdx < i →
  (∀ k e m, k < i → oldest !! k = Some e → oldest !! maxIdx = Some m → (snd e ≤ snd m)%Z) →
  ∃ m, oldest !! max_from i rest oldest maxIdx = Some m ∧ ∀ e, e ∈ oldest → (snd e ≤ snd m)%Z.
Proof.
  revert i maxIdx. induction rest as [|e rest IH]; intros i maxIdx Hsplit Hi Hmax Hle; simpl.
  - rewrite app_nil_r in Hsplit.
    assert (i = length oldest) as ->.
    { apply (f_equal length) in Hsplit. rewrite length_take in Hsplit. lia. }
    destruct (lookup_lt_is_Some_2 oldest maxIdx) as [m Hm]; [lia|].
    exists m. split; [done|]. intros e [k Hk]%list_elem_of_lookup.
    eapply Hle; [by eapply lookup_lt_Some|done..].
  - assert (oldest !! i = Some e) as Hei.
    { rewrite Hsplit, lookup_app_r; rewrite length_take, Nat.min_l by done; [|done].
      by rewrite Nat.sub_diag. }
    pose proof (lookup_lt_Some _ _ _ Hei) as Hlt.
    destruct (lookup_lt_is_Some_2 oldest maxIdx) as [m Hm]; [lia|]. rewrite Hm.
    apply IH; [|lia|case_match; lia|].
    + rewrite (take_S_r _ _ _ Hei), <- app_assoc. done.
    + intros k e' m' Hk He' Hm'. destruct (Z.ltb_spec (snd m) (snd e)) as [Hlt'|Hge].
      * rewrite Hei in Hm'. injection Hm' as <-. destruct (decide (k = i)) as [->|Hne]; [|].
        -- rewrite Hei in He'. by injection He' as <-.
        -- specialize (Hle k e' m ltac:(lia) He' Hm). lia.
      * rewrite Hm in Hm'. injection Hm' as <-. destruct (decide (k = i)) as [->|Hne]; [|].
        -- rewrite Hei in He'. by injection He' as <-.
        -- apply (Hle k); [lia|done..].
Qed.

Lemma newest_index_spec oldest :
  oldest ≠ [] →
  ∃ m, oldest !! newest_index oldest = Some m ∧ ∀ e, e ∈ oldest → (snd e ≤ snd m)%Z.
Proof.
  destruct oldest as [|e0 l]; [done|]. intros _. unfold newest_index. simpl drop.
  apply max_from_spec; [done|simpl; lia|lia|].
  intros k e m Hk He Hm. assert (k = 0) as -> by lia. simpl in *. by simplify_eq.
Qed.

(** Of the entries seen, [oldest] are the [excess] with the smallest times (all, when fewer). *)
Definition oldest_of (excess : nat) (seen oldest : list entry) : Prop :=
  ∃ rest, seen ≡ₚ oldest ++ rest ∧ length oldest ≤ excess ∧
    (rest ≠ [] → length oldest = excess) ∧
    ∀ x y, x ∈ oldest → y ∈ rest → (snd x ≤ snd y)%Z.

Lemma insert_perm {A} (l : list A) i x y : l !! i = Some y → y :: <[i := x]> l ≡ₚ x :: l.
Proof.
  intros Hi. rewrite (insert_take_drop _ _ _ (lookup_lt_Some _ _ _ Hi)).
  rewrite <- (take_drop_middle l i y Hi) at 3.
  rewrite !Permutation_middle. by rewrite Permutation_swap.
Qed.

Lemma keep_oldest_step excess seen oldest e :
  0 < excess → oldest_of excess seen oldest →
  oldest_of excess (seen ++ [e]) (keep_oldest excess oldest e).
Proof.
  intros Hex (rest & Hperm & Hlen & Hfull & Hle). unfold keep_oldest.
  case_bool_decide as Hlt.
  { exists rest. assert (rest = []) as -> by (destruct rest; [done|]; exfalso; specialize (Hfull ltac:(done)); lia).
    split_and!; [by rewrite Hperm, !app_nil_r|rewrite length_app; simpl; lia|done|].
    intros x y _ Hy. by apply elem_of_nil in Hy. }
  destruct (newest_index_spec oldest) as (m & Hm & Hmax); [intros ->; simpl in *; lia|].
  rewrite Hm. pose proof (list_elem_of_lookup_2 _ _ _ Hm) as Hmin.
  destruct (Z.ltb_spec (snd e) (snd m)) as [Hem|Hem].
  - exists (m :: rest). split_and!.
    + rewrite Hperm, <- app_assoc, (Permutation_app_comm rest [e]).
      etrans; [symmetry; apply (Permutation_middle oldest rest e)|].
      etrans; [|apply (Permutation_middle _ rest m)].
      symmetry; apply (Permutation_app_tail rest (insert_perm oldest _ e m Hm)).
    + by rewrite length_insert.
    + intros _. rewrite length_insert. lia.
    + intros x y Hx Hy.
      assert (snd x ≤ snd m)%Z as Hxm.
      { apply list_elem_of_lookup in Hx as [k Hk]. apply list_lookup_insert_Some in Hk as [(_ & <- & _)|[_ Hk]].
        - lia.
        - apply Hmax. by eapply list_elem_of_lookup_2. }
      apply elem_of_cons in Hy as [->|Hy]; [done|]. specialize (Hle m y Hmin Hy). lia.
  - exists (e :: rest). split_and!; [|done|lia|].
    + rewrite Hperm, <- app_assoc, (Permutation_app_comm rest [e]). done.
    + intros x y Hx Hy. apply elem_of_cons in Hy as [->|Hy]; [|by apply Hle].
      specialize (Hmax x Hx). lia.
Qed.

Lemma keep_oldest_all excess order :
  0 < excess → oldest_of excess order (foldl (keep_oldest excess) [] order).
Proof.
  intros Hex. induction order as [|e order IH] using rev_ind.
  - exists []. split_and!; [done|simpl; lia|done|]. intros x y Hx. by apply elem_of_nil in Hx.
  - rewrite foldl_app. simpl. by apply keep_oldest_step.
Qed.

Lemma delete_entries_lookup (es : list entry) (m : gmap string Z) k :
  foldl (λ m e, delete e.1 m) m es !! k = if decide (k ∈ es.*1) then None else m !! k.
Proof.
  revert m. induction es as [|e es IH]; intros m; [done|]. cbn [foldl]. rewrite fmap_cons.
  rewrite IH. destruct (decide (k ∈ es.*1)) as [Hin|Hni].
  { by rewrite decide_True by (by right). }
  destruct (decide (k = e.1)) as [->|Hne].
  - rewrite lookup_delete_eq. by rewrite decide_True by (by left).
  - rewrite lookup_delete_ne by done. rewrite decide_False; [done|].
    rewrite elem_of_cons. by intros [|].
Qed.

Lemma drop_excess_spec maxSize order sent :
  order ≡ₚ map_to_list sent →
  let kept := drop_excess maxSize order sent in
  kept ⊆ sent ∧ size kept = Nat.min (size sent) maxSize ∧
  ∀ id t id' t', kept !! id = Some t → sent !! id' = Some t' → kept !! id' = None → (t' ≤ t)%Z.
Proof.
  intros Hord. unfold drop_excess. case_bool_decide as Hlt; simpl.
  2:{ split_and!; [done|lia|]. intros. congruence. }
  set (excess := size sent - maxSize).
  destruct (keep_oldest_all excess order ltac:(lia)) as (rest & Hperm & Hlen & Hfull & Hle).
  set (oldest := foldl _ [] order) in *.
  assert (length order = size sent) as Hlo by by rewrite Hord, length_map_to_list.
  assert (NoDup (oldest ++ rest).*1) as Hnd.
  { rewrite <- Hperm, Hord. apply NoDup_fst_map_to_list. }
  rewrite fmap_app in Hnd. apply NoDup_app in Hnd as (Hnd & Hdisj & _).
  assert (length oldest = excess) as Hlen'.
  { destruct rest; [|by apply Hfull]. apply Permutation_length in Hperm.
    rewrite app_nil_r in Hperm. lia. }
  assert (∀ id t, sent !! id = Some t ↔ (id, t) ∈ oldest ∨ (id, t) ∈ rest) as Hsent.
  { intros id t. rewrite <- elem_of_map_to_list, <- Hord, Hperm. apply elem_of_app. }
  set (kept := foldl _ sent oldest).
  assert (∀ id t, kept !! id = Some t ↔ (id, t) ∈ rest) as Hkept.
  { intros id t. unfold kept. rewrite delete_entries_lookup. case_decide as Hin.
    - split; [done|]. intros Hr. destruct (Hdisj id Hin). by apply (list_elem_of_fmap_2 fst _ (id, t)).
    - rewrite Hsent. split; [|by right]. intros [Ho|]; [|done].
      destruct Hin. by apply (list_elem_of_fmap_2 fst _ (id, t)). }
  split_and!.
  - apply map_subseteq_spec. intros id t. rewrite Hkept, Hsent. by right.
  - assert (size kept = length rest) as ->.
    { rewrite <- length_map_to_list. apply Permutation_length, NoDup_Permutation.
      - apply NoDup_map_to_list.
      - assert (NoDup (oldest ++ rest)) as Hnd' by (rewrite <- Hperm, Hord; apply NoDup_map_to_list).
        by apply NoDup_app in Hnd' as (_ & _ & ?).
      - intros [id t]. by rewrite elem_of_map_to_list. }
    apply Permutation_length in Hperm. rewrite length_app in Hperm. lia.
  - intros id t id' t' Hk Hs Hd. apply Hkept in Hk. apply Hsent in Hs as [Ho|Hr].
    + apply (Hle _ _ Ho Hk).
    + apply Hkept in Hr. congruence.
Qed.

(** * Deduplication *)

Section dedup.
Context {W : Type}.
Implicit Types g : GossipEngine W.
Implicit Types w : W.

(** Messages arriving one after another, each a fresh object. *)
Fixpoint receive_all (ms : list Message) g w : outcome (GossipEngine W * W) :=
  match ms with
  | [] => Done (g, w)
  | m :: ms =>
      let '(g, r) := alloc m g in
      let* o := ReceiveMessage false r g w in
      receive_all ms o.1.1 o.1.2
  end.

(** The messages whose identifier was not seen before. *)
Fixpoint first_occurrences (seen : gset string) (ms : list Message) : list Message :=
  match ms with
  | [] => []
  | m :: ms =>
      if decide (msg_ID m ∈ seen) then first_occurrences seen ms
      else m :: first_occurrences ({[ msg_ID m ]} ∪ seen) ms
  end.

Definition cached_ids g : gset string := list_to_set (contents (g_cache g)).*1.

(** The cache holds exactly the identifiers seen so far. *)
Record dedup_inv (cap : Z) (seen : gset string) g : Prop := {
  di_cache : cache_inv (g_cache g);
  di_cap : capacity (g_cache g) = cap;
  di_seen : cached_ids g = seen;
  di_size : length (contents (g_cache g)) = size seen;
}.

Lemma without_absent {Msg} id (l : list (string * Msg)) : id ∉ l.*1 → without id l = l.
Proof.
  intros Hid. apply filter_all. intros kv Hin <-. apply Hid. by apply list_elem_of_fmap_2.
Qed.

Lemma receive_one cap seen m g w :
  dedup_inv cap seen g → (Z.of_nat (size ({[ msg_ID m ]} ∪ seen)) ≤ cap)%Z →
  ∃ g' w' e, ReceiveMessage false (alloc m g).2 (alloc m g).1 w = Done (g', w', e) ∧
    dedup_inv cap ({[ msg_ID m ]} ∪ seen) g' ∧ handlers g' = handlers g ∧ nodeID g' = nodeID g ∧
    w' = if decide (msg_ID m ∈ seen) then w
         else call_handlers (handlers g) (hop (nodeID g) m) w.
Proof.
  intros [Hinv Hcap Hseen Hsize] Hbound. unfold ReceiveMessage, alloc; simpl.
  rewrite lookup_insert_eq, (Contains_refines _ _ Hinv). cbn [outcome_bind].
  assert (msg_ID m ∈ seen ↔ msg_ID m ∈ (contents (g_cache g)).*1) as Hiff.
  { rewrite <- Hseen. unfold cached_ids. by rewrite elem_of_list_to_set. }
  case_bool_decide as Hin.
  - rewrite decide_True by (by apply Hiff). do 3 eexists. split; [done|].
    assert ({[msg_ID m]} ∪ seen = seen) as -> by (by apply subseteq_union_1_L, singleton_subseteq_l, Hiff).
    by split_and!.
  - rewrite decide_False by (by rewrite Hiff).
    destruct (Add_refines (msg_ID m) (next_ref g) (g_cache g) Hinv) as (c & -> & Hinv' & Hcap' & Hc).
    cbn [outcome_bind].
    assert (contents c = (msg_ID m, next_ref g) :: contents (g_cache g)) as Hc'.
    { rewrite Hc. unfold lru_add. rewrite without_absent by done. apply take_ge. simpl.
      rewrite size_union, size_singleton in Hbound
        by (by apply disjoint_singleton_l; rewrite Hiff).
      rewrite Hsize, Hcap. lia. }
    set (g1 := set_heap _ _).
    assert (dedup_inv cap ({[msg_ID m]} ∪ seen) g1) as Hd.
    { split; simpl; [done|congruence| |].
      - unfold cached_ids; simpl. rewrite Hc'. simpl. by rewrite <- Hseen.
      - rewrite Hc'. simpl. rewrite size_union, size_singleton; [by rewrite Hsize|].
        apply disjoint_singleton_l. by rewrite Hiff. }
    case_match.
    + destruct (send false (next_ref g) g1) as [g2 e] eqn:Hs. do 3 eexists. split; [done|].
      assert (g_cache g2 = g_cache g1 ∧ handlers g2 = handlers g1 ∧ nodeID g2 = nodeID g1) as (H1 & H2 & H3).
      { unfold send in Hs. repeat case_match; by simplify_eq. }
      destruct Hd. split_and!; [|done..].
      split; unfold cached_ids in *; congruence.
    + do 3 eexists. split; [done|]. by split_and!.
Qed.

Lemma receive_all_spec cap seen ms g w :
  dedup_inv cap seen g → (Z.of_nat (size (list_to_set (msg_ID <$> ms) ∪ seen)) ≤ cap)%Z →
  ∃ g' w', receive_all ms g w = Done (g', w') ∧
    dedup_inv cap (list_to_set (msg_ID <$> ms) ∪ seen) g' ∧
    w' = foldl (λ w m, call_handlers (handlers g) (hop (nodeID g) m) w) w (first_occurrences seen ms).
Proof.
  revert seen g w. induction ms as [|m ms IH]; intros seen g w Hd Hb.
  { exists g, w. split_and!; [done| |done]. simpl. by rewrite union_empty_l_L. }
  simpl in Hb. rewrite <- (union_assoc_L {[msg_ID m]}) in Hb.
  destruct (receive_one cap seen m g w Hd) as (g1 & w1 & e & Hr & Hd1 & Hh & Hn & Hw).
  { etrans; [|exact Hb]. apply inj_le, subseteq_size. set_solver. }
  destruct (IH ({[msg_ID m]} ∪ seen) g1 w1 Hd1) as (g2 & w2 & Hr2 & Hd2 & Hw2).
  { etrans; [|exact Hb]. apply inj_le, subseteq_size. set_solver. }
  exists g2, w2. split_and!.
  - change (outcome_bind (ReceiveMessage false (alloc m g).2 (alloc m g).1 w)
      (λ o, receive_all ms o.1.1 o.1.2) = Done (g2, w2)). rewrite Hr. exact Hr2.
  - simpl. rewrite <- (union_assoc_L {[msg_ID m]}).
    by rewrite (union_assoc_L {[msg_ID m]}), (union_comm_L {[msg_ID m]} (list_to_set _)),
      <- (union_assoc_L (list_to_set _)).
  - rewrite Hw2, Hw, Hh, Hn. cbn [first_occurrences]. destruct (decide (msg_ID m ∈ seen)) as [Hin|]; [|done].
    by assert ({[msg_ID m]} ∪ seen = seen) as -> by (by apply subseteq_union_1_L, singleton_subseteq_l).
Qed.

(** No message is handled twice: whatever messages an engine receives one after another, as
    long as no more than 10000 different identifiers occur (the cache size), its handlers run
    exactly on the first message of each identifier, in order of arrival, each with one hop less
    and this node added to those that saw it; nothing panics or is lost to the bloom filter. *)
Theorem each_message_handled_once id cfg_Fanout (hs : list (MessageHandler (W:=W))) ms w :
  (Z.of_nat (size (list_to_set (msg_ID <$> ms) : gset string)) ≤ MessageCacheSize)%Z →
  ∃ g g' w',
    NewGossipEngine id cfg_Fanout = Done g ∧
    receive_all ms (foldl (λ g h, RegisterHandler h g) g hs) w = Done (g', w') ∧
    w' = foldl (λ w m, call_handlers hs (hop id m) w) w (first_occurrences ∅ ms).
Proof.
  intros Hb. unfold NewGossipEngine, NewMessageCache.
  destruct (NewBloomFilter_wf MessageCacheSize ltac:(by compute_decide)) as (bf & -> & Hbf).
  cbn [outcome_bind]. set (g := MkGossipEngine _ _ _ _ _ _ _ _ _ _).
  set (g1 := foldl (λ g h, RegisterHandler h g) g hs).
  assert (∀ g hs, g_cache (foldl (λ g h, RegisterHandler h g) g hs) = g_cache g ∧
    nodeID (foldl (λ g h, RegisterHandler h g) g hs) = nodeID g ∧
    handlers (foldl (λ g h, RegisterHandler (W:=W) h g) g hs) = handlers g ++ hs) as Hreg.
  { intros g0 hs0. revert g0. induction hs0 as [|h hs0 IH]; intros g0; simpl; [by rewrite app_nil_r|].
    destruct (IH (RegisterHandler h g0)) as (-> & -> & ->). simpl. by rewrite <- app_assoc. }
  destruct (Hreg g hs) as (Hc & Hn & Hh).
  destruct (receive_all_spec MessageCacheSize ∅ ms g1 w) as (g' & w' & Hr & _ & Hw).
  - unfold g1. split; unfold cached_ids; rewrite Hc; simpl; try done.
    apply empty_inv; [by compute_decide|done].
  - by rewrite union_empty_r_L.
  - exists g, g', w'. split_and!; [done|done|]. rewrite Hw. unfold g1. by rewrite Hn, Hh.
Qed.

End dedup.

(** The cap on sent messages evicts oldest first: after the second cleanup phase, whatever the
    iteration order of the map, the map has the smaller of its size and the cap, no entry was
    added or changed, and no surviving entry is older than a dropped one. *)
Theorem drop_excess_keeps_newest maxSize order sent :
  order ≡ₚ map_to_list sent →
  let kept := drop_excess maxSize order sent in
  kept ⊆ sent ∧ size kept = Nat.min (size sent) maxSize ∧
  ∀ id t id' t', kept !! id = Some t → sent !! id' = Some t' → kept !! id' = None → (t' ≤ t)%Z.
Proof. apply drop_excess_spec. Qed.

(** Dissemination picks the right number of different peers: whatever the random numbers, the
    selection has [min n len] of the given peers, none more often than it was given, and never
    panics for a non-negative [n]. *)
Theorem selectRandomPeers_sample {A} (rand : nat → nat) (peers : list A) n :
  (0 ≤ n)%Z →
  ∃ selected rest, selectRandomPeers rand peers n = Done selected ∧
    selected ++ rest ≡ₚ peers ∧ length selected = Nat.min (Z.to_nat n) (length peers) ∧
    (NoDup peers → NoDup selected).
Proof.
  intros Hn. unfold selectRandomPeers. destruct (Z.leb_spec (Z.of_nat (length peers)) n).
  { exists peers, []. rewrite app_nil_r. split_and!; [done..|lia|done]. }
  destruct (Z.ltb_spec n 0); [lia|].
  set (l := shuffle _ _ _ _).
  assert (l ≡ₚ peers) as Hl by apply shuffle_perm.
  exists (take (Z.to_nat n) l), (drop (Z.to_nat n) l). rewrite take_drop, length_take.
  split_and!; [done|done|by rewrite Hl|]. intros Hnd. rewrite <- Hl in Hnd.
  by eapply sublist_NoDup, sublist_take.
Qed.

(** * Witnesses *)

Definition log_handler : MessageHandler (W:=list (string * Z)) :=
  λ msg w, (w ++ [(msg_Payload msg, msg_TTL msg)], None).
Definition sample_message (ID payload : string) : Message := MkMessage ID payload 10 [] 0.

(** A duplicate identifier is not handled again, even with another payload. *)
Lemma each_message_handled_once_witness :
  ∃ g g', NewGossipEngine "node0" 0 = Done g ∧
    receive_all [sample_message "a" "1"; sample_message "b" "2"; sample_message "a" "3"]
      (RegisterHandler log_handler g) [] = Done (g', [("1", 9%Z); ("2", 9%Z)]).
Proof.
  destruct (each_message_handled_once "node0" 0 [log_handler]
    [sample_message "a" "1"; sample_message "b" "2"; sample_message "a" "3"] [] ltac:(vm_compute; discriminate))
    as (g & g' & w' & Hn & Hr & Hw).
  exists g, g'. split; [exact Hn|]. vm_compute in Hw. subst w'. exact Hr.
Defined.

Definition three_sent : gmap string Z := {[ "a" := 3%Z; "b" := 1%Z; "c" := 2%Z ]}.

Lemma drop_excess_keeps_newest_witness :
  size (drop_excess 2 (map_to_list three_sent) three_sent) = 2.
Proof.
  exact (proj1 (proj2 (drop_excess_keeps_newest 2 (map_to_list three_sent) three_sent (reflexivity _)))).
Defined.

Lemma selectRandomPeers_sample_witness :
  ∃ selected rest, selectRandomPeers (λ _, 1) ["p"; "q"; "r"] 2 = Done selected ∧
    selected ++ rest ≡ₚ ["p"; "q"; "r"].
Proof.
  destruct (selectRandomPeers_sample (λ _, 1) ["p"; "q"; "r"] 2 ltac:(lia)) as (sel & rest & Hs & Hp & _).
  exists sel, rest. exact (conj Hs Hp).
Defined.

End GossipEngine.
