(* ===== verification/Storage.v ===== *)
(** Persistent storage: [src/pkg/storage/store.go].

    BoltDB is not part of the repository: [BoltDB] is the interface the store uses of it (buckets,
    put, get, delete, iteration in byte order of the keys, transactions that commit or leave the
    database as it was) and [BoltLaws] its documented behaviour. The JSON encoding of the records
    is the interface [JsonCodec]. [sequenceKey] is the store's own and modelled in full. *)

From Stdlib Require Import OrderedTypeEx.
From stdpp Require Import sorting.
From S2P Require Import Prelude Proto.

Module Storage.
Local Open Scope go_scope.

(** * Interfaces *)

Class BoltDB (DB : Type) := {
  Bucket : DB → string → bool;
  Put : string → string → string → DB → result DB;
  Get : DB → string → string → option string;
  Delete : string → string → DB → result DB;
  CreateBucketIfNotExists : string → DB → result DB;
  (** What [ForEach] and a cursor visit, in order. *)
  Pairs : DB → string → list (string * string);
  (** The error of committing the transaction. *)
  CommitError : DB → error;
  emptyDB : DB;
}.

(** Byte order of keys. *)
Definition key_lt (a b : string) : Prop := String.ltb a b = true.

Class BoltLaws (DB : Type) `{BoltDB DB} := {
  Get_Put : ∀ b k v db db', Put b k v db = Ok db' → ∀ b' k',
    Get db' b' k' = if decide (b' = b ∧ k' = k) then Some v else Get db b' k';
  Bucket_Put : ∀ b k v db db', Put b k v db = Ok db' → ∀ b', Bucket db' b' = Bucket db b';
  Get_Delete : ∀ b k db db', Delete b k db = Ok db' → ∀ b' k',
    Get db' b' k' = if decide (b' = b ∧ k' = k) then None else Get db b' k';
  Bucket_Delete : ∀ b k db db', Delete b k db = Ok db' → ∀ b', Bucket db' b' = Bucket db b';
  Bucket_Create : ∀ b db db', CreateBucketIfNotExists b db = Ok db' → ∀ b',
    Bucket db' b' = (b' =? b)%string || Bucket db b';
  Get_Create : ∀ b db db', CreateBucketIfNotExists b db = Ok db' → ∀ b' k, Get db' b' k = Get db b' k;
  Pairs_Get : ∀ db b k v, (k, v) ∈ Pairs db b ↔ Get db b k = Some v;
  Pairs_sorted : ∀ db b i j p q, Pairs db b !! i = Some p → Pairs db b !! j = Some q → i < j →
    key_lt p.1 q.1;
  Get_empty : ∀ b k, Get emptyDB b k = None;
}.

(** [json.Marshal] and [json.Unmarshal] of a record type. *)
Class JsonCodec (A : Type) := {
  json_Marshal : A → result string;
  json_Unmarshal : string → result A;
}.

(** Decoding gives back what was encoded, for records whose text is valid UTF-8 ([clean]). *)
Class JsonLaws (A : Type) `{JsonCodec A} (clean : A → Prop) :=
  json_roundtrip : ∀ a data, clean a → json_Marshal a = Ok data → json_Unmarshal data = Ok a.

Lemma key_lt_irrefl s : ¬ key_lt s s.
Proof.
  unfold key_lt, String.ltb. intros Hs.
  destruct (String.compare s s) eqn:Hc; try done. apply String_as_OT.cmp_lt in Hc.
  by apply String_as_OT.lt_not_eq in Hc.
Qed.

(** The keys of a bucket are in order, so none is there twice. *)
Lemma Pairs_NoDup {DB} `{BoltLaws DB} (db : DB) b : NoDup (Pairs db b).*1.
Proof.
  apply NoDup_alt. intros i j k Hi Hj.
  rewrite list_lookup_fmap in Hi, Hj.
  apply fmap_Some in Hi as (p & Hp & Hk). apply fmap_Some in Hj as (p' & Hp' & Hk').
  destruct (Nat.lt_total i j) as [Hlt|[|Hlt]]; [exfalso|done|exfalso].
  - apply (key_lt_irrefl k). rewrite Hk at 1. rewrite Hk'. by eapply Pairs_sorted.
  - apply (key_lt_irrefl k). rewrite Hk' at 1. rewrite Hk. by eapply Pairs_sorted.
Qed.

(** * Records *)

Definition BucketTickets : string := "tickets".
Definition BucketConsensus : string := "consensus".
Definition BucketCheckpoints : string := "checkpoints".
Definition BucketMetadata : string := "metadata".

Record TicketRecord := MkTicketRecord {
  tr_ID : string;
  tr_State : string;
  tr_Data : string;
  tr_ValidatorID : string;
  tr_Timestamp : Z;
  tr_VectorClock : gmap string Z;
  tr_Metadata : gmap string string;
}.

Record ConsensusRecord := MkConsensusRecord {
  cr_Sequence : Z;
  cr_View : Z;
  cr_RequestID : string;
  cr_TicketID : string;
  cr_Operation : string;
  cr_Digest : string;
  cr_Timestamp : Z;
}.

Record CheckpointRecord := MkCheckpointRecord {
  kr_Sequence : Z;
  kr_StateDigest : string;
  kr_NodeID : string;
  kr_Timestamp : Z;
}.

(** [make([]byte, width)] of '0' characters *)
Fixpoint zeros (n : nat) : string :=
  match n with O => EmptyString | S n => String "0" (zeros n) end.

Definition key_width : nat := 20.

Definition sequenceKey (seq : Z) : string :=
  let s := FormatInt seq in
  if bool_decide (key_width ≤ String.length s) then s
  else zeros (key_width - String.length s) +:+ s.

Section store.
Context {DB : Type} `{BoltDB DB, JsonCodec TicketRecord, JsonCodec ConsensusRecord,
  JsonCodec CheckpointRecord}.
Implicit Types db : DB.

(** [db.Update(body)]: the changes of the body, or none when it or the commit fails. *)
Definition Update (body : DB → result DB) db : DB * error :=
  match body db with
  | Err err => (db, Some err)
  | Ok db' => match CommitError db' with Some err => (db, Some err) | None => (db', None) end
  end.

Definition no_bucket (b : string) : string := "bucket " +:+ b +:+ " not found".

(** [if tx.Bucket(b) == nil { return error }] *)
Definition with_bucket {A} (b : string) (body : DB → result A) db : result A :=
  if negb (Bucket db b) then Err (no_bucket b) else body db.

Definition wrap_json {A} (what : string) (r : result A) : result A :=
  match r with Ok a => Ok a | Err err => Err ("failed to marshal " +:+ what +:+ ": " +:+ err) end.

(** The creation of the buckets in [NewStore], on a database that could be opened. *)
Fixpoint create_buckets (bs : list string) db : result DB :=
  match bs with
  | [] => Ok db
  | b :: bs =>
      match CreateBucketIfNotExists b db with
      | Err err => Err ("failed to create bucket " +:+ b +:+ ": " +:+ err)
      | Ok db => create_buckets bs db
      end
  end.

Definition NewStore (opened : result DB) : result DB :=
  match opened with
  | Err err => Err ("failed to open database: " +:+ err)
  | Ok db =>
      match Update (create_buckets [BucketTickets; BucketConsensus; BucketCheckpoints; BucketMetadata]) db with
      | (_, Some err) => Err err
      | (db, None) => Ok db
      end
  end.

Definition SaveTicket (ticket : TicketRecord) : DB → DB * error :=
  Update (with_bucket BucketTickets (λ db,
    try data := wrap_json "ticket" (json_Marshal ticket) in
    Put BucketTickets (tr_ID ticket) data db)).

Definition GetTicket (ticketID : string) db : result TicketRecord :=
  with_bucket BucketTickets (λ db,
    match Get db BucketTickets ticketID with
    | None => Err ("ticket " +:+ ticketID +:+ " not found")
    | Some data => json_Unmarshal data
    end) db.

(** [ForEach] with a body that decodes and appends; it stops at the first error. *)
Fixpoint decode_all {A} `{JsonCodec A} (pairs : list (string * string)) : result (list A) :=
  match pairs with
  | [] => Ok []
  | (_, v) :: pairs =>
      try a := json_Unmarshal v in
      try rest := decode_all pairs in
      Ok (a :: rest)
  end.

Definition GetAllTickets db : result (list TicketRecord) :=
  with_bucket BucketTickets (λ db, decode_all (Pairs db BucketTickets)) db.

Definition DeleteTicket (ticketID : string) : DB → DB * error :=
  Update (with_bucket BucketTickets (Delete BucketTickets ticketID)).

Definition SaveConsensusLog (record : ConsensusRecord) : DB → DB * error :=
  Update (with_bucket BucketConsensus (λ db,
    try data := wrap_json "consensus record" (json_Marshal record) in
    Put BucketConsensus (sequenceKey (cr_Sequence record)) data db)).

Definition GetConsensusLog (sequence : Z) db : result ConsensusRecord :=
  with_bucket BucketConsensus (λ db,
    match Get db BucketConsensus (sequenceKey sequence) with
    | None => Err ("consensus log " +:+ FormatInt sequence +:+ " not found")
    | Some data => json_Unmarshal data
    end) db.

(** The same loop, with the records before the error, which [GetConsensusLogs] returns with it *)
Fixpoint decode_while {A} `{JsonCodec A} (pairs : list (string * string)) : list A * error :=
  match pairs with
  | [] => ([], None)
  | (_, v) :: pairs =>
      match json_Unmarshal v with
      | Err err => ([], Some err)
      | Ok a => let '(rest, err) := decode_while pairs in (a :: rest, err)
      end
  end.

Definition GetConsensusLogs db : list ConsensusRecord * error :=
  match with_bucket BucketConsensus (λ db, Ok (decode_while (Pairs db BucketConsensus))) db with
  | Ok logs => logs
  | Err err => ([], Some err)
  end.

Definition SaveCheckpoint (checkpoint : CheckpointRecord) : DB → DB * error :=
  Update (with_bucket BucketCheckpoints (λ db,
    try data := wrap_json "checkpoint" (json_Marshal checkpoint) in
    Put BucketCheckpoints (sequenceKey (kr_Sequence checkpoint)) data db)).

Definition GetLatestCheckpoint db : result CheckpointRecord :=
  with_bucket BucketCheckpoints (λ db,
    match last (Pairs db BucketCheckpoints) with
    | None => Err "no checkpoints found"
    | Some (_, v) => json_Unmarshal v
    end) db.

Definition SetMetadata (key value : string) : DB → DB * error :=
  Update (with_bucket BucketMetadata (Put BucketMetadata key value)).

Definition GetMetadata (key : string) db : result string :=
  with_bucket BucketMetadata (λ db,
    match Get db BucketMetadata key with
    | None => Err ("metadata key " +:+ key +:+ " not found")
    | Some data => Ok data
    end) db.

End store.

(** * Keys *)

(** The last [k] decimal digits of [n], in front of [acc]. *)
Fixpoint fixed (k : nat) (n : Z) (acc : string) : string :=
  match k with O => acc | S k => fixed k (n / 10) (String (digit_char (n mod 10)) acc) end.

Lemma append_zeros_S k s : zeros k +:+ String "0" s = String "0" (zeros k +:+ s).
Proof. induction k as [|k IH]; [done|]. exact (f_equal (String "0") IH). Qed.

Lemma fixed_zero k acc : fixed k 0 acc = zeros k +:+ acc.
Proof.
  revert acc. induction k as [|k IH]; intros acc; simpl; [done|].
  rewrite Z.div_0_l by lia. rewrite IH. apply append_zeros_S.
Qed.

(** Padding the digits of [n] to width [k] gives its last [k] digits. *)
Lemma digits_fixed k fuel n acc :
  (0 ≤ n < 10 ^ Z.of_nat k)%Z → (n < 2 ^ Z.of_nat fuel)%Z → 0 < k → 0 < fuel →
  ∃ d, String.length (digits_acc fuel n acc) = d + String.length acc ∧ d ≤ k ∧
    fixed k n acc = zeros (k - d) +:+ digits_acc fuel n acc.
Proof.
  revert k n acc. induction fuel as [|fuel IH]; intros k n acc Hn Hf Hk Hfuel; [lia|].
  destruct k as [|k]; [lia|]. cbn [digits_acc fixed].
  set (acc' := String (digit_char (n mod 10)) acc).
  destruct (Z.eqb_spec (n / 10) 0) as [H0|H0].
  - exists 1. rewrite H0, fixed_zero. split_and!; [done|lia|]. by rewrite Nat.sub_succ, Nat.sub_0_r.
  - rewrite Nat2Z.inj_succ, Z.pow_succ_r in Hn, Hf by lia.
    assert (1 ≤ n / 10)%Z by (pose proof (Z.div_pos n 10); lia).
    assert (n / 10 < 10 ^ Z.of_nat k)%Z by (apply Z.div_lt_upper_bound; lia).
    assert (n / 10 < 2 ^ Z.of_nat fuel)%Z by (apply Z.div_lt_upper_bound; lia).
    destruct (IH k (n / 10)%Z acc') as (d & Hlen & Hd & Heq); try lia.
    { destruct k; [simpl in *; lia|lia]. }
    { destruct fuel; [simpl in *; lia|lia]. }
    exists (S d). rewrite Hlen, Heq. split_and!; [simpl; lia|lia|done].
Qed.

Lemma sequenceKey_fixed n : (0 ≤ n < 10 ^ 20)%Z → sequenceKey n = fixed 20 n "".
Proof.
  intros Hn. unfold sequenceKey, FormatInt. destruct (Z.ltb_spec n 0); [lia|]. unfold format_nonneg.
  assert (n < 2 ^ Z.of_nat (S (Z.to_nat (Z.log2 n))))%Z as Hf.
  { rewrite Nat2Z.inj_succ, Z2Nat.id by apply Z.log2_nonneg.
    destruct (decide (n = 0)%Z) as [->|]; [done|]. apply Z.log2_spec. lia. }
  destruct (digits_fixed 20 _ n "" Hn Hf ltac:(lia) ltac:(lia)) as (d & Hlen & Hd & ->).
  rewrite Hlen. cbn [String.length]. rewrite Nat.add_0_r. unfold key_width.
  case_bool_decide as H20; [|done]. by replace (20 - d) with 0 by lia.
Qed.

Lemma fixed_high k n acc :
  fixed (S k) n acc = String (digit_char ((n / 10 ^ Z.of_nat k) mod 10)) (fixed k n acc).
Proof.
  revert n acc. induction k as [|k IH]; intros n acc.
  - simpl. by rewrite Z.div_1_r.
  - change (fixed (S (S k)) n acc) with (fixed (S k) (n / 10) (String (digit_char (n mod 10)) acc)).
    rewrite IH. rewrite Nat2Z.inj_succ, Z.pow_succ_r, Zdiv.Zdiv_Zdiv by lia. done.
Qed.

Lemma digit_cases d : (0 ≤ d < 10)%Z → d ∈ [0; 1; 2; 3; 4; 5; 6; 7; 8; 9]%Z.
Proof. intros Hd. rewrite !elem_of_cons. lia. Qed.

Lemma digit_char_compare a b :
  (0 ≤ a < 10)%Z → (0 ≤ b < 10)%Z → Ascii.compare (digit_char a) (digit_char b) = (a ?= b)%Z.
Proof.
  intros Ha%digit_cases Hb%digit_cases. revert a Ha b Hb.
  assert (Forall (λ a, Forall (λ b, Ascii.compare (digit_char a) (digit_char b) = (a ?= b)%Z)
    [0; 1; 2; 3; 4; 5; 6; 7; 8; 9]%Z) [0; 1; 2; 3; 4; 5; 6; 7; 8; 9]%Z) as Hall by compute_decide.
  intros a Ha b Hb. rewrite Forall_forall in Hall. specialize (Hall a Ha).
  rewrite Forall_forall in Hall. by apply Hall.
Qed.

Lemma fixed_compare k a b :
  String.compare (fixed k a "") (fixed k b "")
    = (a mod 10 ^ Z.of_nat k ?= b mod 10 ^ Z.of_nat k)%Z.
Proof.
  induction k as [|k IH]; [by rewrite !Z.mod_1_r|].
  rewrite !fixed_high. cbn [String.compare].
  rewrite digit_char_compare by (apply Z.mod_pos_bound; lia).
  rewrite IH, Nat2Z.inj_succ, Z.pow_succ_r, Z.mul_comm by lia.
  assert (0 < 10 ^ Z.of_nat k)%Z as Hp by (apply Z.pow_pos_nonneg; lia).
  rewrite !Z.rem_mul_r by lia.
  set (p := (10 ^ Z.of_nat k)%Z) in *.
  pose proof (Z.mod_pos_bound a p Hp). pose proof (Z.mod_pos_bound b p Hp).
  destruct (Z.compare_spec (a / p mod 10) (b / p mod 10)) as [Heq|Hlt|Hgt]; symmetry.
  - rewrite Heq. rewrite !(Z.add_comm _ (p * _)). apply Zcompare_plus_compat.
  - apply Z.compare_lt_iff. nia.
  - apply Z.compare_gt_iff. nia.
Qed.

Lemma fixed_length k n acc : String.length (fixed k n acc) = k + String.length acc.
Proof.
  revert n acc. induction k as [|k IH]; intros n acc; simpl; [done|]. rewrite IH. simpl. lia.
Qed.

(** Storage keys order like the numbers they stand for: for non-negative 64-bit sequence numbers
    [sequenceKey] has exactly 20 bytes, is injective, and compares byte-wise as the numbers do, so
    that the cursor of the database visits records in sequence order. *)
Theorem sequenceKey_order a b :
  (0 ≤ a)%Z → is_i64 a → (0 ≤ b)%Z → is_i64 b →
  String.length (sequenceKey a) = 20 ∧ (sequenceKey a = sequenceKey b ↔ a = b) ∧
  (key_lt (sequenceKey a) (sequenceKey b) ↔ (a < b)%Z).
Proof.
  unfold is_i64. intros Ha [_ Ha'] Hb [_ Hb'].
  assert (2 ^ 63 < 10 ^ 20)%Z as Hbig by done.
  pose proof (fixed_compare 20 a b) as Hc. change (Z.of_nat 20) with 20%Z in Hc.
  rewrite !Z.mod_small in Hc by lia.
  rewrite !sequenceKey_fixed by lia. split; [apply fixed_length|]. split.
  - split; [|by intros ->]. intros Heq. rewrite Heq in Hc.
    rewrite fixed_compare, Z.compare_refl in Hc. exact (Z.compare_eq _ _ (eq_sym Hc)).
  - unfold key_lt, String.ltb. rewrite Hc. unfold Z.lt. destruct (a ?= b)%Z; split; congruence.
Qed.

Lemma sequenceKey_order_witness :
  key_lt (sequenceKey 9) (sequenceKey 10) ∧ sequenceKey 10 = "00000000000000000010".
Proof.
  split; [|reflexivity].
  refine (proj2 (proj2 (proj2 (sequenceKey_order 9 10 _ _ _ _))) _); unfold is_i64; lia.
Defined.

(** * The store on any database that satisfies the laws *)

Section laws.
Context {DB : Type} `{BoltLaws DB}.
Context `{JsonCodec TicketRecord, JsonCodec ConsensusRecord}.
Context (clean_ticket : TicketRecord → Prop) `{!JsonLaws TicketRecord clean_ticket}.
Implicit Types db : DB.

Lemma Update_Ok body db db' : Update body db = (db', None) → body db = Ok db'.
Proof. unfold Update. repeat case_match; by intros; simplify_eq. Qed.

Lemma Update_Err body db db' err : Update body db = (db', Some err) → db' = db.
Proof. unfold Update. repeat case_match; by intros; simplify_eq. Qed.

Lemma with_bucket_Ok {A} b (body : DB → result A) db a :
  with_bucket b body db = Ok a ↔ Bucket db b = true ∧ body db = Ok a.
Proof. unfold with_bucket. destruct (Bucket db b); naive_solver. Qed.

Lemma save_Ok {A} `{JsonCodec A} b what key (a : A) db db' :
  Update (with_bucket b (λ db, try data := wrap_json what (json_Marshal a) in Put b key data db)) db
    = (db', None) →
  Bucket db b = true ∧ ∃ data, json_Marshal a = Ok data ∧ Put b key data db = Ok db'.
Proof.
  intros Hu. apply Update_Ok, with_bucket_Ok in Hu as [Hb Hr]. split; [done|].
  destruct (json_Marshal a) as [data|] eqn:Hm; [|done]. by exists data.
Qed.

Lemma decode_all_elem {A} `{JsonCodec A} (pairs : list (string * string)) (l : list A) k v :
  decode_all pairs = Ok l → (k, v) ∈ pairs → ∃ a, json_Unmarshal v = Ok a ∧ a ∈ l.
Proof.
  revert l. induction pairs as [|[k' v'] pairs IH]; intros l Hd Hin; [by apply elem_of_nil in Hin|].
  simpl in Hd. destruct (json_Unmarshal v') as [a|] eqn:Hv; [|done].
  destruct (decode_all pairs) as [rest|] eqn:Hr; [|done]. simplify_eq/=.
  apply elem_of_cons in Hin as [[= -> ->]|Hin]; [by exists a; split; [|left]|].
  destruct (IH rest eq_refl Hin) as (a' & ? & ?). exists a'. by split; [|right].
Qed.

(** A ticket is saved completely or not at all: when [SaveTicket] reports an error the database
    is as it was; when it does not, the ticket reads back as saved, is among [GetAllTickets], and
    every other ticket, log entry, checkpoint and metadata value reads as before. *)
Theorem save_ticket_atomic t db db' err :
  SaveTicket t db = (db', err) →
  match err with
  | Some _ => db' = db
  | None =>
      (clean_ticket t → GetTicket (tr_ID t) db' = Ok t ∧
        ∀ ts, GetAllTickets db' = Ok ts → t ∈ ts) ∧
      (∀ id, id ≠ tr_ID t → GetTicket id db' = GetTicket id db) ∧
      (∀ s, GetConsensusLog s db' = GetConsensusLog s db) ∧
      (∀ k, GetMetadata k db' = GetMetadata k db)
  end.
Proof.
  intros Hs. destruct err as [err|]; [by eapply Update_Err|].
  apply save_Ok in Hs as (Hb & data & Hm & Hput).
  pose proof (Get_Put _ _ _ _ _ Hput) as Hget. pose proof (Bucket_Put _ _ _ _ _ Hput) as Hbucket.
  split_and!.
  - intros Hc. pose proof (json_roundtrip _ _ Hc Hm) as Hdec. split.
    + unfold GetTicket, with_bucket. rewrite Hbucket, Hb; simpl. by rewrite Hget, decide_True.
    + intros ts Hall. unfold GetAllTickets in Hall. apply with_bucket_Ok in Hall as [_ Hall].
      destruct (decode_all_elem _ _ (tr_ID t) data Hall) as (a & Ha & Hin).
      { apply Pairs_Get. by rewrite Hget, decide_True. }
      rewrite Hdec in Ha. by injection Ha as <-.
  - intros id Hid. unfold GetTicket, with_bucket. rewrite Hbucket. case_match; [done|].
    by rewrite Hget, decide_False by naive_solver.
  - intros s. unfold GetConsensusLog, with_bucket. rewrite Hbucket. case_match; [done|].
    by rewrite Hget, decide_False by naive_solver.
  - intros k. unfold GetMetadata, with_bucket. rewrite Hbucket. case_match; [done|].
    by rewrite Hget, decide_False by naive_solver.
Qed.

End laws.

Section checkpoint_laws.
Context {DB : Type} `{BoltLaws DB} `{JsonCodec CheckpointRecord}.
Context (clean_checkpoint : CheckpointRecord → Prop) `{!JsonLaws CheckpointRecord clean_checkpoint}.
Implicit Types db : DB.

(** Saving checkpoints one after another, all successfully. *)
Fixpoint save_checkpoints (cs : list CheckpointRecord) db : option DB :=
  match cs with
  | [] => Some db
  | c :: cs =>
      match SaveCheckpoint c db with
      | (db, None) => save_checkpoints cs db
      | (_, Some _) => None
      end
  end.

(** The last checkpoint saved for each sequence number. *)
Definition by_sequence (m : gmap Z CheckpointRecord) (cs : list CheckpointRecord) :
    gmap Z CheckpointRecord :=
  foldl (λ m c, <[kr_Sequence c := c]> m) m cs.

Definition good_checkpoint (c : CheckpointRecord) : Prop :=
  clean_checkpoint c ∧ (0 ≤ kr_Sequence c)%Z ∧ is_i64 (kr_Sequence c).

(** The checkpoint bucket holds exactly [m]. *)
Definition holds (m : gmap Z CheckpointRecord) db : Prop :=
  (∀ k v, Get db BucketCheckpoints k = Some v ↔
    ∃ s c, m !! s = Some c ∧ k = sequenceKey s ∧ json_Marshal c = Ok v) ∧
  map_Forall (λ s c, kr_Sequence c = s ∧ good_checkpoint c ∧ ∃ v, json_Marshal c = Ok v) m.

Lemma key_inj a b : (0 ≤ a)%Z → is_i64 a → (0 ≤ b)%Z → is_i64 b → sequenceKey a = sequenceKey b → a = b.
Proof.
  unfold is_i64. intros Ha Ha' Hb Hb' Heq.
  assert (2 ^ 63 < 10 ^ 20)%Z as Hbig by done.
  rewrite !sequenceKey_fixed in Heq by lia.
  pose proof (fixed_compare 20 a b) as Hc. rewrite Heq, fixed_compare, Z.compare_refl in Hc.
  change (Z.of_nat 20) with 20%Z in Hc. rewrite !Z.mod_small in Hc by lia.
  exact (Z.compare_eq _ _ (eq_sym Hc)).
Qed.

Lemma key_lt_iff a b :
  (0 ≤ a)%Z → is_i64 a → (0 ≤ b)%Z → is_i64 b → key_lt (sequenceKey a) (sequenceKey b) → (a < b)%Z.
Proof.
  unfold is_i64, key_lt, String.ltb. intros Ha Ha' Hb Hb'.
  assert (2 ^ 63 < 10 ^ 20)%Z as Hbig by done.
  rewrite !sequenceKey_fixed by lia. rewrite fixed_compare. change (Z.of_nat 20) with 20%Z.
  rewrite !Z.mod_small by lia. unfold Z.lt. destruct (a ?= b)%Z; congruence.
Qed.

Lemma holds_save c m db db' :
  good_checkpoint c → holds m db → SaveCheckpoint c db = (db', None) →
  holds (<[kr_Sequence c := c]> m) db'.
Proof.
  intros Hc [Hm Hall] Hs. apply save_Ok in Hs as (_ & data & Hd & Hput).
  pose proof (Get_Put _ _ _ _ _ Hput) as Hget. split; [|apply map_Forall_insert_2; [by split_and!; [..|exists data]|done]].
  intros k v. rewrite Hget. case_decide as Hk.
  - destruct Hk as [_ ->]. split.
    + intros [= <-]. exists (kr_Sequence c), c. by rewrite lookup_insert_eq.
    + intros (s & c' & Hl & Heq & Hv). destruct Hc as (? & ? & ?).
      apply lookup_insert_Some in Hl as [[<- <-]|[Hne Hl]]; [congruence|].
      destruct (Hall _ _ Hl) as (<- & (_ & ? & ?) & _). destruct Hne. by apply key_inj.
  - rewrite Hm. split.
    + intros (s & c' & Hl & -> & Hv). exists s, c'. split_and!; [|done..].
      rewrite lookup_insert_ne; [done|]. intros <-. naive_solver.
    + intros (s & c' & Hl & -> & Hv). exists s, c'. split_and!; [|done..].
      apply lookup_insert_Some in Hl as [[<- _]|[_ Hl]]; [naive_solver|done].
Qed.

Lemma holds_save_all cs m db db' :
  Forall good_checkpoint cs → holds m db → save_checkpoints cs db = Some db' →
  holds (by_sequence m cs) db' ∧ (cs ≠ [] → Bucket db' BucketCheckpoints = true).
Proof.
  intros Hcs. revert m db. induction Hcs as [|c cs Hc Hcs IH]; intros m db Hm Hs; simpl in Hs.
  { simplify_eq. by split. }
  destruct (SaveCheckpoint c db) as [db1 [err|]] eqn:Hsave; [done|].
  destruct (IH _ db1 (holds_save _ _ _ _ Hc Hm Hsave) Hs) as [Hh Hb]. split; [done|]. intros _.
  destruct cs; [|by apply Hb]. simpl in Hs. simplify_eq.
  apply save_Ok in Hsave as (Hb1 & data & _ & Hput). by rewrite (Bucket_Put _ _ _ _ _ Hput).
Qed.

(** [GetLatestCheckpoint] returns the checkpoint with the highest sequence number: after any
    non-empty list of checkpoints with non-negative sequence numbers was saved, in any order and
    with repetitions, into an empty bucket, it is the last one saved for the largest of them. *)
Theorem latest_checkpoint_is_highest cs db db' :
  Forall good_checkpoint cs → cs ≠ [] → (∀ k, Get db BucketCheckpoints k = None) →
  save_checkpoints cs db = Some db' →
  ∃ s c, by_sequence ∅ cs !! s = Some c ∧ kr_Sequence c = s ∧
    (∀ c', c' ∈ cs → (kr_Sequence c' ≤ s)%Z) ∧
    GetLatestCheckpoint db' = Ok c.
Proof.
  intros Hgood Hne Hempty Hs.
  assert (holds ∅ db) as Hh0.
  { split; [|apply map_Forall_empty]. intros k v. rewrite Hempty. split; [done|].
    intros (s & c & Hl & _). by rewrite lookup_empty in Hl. }
  destruct (holds_save_all cs ∅ db db' Hgood Hh0 Hs) as [[Hm Hall] Hb]. specialize (Hb Hne).
  set (m := by_sequence ∅ cs) in *.
  assert (∀ cs m0, dom (by_sequence m0 cs) = dom m0 ∪ list_to_set (kr_Sequence <$> cs)) as Hdom.
  { induction cs0 as [|c0 cs0 IH]; intros m0; simpl; [set_solver|]. rewrite IH, dom_insert_L. set_solver. }
  assert (∀ c', c' ∈ cs → is_Some (m !! kr_Sequence c')) as Hin.
  { intros c' Hc'. apply elem_of_dom. unfold m. rewrite Hdom. apply elem_of_union_r, elem_of_list_to_set.
    by apply list_elem_of_fmap_2. }
  assert (∀ s c, m !! s = Some c → ∃ i v, Pairs db' BucketCheckpoints !! i = Some (sequenceKey s, v)) as Hpair.
  { intros s c Hl. destruct (Hall _ _ Hl) as (_ & _ & v & Hv).
    assert ((sequenceKey s, v) ∈ Pairs db' BucketCheckpoints) as [i Hi]%list_elem_of_lookup.
    { apply Pairs_Get, Hm. by exists s, c. }
    by exists i, v. }
  destruct (last (Pairs db' BucketCheckpoints)) as [[k v]|] eqn:Hlast.
  2:{ apply last_None in Hlast. destruct cs as [|c cs]; [done|].
      destruct (Hin c) as [c' Hc']; [by left|]. destruct (Hpair _ _ Hc') as (i & v & Hi).
      by rewrite Hlast in Hi. }
  rewrite last_lookup in Hlast. pose proof (list_elem_of_lookup_2 _ _ _ Hlast) as Hk.
  apply Pairs_Get, Hm in Hk as (s & c & Hl & -> & Hv).
  destruct (Hall _ _ Hl) as (Hseq & (Hclean & Hpos & Hrange) & _).
  exists s, c. split_and!; [done|done| |].
  - intros c' Hc'. destruct (Hin c' Hc') as [c'' Hl'].
    destruct (Hall _ _ Hl') as (Hseq' & (_ & Hpos' & Hrange') & _). rewrite Hseq in Hpos, Hrange.
    rewrite Hseq' in Hpos', Hrange'.
    destruct (Hpair _ _ Hl') as (i & v' & Hi). pose proof (lookup_lt_Some _ _ _ Hi) as Hlt.
    destruct (decide (i = pred (length (Pairs db' BucketCheckpoints)))) as [->|Hni].
    + rewrite Hlast in Hi. injection Hi as Heq _. apply Z.eq_le_incl. symmetry. by apply key_inj.
    + apply Z.lt_le_incl, key_lt_iff; [done..|].
      apply (Pairs_sorted db' BucketCheckpoints i _ _ _ Hi Hlast). lia.
  - unfold GetLatestCheckpoint. apply with_bucket_Ok. split; [done|].
    rewrite last_lookup, Hlast. by apply json_roundtrip.
Qed.

End checkpoint_laws.

(** * A database in memory, and codecs, that satisfy the laws *)

Record mem_db := MkMemDB {
  mem_buckets : gset string;
  mem_content : gmap (string * string) string;
}.

Definition key_le (p q : string * string) : Prop := String.leb p.1 q.1 = true.

#[export] Instance key_le_dec p q : Decision (key_le p q).
Proof. unfold key_le. apply _. Defined.

Lemma string_compare_trans a b c :
  String.compare a b = Lt → String.compare b c = Lt → String.compare a c = Lt.
Proof.
  intros Hab Hbc. apply String_as_OT.cmp_lt in Hab, Hbc. apply String_as_OT.cmp_lt.
  by eapply String_as_OT.lt_trans.
Qed.

Lemma leb_cases a b : String.leb a b = true ↔ String.compare a b = Lt ∨ a = b.
Proof.
  unfold String.leb. destruct (String.compare a b) eqn:Hc.
  - apply String.compare_eq_iff in Hc. naive_solver.
  - naive_solver.
  - split; [done|]. intros [?| ->]; [done|].
    pose proof (proj2 (String_as_OT.cmp_eq b b) eq_refl) as Hr. unfold String_as_OT.cmp in Hr. congruence.
Qed.

#[export] Instance key_le_trans : Transitive key_le.
Proof.
  intros p q r. unfold key_le. rewrite !leb_cases. intros [Hpq| ->] [Hqr|<-]; auto.
  left. by eapply string_compare_trans.
Qed.

#[export] Instance key_le_total : Total key_le.
Proof.
  intros p q. unfold key_le. destruct (String.leb_total p.1 q.1) as [->| ->]; auto.
Qed.

Lemma StronglySorted_lookup {A} (R : A → A → Prop) l i j x y :
  Sorted.StronglySorted R l → l !! i = Some x → l !! j = Some y → i < j → R x y.
Proof.
  intros Hs. revert i j. induction Hs as [|z l Hs IH Hz]; intros i j Hi Hj Hij; [done|].
  destruct j as [|j]; [lia|]. simpl in Hj. destruct i as [|i]; simpl in Hi.
  - simplify_eq. rewrite Forall_forall in Hz. by eapply Hz, list_elem_of_lookup_2.
  - apply (IH i j); [done..|lia].
Qed.

Definition bucket_pairs (db : mem_db) (b : string) : list (string * string) :=
  omap (λ e, if decide (e.1.1 = b) then Some (e.1.2, e.2) else None) (map_to_list (mem_content db)).

#[export] Instance mem_bolt : BoltDB mem_db := {|
  Bucket db b := bool_decide (b ∈ mem_buckets db);
  Put b k v db := Ok (MkMemDB (mem_buckets db) (<[(b, k) := v]> (mem_content db)));
  Get db b k := mem_content db !! (b, k);
  Delete b k db := Ok (MkMemDB (mem_buckets db) (delete (b, k) (mem_content db)));
  CreateBucketIfNotExists b db := Ok (MkMemDB ({[ b ]} ∪ mem_buckets db) (mem_content db));
  Pairs db b := merge_sort key_le (bucket_pairs db b);
  CommitError db := None;
  emptyDB := MkMemDB ∅ ∅;
|}.

Lemma bucket_pairs_elem db b k v : (k, v) ∈ bucket_pairs db b ↔ mem_content db !! (b, k) = Some v.
Proof.
  unfold bucket_pairs. rewrite list_elem_of_omap. split.
  - intros ([[b' k'] v'] & Hin & Hs). simpl in Hs. case_decide; simplify_eq.
    by apply elem_of_map_to_list.
  - intros Hl. exists ((b, k), v). split; [by apply elem_of_map_to_list|]. simpl.
    by rewrite decide_True.
Qed.

Lemma bucket_pairs_NoDup db b : NoDup (bucket_pairs db b).*1.
Proof.
  unfold bucket_pairs. pose proof (NoDup_fst_map_to_list (mem_content db)) as Hnd.
  induction (map_to_list (mem_content db)) as [|[[b' k'] v'] l IH]; simpl; [constructor|].
  simpl in Hnd. apply NoDup_cons in Hnd as [Hni Hnd]. case_decide; [|by apply IH]. subst b'.
  simpl. constructor; [|by apply IH].
  intros ([k v] & -> & ([[b0 k0] v0] & Hin & Hs)%list_elem_of_omap)%list_elem_of_fmap.
  simpl in Hs. case_decide; simplify_eq. apply Hni. by apply (list_elem_of_fmap_2 fst _ (b, k, v)).
Qed.

#[export] Instance mem_laws : BoltLaws mem_db.
Proof.
  split; simpl.
  - intros b k v db db' [= <-] b' k'. simpl. rewrite lookup_insert.
    repeat case_decide; naive_solver.
  - by intros b k v db db' [= <-] b'.
  - intros b k db db' [= <-] b' k'. simpl. rewrite lookup_delete.
    repeat case_decide; naive_solver.
  - by intros b k db db' [= <-] b'.
  - intros b db db' [= <-] b'. simpl. destruct (String.eqb_spec b' b) as [->|Hne]; simpl.
    + apply bool_decide_true. set_solver.
    + apply bool_decide_ext. set_solver.
  - by intros b db db' [= <-] b' k.
  - intros db b k v. rewrite merge_sort_Permutation. apply bucket_pairs_elem.
  - intros db b i j p q Hi Hj Hij. unfold key_lt, String.ltb.
    assert (key_le p q) as Hle.
    { pose proof (StronglySorted_merge_sort key_le (bucket_pairs db b)) as Hs.
      by eapply StronglySorted_lookup. }
    unfold key_le in Hle. apply leb_cases in Hle as [->|Heq]; [done|]. exfalso.
    assert (NoDup (merge_sort key_le (bucket_pairs db b)).*1) as Hnd.
    { rewrite merge_sort_Permutation. apply bucket_pairs_NoDup. }
    assert (i = j) as ->; [|lia]. eapply NoDup_lookup; [exact Hnd|..].
    + rewrite list_lookup_fmap, Hi. done.
    + rewrite list_lookup_fmap, Hj. simpl. by rewrite Heq.
  - intros b k. apply lookup_empty.
Qed.

#[export] Instance TicketRecord_eq : EqDecision TicketRecord.
Proof. solve_decision. Defined.
#[export] Instance CheckpointRecord_eq : EqDecision CheckpointRecord.
Proof. solve_decision. Defined.
#[export] Instance ConsensusRecord_eq : EqDecision ConsensusRecord.
Proof. solve_decision. Defined.
#[export] Instance TicketRecord_countable : Countable TicketRecord.
Proof.
  apply (inj_countable' (λ r, (tr_ID r, tr_State r, tr_Data r, tr_ValidatorID r, tr_Timestamp r,
      tr_VectorClock r, tr_Metadata r))
    (λ '(a, b, c, d, e, f, g), MkTicketRecord a b c d e f g)). by intros [].
Defined.
#[export] Instance CheckpointRecord_countable : Countable CheckpointRecord.
Proof.
  apply (inj_countable' (λ r, (kr_Sequence r, kr_StateDigest r, kr_NodeID r, kr_Timestamp r))
    (λ '(a, b, c, d), MkCheckpointRecord a b c d)). by intros [].
Defined.
#[export] Instance ConsensusRecord_countable : Countable ConsensusRecord.
Proof.
  apply (inj_countable' (λ r, (cr_Sequence r, cr_View r, cr_RequestID r, cr_TicketID r, cr_Operation r,
      cr_Digest r, cr_Timestamp r))
    (λ '(a, b, c, d, e, f, g), MkConsensusRecord a b c d e f g)). by intros [].
Defined.

Definition bit_json (A : Type) `{Countable A} : JsonCodec A := {|
  json_Marshal a := Ok (pb.pos_text (encode a));
  json_Unmarshal data :=
    match pb.text_pos data ≫= decode with Some a => Ok a | None => Err "invalid character" end;
|}.

Lemma bit_json_laws (A : Type) `{Countable A} : @JsonLaws A (bit_json A) (λ _, True).
Proof.
  intros a data _ [= <-]. simpl. rewrite pb.text_pos_text. simpl. by rewrite decode_encode.
Qed.

(** A new store in memory. *)
Definition mem_store : mem_db :=
  match NewStore (Ok emptyDB) with Ok db => db | Err _ => emptyDB end.

Definition sample_record : TicketRecord :=
  MkTicketRecord "T1" "VALIDATED" "seat A1" "node0" 7 {[ "node0" := 2%Z ]} {[ "source" := "seed" ]}.

#[local] Existing Instance bit_json.
#[local] Existing Instance bit_json_laws.

Lemma save_ticket_atomic_witness : ∃ db',
  SaveTicket sample_record mem_store = (db', None) ∧ GetTicket "T1" db' = Ok sample_record.
Proof.
  destruct (SaveTicket sample_record mem_store) as [db' err] eqn:Hs.
  pose proof (save_ticket_atomic (λ _, True) sample_record mem_store db' err Hs) as Hat.
  destruct err as [err|]; [discriminate|]. exists db'. split; [reflexivity|].
  exact (proj1 (proj1 Hat I)).
Defined.

Definition three_checkpoints : list CheckpointRecord :=
  [MkCheckpointRecord 9 "d9" "node0" 1; MkCheckpointRecord 20 "d20" "node0" 2;
   MkCheckpointRecord 10 "d10" "node0" 3].

Lemma latest_checkpoint_is_highest_witness : ∃ db',
  save_checkpoints three_checkpoints mem_store = Some db' ∧
  GetLatestCheckpoint db' = Ok (MkCheckpointRecord 20 "d20" "node0" 2).
Proof.
  destruct (save_checkpoints three_checkpoints mem_store) as [db'|] eqn:Hs; [|discriminate].
  destruct (latest_checkpoint_is_highest (λ _, True) three_checkpoints mem_store db')
    as (s & c & Hl & Hc & Hmax & Hget).
  - repeat (apply Forall_cons; split; [split; [exact I|]; unfold is_i64; simpl; lia|]).
    apply Forall_nil; exact I.
  - discriminate.
  - reflexivity.
  - exact Hs.
  - exists db'. split; [reflexivity|]. rewrite Hget. f_equal.
    assert (20 ≤ s)%Z as H20 by (apply (Hmax (MkCheckpointRecord 20 "d20" "node0" 2)); right; left).
    assert (by_sequence ∅ three_checkpoints = {[ 9 := MkCheckpointRecord 9 "d9" "node0" 1;
      20 := MkCheckpointRecord 20 "d20" "node0" 2; 10 := MkCheckpointRecord 10 "d10" "node0" 3 ]}%Z)
      as Hm by (vm_compute; reflexivity).
    rewrite Hm in Hl. apply lookup_insert_Some in Hl as [[_ <-]|[_ Hl]]; [simpl in Hc; lia|].
    apply lookup_insert_Some in Hl as [[_ <-]|[_ Hl]]; [reflexivity|].
    apply lookup_singleton_Some in Hl as [_ <-]. simpl in Hc. lia.
Defined.

End Storage.

#[export] Existing Instance Storage.mem_bolt.
#[export] Existing Instance Storage.mem_laws.
#[export] Existing Instance Storage.TicketRecord_eq.
#[export] Existing Instance Storage.TicketRecord_countable.
