(* ===== verification/StoreFiles.v ===== *)
(** The store's files ([src/pkg/storage/store.go]): backup and compaction. A file is the database it
    holds; [BoltFiles] adds to [BoltDB] what these two operations use. *)

From S2P Require Import Prelude Storage.

Module StoreFiles.
Import Storage.

(** [BucketNames] is what [tx.ForEach] visits. *)
Class BoltFiles (DB : Type) `{BoltDB DB} := BucketNames : DB → list string.

Class BoltFilesLaws (DB : Type) `{BoltFiles DB} :=
  BucketNames_Get : ∀ (db : DB) b k v, Get db b k = Some v → b ∈ BucketNames db.

Section files.
Context {DB : Type} `{HB : BoltDB DB, !BoltFiles DB}.
Implicit Types db : DB.

(** [Backup]: a copy of the database at [path]; [copied] is the error of [CopyFile]. *)
Definition Backup (copied : error) (path : string) db (files : gmap string DB) : gmap string DB * error :=
  match copied with
  | None => (<[path := db]> files, None)
  | Some err => (files, Some err)
  end.

(** [b.ForEach] with [newBucket.Put], into a bucket *)
Fixpoint put_all (b : string) (kvs : list (string * string)) (new : DB) : result DB :=
  match kvs with
  | [] => Ok new
  | (k, v) :: kvs =>
      match Put b k v new with
      | Err err => Err err
      | Ok new => put_all b kvs new
      end
  end.

Fixpoint copy_buckets db (names : list string) (new : DB) : result DB :=
  match names with
  | [] => Ok new
  | name :: names =>
      match CreateBucketIfNotExists name new with
      | Err err => Err err
      | Ok new =>
          match put_all name (Pairs db name) new with
          | Err err => Err err
          | Ok new => copy_buckets db names new
          end
      end
  end.

(** [Compact] into the file at [newPath]; a file that is there already is opened as it is. [opened] is
    the error of [bolt.Open]. *)
Definition Compact (opened : error) (newPath : string) db (files : gmap string DB) : gmap string DB * error :=
  match opened with
  | Some err => (files, Some ("failed to create new database: " +:+ err))
  | None =>
      let '(new, err) := Update (copy_buckets db (BucketNames db)) (default emptyDB (files !! newPath)) in
      (<[newPath := new]> files, err)
  end.

(** * Properties *)

Context `{!BoltLaws DB, !BoltFilesLaws DB}.

Lemma put_all_Get b kvs new new' :
  NoDup kvs.*1 → put_all b kvs new = Ok new' →
  (∀ b' k, b' ≠ b → Get new' b' k = Get new b' k) ∧
  (∀ k v, (k, v) ∈ kvs → Get new' b k = Some v) ∧
  (∀ k, k ∉ kvs.*1 → Get new' b k = Get new b k).
Proof.
  revert new. induction kvs as [|[k0 v0] kvs IH]; intros new Hnd; simpl.
  { intros [= <-]. split_and!; [done | by intros k v ?%elem_of_nil | done]. }
  simpl in Hnd. apply NoDup_cons in Hnd as [Hni Hnd].
  destruct (Put b k0 v0 new) as [new1|] eqn:Hput; [|done]. intros Hall.
  destruct (IH new1 Hnd Hall) as (Hother & Hin & Hout). pose proof (Get_Put _ _ _ _ _ Hput) as Hget.
  split_and!.
  - intros b' k Hb. rewrite Hother, Hget by done. rewrite decide_False; [done|]. by intros [? _].
  - intros k v [[= -> ->]|Hk]%elem_of_cons; [|by apply Hin].
    rewrite Hout by done. by rewrite Hget, decide_True.
  - intros k [Hk Hks]%not_elem_of_cons. rewrite Hout, Hget by done. rewrite decide_False; [done|].
    by intros [_ ?].
Qed.

(** What the new database holds after some buckets are copied *)
Definition copied db (names : list string) (old new : DB) : Prop :=
  ∀ b k, Get new b k =
    if decide (b ∈ names) then (match Get db b k with Some v => Some v | None => Get old b k end) else Get old b k.

Lemma put_all_copied db b old new :
  put_all b (Pairs db b) old = Ok new → copied db [b] old new.
Proof.
  intros Hput. destruct (put_all_Get b (Pairs db b) old new (Pairs_NoDup db b) Hput) as (Hother & Hin & Hout).
  intros b' k. case_decide as Hb.
  - apply list_elem_of_singleton in Hb as ->. destruct (Get db b k) as [v|] eqn:Hg.
    + apply Hin. by apply Pairs_Get.
    + apply Hout. intros ([k' v] & -> & Hkv%Pairs_Get)%list_elem_of_fmap. simpl in Hg. congruence.
  - apply Hother. intros ->. apply Hb. by apply list_elem_of_singleton.
Qed.

Lemma copy_buckets_copied db names old new :
  copy_buckets db names old = Ok new → copied db names old new.
Proof.
  revert old. induction names as [|b names IH]; intros old; simpl; [by intros [= <-] b k|].
  destruct (CreateBucketIfNotExists b old) as [old1|] eqn:Hc; [|done].
  destruct (put_all b (Pairs db b) old1) as [old2|] eqn:Hp; [|done].
  intros Hrest%IH. apply put_all_copied in Hp. intros b' k. rewrite (Hrest b' k), (Hp b' k).
  rewrite (Get_Create b old old1 Hc).
  destruct (decide (b' ∈ names)), (decide (b' ∈ [b])), (decide (b' ∈ b :: names)) as [|Hn];
    try (exfalso; set_solver); try done; by destruct (Get db b' k).
Qed.

(** C39: compaction keeps every record. When [Compact] succeeds, the new file holds each key of each
    bucket with the value it has in the store, and otherwise only what the file held before, so that
    on a new path it holds the same as the store; when it fails, the file holds what it held. *)
Theorem compact_keeps_records opened newPath db files files' err :
  Compact opened newPath db files = (files', err) →
  (∀ path, path ≠ newPath → files' !! path = files !! path) ∧
  let before := default emptyDB (files !! newPath) in
  let after := default emptyDB (files' !! newPath) in
  (err = None → ∀ b k, Get after b k = match Get db b k with Some v => Some v | None => Get before b k end) ∧
  (err = None → files !! newPath = None → ∀ b k, Get after b k = Get db b k) ∧
  (err ≠ None → ∀ b k, Get after b k = Get before b k).
Proof.
  unfold Compact. destruct opened as [e|]; [intros [= <- <-]; by split_and!|].
  destruct (Update _ _) as [new e] eqn:Hu. intros [= <- <-].
  split; [intros path Hp; by rewrite lookup_insert_ne|]. rewrite lookup_insert_eq. cbn [default from_option id].
  unfold Update in Hu. set (before := default emptyDB (files !! newPath)) in *.
  assert (Hcopy : e = None → ∀ b k, Get new b k = match Get db b k with Some v => Some v | None => Get before b k end).
  { intros ->. destruct (copy_buckets db (BucketNames db) before) as [new1|] eqn:Hc; [|done].
    destruct (CommitError new1); [done|]. simplify_eq. intros b k.
    rewrite (copy_buckets_copied _ _ _ _ Hc b k). case_decide as Hb; [done|].
    destruct (Get db b k) as [v|] eqn:Hg; [|done]. by destruct Hb; apply (BucketNames_Get db b k v). }
  split_and!; [done| |].
  - intros He Hnone b k. rewrite Hcopy by done. destruct (Get db b k); [done|]. unfold before. rewrite Hnone. apply Get_empty.
  - intros He. destruct (copy_buckets _ _ _) as [new1|]; [destruct (CommitError new1)|]; by simplify_eq.
Qed.
End files.

(** * A store in memory *)

#[export] Instance mem_files : BoltFiles mem_db := λ db, elements (mem_buckets db ∪ set_map fst (dom (mem_content db))).

#[export] Instance mem_files_laws : BoltFilesLaws mem_db.
Proof.
  intros db b k v Hg. unfold BucketNames, mem_files. apply elem_of_elements, elem_of_union_r, elem_of_map. exists (b, k). split; [done|].
  apply elem_of_dom. by exists v.
Qed.

(** Two tickets, compacted over a file with one other *)
Definition two_tickets : mem_db :=
  MkMemDB {[BucketTickets]} {[ (BucketTickets, "T1"%string) := "a"%string; (BucketTickets, "T2"%string) := "b"%string ]}.
Definition old_files : gmap string mem_db :=
  {[ "new.db"%string := MkMemDB {[BucketTickets]} {[ (BucketTickets, "T0"%string) := "z"%string ]} ]}.

Lemma compact_keeps_records_witness : ∃ files',
  Compact None "new.db" two_tickets old_files = (files', None) ∧
  ∀ b k, Get (default emptyDB (files' !! "new.db"%string)) b k =
    match Get two_tickets b k with Some v => Some v | None => Get (default emptyDB (old_files !! "new.db"%string)) b k end.
Proof.
  destruct (Compact None "new.db" two_tickets old_files) as [files' err] eqn:Hc.
  assert (He : err = None) by (change err with ((files', err).2); rewrite <- Hc; vm_compute; reflexivity).
  exists files'. rewrite He. split; [reflexivity|].
  exact (proj1 (proj2 (compact_keeps_records None "new.db" two_tickets old_files files' err Hc)) He).
Defined.
End StoreFiles.
