(* ===== verification/Network.v ===== *)
(** The network layer of a validator: the message router ([src/pkg/network/router.go]) and the
    peer-to-peer host ([src/pkg/network/host.go]): key derivation, framing of messages on a stream,
    and the peer table.

    libp2p is not part of the repository: a peer is its identifier, a stream the bytes it delivers,
    and whether opening and writing a stream succeeds is an argument. The handlers change an
    application state [W]. *)

From S2P Require Import Prelude Hashing Proto Messages.

Module Network.
Local Open Scope go_scope.

(** * Router *)

(** [ValidatorMessage_Type.String()] *)
Definition ValidatorMessage_Type_String (ty : Z) : string :=
  match list_lookup (Z.to_nat ty)
    ["PRE_PREPARE"; "PREPARE"; "COMMIT"; "VIEW_CHANGE"; "CHECKPOINT"; "STATE_UPDATE"; "HEARTBEAT";
     "CLIENT_REQUEST"; "STATE_SYNC_REQUEST"; "STATE_SYNC_RESPONSE"] with
  | Some name => if (ty <? 0)%Z then FormatInt ty else name
  | None => FormatInt ty
  end.

Section router.
Context {W : Type}.

Definition PBFTHandler : Type := Z → string → W → W * error.
Definition StateHandler : Type := pb.StateUpdate → W → W * error.
Definition StateSyncHandler : Type := Z → string → W → W * error.

Record MessageRouter := MkMessageRouter {
  pbftHandler : option PBFTHandler;
  stateHandler : option StateHandler;
  stateSyncHandler : option StateSyncHandler;
}.

Definition NewMessageRouter : MessageRouter := MkMessageRouter None None None.
Definition RegisterPBFTHandler h r := MkMessageRouter h (stateHandler r) (stateSyncHandler r).
Definition RegisterStateHandler h r := MkMessageRouter (pbftHandler r) h (stateSyncHandler r).
Definition RegisterStateSyncHandler h r := MkMessageRouter (pbftHandler r) (stateHandler r) h.

Context `{pb.ProtoMessage pb.ValidatorMessage, pb.ProtoMessage pb.StateUpdate}.

Definition to_pbft (r : MessageRouter) (msg : pb.ValidatorMessage) (w : W) : W * error :=
  match pbftHandler r with
  | None => (w, Some "no PBFT handler registered")
  | Some h => h (pb.vm_Type msg) (pb.vm_Payload msg) w
  end.

Definition RouteMessage (data senderID : string) (r : MessageRouter) (w : W) : W * error :=
  match Messages.DeserializeValidatorMessage data with
  | Err err => (w, Some ("failed to deserialize message from peer " +:+ senderID +:+ ": " +:+ err))
  | Ok msg =>
      let ty := pb.vm_Type msg in
      if (ty =? pb.ValidatorMessage_PRE_PREPARE)%Z || (ty =? pb.ValidatorMessage_PREPARE)%Z
         || (ty =? pb.ValidatorMessage_COMMIT)%Z then to_pbft r msg w
      else if (ty =? pb.ValidatorMessage_STATE_UPDATE)%Z then
        match stateHandler r with
        | None => (w, Some "no state handler registered")
        | Some h =>
            match pb.Unmarshal (M:=pb.StateUpdate) (pb.vm_Payload msg) with
            | Err err => (w, Some ("failed to unmarshal state update: " +:+ err))
            | Ok stateUpdate => h stateUpdate w
            end
        end
      else if (ty =? pb.ValidatorMessage_CLIENT_REQUEST)%Z then to_pbft r msg w
      else if (ty =? pb.ValidatorMessage_VIEW_CHANGE)%Z || (ty =? pb.ValidatorMessage_CHECKPOINT)%Z
              || (ty =? pb.ValidatorMessage_HEARTBEAT)%Z then to_pbft r msg w
      else if (ty =? pb.ValidatorMessage_STATE_SYNC_REQUEST)%Z
              || (ty =? pb.ValidatorMessage_STATE_SYNC_RESPONSE)%Z then
        match stateSyncHandler r with
        | None => (w, Some "no state sync handler registered")
        | Some h => h ty (pb.vm_Payload msg) w
        end
      else (w, Some ("unknown message type: " +:+ ValidatorMessage_Type_String ty +:+ " from peer "
                     +:+ senderID))
  end.

End router.
Arguments MessageRouter : clear implicits.

(** * Framing *)

Definition maxMsgLen : Z := 10 * 1024 * 1024.

(** What [SendMessage] writes: the length as 4 big-endian bytes, then the data. *)
Definition frame (data : string) : list Z :=
  let msgLen := (Z.of_nat (String.length data) mod 2 ^ 32)%Z in
  Hashing.be_bytes 4 msgLen ++ Hashing.bytes_of data.

(** [io.ReadFull]: exactly [n] bytes, or an error when the stream ends before. *)
Definition ReadFull (n : nat) (stream : list Z) : option (list Z * list Z) :=
  if bool_decide (length stream < n) then None else Some (take n stream, drop n stream).

(** The length prefix, as [handleStream] computes it. *)
Definition decode_len (lenBuf : list Z) : Z :=
  let byte i := default 0%Z (lenBuf !! i) in
  Z.lor (Z.lor (Z.lor (Z.shiftl (byte 0) 24) (Z.shiftl (byte 1) 16)) (Z.shiftl (byte 2) 8)) (byte 3).

(** The message on a stream; [None] when [handleStream] gives up. *)
Definition read_message (stream : list Z) : option string :=
  '(lenBuf, rest) ← ReadFull 4 stream;
  let msgLen := decode_len lenBuf in
  if (maxMsgLen <? msgLen)%Z then None
  else
    '(data, _) ← ReadFull (Z.to_nat msgLen) rest;
    Some (Hashing.string_of data).

(** * Peer table *)

Record PeerConnection := MkPeerConnection {
  pc_ID : string;
  pc_Addrs : list string;
  pc_LastSeen : Z;
  pc_IsValidator : bool;
  pc_MessagesSent : Z;
  pc_MessagesRecvd : Z;
}.

Section host.
Context {W : Type}.
Context `{pb.ProtoMessage pb.ValidatorMessage, pb.ProtoMessage pb.StateUpdate}.

Definition LegacyHandler : Type := string → string → W → W * error.

Record P2PHost := MkP2PHost {
  peers : gmap string PeerConnection;
  h_handlers : gmap string LegacyHandler;
  router : option (MessageRouter W);
}.

Definition set_peers v h := MkP2PHost v (h_handlers h) (router h).

Definition empty_host : P2PHost := MkP2PHost ∅ ∅ None.
Definition RegisterHandler (messageType : string) (handler : LegacyHandler) h :=
  MkP2PHost (peers h) (<[messageType := handler]> (h_handlers h)) (router h).
Definition SetRouter (r : option (MessageRouter W)) h := MkP2PHost (peers h) (h_handlers h) r.

(** The notification handlers of [NewP2PHost]. *)
Definition ConnectedF (peerID addr : string) (h : P2PHost) : P2PHost :=
  match peers h !! peerID with
  | Some _ => h
  | None => set_peers (<[peerID := MkPeerConnection peerID [addr] 0 true 0 0]> (peers h)) h
  end.

(** [conns]: how many connections to the peer remain. *)
Definition DisconnectedF (peerID : string) (conns : nat) (h : P2PHost) : P2PHost :=
  if bool_decide (conns = 0) then set_peers (delete peerID (peers h)) h else h.

(** [connected] is the error of the host's own [Connect]. *)
Definition Connect (peerID : string) (addrs : list string) (connected : error) (h : P2PHost) :
    P2PHost * error :=
  match connected with
  | Some err => (h, Some ("failed to connect to peer " +:+ peerID +:+ ": " +:+ err))
  | None => (set_peers (<[peerID := MkPeerConnection peerID addrs 0 true 0 0]> (peers h)) h, None)
  end.

Definition count_sent (p : PeerConnection) : PeerConnection :=
  MkPeerConnection (pc_ID p) (pc_Addrs p) (pc_LastSeen p) (pc_IsValidator p)
    (wrap_i64 (pc_MessagesSent p + 1)) (pc_MessagesRecvd p).
Definition count_received (p : PeerConnection) : PeerConnection :=
  MkPeerConnection (pc_ID p) (pc_Addrs p) (pc_LastSeen p) (pc_IsValidator p)
    (pc_MessagesSent p) (wrap_i64 (pc_MessagesRecvd p + 1)).

(** What happens to a stream: it cannot be opened, or one of the two writes fails. *)
Inductive stream_result := NoStream (err : string) | LenFails (err : string) | DataFails (err : string) | Sent.

Definition SendMessage (peerID data : string) (stream : stream_result) (h : P2PHost) :
    P2PHost * list Z * error :=
  match stream with
  | NoStream err => (h, [], Some ("failed to create stream to peer " +:+ peerID +:+ ": " +:+ err))
  | LenFails err => (h, [], Some ("failed to write message length: " +:+ err))
  | DataFails err => (h, [], Some ("failed to write message data: " +:+ err))
  | Sent =>
      (match peers h !! peerID with
       | Some p => set_peers (<[peerID := count_sent p]> (peers h)) h
       | None => h
       end, frame data, None)
  end.

(** [decode] is [peer.Decode]. *)
Definition SendTo (decode : string → result string) (nodeID data : string) (stream : stream_result)
    (h : P2PHost) : P2PHost * list Z * error :=
  match decode nodeID with
  | Err err => (h, [], Some ("failed to decode peer ID " +:+ nodeID +:+ ": " +:+ err))
  | Ok peerID => SendMessage peerID data stream h
  end.

(** The sends of [Broadcast], in the order in which the workers finish; the first error that
    was reported is returned. *)
Fixpoint broadcast_to (order : list string) (data : string) (stream : string → stream_result)
    (h : P2PHost) : P2PHost * list (string * list Z) * error :=
  match order with
  | [] => (h, [], None)
  | pid :: order =>
      let '(h, bytes, err) := SendMessage pid data (stream pid) h in
      let '(h, sent, err') := broadcast_to order data stream h in
      match err with
      | Some err => (h, sent, Some err)
      | None => (h, (pid, bytes) :: sent, err')
      end
  end.

Definition GetPeers (h : P2PHost) : list string := fst <$> map_to_list (peers h).

Definition GetConnectedPeers (h : P2PHost) : list (string * list string) :=
  (λ e, (e.1, pc_Addrs e.2)) <$> map_to_list (peers h).

Definition GetPeerCount (h : P2PHost) : Z := Z.of_nat (size (peers h)).

(** [order] is a permutation of the peers. *)
Definition Broadcast (order : list string) (data : string) (stream : string → stream_result)
    (h : P2PHost) : P2PHost * list (string * list Z) * error := broadcast_to order data stream h.

(** A new stream from a peer; errors are only printed. Without a router every legacy handler is
    called, in the order of the copied map. *)
Definition handleStream (peerID : string) (stream : list Z) (h : P2PHost) (w : W) : P2PHost * W :=
  match read_message stream with
  | None => (h, w)
  | Some data =>
      let h :=
        set_peers (<[peerID := match peers h !! peerID with
                               | Some p => count_received p
                               | None => MkPeerConnection peerID [] 0 false 0 1
                               end]> (peers h)) h in
      match router h with
      | Some r => (h, fst (RouteMessage data peerID r w))
      | None => (h, foldl (λ w e, fst (e.2 peerID data w)) w (map_to_list (copy_map (h_handlers h))))
      end
  end.

End host.
Arguments P2PHost : clear implicits.

(** * Key derivation *)

(** [deterministicReader]: the seed so far, and the position. *)
Record deterministicReader := MkReader { seed : list Z; pos : nat }.

(** One iteration of the loop of [Read]. *)
Definition extend (seed : list Z) : list Z := seed ++ Hashing.Sum256 (Hashing.string_of seed).

Fixpoint extend_to (fuel : nat) (n : nat) (r : deterministicReader) : deterministicReader :=
  match fuel with
  | O => r
  | S fuel =>
      if bool_decide (length (seed r) - pos r < n) then
        extend_to fuel n (MkReader (extend (seed r)) (pos r))
      else r
  end.

(** [Read(p)] with [len(p) = n]; every iteration adds 32 bytes, so [n] of them are enough. *)
Definition Read (n : nat) (r : deterministicReader) : deterministicReader * list Z :=
  let r := extend_to n n r in
  (MkReader (seed r) (pos r + n), take n (drop (pos r) (seed r))).

(** [salt] is the environment variable [DTVN_KEY_SEED]. *)
Definition key_reader (salt nodeID : string) : deterministicReader :=
  let salt := if String.eqb salt "" then "dtvn-validator-key-v1" else salt in
  MkReader (Hashing.Sum256 (salt +:+ nodeID)) 0.

(** The loop ends with enough bytes, and only appends. *)
Lemma extend_to_enough fuel n r :
  pos r ≤ length (seed r) → n ≤ length (seed r) - pos r + 32 * fuel →
  n ≤ length (seed (extend_to fuel n r)) - pos r ∧
  pos (extend_to fuel n r) = pos r ∧ seed r `prefix_of` seed (extend_to fuel n r).
Proof.
  revert r. induction fuel as [|fuel IH]; intros r Hp Hn; cbn [extend_to]; [split_and!; [lia|done..]|].
  case_bool_decide as Hlt; [|split_and!; [lia|done..]].
  assert (length (extend (seed r)) = length (seed r) + 32) as Hl.
  { unfold extend. by rewrite length_app, Hashing.length_Sum256. }
  destruct (IH (MkReader (extend (seed r)) (pos r))) as (He & Hpos & Hpre); [cbn; lia..|].
  cbn [seed pos] in *. split_and!; [done..|]. etrans; [|exact Hpre]. by eexists.
Qed.

(** [Read] fills the buffer it is given, whatever its size. *)
Lemma Read_fills n r :
  pos r ≤ length (seed r) →
  length (Read n r).2 = n ∧ pos (Read n r).1 = pos r + n ∧
  pos (Read n r).1 ≤ length (seed (Read n r).1) ∧ seed r `prefix_of` seed (Read n r).1.
Proof.
  intros Hp. destruct (extend_to_enough n n r Hp ltac:(lia)) as (He & Hpos & Hpre).
  unfold Read. cbn [fst snd seed pos]. rewrite Hpos, length_take, length_drop.
  pose proof (prefix_length _ _ Hpre). split_and!; [lia|lia|lia|done].
Qed.

(** * Framing is exact *)

Lemma lor_low_byte a b : (0 ≤ b < 2 ^ 8)%Z → Z.lor (Z.shiftl a 8) b = (a * 2 ^ 8 + b)%Z.
Proof.
  intros Hb. rewrite <- (Z.shiftl_mul_pow2 a 8) by lia.
  assert (Z.land (Z.shiftl a 8) b = 0%Z) as Hl.
  { apply Z.bits_inj'. intros i Hi. rewrite Z.land_spec, Z.bits_0.
    destruct (Z.ltb_spec i 8).
    - by rewrite Z.shiftl_spec_low by lia.
    - rewrite (Z.bits_above_log2 b i), andb_false_r; [done|lia|].
      destruct (decide (b = 0)%Z) as [->|]; [simpl; lia|]. apply Z.log2_lt_pow2; [lia|].
      eapply Z.lt_le_trans; [apply Hb|]. apply Z.pow_le_mono_r; lia. }
  pose proof (Z.add_lor_land (Z.shiftl a 8) b) as Ha. rewrite Hl in Ha. lia.
Qed.

Lemma byte_at w i : Z.land (Z.shiftr w i) 0xff = ((w / 2 ^ i) mod 2 ^ 8)%Z ∨ (i < 0)%Z.
Proof.
  destruct (Z.ltb_spec i 0); [by right|left].
  rewrite Z.shiftr_div_pow2 by done. change 0xff%Z with (Z.ones 8). by rewrite Z.land_ones by lia.
Qed.

Lemma decode_len_bytes w : (0 ≤ w < 2 ^ 32)%Z → decode_len (Hashing.be_bytes 4 w) = w.
Proof.
  intros Hw. unfold decode_len. cbn [Hashing.be_bytes]. cbn [lookup list_lookup default from_option id].
  change (8 * Z.of_nat 3)%Z with 24%Z. change (8 * Z.of_nat 2)%Z with 16%Z.
  change (8 * Z.of_nat 1)%Z with 8%Z. change (8 * Z.of_nat 0)%Z with 0%Z.
  destruct (byte_at w 24) as [->|]; [|lia]. destruct (byte_at w 16) as [->|]; [|lia].
  destruct (byte_at w 8) as [->|]; [|lia]. destruct (byte_at w 0) as [->|]; [|lia].
  set (b0 := ((w / 2 ^ 24) mod 2 ^ 8)%Z). set (b1 := ((w / 2 ^ 16) mod 2 ^ 8)%Z).
  set (b2 := ((w / 2 ^ 8) mod 2 ^ 8)%Z). set (b3 := ((w / 2 ^ 0) mod 2 ^ 8)%Z).
  replace (Z.shiftl b0 24) with (Z.shiftl (Z.shiftl (Z.shiftl b0 8) 8) 8)
    by (rewrite !Z.shiftl_shiftl by lia; done).
  replace (Z.shiftl b1 16) with (Z.shiftl (Z.shiftl b1 8) 8) by (rewrite !Z.shiftl_shiftl by lia; done).
  rewrite <- !Z.shiftl_lor.
  assert (∀ x, 0 ≤ x mod 2 ^ 8 < 2 ^ 8)%Z as Hr by (intros; apply Z.mod_pos_bound; lia).
  rewrite (lor_low_byte b0 b1), (lor_low_byte _ b2), (lor_low_byte _ b3) by apply Hr.
  unfold b0, b1, b2, b3. change (2 ^ 0)%Z with 1%Z.
  change (2 ^ 32)%Z with 4294967296%Z in *. change (2 ^ 24)%Z with 16777216%Z in *.
  change (2 ^ 16)%Z with 65536%Z in *. change (2 ^ 8)%Z with 256%Z in *. Z.to_euclidean_division_equations; lia.
Qed.

Lemma length_bytes_of data : length (Hashing.bytes_of data) = String.length data.
Proof. induction data as [|a data IH]; simpl; [done|]. by rewrite IH. Qed.

Lemma ReadFull_app bs rest : ReadFull (length bs) (bs ++ rest) = Some (bs, rest).
Proof.
  unfold ReadFull. rewrite bool_decide_false by (rewrite length_app; lia).
  by rewrite take_app_length, drop_app_length.
Qed.

Lemma ReadFull_short n bs : length bs < n → ReadFull n bs = None.
Proof. intros Hn. unfold ReadFull. by rewrite bool_decide_true. Qed.

Lemma length_frame data : length (frame data) = 4 + String.length data.
Proof. unfold frame. by rewrite length_app, length_bytes_of. Qed.

(** C36: framing: a message of at most 10 MiB is read back exactly from the stream it was written to,
    whatever follows it; a longer one (below 2^32 bytes, where the length prefix is exact) is
    refused; and a stream that ends anywhere inside the frame yields no message at all. *)
Theorem frame_roundtrip data rest k :
  (Z.of_nat (String.length data) < 2 ^ 32)%Z →
  (if decide (Z.of_nat (String.length data) ≤ maxMsgLen)%Z
   then read_message (frame data ++ rest) = Some data
   else read_message (frame data ++ rest) = None) ∧
  (k < length (frame data) → read_message (take k (frame data)) = None).
Proof.
  intros Hlen. set (len := Z.of_nat (String.length data)) in *.
  assert (0 ≤ len < 2 ^ 32)%Z as Hr by lia.
  assert (frame data = Hashing.be_bytes 4 len ++ Hashing.bytes_of data) as Hf.
  { unfold frame. fold len. by rewrite Z.mod_small. }
  assert (length (Hashing.be_bytes 4 len) = 4) as H4 by done.
  split.
  - rewrite Hf. unfold read_message. rewrite <- app_assoc, <- H4, ReadFull_app.
    cbn [mbind option_bind]. rewrite decode_len_bytes by done.
    destruct (Z.ltb_spec maxMsgLen len) as [Hgt|Hle].
    + by rewrite decide_False by lia.
    + rewrite decide_True by done. unfold len. rewrite Nat2Z.id, <- length_bytes_of, ReadFull_app.
      cbn [mbind option_bind]. by rewrite Hashing.string_of_bytes_of.
  - intros Hk. rewrite length_frame in Hk. unfold read_message.
    destruct (decide (k < 4)) as [Hk4|Hk4].
    { by rewrite ReadFull_short by (rewrite length_take, length_frame; lia). }
    rewrite Hf, take_app, H4, (take_ge (Hashing.be_bytes 4 len)) by lia.
    rewrite <- H4 at 1. rewrite ReadFull_app. cbn [mbind option_bind].
    rewrite decode_len_bytes by done. case_match; [done|].
    rewrite ReadFull_short; [done|]. unfold len. rewrite Nat2Z.id, length_take, length_bytes_of. lia.
Qed.

Section routing.
Context {W : Type}.
Context `{!pb.ProtoMessage pb.ValidatorMessage, !pb.ProtoLaws pb.ValidatorMessage pb.unset_ValidatorMessage}.
Context `{!pb.ProtoMessage pb.StateUpdate}.

(** Routing: a message that a node serialized with [SerializePBFTMessage] is handed, with its
    type and payload, to exactly the handler of its type: consensus messages, forwarded requests and
    heartbeats to the PBFT handler, state updates (once decoded) to the state handler, both kinds
    of state synchronisation to theirs; any other type is refused and nothing happens. *)
Theorem message_reaches_its_handler (hp : PBFTHandler (W:=W)) (hs : StateHandler) (hy : StateSyncHandler)
    ty payload sender from data w :
  Messages.SerializePBFTMessage ty payload sender = Ok data →
  let r := MkMessageRouter (Some hp) (Some hs) (Some hy) in
  (ty ∈ [0; 1; 2; 3; 4; 6; 7]%Z → RouteMessage data from r w = hp ty payload w) ∧
  (ty = 5%Z → ∀ u, pb.Unmarshal payload = Ok u → RouteMessage data from r w = hs u w) ∧
  (ty ∈ [8; 9]%Z → RouteMessage data from r w = hy ty payload w) ∧
  ((ty < 0 ∨ 9 < ty)%Z → ∃ err, RouteMessage data from r w = (w, Some err)).
Proof.
  intros Hs r.
  assert (Messages.DeserializeValidatorMessage data = Ok (pb.MkValidatorMessage ty payload "" 0 sender)) as Hd
    by (by eapply Messages.envelope_decodes).
  unfold RouteMessage. rewrite Hd. cbn [pb.vm_Type pb.vm_Payload]. split_and!.
  - intros Hin. rewrite !elem_of_cons, elem_of_nil in Hin.
    destruct_or! Hin; subst; done.
  - intros -> u Hu. simpl. by rewrite Hu.
  - intros Hin. rewrite !elem_of_cons, elem_of_nil in Hin. destruct_or! Hin; subst; done.
  - intros Hout.
    unfold pb.ValidatorMessage_PRE_PREPARE, pb.ValidatorMessage_PREPARE, pb.ValidatorMessage_COMMIT,
      pb.ValidatorMessage_STATE_UPDATE, pb.ValidatorMessage_CLIENT_REQUEST,
      pb.ValidatorMessage_VIEW_CHANGE, pb.ValidatorMessage_CHECKPOINT, pb.ValidatorMessage_HEARTBEAT,
      pb.ValidatorMessage_STATE_SYNC_REQUEST, pb.ValidatorMessage_STATE_SYNC_RESPONSE.
    repeat match goal with |- context [(ty =? ?c)%Z] => destruct (Z.eqb_spec ty c); [lia|] end.
    by eexists.
Qed.

End routing.

Lemma frame_roundtrip_witness :
  read_message (frame "hello" ++ [1; 2]%Z) = Some "hello" ∧ read_message (take 6 (frame "hello")) = None.
Proof.
  assert (Z.of_nat (String.length "hello") < 2 ^ 32)%Z as Hl by (vm_compute; reflexivity).
  pose proof (frame_roundtrip "hello" [1; 2]%Z 6 Hl) as [Hf Hs].
  rewrite decide_True in Hf by (vm_compute; discriminate).
  split; [exact Hf|]. apply Hs. vm_compute. lia.
Defined.

#[local] Existing Instance pb.bit_codec.
#[local] Existing Instance pb.bit_codec_laws.

Lemma message_reaches_its_handler_witness : ∃ data,
  Messages.SerializePBFTMessage 8 "p" "node1" = Ok data ∧
  RouteMessage data "peer" (MkMessageRouter (Some (λ ty _ w, (w ++ ["pbft"], None)))
    (Some (λ _ w, (w ++ ["state"], None))) (Some (λ ty _ w, (w ++ ["sync"], None)))) [] = (["sync"], None).
Proof.
  assert (∃ data, Messages.SerializePBFTMessage 8 "p" "node1" = Ok data) as [data Hd]
    by (eexists; vm_compute; reflexivity).
  exists data. split; [exact Hd|].
  refine (proj1 (proj2 (proj2 (message_reaches_its_handler (λ ty _ w, (w ++ ["pbft"], None))
    (λ _ w, (w ++ ["state"], None)) (λ ty _ w, (w ++ ["sync"], None)) 8 "p" "node1" "peer" data [] Hd))) _).
  left.
Defined.

End Network.
