(* ===== verification/Notifier.v ===== *)
(** Event-driven notifications of ticket changes: [StateNotifier] of [src/pkg/state/machine.go].

    A channel of capacity 1 is an identity with its buffered value; subscribers are the channels of
    a ticket, in order of subscription. *)

From S2P Require Import Prelude.

Module Notifier.

(** A [chan TicketState] made by [Subscribe], by identity. *)
Abbreviation Chan := nat.

Record StateNotifier := MkStateNotifier {
  subscribers : gmap string (list Chan);
  buffers : gmap Chan (option string);  (** what each channel holds *)
  next_chan : Chan;
}.

Definition NewStateNotifier : StateNotifier := MkStateNotifier ∅ ∅ 0.

Definition subs_of (sn : StateNotifier) (ticketID : string) : list Chan :=
  default [] (subscribers sn !! ticketID).

Definition Subscribe (ticketID : string) (sn : StateNotifier) : StateNotifier * Chan :=
  let ch := next_chan sn in
  (MkStateNotifier (<[ticketID := subs_of sn ticketID ++ [ch]]> (subscribers sn))
     (<[ch := None]> (buffers sn)) (S ch), ch).

(** Removes the first occurrence. *)
Fixpoint remove_first (ch : Chan) (subs : list Chan) : list Chan :=
  match subs with
  | [] => []
  | s :: subs => if decide (s = ch) then subs else s :: remove_first ch subs
  end.

Definition Unsubscribe (ticketID : string) (ch : Chan) (sn : StateNotifier) : StateNotifier :=
  let subs := subs_of sn ticketID in
  let found := bool_decide (ch ∈ subs) in
  let left_over := remove_first ch subs in
  let m := if found then <[ticketID := left_over]> (subscribers sn) else subscribers sn in
  let m := if bool_decide (length (default [] (m !! ticketID)) = 0) then delete ticketID m else m in
  MkStateNotifier m (buffers sn) (next_chan sn).

(** [select { case ch <- newState: default: }]: a full channel is skipped. *)
Definition offer (newState : string) (buffers : gmap Chan (option string)) (ch : Chan) :
    gmap Chan (option string) :=
  match buffers !! ch with
  | Some None => <[ch := Some newState]> buffers
  | _ => buffers
  end.

Definition Notify (ticketID newState : string) (sn : StateNotifier) : StateNotifier :=
  MkStateNotifier (subscribers sn) (foldl (offer newState) (buffers sn) (subs_of sn ticketID))
    (next_chan sn).

(** [<-ch] when the channel holds a value. *)
Definition Receive (ch : Chan) (sn : StateNotifier) : option (string * StateNotifier) :=
  match buffers sn !! ch with
  | Some (Some s) => Some (s, MkStateNotifier (subscribers sn) (<[ch := None]> (buffers sn)) (next_chan sn))
  | _ => None
  end.

(** ** What a subscriber can rely on *)

Lemma offer_lookup s subs (b : gmap Chan (option string)) ch :
  foldl (offer s) b subs !! ch =
    if decide (ch ∈ subs ∧ b !! ch = Some None) then Some (Some s) else b !! ch.
Proof.
  revert b. induction subs as [|c subs IH]; intros b; cbn [foldl].
  { rewrite decide_False; [done|]. intros [Hin _]. by apply elem_of_nil in Hin. }
  rewrite IH. assert (Hof : ∀ x, offer s b c !! x =
    if decide (x = c ∧ b !! x = Some None) then Some (Some s) else b !! x).
  { intros x. unfold offer. destruct (b !! c) as [[v|]|] eqn:Hc.
    - rewrite decide_False by naive_solver. done.
    - destruct (decide (x = c)) as [->|Hne].
      + rewrite lookup_insert_eq. by rewrite decide_True.
      + rewrite lookup_insert_ne by done. by rewrite decide_False by naive_solver.
    - rewrite decide_False by naive_solver. done. }
  rewrite Hof. repeat case_decide; try done; rewrite ?elem_of_cons in *; naive_solver.
Qed.

(** The channel [ch] is subscribed to [ticketID]. *)
Definition listening (sn : StateNotifier) (ticketID : string) (ch : Chan) : Prop :=
  ch ∈ subs_of sn ticketID ∧ is_Some (buffers sn !! ch).

Lemma Subscribe_listening ticketID sn sn' ch :
  Subscribe ticketID sn = (sn', ch) → listening sn' ticketID ch ∧ buffers sn' !! ch = Some None.
Proof.
  intros [= <- <-]. unfold listening, subs_of; simpl. rewrite !lookup_insert_eq; simpl.
  split; [|done]. split; [|by eexists]. apply elem_of_app. right. by left.
Qed.

(** A change after the subscription is seen: the channel then holds the first state notified since
    it was last read. *)
Lemma Notify_wakes ticketID s sn ch :
  listening sn ticketID ch →
  ∃ s', buffers (Notify ticketID s sn) !! ch = Some (Some s') ∧
    (buffers sn !! ch = Some None → s' = s).
Proof.
  intros [Hin [b Hb]]. unfold Notify; simpl. rewrite offer_lookup, Hb.
  destruct b as [v|].
  - rewrite decide_False by naive_solver. by exists v.
  - rewrite decide_True by done. by exists s.
Qed.

End Notifier.
