(* ===== verification/Discovery.v ===== *)
(** Peer discovery: [src/pkg/network/discovery.go], and the callbacks that [src/cmd/validator/main.go]
    registers with it.

    The Kademlia DHT and the libp2p host are libraries: what they answer are arguments, and the peers
    the host is connected to are part of the world, which every step can look at. A call of
    [discoverPeers] is a [Pass]: its loop goes on step by step, beside the goroutines that connect and
    beside other passes. Timeouts only end the library's calls. *)

From S2P Require Import Prelude.

Module Discovery.

(** [peer.AddrInfo]; identifiers and addresses as text *)
Record AddrInfo := MkAddrInfo { ID : string; Addrs : list string }.

#[export] Instance AddrInfo_eq_dec : EqDecision AddrInfo.
Proof. solve_decision. Defined.

Definition MaxConcurrentConnections : nat := 5.

Section discovery.
(** [G] is what the callback changes. *)
Context {G : Type}.

(** The callback gets the peers that the host is connected to at that time. *)
Definition PeerCallback : Type := AddrInfo → gset string → G → G.

Record Discovery := MkDiscovery {
  peers : gmap string AddrInfo;
  onPeerFound : option PeerCallback;
}.

Definition set_peers v d := MkDiscovery v (onPeerFound d).

Definition OnPeerFound (callback : PeerCallback) (d : Discovery) : Discovery :=
  MkDiscovery (peers d) (Some callback).

(** [order] is the order in which the map is iterated. *)
Definition GetPeers (order : gmap string AddrInfo → list (string * AddrInfo)) (d : Discovery) : list AddrInfo :=
  (order (peers d)).*2.

(** ** Construction *)

(** What a goroutine of [connectToBootstrapPeers] reports; [answer] is the error of [Connect]. *)
Definition bootstrap_error (pi : AddrInfo) (answer : error) : error :=
  if (ID pi =? "")%string then None
  else match answer with
       | Some err => Some ("failed to connect to bootstrap peer " +:+ ID pi +:+ ": " +:+ err)
       | None => None
       end.

(** The goroutines end in this order, with these answers; the first error is kept. *)
Definition connectToBootstrapPeers (ends : list (AddrInfo * error)) : error :=
  foldl (λ firstErr e, match bootstrap_error e.1 e.2 with
                       | Some err => match firstErr with None => Some err | _ => firstErr end
                       | None => firstErr
                       end) None ends.

(** [new] and [bootstrap] are the answers of [dht.New] and [Bootstrap]. *)
Definition NewDiscovery (new bootstrap : error) (ends : list (AddrInfo * error)) : result Discovery :=
  match new with
  | Some err => Err ("failed to create DHT: " +:+ err)
  | None =>
      match bootstrap with
      | Some err => Err ("failed to bootstrap DHT: " +:+ err)
      | None =>
          match (if bool_decide (0 < length ends) then connectToBootstrapPeers ends else None) with
          | Some err => Err ("failed to connect to bootstrap peers: " +:+ err)
          | None => Ok (MkDiscovery ∅ None)
          end
      end
  end.

(** ** Passes *)

(** Where the loop of a pass stands with a peer: past the checks, recorded, told to the callback and
    waiting for a place among the connecting goroutines. *)
Inductive stage :=
| Receiving
| Checked (pi : AddrInfo)
| Recorded (pi : AddrInfo)
| Acquiring (pi : AddrInfo).

Record Pass := MkPass {
  p_stage : stage;
  p_chan : list AddrInfo;         (** what the channel of [FindPeers] still delivers *)
  p_connecting : list AddrInfo;   (** the goroutines that connect; each holds a place of [sem] *)
}.

Record World := MkWorld {
  disc : Discovery;
  connected : gset string;        (** the peers the host is connected to *)
  passes : list Pass;
  app : G;
}.

Definition set_pass (k : nat) (p : Pass) (w : World) : World :=
  MkWorld (disc w) (connected w) (<[k := p]> (passes w)) (app w).

Definition set_disc d w := MkWorld d (connected w) (passes w) (app w).
Definition set_connected c w := MkWorld (disc w) c (passes w) (app w).

(** A call of [discoverPeers]: without an answer of [FindPeers] it returns. *)
Definition discoverPeers_begin (found : result (list AddrInfo)) (w : World) : World :=
  match found with
  | Err _ => w
  | Ok chan => MkWorld (disc w) (connected w) (passes w ++ [MkPass Receiving chan []]) (app w)
  end.

(** The loop goes on; [None] when it waits. [self] is the identifier of the host. *)
Definition discoverPeers_step (self : string) (k : nat) (w : World) : option World :=
  match passes w !! k with
  | None => None
  | Some (MkPass st chan conns) =>
      match st with
      | Receiving =>
          match chan with
          | [] => None
          | pi :: chan =>
              if (ID pi =? self)%string then Some (set_pass k (MkPass Receiving chan conns) w)
              else if bool_decide (ID pi ∈ connected w) then Some (set_pass k (MkPass Receiving chan conns) w)
              else Some (set_pass k (MkPass (Checked pi) chan conns) w)
          end
      | Checked pi =>
          Some (set_pass k (MkPass (Recorded pi) chan conns)
            (set_disc (set_peers (<[ID pi := pi]> (peers (disc w))) (disc w)) w))
      | Recorded pi =>
          let g := match onPeerFound (disc w) with
            | Some callback => callback pi (connected w) (app w)
            | None => app w
            end in
          Some (set_pass k (MkPass (Acquiring pi) chan conns) (MkWorld (disc w) (connected w) (passes w) g))
      | Acquiring pi =>
          if bool_decide (length conns < MaxConcurrentConnections)
          then Some (set_pass k (MkPass Receiving chan (conns ++ [pi])) w)
          else None
      end
  end.

(** The [i]-th connecting goroutine of a pass has got its connection: [Connect] is about to return. *)
Definition connect_made (k i : nat) (w : World) : option World :=
  match passes w !! k with
  | Some (MkPass _ _ conns) =>
      match conns !! i with
      | Some pi => Some (set_connected ({[ID pi]} ∪ connected w) w)
      | None => None
      end
  | None => None
  end.

(** It ends, with the connection or an error that is printed, and gives its place back. *)
Definition connect_end (k i : nat) (w : World) : option World :=
  match passes w !! k with
  | Some (MkPass st chan conns) =>
      match conns !! i with
      | Some _ => Some (set_pass k (MkPass st chan (delete i conns)) w)
      | None => None
      end
  | None => None
  end.

(** ** Runs *)

Inductive event :=
| EvDiscover (found : result (list AddrInfo))
| EvStep (k : nat)
| EvConnected (k i : nat)
| EvConnectEnd (k i : nat)
| EvNetwork (conns : gset string).  (** the host's connections change for other reasons *)

Definition run_event (self : string) (ev : event) (w : World) : option World :=
  match ev with
  | EvDiscover found => Some (discoverPeers_begin found w)
  | EvStep k => discoverPeers_step self k w
  | EvConnected k i => connect_made k i w
  | EvConnectEnd k i => connect_end k i w
  | EvNetwork conns => Some (set_connected conns w)
  end.

Fixpoint run_events (self : string) (evs : list event) (w : World) : option World :=
  match evs with
  | [] => Some w
  | ev :: evs => match run_event self ev w with Some w => run_events self evs w | None => None end
  end.

Definition begin (d : Discovery) (conns : gset string) (g : G) : World := MkWorld d conns [] g.
End discovery.
Arguments Discovery : clear implicits.
Arguments PeerCallback : clear implicits.
Arguments World : clear implicits.

(** ** The callbacks of the node, [setupHandlers] and [setupPeerCallbacks] *)

(** The peers that state was requested from, in the order in which the goroutines were started. *)
Abbreviation requests := (list string).

(** [setupHandlers] registers one that prints only. *)
Definition printing_callback : PeerCallback requests := λ _ _ g, g.

Definition sync_callback : PeerCallback requests := λ peerInfo conns g,
  if bool_decide (ID peerInfo ∈ conns) then g ++ [ID peerInfo] else g.

Definition setupPeerCallbacks (d : Discovery requests) : Discovery requests :=
  OnPeerFound sync_callback d.

(** What [NewValidatorNode] has registered in the end: a later callback replaces the earlier one. *)
Definition node_discovery (d : Discovery requests) : Discovery requests :=
  setupPeerCallbacks (OnPeerFound printing_callback d).
End Discovery.
