(* ===== verification/DiscoveryProps.v ===== *)
(** Properties of peer discovery ([Discovery], [src/pkg/network/discovery.go]): how many connections it
    tries at a time, and when the callback of the node asks for state. *)

From S2P Require Import Prelude Discovery.

Module DiscoveryProps.
Import Discovery.

(** * Every run *)

Section runs.
Context {G : Type}.
Implicit Types w : World G.
Implicit Types d : Discovery G.
Variable self : string.

(** A peer that is being looked at or connected to *)
Definition candidate (w : World G) (pi : AddrInfo) : Prop := ID pi ≠ self ∧ is_Some (peers (disc w) !! ID pi).

Definition stage_ok (w : World G) (st : stage) : Prop :=
  match st with
  | Receiving => True
  | Checked pi => ID pi ≠ self
  | Recorded pi | Acquiring pi => candidate w pi
  end.

Definition pass_ok (w : World G) (p : Pass) : Prop :=
  stage_ok w (p_stage p) ∧ length (p_connecting p) ≤ MaxConcurrentConnections ∧
  Forall (candidate w) (p_connecting p).

Definition recorded_ok (w : World G) : Prop :=
  ∀ i pi, peers (disc w) !! i = Some pi → ID pi = i ∧ i ≠ self.

Definition world_ok (w : World G) : Prop := Forall (pass_ok w) (passes w) ∧ recorded_ok w.

Lemma candidate_mono w w' pi : dom (peers (disc w)) ⊆ dom (peers (disc w')) → candidate w pi → candidate w' pi.
Proof. intros Hsub [Hne Hin]. split; [done|]. rewrite <- elem_of_dom in *. set_solver. Qed.

Lemma pass_ok_mono w w' p : dom (peers (disc w)) ⊆ dom (peers (disc w')) → pass_ok w p → pass_ok w' p.
Proof.
  intros Hsub (Hst & Hlen & Hall). split_and!; [|done|].
  - destruct (p_stage p); simpl in *; eauto using candidate_mono.
  - eapply Forall_impl; [done|]. intros pi. by apply candidate_mono.
Qed.

(** A pass changes, and the world may know more peers. *)
Lemma world_ok_pass w w' k p :
  world_ok w → passes w' = <[k := p]> (passes w) → dom (peers (disc w)) ⊆ dom (peers (disc w')) →
  recorded_ok w' → pass_ok w' p → world_ok w'.
Proof.
  intros [Hall _] Hpass Hsub Hrec Hp. split; [|done]. rewrite Hpass. apply Forall_insert; [|done].
  eapply Forall_impl; [done|]. intros q. by apply pass_ok_mono.
Qed.

Lemma Forall_delete {A} (P : A → Prop) (l : list A) i : Forall P l → Forall P (delete i l).
Proof.
  revert i. induction l as [|x l IH]; intros [|i] Hl; simpl; try done; inversion Hl; subst; [done|].
  constructor; [done | by apply IH].
Qed.

Lemma length_delete_le {A} (l : list A) i : length (delete i l) ≤ length l.
Proof. revert i. induction l as [|x l IH]; intros [|i]; simpl; [lia..|]. specialize (IH i). lia. Qed.

Lemma step_ok k w w' : world_ok w → discoverPeers_step self k w = Some w' → world_ok w'.
Proof.
  intros Hok Hstep. unfold discoverPeers_step in Hstep. pose proof Hok as [Hall Hrec].
  destruct (passes w !! k) as [[st chan conns]|] eqn:Hk; [|done].
  pose proof (Forall_lookup_1 _ _ _ _ Hall Hk) as (Hst & Hlen & Hconn). cbn in Hst, Hlen, Hconn.
  destruct st as [|pi|pi|pi]; cbn in Hst.
  - destruct chan as [|pi chan]; [done|].
    destruct (String.eqb_spec (ID pi) self) as [|Hne]; [|destruct (bool_decide _)];
      simplify_eq; by eapply world_ok_pass.
  - simplify_eq. eapply world_ok_pass; [done..| | |]; simpl.
    + rewrite dom_insert. set_solver.
    + intros i pj. simpl. destruct (decide (i = ID pi)) as [->|Hne].
      * rewrite lookup_insert_eq. intros [= <-]. done.
      * rewrite lookup_insert_ne by done. apply Hrec.
    + assert (Hsub : dom (peers (disc w)) ⊆ dom (<[ID pi := pi]> (peers (disc w)))) by (rewrite dom_insert; set_solver).
      split_and!; cbn; [|done|].
      * split; [done|]. simpl. rewrite lookup_insert_eq. by eexists.
      * eapply Forall_impl; [done|]. intros pj. by apply candidate_mono.
  - simplify_eq. by eapply world_ok_pass.
  - destruct (bool_decide _) eqn:Hb; [|done]. apply bool_decide_eq_true in Hb. simplify_eq.
    eapply world_ok_pass; [done..|]. split_and!; cbn; [done | rewrite length_app; simpl; lia |].
    apply Forall_app. split; [done|]. by constructor.
Qed.

Lemma run_event_ok ev w w' : world_ok w → run_event self ev w = Some w' → world_ok w'.
Proof.
  intros Hok. pose proof Hok as [Hall Hrec]. destruct ev as [found|k|k i|k i|conns]; simpl.
  - intros [= <-]. destruct found as [chan|]; [|done]. split; [|done]. apply Forall_app. split; [done|].
    constructor; [|done]. split_and!; cbn; [done | unfold MaxConcurrentConnections; lia | done].
  - by apply step_ok.
  - unfold connect_made. destruct (passes w !! k) as [[st chan conns]|]; [|done].
    destruct (conns !! i); [|done]. by intros [= <-].
  - unfold connect_end. destruct (passes w !! k) as [[st chan conns]|] eqn:Hk; [|done].
    destruct (conns !! i); [|done]. intros [= <-].
    pose proof (Forall_lookup_1 _ _ _ _ Hall Hk) as (Hst & Hlen & Hconn).
    eapply world_ok_pass; [done..|]. cbn in *. split_and!; [done | | by apply Forall_delete].
    cbn. pose proof (length_delete_le conns i). lia.
  - by intros [= <-].
Qed.

Lemma run_events_ok evs w w' : world_ok w → run_events self evs w = Some w' → world_ok w'.
Proof.
  revert w. induction evs as [|ev evs IH]; intros w Hok; simpl; [by intros [= <-]|].
  destruct (run_event self ev w) as [w1|] eqn:Hev; [|done]. apply IH. by eapply run_event_ok.
Qed.

(** C31: whatever the DHT finds, however passes and connections interleave and whatever becomes of them:
    each pass has at most five connections under way; it connects only to peers that it has recorded,
    and never to the node itself, which is never recorded; and a pass that cannot go on is over, or it
    waits with exactly five connections under way, and goes on when one of these ends. *)
Theorem attempts_bounded d conns g evs w k p :
  peers d = ∅ → run_events self evs (begin d conns g) = Some w → passes w !! k = Some p →
  length (p_connecting p) ≤ MaxConcurrentConnections ∧
  (∀ pi, pi ∈ p_connecting p → ID pi ≠ self ∧ is_Some (peers (disc w) !! ID pi)) ∧
  peers (disc w) !! self = None ∧
  (discoverPeers_step self k w = None →
    (p_stage p = Receiving ∧ p_chan p = []) ∨
    (length (p_connecting p) = MaxConcurrentConnections ∧
     ∀ i, i < MaxConcurrentConnections → ∃ w', connect_end k i w = Some w' ∧ is_Some (discoverPeers_step self k w'))).
Proof.
  intros Hd Hrun Hk.
  assert (Hok : world_ok w).
  { eapply run_events_ok; [|exact Hrun]. split; [done|]. intros i pi. simpl. rewrite Hd. done. }
  pose proof Hok as [Hall Hrec]. pose proof (Forall_lookup_1 _ _ _ _ Hall Hk) as (_ & Hlen & Hconn).
  split; [done|]. split; [by apply Forall_forall|]. split.
  { destruct (peers (disc w) !! self) as [pi|] eqn:Hs; [|done]. by destruct (Hrec self pi Hs). }
  destruct p as [st chan cs]. cbn in *. unfold discoverPeers_step at 1. rewrite Hk.
  destruct st as [|pi|pi|pi]; [|done..|].
  - destruct chan as [|pi chan]; [by left|]. destruct (_ =? _)%string; [done|]. by case_bool_decide.
  - case_bool_decide as Hfull; [done|]. intros _. right. split; [lia|]. intros i Hi.
    destruct (lookup_lt_is_Some_2 cs i) as [pj Hj]; [lia|]. unfold connect_end. rewrite Hk, Hj.
    eexists. split; [done|]. unfold discoverPeers_step. cbn [passes set_pass].
    rewrite list_lookup_insert_eq by (by eapply lookup_lt_Some).
    rewrite bool_decide_true; [by eexists|]. rewrite length_delete; [lia | by eexists].
Qed.
End runs.
(** * A pass of the node, on its own *)

Section alone.
Variables (self : string) (d : Discovery requests) (conns : gset string) (found : list AddrInfo).
Hypothesis Hdistinct : NoDup (ID <$> found).

Definition of_the_pass (ev : event) : Prop :=
  match ev with EvStep 0 | EvConnected 0 _ | EvConnectEnd 0 _ => True | _ => False end.

Definition current (st : stage) : list AddrInfo :=
  match st with Receiving => [] | Checked pi | Recorded pi | Acquiring pi => [pi] end.

(** What the pass has done with a peer it is through with *)
Definition seen_to (w : World requests) (pi : AddrInfo) : Prop :=
  ID pi = self ∨ ID pi ∈ conns ∨ peers (disc w) !! ID pi = Some pi.

Record alone_ok (w : World requests) (st : stage) (chan cs past : list AddrInfo) : Prop := {
  al_pass : passes w = [MkPass st chan cs];
  al_found : found = past ++ current st ++ chan;
  al_callback : onPeerFound (disc w) = Some sync_callback;
  al_quiet : app w = [];
  al_kept : conns ⊆ connected w;
  al_connecting : cs ⊆ past;
  al_connected i : i ∈ connected w → i ∈ conns ∨ i ∈ ID <$> past;
  al_fresh pi : st = Checked pi ∨ st = Recorded pi → ID pi ∉ conns;
  al_recorded pi : st = Recorded pi ∨ st = Acquiring pi → peers (disc w) !! ID pi = Some pi;
  al_past pi : pi ∈ past → seen_to w pi;
}.

Lemma current_not_past past pi chan i :
  found = past ++ [pi] ++ chan → i ∈ ID <$> past → i ≠ ID pi.
Proof.
  intros Heq Hi ->. rewrite Heq, fmap_app, NoDup_app in Hdistinct.
  destruct Hdistinct as (_ & Hdis & _). apply (Hdis _ Hi). rewrite fmap_app. simpl. by left.
Qed.

(** The current peer is recorded; the others stay so. *)
Lemma seen_to_insert w w' pi past chan pj :
  found = past ++ [pi] ++ chan → pj ∈ past →
  peers (disc w') = <[ID pi := pi]> (peers (disc w)) → seen_to w pj → seen_to w' pj.
Proof.
  intros Heq Hin Hp [Hs|[Hc|Hr]]; [by left | by right; left|]. right; right.
  rewrite Hp, lookup_insert_ne; [done|]. intros Hid.
  by apply (current_not_past past pi chan (ID pj)); [done | by apply list_elem_of_fmap_2 |].
Qed.

Lemma alone_step w w' st chan cs past :
  alone_ok w st chan cs past → discoverPeers_step self 0 w = Some w' →
  ∃ st' chan' cs' past', alone_ok w' st' chan' cs' past'.
Proof.
  intros [Hp Hf Hcb Hq Hkept Hcs Hcon Hfr Hrec Hpast] Hstep. unfold discoverPeers_step in Hstep. rewrite Hp in Hstep.
  cbn [lookup list_lookup] in Hstep. destruct st as [|pi|pi|pi].
  - destruct chan as [|pi chan]; [done|].
    assert (Hskip : seen_to w pi → alone_ok (set_pass 0 (MkPass Receiving chan cs) w) Receiving chan cs (past ++ [pi])).
    { intros Hseen. split; try done; try (by intros pj [?|?]).
      - cbn [set_pass passes]. by rewrite Hp.
      - by rewrite <- app_assoc.
      - intros pj Hj. apply elem_of_app. left. by apply Hcs.
      - intros i [?|?]%Hcon; [by left|]. right. rewrite fmap_app, elem_of_app. by left.
      - intros pj [Hj|Hj]%elem_of_app; [by apply Hpast|]. apply list_elem_of_singleton in Hj as ->. done. }
    destruct (String.eqb_spec (ID pi) self) as [Hself|Hself].
    { injection Hstep as <-. do 4 eexists. apply Hskip. by left. }
    case_bool_decide as Hc; injection Hstep as <-.
    + do 4 eexists. apply Hskip. destruct (Hcon _ Hc) as [|Hin]; [by right; left|].
      exfalso. by apply (current_not_past past pi chan (ID pi)).
    + exists (Checked pi), chan, cs, past. split; try done; try (by intros pj [?|?]).
      * cbn [set_pass passes]. by rewrite Hp.
      * intros pj [[= ->]|?]; [|done]. intros Hin. destruct Hc. by apply Hkept.
  - injection Hstep as <-. exists (Recorded pi), chan, cs, past. split; try done; try (by intros pj [?|?]).
    + cbn. by rewrite Hp.
    + intros pj [?|[= ->]]; [done|]. apply Hfr. by left.
    + intros pj [[= ->]|?]; [|done]. cbn. apply lookup_insert_eq.
    + intros pj Hj. by eapply (seen_to_insert w _ pi past chan), Hpast.
  - injection Hstep as <-. exists (Acquiring pi), chan, cs, past. split; try done; try (by intros pj [?|?]).
    + cbn [set_pass app]. rewrite Hcb, Hq. unfold sync_callback. rewrite bool_decide_false; [done|].
      intros [Hin|Hin]%Hcon; [by apply (Hfr pi); [right|]|].
      by apply (current_not_past past pi chan (ID pi)).
    + intros pj [?|[= ->]]; [done|]. apply Hrec. by left.
  - case_bool_decide as Hlt; [|done]. injection Hstep as <-.
    exists Receiving, chan, (cs ++ [pi]), (past ++ [pi]). split; try done; try (by intros pj [?|?]).
    + cbn. by rewrite Hp.
    + by rewrite <- app_assoc.
    + intros pj [Hj|Hj]%elem_of_app; apply elem_of_app; [left; by apply Hcs | by right].
    + intros i [?|?]%Hcon; [by left|]. right. rewrite fmap_app, elem_of_app. by left.
    + intros pj [Hj|Hj]%elem_of_app; [by apply Hpast|]. apply list_elem_of_singleton in Hj as ->.
      right; right. apply Hrec. by right.
Qed.
Lemma alone_event ev w w' st chan cs past :
  of_the_pass ev → alone_ok w st chan cs past → run_event self ev w = Some w' →
  ∃ st' chan' cs' past', alone_ok w' st' chan' cs' past'.
Proof.
  intros Hev Hok. destruct ev as [|[|k]|[|k] i|[|k] i|]; try done; cbn [run_event].
  - intros Hs; by apply (alone_step w w' st chan cs past Hok Hs).
  - destruct Hok as [Hp Hf Hcb Hq Hkept Hcs Hcon Hfr Hrec Hpast]. unfold connect_made. rewrite Hp.
    cbn [lookup list_lookup]. destruct (cs !! i) as [pi|] eqn:Hi; [|done]. intros [= <-].
    exists st, chan, cs, past. split; try done; cbn [connected set_connected].
    + set_solver.
    + intros j [->%elem_of_singleton|?]%elem_of_union; [|by apply Hcon]. right.
      apply list_elem_of_fmap_2, Hcs. by eapply list_elem_of_lookup_2.
  - destruct Hok as [Hp Hf Hcb Hq Hkept Hcs Hcon Hfr Hrec Hpast]. unfold connect_end. rewrite Hp.
    cbn [lookup list_lookup]. destruct (cs !! i) as [pi|] eqn:Hi; [|done]. intros [= <-].
    exists st, chan, (delete i cs), past. split; try done; [by cbn; rewrite Hp|].
    intros pj Hj. apply Hcs. rewrite (delete_Permutation cs i pi Hi). by right.
Qed.

Lemma alone_run evs w w' st chan cs past :
  Forall of_the_pass evs → alone_ok w st chan cs past → run_events self evs w = Some w' →
  ∃ st' chan' cs' past', alone_ok w' st' chan' cs' past'.
Proof.
  revert w st chan cs past. induction evs as [|ev evs IH]; intros w st chan cs past Hall Hok; simpl.
  { intros [= <-]. by do 4 eexists. }
  inversion Hall; subst. destruct (run_event self ev w) as [w1|] eqn:Hev; [|done].
  destruct (alone_event ev w w1 st chan cs past) as (? & ? & ? & ? & ?); [done..|]. by eapply IH.
Qed.

(** The state synchronisation that is meant to follow the discovery of a peer does not follow it.
    In a pass of [discoverPeers] that finds each peer once, while the host has no other new
    connections, the callback that [setupPeerCallbacks] registers asks no peer for its state, whether
    and in whatever order the connections succeed: it looks whether the peer is connected before the
    pass connects to it. When the pass has reached the end of the channel, every peer found is the
    node itself, was connected before, or is recorded. *)
Theorem discovery_requests_no_sync evs w :
  Forall of_the_pass evs →
  run_events self evs (discoverPeers_begin (Ok found) (begin (node_discovery d) conns [])) = Some w →
  app w = [] ∧
  ∃ st chan cs, passes w = [MkPass st chan cs] ∧
    (st = Receiving → chan = [] → ∀ pi, pi ∈ found →
      ID pi = self ∨ ID pi ∈ conns ∨ peers (disc w) !! ID pi = Some pi).
Proof.
  intros Hall Hrun. eapply (alone_run _ _ _ Receiving found [] []) in Hrun as (st & chan & cs & past & Hok);
    [|done|].
  - split; [apply Hok|]. exists st, chan, cs. split; [apply Hok|]. intros -> -> pi Hpi.
    apply (al_past _ _ _ _ _ Hok). rewrite (al_found _ _ _ _ _ Hok) in Hpi. by rewrite !app_nil_r in Hpi.
  - split; try done; try (by intros pj [?|?]).
    + intros i Hi. by left.
    + by intros pi ?%elem_of_nil.
Qed.
End alone.

(** * A node that finds itself and three others, one of them connected *)

Definition demo_found : list AddrInfo :=
  [MkAddrInfo "self" []; MkAddrInfo "a" ["/ip4/10.0.0.1/tcp/4001"]; MkAddrInfo "b" []; MkAddrInfo "c" []].
Definition demo_discovery : Discovery requests := MkDiscovery ∅ None.

(** The pass takes itself to the end of the channel, then connects to "a" and fails with "c". *)
Definition demo_events : list event :=
  replicate 10 (EvStep 0) ++ [EvConnected 0 0; EvConnectEnd 0 1].

Lemma discovery_requests_no_sync_witness : ∃ w,
  run_events "self" demo_events (discoverPeers_begin (Ok demo_found) (begin (node_discovery demo_discovery) {["b"]} []))
    = Some w ∧
  (app w = [] ∧ ∃ st chan cs, passes w = [MkPass st chan cs] ∧
    (st = Receiving → chan = [] → ∀ pi, pi ∈ demo_found →
      ID pi = "self"%string ∨ ID pi ∈ ({["b"]} : gset string) ∨ peers (disc w) !! ID pi = Some pi)).
Proof.
  destruct (run_events "self" demo_events (discoverPeers_begin (Ok demo_found)
    (begin (node_discovery demo_discovery) {["b"]} []))) as [w|] eqn:Hrun; [|vm_compute in Hrun; discriminate].
  exists w. split; [reflexivity|].
  apply (discovery_requests_no_sync "self" demo_discovery {["b"]} demo_found) with (evs := demo_events).
  - apply (bool_decide_unpack _). vm_compute. exact I.
  - repeat (apply Forall_cons; split; [exact I|]). apply Forall_nil. exact I.
  - exact Hrun.
Defined.

Lemma attempts_bounded_witness : ∃ w p,
  run_events "self" demo_events (begin (MkDiscovery ∅ None) ∅ tt) = None ∧
  run_events "self" (EvDiscover (Ok demo_found) :: demo_events) (begin (MkDiscovery ∅ None) ∅ tt) = Some w ∧
  passes w !! 0 = Some p ∧ length (p_connecting p) ≤ MaxConcurrentConnections.
Proof.
  destruct (run_events "self" (EvDiscover (Ok demo_found) :: demo_events) (begin (MkDiscovery ∅ None) ∅ tt))
    as [w|] eqn:Hrun; [|vm_compute in Hrun; discriminate].
  destruct (passes w !! 0) as [p|] eqn:Hp;
    [|injection Hrun as <-; vm_compute in Hp; discriminate].
  exists w, p. split; [reflexivity|]. split; [reflexivity|]. split; [exact Hp|].
  exact (proj1 (attempts_bounded "self" (MkDiscovery ∅ None) ∅ tt _ w 0 p eq_refl Hrun Hp)).
Defined.
End DiscoveryProps.
