(* ===== verification/Validator.v ===== *)
(** The validator node: [src/cmd/validator/main.go], which wires the components together.

    - [Env] is what the handlers of the state machine change: the database, the notifier, the
      gossip engine, and the messages handed to the network.
    - [App] adds the state machine: it is the application the PBFT node executes requests on.
    - [ValidatorNode] adds the PBFT node: it is what the message router's handlers change.

    [setup] registers the handlers as [setupHandlers] does. The clock ([e_now] in seconds and
    [e_nano] in nanoseconds, which dates the checkpoints) and whether a broadcast or a send
    succeeds ([e_net_error]) are fields of the environment. Waiting for consensus is not modelled: [ValidateTicket] says what it waits for. *)

From S2P Require Import Prelude VectorClock TicketMachine Hashing Proto Messages Pbft GossipCache GossipEngine Storage Network Notifier.

Module Validator.
Import VectorClock TicketMachine.
Local Open Scope go_scope.

(** [protoToState[x]] and [stateToProto[s]]; a missing key gives the zero value. *)
Definition protoToState (x : Z) : string :=
  if (x =? pb.State_ISSUED)%Z then StateIssued
  else if (x =? pb.State_PENDING)%Z then StatePending
  else if (x =? pb.State_VALIDATED)%Z then StateValidated
  else if (x =? pb.State_CONSUMED)%Z then StateConsumed
  else if (x =? pb.State_DISPUTED)%Z then StateDisputed
  else "".

Definition stateToProto (s : string) : option Z :=
  if (s =? StateIssued)%string then Some pb.State_ISSUED
  else if (s =? StatePending)%string then Some pb.State_PENDING
  else if (s =? StateValidated)%string then Some pb.State_VALIDATED
  else if (s =? StateConsumed)%string then Some pb.State_CONSUMED
  else if (s =? StateDisputed)%string then Some pb.State_DISPUTED
  else None.

Section validator.
Context {DB : Type} `{Storage.BoltDB DB, Storage.JsonCodec Storage.TicketRecord}.
Context `{pb.ProtoMessage pb.ValidatorMessage, pb.ProtoMessage pb.PrePrepare,
  pb.ProtoMessage pb.Prepare, pb.ProtoMessage pb.Commit, pb.ProtoMessage pb.Request,
  pb.ProtoMessage pb.ViewChange, pb.ProtoMessage pb.Checkpoint, pb.ProtoMessage pb.StateUpdate,
  pb.ProtoMessage pb.StateSyncRequest, pb.ProtoMessage pb.StateSyncResponse}.

(** A message handed to the network: to every peer, or to one. *)
Inductive outgoing := ToAll (data : string) | ToPeer (id data : string).

Record Env := MkEnv {
  e_db : DB;
  e_notifier : Notifier.StateNotifier;
  e_gossip : GossipEngine.GossipEngine unit;
  e_sent : list outgoing;
  e_net_error : error;
  e_now : Z;
  e_nano : Z;
}.

Definition set_db v e := MkEnv v (e_notifier e) (e_gossip e) (e_sent e) (e_net_error e) (e_now e) (e_nano e).
Definition set_notifier v e := MkEnv (e_db e) v (e_gossip e) (e_sent e) (e_net_error e) (e_now e) (e_nano e).
Definition set_gossip v e := MkEnv (e_db e) (e_notifier e) v (e_sent e) (e_net_error e) (e_now e) (e_nano e).

(** [p2pHost.Broadcast] and [p2pHost.SendTo] *)
Definition net_send (m : outgoing) (e : Env) : Env * error :=
  (MkEnv (e_db e) (e_notifier e) (e_gossip e) (e_sent e ++ [m]) (e_net_error e) (e_now e) (e_nano e),
   e_net_error e).

Record App := MkApp {
  a_sm : StateMachine Env;
  a_env : Env;
}.

Record ValidatorNode := MkValidatorNode {
  v_nodeID : string;
  v_totalNodes : Z;
  v_peerID : string;  (** [p2pHost.ID()] *)
  v_pbft : Pbft.PBFTNode App;
  v_app : App;
}.

Definition set_app a n := MkValidatorNode (v_nodeID n) (v_totalNodes n) (v_peerID n) (v_pbft n) a.
Definition set_pbft p n := MkValidatorNode (v_nodeID n) (v_totalNodes n) (v_peerID n) p (v_app n).

(** ** Handlers of the state machine *)

Definition notify_handler : StateChangeHandler Env := λ ticket oldState newState e,
  (set_notifier (Notifier.Notify (t_ID ticket) newState (e_notifier e)) e, None).

Definition record_of (ticket : Ticket) : Storage.TicketRecord :=
  Storage.MkTicketRecord (t_ID ticket) (t_State ticket) (t_Data ticket) (t_ValidatorID ticket)
    (t_Timestamp ticket) (GetAll (t_VectorClock ticket)) (t_Metadata ticket).

Definition save (record : Storage.TicketRecord) (e : Env) : Env * error :=
  let '(db, err) := Storage.SaveTicket record (e_db e) in (set_db db e, err).

Definition storage_handler : StateChangeHandler Env := λ ticket oldState newState e,
  save (record_of ticket) e.

(** [proto.Marshal] of an envelope with the current time. *)
Definition wrap (n_ID : string) (ty : Z) (payload : string) (e : Env) : result string :=
  Messages.wrap_err "failed to marshal ValidatorMessage"
    (pb.Marshal (pb.MkValidatorMessage ty payload "" (e_now e) n_ID)).

(** The message that announces a change through gossip: the ticket without clock and data. *)
Definition update_message (n_ID ticketID ticketState validatorID : string) (timestamp : Z) (e : Env)
    : result string :=
  let protoState := default 0%Z (stateToProto ticketState) in
  let update := pb.MkStateUpdate
    [pb.MkTicketState ticketID protoState timestamp validatorID None ""] None n_ID in
  try payload := Messages.wrap_err "failed to marshal state update" (pb.Marshal update) in
  wrap n_ID pb.ValidatorMessage_STATE_UPDATE payload e.

(** The publisher. [Publish] waits when the queue of the engine is full: it returns once there is
    room, so the message is queued in either case. The cache never panics with its capacity. *)
Definition publisher (n_ID : string) : StatePublisher Env := λ ticketID ticketState validatorID timestamp e,
  match update_message n_ID ticketID ticketState validatorID timestamp e with
  | Err err => (e, Some err)
  | Ok data =>
      match GossipEngine.Publish (e_now e) (e_now e) false data (e_gossip e) with
      | Panic why => (e, Some why)
      | Done (g, GossipEngine.Returned err) => (set_gossip g e, err)
      | Done (g, GossipEngine.Waiting msg) =>
          (set_gossip (GossipEngine.set_chan (GossipEngine.messageChan g ++ [msg]) g) e, None)
      end
  end.

(** ** Persistence *)

(** [persistTicket]; errors are only printed. *)
Definition persistTicket (ticketID : string) (a : App) : App :=
  match GetTicket ticketID (a_sm a) with
  | Err _ => a
  | Ok ticket => MkApp (a_sm a) (fst (save (record_of ticket) (a_env a)))
  end.

(** A clock of this node with the given entries merged in. *)
Definition clock_of (n_ID : string) (clocks : gmap string Z) : VectorClock :=
  foldl (λ vc e, Update vc e.1 e.2) (NewVectorClock n_ID) (map_to_list clocks).

Definition ticket_of (n_ID : string) (rec : Storage.TicketRecord) : Ticket :=
  MkTicket (Storage.tr_ID rec) (Storage.tr_State rec) (Storage.tr_Data rec)
    (Storage.tr_ValidatorID rec) (Storage.tr_Timestamp rec)
    (clock_of n_ID (Storage.tr_VectorClock rec)) (Storage.tr_Metadata rec).

Definition loadTicketsFromStore (n_ID : string) (a : App) : App :=
  match Storage.GetAllTickets (e_db (a_env a)) with
  | Err _ => a
  | Ok records =>
      if bool_decide (length records = 0) then a
      else MkApp (MergeState (ticket_of n_ID <$> records) (a_sm a)) (a_env a)
  end.

(** ** Consensus handler and state replicator *)

Definition idempotent (err : string) : bool :=
  str_contains err "already validated" || str_contains err "already consumed"
  || str_contains err "already disputed".

(** The operation itself; an unknown operation does nothing. *)
Definition apply_operation (req : Messages.Request) (validatorID : string) (a : App) : App * error :=
  let now := e_now (a_env a) in
  let done (r : StateMachine Env * Env * error) := (MkApp r.1.1 r.1.2, r.2) in
  if (Messages.Operation req =? "VALIDATE")%string then
    done (TicketMachine.ValidateTicket now (Messages.TicketID req) validatorID (Messages.Data req) (a_sm a) (a_env a))
  else if (Messages.Operation req =? "CONSUME")%string then
    done (ConsumeTicket now (Messages.TicketID req) validatorID (a_sm a) (a_env a))
  else if (Messages.Operation req =? "DISPUTE")%string then
    done (DisputeTicket now (Messages.TicketID req) validatorID (a_sm a) (a_env a))
  else (a, None).

Definition validator_of (n_ID : string) (req : Messages.Request) : string :=
  if (Messages.NodeID req =? "")%string then n_ID else Messages.NodeID req.

Definition consensus_handler (n_ID : string) : Pbft.ConsensusHandler (W:=App) := λ req a,
  let '(a, err) := apply_operation req (validator_of n_ID req) a in
  match err with
  | Some err =>
      if idempotent err then (persistTicket (Messages.TicketID req) a, None) else (a, Some err)
  | None => (persistTicket (Messages.TicketID req) a, None)
  end.

Definition state_replicator (n_ID : string) : Pbft.StateReplicator (W:=App) := λ req a,
  match GetTicket (Messages.TicketID req) (a_sm a) with
  | Err err => (a, Some ("failed to get committed ticket state: " +:+ err))
  | Ok ticket =>
      let protoState := default pb.State_PENDING (stateToProto (t_State ticket)) in
      let protoVC := pb.MkVectorClock (GetAll (t_VectorClock ticket)) in
      let update := pb.MkStateUpdate
        [pb.MkTicketState (t_ID ticket) protoState (t_Timestamp ticket) (t_ValidatorID ticket)
           (Some protoVC) (t_Data ticket)] None n_ID in
      match Messages.wrap_err "failed to marshal state update" (pb.Marshal update) with
      | Err err => (a, Some err)
      | Ok payload =>
          match wrap n_ID pb.ValidatorMessage_STATE_UPDATE payload (a_env a) with
          | Err err => (a, Some err)
          | Ok data =>
              let '(e, err) := net_send (ToAll data) (a_env a) in
              (MkApp (a_sm a) e,
               match err with
               | Some err => Some ("failed to broadcast state update: " +:+ err)
               | None => None
               end)
          end
      end
  end.

(** ** Router handlers *)

Definition pbft_handler (peers : Z) : Network.PBFTHandler (W:=outcome ValidatorNode) := λ msgType payload n,
  match n with
  | Panic why => (Panic why, None)
  | Done n =>
      match Pbft.HandleNetworkMessage (e_nano (a_env (v_app n))) peers false msgType payload (v_pbft n) (v_app n) with
      | Panic why => (Panic why, None)
      | Done (p, a, _, err) => (Done (set_app a (set_pbft p n)), err)
      end
  end.

(** A ticket of a [StateUpdate]: its data is the metadata field, its own metadata are empty. *)
Definition ticket_of_proto (n_ID : string) (ts : pb.TicketState) : Ticket :=
  let vc := match pb.ts_VectorClock ts with
            | Some c => clock_of n_ID (pb.clk_Clocks c)
            | None => NewVectorClock n_ID
            end in
  MkTicket (pb.ts_TicketId ts) (protoToState (pb.ts_State ts)) (pb.ts_Metadata ts)
    (pb.ts_ValidatorId ts) (pb.ts_LastUpdated ts) vc ∅.

Definition apply_update (n_ID : string) (update : pb.StateUpdate) (a : App) : App :=
  let tickets := ticket_of_proto n_ID <$> pb.su_Tickets update in
  let a := MkApp (MergeState tickets (a_sm a)) (a_env a) in
  foldl (λ a t, persistTicket (t_ID t) a) a tickets.

Definition state_handler : Network.StateHandler (W:=outcome ValidatorNode) := λ update n,
  match n with
  | Panic why => (Panic why, None)
  | Done n => (Done (set_app (apply_update (v_nodeID n) update (v_app n)) n), None)
  end.

(** ** State synchronisation between peers *)

(** The request sent to a peer; nothing is sent when it cannot be encoded. *)
Definition requestStateSync (peerID : string) (n : ValidatorNode) : ValidatorNode :=
  let e := a_env (v_app n) in
  let request := pb.MkStateSyncRequest (v_peerID n) (Pbft.sequence (v_pbft n)) (e_now e) in
  match pb.Marshal request with
  | Err _ => n
  | Ok payload =>
      match pb.Marshal (pb.MkValidatorMessage pb.ValidatorMessage_STATE_SYNC_REQUEST payload "" (e_now e) (v_nodeID n)) with
      | Err _ => n
      | Ok data => set_app (MkApp (a_sm (v_app n)) (fst (net_send (ToPeer peerID data) e))) n
      end
  end.

(** [pick] is what [rand.Intn] returns. *)
Definition performAntiEntropySync (pick : nat) (peers : list string) (n : ValidatorNode) : ValidatorNode :=
  match peers !! pick with Some peerID => requestStateSync peerID n | None => n end.

(** The tickets of a response: those past the pending states, without their clocks. *)
Definition synced_tickets (tickets : list Ticket) : list pb.TicketState :=
  omap (λ ticket,
    if (t_State ticket =? StateIssued)%string || (t_State ticket =? StatePending)%string then None
    else
      match stateToProto (t_State ticket) with
      | None => None
      | Some protoState =>
          Some (pb.MkTicketState (t_ID ticket) protoState (t_Timestamp ticket) (t_ValidatorID ticket)
                  None (t_Data ticket))
      end) tickets.

Definition consensus_log (tickets : list Ticket) : list string :=
  t_ID <$> filter (λ ticket, t_State ticket = StateValidated) tickets.

Definition handleStateSyncRequest (payload : string) (n : ValidatorNode) : ValidatorNode * error :=
  match pb.Unmarshal (M:=pb.StateSyncRequest) payload with
  | Err err => (n, Some ("failed to unmarshal state sync request: " +:+ err))
  | Ok request =>
      let e := a_env (v_app n) in
      let tickets := GetAllTickets (a_sm (v_app n)) in
      let response := pb.MkStateSyncResponse (v_nodeID n) (Pbft.sequence (v_pbft n))
        (Pbft.view (v_pbft n)) (synced_tickets tickets) (consensus_log tickets) (e_now e) in
      match Messages.wrap_err "failed to marshal state sync response" (pb.Marshal response) with
      | Err err => (n, Some err)
      | Ok responsePayload =>
          match wrap (v_nodeID n) pb.ValidatorMessage_STATE_SYNC_RESPONSE responsePayload e with
          | Err err => (n, Some err)
          | Ok data =>
              let '(e, err) := net_send (ToPeer (pb.sr_RequesterId request) data) e in
              (set_app (MkApp (a_sm (v_app n)) e) n,
               match err with
               | Some err => Some ("failed to send state sync response: " +:+ err)
               | None => None
               end)
          end
      end
  end.

(** One ticket of a response; errors are only printed. *)
Definition sync_ticket (responder : string) (a : App) (ts : pb.TicketState) : App :=
  if HasTicket (pb.ts_TicketId ts) (a_sm a) then a
  else if (pb.ts_State ts =? pb.State_VALIDATED)%Z then
    let '(sm, e, err) := SyncTicket (e_now (a_env a)) (pb.ts_TicketId ts) responder
      (pb.ts_Metadata ts) (a_sm a) (a_env a) in
    match err with
    | Some _ => MkApp sm e
    | None => persistTicket (pb.ts_TicketId ts) (MkApp sm e)
    end
  else a.

Definition handleStateSyncResponse (payload : string) (n : ValidatorNode) : ValidatorNode * error :=
  match pb.Unmarshal (M:=pb.StateSyncResponse) payload with
  | Err err => (n, Some ("failed to unmarshal state sync response: " +:+ err))
  | Ok response =>
      if (Pbft.sequence (v_pbft n) <? pb.ss_CurrentSequence response)%Z then
        (set_app (foldl (sync_ticket (pb.ss_ResponderId response)) (v_app n)
           (pb.ss_ValidatedTickets response)) n, None)
      else (n, None)
  end.

Definition state_sync_handler : Network.StateSyncHandler (W:=outcome ValidatorNode) := λ msgType payload n,
  match n with
  | Panic why => (Panic why, None)
  | Done n =>
      if (msgType =? pb.ValidatorMessage_STATE_SYNC_REQUEST)%Z then
        let '(n, err) := handleStateSyncRequest payload n in (Done n, err)
      else if (msgType =? pb.ValidatorMessage_STATE_SYNC_RESPONSE)%Z then
        let '(n, err) := handleStateSyncResponse payload n in (Done n, err)
      else (Done n, Some ("unknown state sync message type: "
                          +:+ Network.ValidatorMessage_Type_String msgType))
  end.

(** ** Construction *)

Definition setup_router (peers : Z) : Network.MessageRouter (outcome ValidatorNode) :=
  Network.RegisterStateSyncHandler (Some state_sync_handler)
    (Network.RegisterStateHandler (Some state_handler)
      (Network.RegisterPBFTHandler (Some (pbft_handler peers)) Network.NewMessageRouter)).

(** The components of [NewValidatorNode] with the handlers it and [setupHandlers] register: the
    notifier's handler comes before the one that saves. *)
Definition setup (nodeID peerID : string) (totalNodes : Z) (primary : bool) (e : Env) : ValidatorNode :=
  let sm := RegisterHandler storage_handler
    (RegisterPublisher (publisher nodeID)
      (RegisterHandler notify_handler (NewStateMachine nodeID))) in
  let pbft := Pbft.RegisterStateReplicator (Some (state_replicator nodeID))
    (Pbft.RegisterHandler (consensus_handler nodeID)
      (Pbft.NewPBFTNode (Pbft.MkConfig nodeID totalNodes primary 15000000000))) in
  MkValidatorNode nodeID totalNodes peerID pbft (MkApp sm e).

(** What [Start] does to the state: the stored tickets are loaded. *)
Definition start (n : ValidatorNode) : ValidatorNode :=
  set_app (loadTicketsFromStore (v_nodeID n) (v_app n)) n.

(** ** The API of the node *)

(** How a call of [ValidateTicket] goes on: it answers, or waits for the callback of its request
    (the primary), or for a state change on a channel, re-sending its message (the others). *)
Inductive api_call :=
| Answer (err : error)
| AwaitConsensus (requestID : string)
| AwaitState (ch : Notifier.Chan) (msgData : string).

Definition already_validated (ticketID : string) (n : ValidatorNode) : bool :=
  match GetTicket ticketID (a_sm (v_app n)) with
  | Ok ticket => (t_State ticket =? StateValidated)%string
  | Err _ => false
  end.

(** [nano] is [time.Now().UnixNano()]; [peers] the number of connected peers, at a node that is not
    primary the one that [wait_for_peers] ends with; [cb] the callback that feeds the result channel. *)
Definition ValidateTicket (nano peers : Z) (cb : Pbft.Callback) (ticketID data : string)
    (n : ValidatorNode) : outcome (ValidatorNode * api_call) :=
  let e := a_env (v_app n) in
  if already_validated ticketID n then
    Done (n, Answer (Some ("ticket " +:+ ticketID +:+ " already validated")))
  else
    let requestID := v_nodeID n +:+ "-" +:+ FormatInt nano +:+ "-" +:+ ticketID in
    let req := Messages.MkRequest requestID ticketID "VALIDATE" data (e_now e) (v_nodeID n) in
    if Pbft.IsPrimary (v_pbft n) then
      let f := Z.quot (wrap_i64 (v_totalNodes n - 1)) 3 in
      let minPeers := (2 * f)%Z in
      if (1 <? v_totalNodes n)%Z && (peers <? minPeers)%Z then
        Done (n, Answer (Some ("not enough peers for consensus: have " +:+ FormatInt peers
          +:+ ", need at least " +:+ FormatInt minPeers +:+ " (quorum requires "
          +:+ FormatInt (2 * f + 1) +:+ " of " +:+ FormatInt (v_totalNodes n) +:+ " nodes)")))
      else
        let p := Pbft.RegisterCallback requestID (Some cb) (v_pbft n) in
        let '(p, a, _, err) := Pbft.ProposeRequest (e_nano e) peers req p (v_app n) in
        let n := set_app a (set_pbft p n) in
        match err with
        | Some err => Done (n, Answer (Some err))
        | None => Done (n, AwaitConsensus requestID)
        end
    else
      let* primary := Pbft.GetPrimary (v_pbft n) in
      if (peers =? 0)%Z then
        Done (n, Answer (Some ("no peers connected after 5 attempts, cannot forward request to primary "
          +:+ primary +:+ ". Please wait for peer discovery to complete")))
      else
        match Messages.SerializeRequest req with
        | Err err => Done (n, Answer (Some ("failed to serialize request: " +:+ err)))
        | Ok payload =>
            match Messages.SerializePBFTMessage pb.ValidatorMessage_CLIENT_REQUEST payload (v_nodeID n) with
            | Err err => Done (n, Answer (Some ("failed to wrap client request: " +:+ err)))
            | Ok msgData =>
                let '(e, err) := net_send (ToAll msgData) e in
                let n := set_app (MkApp (a_sm (v_app n)) e) n in
                match err with
                | Some err => Done (n, Answer (Some ("failed to forward request to primary: " +:+ err)))
                | None =>
                    let '(p, _) := Pbft.NotifyPendingRequest (v_pbft n) in
                    let n := set_pbft p n in
                    let '(sn, ch) := Notifier.Subscribe ticketID (e_notifier e) in
                    let subscribed := set_app (MkApp (a_sm (v_app n)) (set_notifier sn e)) n in
                    if already_validated ticketID subscribed then
                      (* the deferred [Unsubscribe] runs on return *)
                      let e := set_notifier (Notifier.Unsubscribe ticketID ch sn) e in
                      Done (set_pbft (Pbft.ClearPendingRequest (v_pbft n))
                              (set_app (MkApp (a_sm (v_app n)) e) n), Answer None)
                    else Done (subscribed, AwaitState ch msgData)
                end
            end
        end.

(** The answer of the primary when the callback was called with these arguments. *)
Definition consensus_answer (ticketID : string) (success : bool) (err : error) : error :=
  if success then None
  else match err with
       | Some err => Some ("consensus failed: " +:+ err)
       | None => Some ("consensus failed: consensus failed for ticket " +:+ ticketID)
       end.

(** ** Waiting *)

(** The number of peers, looked at up to five times ([retries]), a second apart, until there is one;
    a node that shuts down meanwhile ends the call. *)
Fixpoint wait_for_peers (retries : nat) (counts : list Z) : Z :=
  match retries, counts with
  | S retries, c :: counts =>
      if (0 <? c)%Z then c
      else match retries with O => c | _ => wait_for_peers retries counts end
  | _, _ => 0%Z
  end.

Definition timeout_error (ticketID duration : string) : string :=
  "consensus timeout: validation for ticket " +:+ ticketID +:+ " did not complete within " +:+ duration.

(** What the primary's call waits for *)
Inductive consensus_wake :=
| Called (success : bool) (err : error)  (** the callback of the request was called *)
| ConsensusDeadline
| ConsensusShutdown.

Definition await_consensus (ticketID : string) (ev : consensus_wake) : error :=
  match ev with
  | Called success err => consensus_answer ticketID success err
  | ConsensusDeadline => Some (timeout_error ticketID "20s")
  | ConsensusShutdown => Some "node shutting down"
  end.

(** What the call at another node waits for *)
Inductive state_wake := Deadline | Shutdown | Retry | NewState.

(** The deferred [Unsubscribe] *)
Definition leave (ticketID : string) (ch : Notifier.Chan) (n : ValidatorNode) : ValidatorNode :=
  let e := a_env (v_app n) in
  set_app (MkApp (a_sm (v_app n)) (set_notifier (Notifier.Unsubscribe ticketID ch (e_notifier e)) e)) n.

(** One turn of the loop: the node, and the answer if the call ends; [None] where the channel has
    nothing to receive. *)
Definition await_state (ticketID : string) (ch : Notifier.Chan) (msgData : string) (ev : state_wake)
    (n : ValidatorNode) : option (ValidatorNode * option error) :=
  let e := a_env (v_app n) in
  match ev with
  | Deadline => Some (leave ticketID ch n, Some (Some (timeout_error ticketID "40s")))
  | Shutdown => Some (leave ticketID ch n, Some (Some "node shutting down"))
  | Retry =>
      let '(e, _) := net_send (ToAll msgData) e in
      Some (set_app (MkApp (a_sm (v_app n)) e) n, None)
  | NewState =>
      match Notifier.Receive ch (e_notifier e) with
      | None => None
      | Some (newState, sn) =>
          let n := set_app (MkApp (a_sm (v_app n)) (set_notifier sn e)) n in
          if (newState =? StateValidated)%string
          then Some (leave ticketID ch (set_pbft (Pbft.ClearPendingRequest (v_pbft n)) n), Some None)
          else Some (n, None)
      end
  end.

Definition ConsumeTicket (ticketID : string) (n : ValidatorNode) : ValidatorNode * error :=
  let '(sm, e, err) := TicketMachine.ConsumeTicket (e_now (a_env (v_app n))) ticketID (v_nodeID n)
    (a_sm (v_app n)) (a_env (v_app n)) in
  (set_app (MkApp sm e) n, err).

Definition DisputeTicket (ticketID : string) (n : ValidatorNode) : ValidatorNode * error :=
  let '(sm, e, err) := TicketMachine.DisputeTicket (e_now (a_env (v_app n))) ticketID (v_nodeID n)
    (a_sm (v_app n)) (a_env (v_app n)) in
  (set_app (MkApp sm e) n, err).

Definition GetTicket (ticketID : string) (n : ValidatorNode) : result Ticket :=
  TicketMachine.GetTicket ticketID (a_sm (v_app n)).

Definition GetAllTickets (n : ValidatorNode) : list Ticket :=
  TicketMachine.GetAllTickets (a_sm (v_app n)).

(** ** Seeding *)

(** [fmt]'s [%03d] *)
Definition pad3 (i : Z) : string :=
  let s := FormatInt i in Storage.zeros (3 - String.length s) +:+ s.

Definition sections : list string := ["VIP"; "Floor"; "Balcony"; "General"].
Definition prices : list string := ["150.00"; "85.00"; "65.00"; "40.00"].

(** The double quote of JSON. *)
Definition q : string := String (Ascii.ascii_of_nat 34) "".
Definition field (name value : string) : string := q +:+ name +:+ q +:+ ":" +:+ q +:+ value +:+ q.

(** The [i]-th seeded ticket, [i] from 1. *)
Definition seed_ticket (now i : Z) : TicketSeed :=
  let ticketID := "TICKET-" +:+ pad3 i in
  let sectionIdx := Z.to_nat (Z.rem (i - 1) 4) in
  let seatRow := String (Ascii.ascii_of_nat (65 + Z.to_nat (Z.rem (Z.quot (i - 1) 10) 26))) "" in
  let seatNum := (Z.rem (i - 1) 10 + 1)%Z in
  let data := "{" +:+ field "event" "Summer Music Festival 2026" +:+ ","
    +:+ field "venue" "Grand Arena" +:+ ","
    +:+ field "section" (default "" (sections !! sectionIdx)) +:+ ","
    +:+ field "seat" (seatRow +:+ FormatInt seatNum) +:+ ","
    +:+ field "price" (default "" (prices !! sectionIdx)) +:+ ","
    +:+ field "buyer" ("buyer_" +:+ pad3 i +:+ "@email.com") +:+ "}" in
  MkTicketSeed ticketID data now {[ "source" := "seed" ]}.

Definition seed_list (now : Z) (count : nat) : list TicketSeed :=
  (λ i, seed_ticket now (Z.of_nat i)) <$> seq 1 count.

(** The record written for a seeded ticket. *)
Definition seed_record (t : TicketSeed) : Storage.TicketRecord :=
  Storage.MkTicketRecord (seed_ID t) StateIssued (seed_Data t) "" (seed_Timestamp t) ∅ (seed_Metadata t).

(** Saving errors are only printed. *)
Definition save_seeds (tickets : list TicketSeed) (e : Env) : Env :=
  foldl (λ e t, fst (save (seed_record t) e)) e tickets.

Definition SeedTickets (n : ValidatorNode) : ValidatorNode * Z :=
  let a := v_app n in
  let tickets := seed_list (e_now (a_env a)) 500 in
  let '(sm, seeded) := TicketMachine.SeedTickets tickets (a_sm a) in
  (set_app (MkApp sm (save_seeds tickets (a_env a))) n, seeded).

End validator.
Arguments Env : clear implicits.
Arguments App : clear implicits.
Arguments ValidatorNode : clear implicits.

End Validator.
