(* ===== verification/ValidatorProps.v ===== *)
(** What the wiring of the validator guarantees ([src/cmd/validator/main.go]): committed tickets
    survive a restart, state synchronisation only adds validated tickets; and what it does not:
    seeding overwrites stored states, replicas record themselves as validators. *)

From Stdlib Require Import OrderedTypeEx.
From S2P Require Import Prelude VectorClock TicketMachine Hashing Proto Messages Pbft GossipCache GossipEngine Storage Network Notifier Validator.

Module ValidatorProps.
Import VectorClock TicketMachine Validator.

Section props.
Context {DB : Type} `{Storage.BoltLaws DB} `{Storage.JsonCodec Storage.TicketRecord}.
Context (clean : Storage.TicketRecord → Prop) `{!Storage.JsonLaws Storage.TicketRecord clean}.
Context `{pb.ProtoMessage pb.ValidatorMessage, pb.ProtoMessage pb.PrePrepare,
  pb.ProtoMessage pb.Prepare, pb.ProtoMessage pb.Commit, pb.ProtoMessage pb.Request,
  pb.ProtoMessage pb.ViewChange, pb.ProtoMessage pb.Checkpoint, pb.ProtoMessage pb.StateUpdate,
  pb.ProtoMessage pb.StateSyncRequest, pb.ProtoMessage pb.StateSyncResponse}.
Implicit Types e : Env DB.
Implicit Types a : App DB.
Implicit Types sm : StateMachine (Env DB).

(** The state machine with the handlers of a validator. *)
Definition wired (n_ID : string) sm : Prop :=
  handlers sm = [notify_handler; storage_handler] ∧ publishUpdate sm = Some (publisher n_ID).

(** Every stored ticket decodes to a record of its key. *)
Definition db_keyed (db : DB) : Prop :=
  ∀ k v, Storage.Get db Storage.BucketTickets k = Some v →
    ∃ r, Storage.json_Unmarshal v = Ok r ∧ Storage.tr_ID r = k.

(** [record] is what the database holds for its ticket. *)
Definition stored (record : Storage.TicketRecord) (db : DB) : Prop :=
  Storage.Bucket db Storage.BucketTickets = true ∧
  ∃ v, Storage.Get db Storage.BucketTickets (Storage.tr_ID record) = Some v ∧
    Storage.json_Unmarshal v = Ok record.

Lemma save_stored record db db' :
  clean record → Storage.SaveTicket record db = (db', None) →
  stored record db' ∧ (db_keyed db → db_keyed db').
Proof.
  intros Hc Hs. apply Storage.save_Ok in Hs as (Hb & data & Hm & Hput).
  pose proof (Storage.Get_Put _ _ _ _ _ Hput) as Hget.
  pose proof (Storage.json_roundtrip _ _ Hc Hm) as Hdec. split.
  - split; [by rewrite (Storage.Bucket_Put _ _ _ _ _ Hput)|]. exists data.
    by rewrite Hget, decide_True.
  - intros Hk k v. rewrite Hget. case_decide as Heq; [|apply Hk].
    intros [= <-]. exists record. destruct Heq. by split.
Qed.

(** Saving the same record again, successfully or not, keeps it stored. *)
Lemma save_again record db db' err :
  clean record → stored record db → db_keyed db → Storage.SaveTicket record db = (db', err) →
  stored record db' ∧ db_keyed db'.
Proof.
  intros Hc Hst Hk Hs. destruct err as [err|].
  - apply Storage.Update_Err in Hs as ->. done.
  - destruct (save_stored _ _ _ Hc Hs). auto.
Qed.

Lemma publisher_db n_ID id s v ts e : e_db (fst (publisher n_ID id s v ts e)) = e_db e.
Proof. unfold publisher. repeat case_match; done. Qed.

Lemma run_wired t old new e e' :
  run_handlers [notify_handler; storage_handler] t old new e = (e', None) →
  Storage.SaveTicket (record_of t) (e_db e) = (e_db e', None).
Proof.
  cbn [run_handlers]. unfold notify_handler, storage_handler, save. simpl.
  destruct (Storage.SaveTicket (record_of t) (e_db e)) as [db [err|]] eqn:Hs; [done|].
  by intros [= <-].
Qed.

Lemma finish_transition_saved n_ID id t old new v sm e sm' e' :
  wired n_ID sm → finish_transition id t old new v sm e = (sm', e', None) →
  let t' := MkTicket (t_ID t) (t_State t) (t_Data t) (t_ValidatorID t) (t_Timestamp t)
    (Increment (vectorClock sm)) (t_Metadata t) in
  currentState sm' = <[id := t']> (currentState sm) ∧
  Storage.SaveTicket (record_of t') (e_db e) = (e_db e', None).
Proof.
  intros [Hh Hp] Hf t'. unfold finish_transition in Hf. rewrite Copy_id in Hf. cbn [handlers] in Hf.
  rewrite Hh in Hf. fold t' in Hf.
  destruct (run_handlers _ t' old new e) as [e1 [err|]] eqn:Hrun; [done|].
  apply run_wired in Hrun. cbn [publishUpdate] in Hf. rewrite Hp in Hf.
  destruct (publisher n_ID id new v (t_Timestamp t') e1) as [e2 perr] eqn:Hpub.
  injection Hf as <- <-. split; [done|]. rewrite Hrun. f_equal.
  pose proof (publisher_db n_ID id new v (t_Timestamp t') e1) as Hdb. by rewrite Hpub in Hdb.
Qed.

(** The state an operation leads to. *)
Definition target (operation : string) : string :=
  if (operation =? "VALIDATE")%string then StateValidated
  else if (operation =? "CONSUME")%string then StateConsumed else StateDisputed.

(** What a successful operation leaves in memory and in the database. *)
Lemma apply_operation_saved n_ID req v a a' :
  wired n_ID (a_sm a) → apply_operation req v a = (a', None) →
  (∀ t, currentState (a_sm a) !! Messages.TicketID req = Some t → t_ID t = Messages.TicketID req) →
  Messages.Operation req ∈ ["VALIDATE"; "CONSUME"; "DISPUTE"] →
  ∃ t, currentState (a_sm a') !! Messages.TicketID req = Some t ∧ t_ID t = Messages.TicketID req ∧
    t_State t = target (Messages.Operation req) ∧
    t_VectorClock t = Increment (vectorClock (a_sm a)) ∧
    Storage.SaveTicket (record_of t) (e_db (a_env a)) = (e_db (a_env a'), None).
Proof.
  intros Hw Ha Hid Hop. unfold apply_operation in Ha. unfold target.
  assert (∀ t old new v sm' e',
    t_ID t = Messages.TicketID req →
    finish_transition (Messages.TicketID req) t old new v (a_sm a) (a_env a) = (sm', e', None) →
    ∃ t', currentState sm' !! Messages.TicketID req = Some t' ∧ t_ID t' = Messages.TicketID req ∧
      t_State t' = t_State t ∧ t_VectorClock t' = Increment (vectorClock (a_sm a)) ∧
      Storage.SaveTicket (record_of t') (e_db (a_env a)) = (e_db e', None)) as Hfin.
  { intros t old new v0 sm' e' Ht Hf. destruct (finish_transition_saved n_ID _ _ _ _ _ _ _ _ _ Hw Hf) as [Hc Hs].
    eexists. rewrite Hc, lookup_insert_eq. by split_and!. }
  destruct (String.eqb_spec (Messages.Operation req) "VALIDATE") as [Hv|Hv].
  { unfold TicketMachine.ValidateTicket in Ha.
    destruct (currentState (a_sm a) !! Messages.TicketID req) as [t|] eqn:Ht; [|done].
    destruct (validate_guard _ _); [done|].
    destruct (finish_transition _ _ _ _ _ _ _) as [[sm' e'] err] eqn:Hf. simplify_eq/=.
    edestruct Hfin as (t' & ? & ? & Hst & ? & ?); [|exact Hf|]; [exact (Hid _ eq_refl)|].
    exists t'. by split_and!. }
  destruct (String.eqb_spec (Messages.Operation req) "CONSUME") as [Hcn|Hcn].
  { unfold TicketMachine.ConsumeTicket in Ha.
    destruct (currentState (a_sm a) !! Messages.TicketID req) as [t|] eqn:Ht; [|done].
    case_decide; [|done].
    destruct (finish_transition _ _ _ _ _ _ _) as [[sm' e'] err] eqn:Hf. simplify_eq/=.
    edestruct Hfin as (t' & ? & ? & Hst & ? & ?); [|exact Hf|]; [exact (Hid _ eq_refl)|].
    exists t'. by split_and!. }
  destruct (String.eqb_spec (Messages.Operation req) "DISPUTE") as [Hd|Hd].
  { unfold TicketMachine.DisputeTicket in Ha.
    destruct (currentState (a_sm a) !! Messages.TicketID req) as [t|] eqn:Ht; [|done].
    destruct (finish_transition _ _ _ _ _ _ _) as [[sm' e'] err] eqn:Hf. simplify_eq/=.
    edestruct Hfin as (t' & ? & ? & Hst & ? & ?); [|exact Hf|]; [exact (Hid _ eq_refl)|].
    exists t'. by split_and!. }
  rewrite !elem_of_cons, elem_of_nil in Hop. naive_solver.
Qed.

(** Persisting the ticket once more keeps it stored. *)
Lemma persist_keeps id a t :
  currentState (a_sm a) !! id = Some t → clean (record_of t) →
  stored (record_of t) (e_db (a_env a)) → db_keyed (e_db (a_env a)) →
  a_sm (persistTicket id a) = a_sm a ∧
  stored (record_of t) (e_db (a_env (persistTicket id a))) ∧
  db_keyed (e_db (a_env (persistTicket id a))).
Proof.
  intros Ht Hc Hst Hk. unfold persistTicket, TicketMachine.GetTicket. rewrite Ht.
  assert (record_of (copy_ticket t) = record_of t) as ->.
  { unfold record_of, copy_ticket; simpl. rewrite Copy_id. unfold copyMetadata.
    f_equal. apply copy_map_id. }
  unfold save. destruct (Storage.SaveTicket _ _) as [db err] eqn:Hs. cbn.
  by destruct (save_again _ _ _ _ Hc Hst Hk Hs).
Qed.

(** ** Loading at startup *)

Lemma decode_all_keyed (pairs : list (string * string)) :
  NoDup pairs.*1 →
  (∀ k v, (k, v) ∈ pairs → ∃ r, Storage.json_Unmarshal v = Ok r ∧ Storage.tr_ID r = k) →
  ∃ records : list Storage.TicketRecord,
    Storage.decode_all pairs = Ok records ∧ Storage.tr_ID <$> records = pairs.*1.
Proof.
  induction pairs as [|[k v] pairs IH]; intros Hnd Hk; [by exists []|].
  simpl in Hnd. apply NoDup_cons in Hnd as [Hni Hnd].
  destruct (Hk k v) as (r & Hr & Hrid); [by left|].
  destruct IH as (rs & Hrs & Hids); [done|intros; apply Hk; by right|].
  exists (r :: rs). cbn [Storage.decode_all]. rewrite Hr, Hrs. split; [done|].
  cbn. by rewrite Hids, Hrid.
Qed.

Lemma load_keyed db record :
  db_keyed db → stored record db →
  ∃ records, Storage.GetAllTickets db = Ok records ∧ NoDup (Storage.tr_ID <$> records) ∧
    record ∈ records.
Proof.
  intros Hk (Hb & v & Hg & Hdec).
  destruct (decode_all_keyed (Storage.Pairs db Storage.BucketTickets)) as (records & Hd & Hids).
  - apply Storage.Pairs_NoDup.
  - intros k v' Hin. apply Hk. by apply Storage.Pairs_Get.
  - exists records. split; [by apply Storage.with_bucket_Ok|]. split; [rewrite Hids; apply Storage.Pairs_NoDup|].
    destruct (Storage.decode_all_elem _ _ (Storage.tr_ID record) v Hd) as (r & Hr & Hin).
    + by apply Storage.Pairs_Get.
    + rewrite Hdec in Hr. by injection Hr as <-.
Qed.

(** Merging tickets with different names into a machine that has none of them adds them all. *)
Lemma merge_fresh (ts : list Ticket) m t :
  NoDup (t_ID <$> ts) → (∀ t, t ∈ ts → m !! t_ID t = None) → t ∈ ts →
  foldl merge_ticket m ts !! t_ID t = Some (copy_ticket t).
Proof.
  revert m. induction ts as [|t0 ts IH]; intros m Hnd Hm Hin; [by apply elem_of_nil in Hin|].
  simpl in Hnd. apply NoDup_cons in Hnd as [Hni Hnd]. cbn [foldl].
  assert (merge_ticket m t0 = <[t_ID t0 := copy_ticket t0]> m) as ->.
  { unfold merge_ticket. rewrite Hm by (by left). done. }
  assert (∀ x, x ∈ ts → t_ID x ≠ t_ID t0) as Hne.
  { intros x Hx Heq. apply Hni. rewrite <- Heq. by apply list_elem_of_fmap_2. }
  apply elem_of_cons in Hin as [->|Hin].
  - assert (∀ ts m, (∀ x, x ∈ ts → t_ID x ≠ t_ID t0) → foldl merge_ticket m ts !! t_ID t0 = m !! t_ID t0)
      as Hskip.
    { clear. intros ts. induction ts as [|x ts IH]; intros m Hne; [done|]. cbn [foldl].
      rewrite IH by (intros; apply Hne; by right). apply merge_ticket_other, Hne. by left. }
    rewrite Hskip by done. apply lookup_insert_eq.
  - apply IH; [done| |done]. intros x Hx. rewrite lookup_insert_ne by (intros Heq; by apply (Hne x)).
    apply Hm. by right.
Qed.

(** The clock rebuilt from stored entries reads as the stored one. *)
Lemma clock_of_Get n_ID c k :
  map_Forall (λ _ v, is_u64 v) c → Get (clock_of n_ID c) k = map_get 0%Z c k.
Proof.
  intros Hc. set (other := MkVectorClock n_ID c).
  assert (∀ es vc, foldl (λ vc x, Update vc x.1 x.2) vc es = Merge_in_order es vc) as Hfold.
  { induction es as [|[k' v'] es IH]; intros vc; [by destruct vc|]. cbn [foldl]. rewrite IH. done. }
  unfold clock_of. rewrite Hfold.
  rewrite (Merge_in_order_Get (NewVectorClock n_ID) other); [|apply NewVectorClock_wf|done|done].
  assert (Get (NewVectorClock n_ID) k = 0%Z) as ->.
  { unfold Get, NewVectorClock, map_get; simpl. destruct (decide (n_ID = k)) as [->|].
    - by rewrite lookup_singleton_eq.
    - by rewrite lookup_singleton_ne. }
  assert (0 ≤ Get other k)%Z by (pose proof (Get_u64 other k Hc) as [? _]; lia).
  unfold Get at 1; simpl. unfold Get in *; simpl in *. lia.
Qed.

(** [t'] is [t] up to the representation of its clock. *)
Definition same_ticket (t t' : Ticket) : Prop :=
  t_ID t' = t_ID t ∧ t_State t' = t_State t ∧ t_Data t' = t_Data t ∧
  t_ValidatorID t' = t_ValidatorID t ∧ t_Timestamp t' = t_Timestamp t ∧
  t_Metadata t' = t_Metadata t ∧ clock_equiv (t_VectorClock t) (t_VectorClock t').

Lemma restart_loads n_ID a record :
  currentState (a_sm a) = ∅ → db_keyed (e_db (a_env a)) → stored record (e_db (a_env a)) →
  currentState (a_sm (loadTicketsFromStore n_ID a)) !! Storage.tr_ID record
    = Some (copy_ticket (ticket_of n_ID record)).
Proof.
  intros Hnew Hk Hst. destruct (load_keyed _ _ Hk Hst) as (records & Hall & Hnd & Hin).
  unfold loadTicketsFromStore. rewrite Hall.
  rewrite bool_decide_false by (destruct records; [by apply elem_of_nil in Hin|done]).
  cbn [a_sm currentState MergeState]. rewrite Hnew.
  change (Storage.tr_ID record) with (t_ID (ticket_of n_ID record)). apply merge_fresh.
  - rewrite <- list_fmap_compose. exact Hnd.
  - intros x _. apply lookup_empty.
  - by apply list_elem_of_fmap_2.
Qed.

Lemma restart_recovers n_ID a t :
  currentState (a_sm a) = ∅ →
  db_keyed (e_db (a_env a)) → stored (record_of t) (e_db (a_env a)) → clock_wf (t_VectorClock t) →
  ∃ t', currentState (a_sm (loadTicketsFromStore n_ID a)) !! t_ID t = Some t' ∧
    same_ticket t t'.
Proof.
  intros Hnew Hk Hst Hwf. pose proof (restart_loads n_ID a (record_of t) Hnew Hk Hst) as Hl.
  eexists. split; [exact Hl|].
  unfold same_ticket, copy_ticket, ticket_of, record_of; simpl. rewrite Copy_id, GetAll_clocks.
  split_and!; try done.
  - unfold copyMetadata. apply copy_map_id.
  - intros k. by rewrite clock_of_Get.
Qed.

(** ** Seeding *)

Lemma seed_keeps clock seeds m count id t :
  m !! id = Some t → (foldl (seed_one clock) (m, count) seeds).1 !! id = Some t.
Proof.
  revert m count. induction seeds as [|s seeds IH]; intros m count Hm; [done|].
  cbn [foldl]. unfold seed_one at 2; cbn [fst snd].
  destruct (m !! seed_ID s) as [t'|] eqn:Hs; [by apply IH|].
  apply IH. rewrite lookup_insert_ne; [done|]. congruence.
Qed.

(** Saving never fails on a database that has the bucket. *)
Definition saves_succeed (records : list Storage.TicketRecord) : Prop :=
  ∀ record db, record ∈ records → Storage.Bucket db Storage.BucketTickets = true →
    ∃ db', Storage.SaveTicket record db = (db', None).

Lemma stored_other record record' db db' :
  stored record db → Storage.tr_ID record' ≠ Storage.tr_ID record →
  Storage.SaveTicket record' db = (db', None) → stored record db'.
Proof.
  intros (Hb & v & Hg & Hd) Hne Hs. apply Storage.save_Ok in Hs as (_ & data & _ & Hput). split.
  - by rewrite (Storage.Bucket_Put _ _ _ _ _ Hput).
  - exists v. split; [|done]. rewrite (Storage.Get_Put _ _ _ _ _ Hput), decide_False; [done|].
    naive_solver.
Qed.

(** Saving seeds stores each of them, and nothing that is not one. *)
Lemma save_seeds_stored seeds e :
  saves_succeed (seed_record <$> seeds) → (∀ s, s ∈ seeds → clean (seed_record s)) →
  NoDup (seed_ID <$> seeds) → Storage.Bucket (e_db e) Storage.BucketTickets = true →
  db_keyed (e_db e) →
  db_keyed (e_db (save_seeds seeds e)) ∧
  (∀ record, stored record (e_db e) → Storage.tr_ID record ∉ seed_ID <$> seeds →
    stored record (e_db (save_seeds seeds e))) ∧
  (∀ s, s ∈ seeds → stored (seed_record s) (e_db (save_seeds seeds e))).
Proof.
  revert e. induction seeds as [|s seeds IH]; intros e Hsave Hclean Hnd Hb Hk.
  { split_and!; [done..|]. by intros s ?%elem_of_nil. }
  rewrite fmap_cons in Hnd. apply NoDup_cons in Hnd as [Hni Hnd].
  destruct (Hsave (seed_record s) (e_db e)) as [db Hs]; [rewrite fmap_cons; by left|done|].
  change (save_seeds (s :: seeds) e) with (save_seeds seeds (fst (save (seed_record s) e))).
  unfold save. rewrite Hs. cbn [fst].
  destruct (save_stored _ _ _ (Hclean s ltac:(by left)) Hs) as [Hst Hk'].
  destruct (IH (set_db db e)) as (Hk2 & Hold & Hnew);
    [intros r d Hr; apply Hsave; rewrite fmap_cons; by right|intros; apply Hclean; by right|done|apply Hst|
     by apply Hk'|].
  split_and!; [done| |].
  - intros record Hrec Hnin. rewrite fmap_cons in Hnin. apply not_elem_of_cons in Hnin as [Hne Hnin].
    apply Hold; [|done]. eapply stored_other; [exact Hrec| |exact Hs]. cbn. congruence.
  - intros s' Hin. apply elem_of_cons in Hin as [->|Hin]; [|by apply Hnew].
    by apply Hold.
Qed.

Lemma seed_IDs now : seed_ID <$> seed_list now 500 = (λ i, "TICKET-" +:+ pad3 (Z.of_nat i)) <$> seq 1 500.
Proof. unfold seed_list. by rewrite <- list_fmap_compose. Qed.

Lemma seed_IDs_NoDup now : NoDup (seed_ID <$> seed_list now 500).
Proof. rewrite seed_IDs. apply (bool_decide_unpack _). vm_compute. exact I. Qed.

(** ** Properties *)

Lemma setup_wired nodeID peerID n primary e :
  wired nodeID (a_sm (v_app (setup nodeID peerID n primary e))).
Proof. by split. Qed.

(** C11: an operation that consensus committed and the node applied without error survives a
    restart. [a] is the application of a node wired by [setup], [a1] its state once the operation
    is applied; then the consensus handler reports no error, and a node started later on the
    database it leaves, in any other environment, holds the ticket in the state the operation
    leads to, with the same data, validator, time, metadata and clock entries. The assumptions on
    the database are that what it holds under a key is the record of that ticket, and that the
    new record is text JSON can carry. *)
Theorem committed_ticket_survives_restart n_ID req a a1 peerID totalNodes primary e :
  wired n_ID (a_sm a) → clock_wf (vectorClock (a_sm a)) →
  (∀ t, currentState (a_sm a) !! Messages.TicketID req = Some t → t_ID t = Messages.TicketID req) →
  db_keyed (e_db (a_env a)) →
  Messages.Operation req ∈ ["VALIDATE"; "CONSUME"; "DISPUTE"] →
  apply_operation req (validator_of n_ID req) a = (a1, None) →
  (∀ t, currentState (a_sm a1) !! Messages.TicketID req = Some t → clean (record_of t)) →
  (consensus_handler n_ID req a).2 = None ∧
  (e_db e = e_db (a_env (consensus_handler n_ID req a).1) →
   ∃ t t', currentState (a_sm (consensus_handler n_ID req a).1) !! Messages.TicketID req = Some t ∧
     t_State t = target (Messages.Operation req) ∧
     currentState (a_sm (v_app (start (setup n_ID peerID totalNodes primary e)))) !! Messages.TicketID req
       = Some t' ∧ same_ticket t t').
Proof.
  intros Hw Hwf Hid Hk Hop Ha Hclean.
  destruct (apply_operation_saved _ _ _ _ _ Hw Ha Hid Hop) as (t & Ht & Htid & Hst & Hvc & Hs).
  destruct (save_stored _ _ _ (Hclean t Ht) Hs) as [Hin Hk1]. specialize (Hk1 Hk).
  unfold consensus_handler. rewrite Ha. split; [done|]. cbn [fst]. intros He.
  destruct (persist_keeps _ _ _ Ht (Hclean t Ht) Hin Hk1) as (Hsm & Hin' & Hk').
  rewrite <- He in Hin', Hk'. rewrite Hsm.
  destruct (restart_recovers n_ID (v_app (setup n_ID peerID totalNodes primary e)) t)
    as (t' & Hl & Hsame); [done..|by rewrite Hvc; apply Increment_wf|].
  rewrite Htid in Hl. by exists t, t'.
Qed.

(** Running [SeedTickets] again loses what consensus decided about the seeded tickets. For a
    seeded ticket the node already holds, in whatever state, the call leaves the machine's copy
    alone, but once its saves succeed the store has it as a new ISSUED ticket: a node started on
    that store holds it ISSUED, with no validator and a clock of zeroes, ready to be validated
    again. *)
Theorem reseeding_resets_stored_state n s t n_ID peerID totalNodes primary e :
  s ∈ seed_list (e_now (a_env (v_app n))) 500 →
  currentState (a_sm (v_app n)) !! seed_ID s = Some t →
  saves_succeed (seed_record <$> seed_list (e_now (a_env (v_app n))) 500) →
  (∀ s, s ∈ seed_list (e_now (a_env (v_app n))) 500 → clean (seed_record s)) →
  Storage.Bucket (e_db (a_env (v_app n))) Storage.BucketTickets = true →
  db_keyed (e_db (a_env (v_app n))) →
  currentState (a_sm (v_app (SeedTickets n).1)) !! seed_ID s = Some t ∧
  (e_db e = e_db (a_env (v_app (SeedTickets n).1)) →
   ∃ t', currentState (a_sm (v_app (start (setup n_ID peerID totalNodes primary e)))) !! seed_ID s
     = Some t' ∧ t_State t' = StateIssued ∧ t_ValidatorID t' = "" ∧
     validate_guard (seed_ID s) (t_State t') = None ∧
     clock_equiv (t_VectorClock t') (NewVectorClock n_ID)).
Proof.
  intros Hs Ht Hsave Hclean Hb Hk. unfold SeedTickets, TicketMachine.SeedTickets.
  split; [by apply seed_keeps|]. cbn [fst v_app set_app a_env]. intros He.
  destruct (save_seeds_stored _ _ Hsave Hclean (seed_IDs_NoDup _) Hb Hk) as (Hk' & _ & Hst).
  specialize (Hst s Hs). rewrite <- He in Hst, Hk'.
  pose proof (restart_loads n_ID (v_app (setup n_ID peerID totalNodes primary e)) (seed_record s)
    eq_refl Hk' Hst) as Hl.
  eexists. split; [exact Hl|]. split_and!; try done.
  intros k. unfold copy_ticket, ticket_of; cbn [t_VectorClock seed_record Storage.tr_VectorClock].
  rewrite Copy_id. unfold clock_of. by rewrite map_to_list_empty.
Qed.

(** ** State synchronisation *)

Lemma persistTicket_sm id a : a_sm (persistTicket id a) = a_sm a.
Proof. unfold persistTicket. by destruct (TicketMachine.GetTicket _ _). Qed.

(** The ticket a response's entry becomes. *)
Definition synced (responder : string) (ts : pb.TicketState) (t : Ticket) : Prop :=
  pb.ts_State ts = pb.State_VALIDATED ∧ t_ID t = pb.ts_TicketId ts ∧ t_State t = StateValidated ∧
  t_Data t = pb.ts_Metadata ts ∧ t_ValidatorID t = responder.

Lemma sync_ticket_cases responder a ts :
  let m := currentState (a_sm a) in
  let m' := currentState (a_sm (sync_ticket responder a ts)) in
  (m' = m ∧ (is_Some (m !! pb.ts_TicketId ts) ∨ pb.ts_State ts ≠ pb.State_VALIDATED)) ∨
  (m !! pb.ts_TicketId ts = None ∧
   ∃ t, m' = <[pb.ts_TicketId ts := t]> m ∧ synced responder ts t).
Proof.
  unfold sync_ticket, HasTicket, SyncTicket. case_bool_decide as Hin; [by left; auto|].
  apply eq_None_not_Some in Hin. rewrite Hin.
  destruct (Z.eqb_spec (pb.ts_State ts) pb.State_VALIDATED) as [Hv|Hv]; [right|left; auto].
  split; [done|]. destruct (run_handlers _ _ _ _ _) as [e err].
  eexists. split; [destruct err; rewrite ?persistTicket_sm; reflexivity|by split_and!].
Qed.

Lemma sync_tickets responder l a :
  let m := currentState (a_sm a) in
  let m' := currentState (a_sm (foldl (sync_ticket responder) a l)) in
  (∀ id t, m !! id = Some t → m' !! id = Some t) ∧
  (∀ id t, m' !! id = Some t → m !! id = None → ∃ ts, ts ∈ l ∧ pb.ts_TicketId ts = id ∧ synced responder ts t) ∧
  (∀ ts, ts ∈ l → pb.ts_State ts = pb.State_VALIDATED → is_Some (m' !! pb.ts_TicketId ts)).
Proof.
  revert a. induction l as [|ts l IH]; intros a.
  { split_and!; [done|cbn; congruence|by intros ts ?%elem_of_nil]. }
  cbn [foldl]. destruct (IH (sync_ticket responder a ts)) as (Hkeep & Hnew & Hall).
  destruct (sync_ticket_cases responder a ts) as [[Heq Hcase]|(Hnone & t & Heq & Ht)]; cbv zeta in *.
  - rewrite Heq in *. split_and!; [done| |].
    + intros id t' H' H''. destruct (Hnew id t' H' H'') as (x & ? & ?). exists x. split; [by right|done].
    + intros x Hx Hv. apply elem_of_cons in Hx as [->|Hx]; [|by apply Hall].
      destruct Hcase as [[t Ht]|]; [|done]. eauto.
  - rewrite Heq in *. split_and!.
    + intros id t' H'. apply Hkeep. rewrite lookup_insert_ne; [done|]. congruence.
    + intros id t' H' H''. destruct (decide (pb.ts_TicketId ts = id)) as [<-|Hne].
      * rewrite (Hkeep _ t) in H' by apply lookup_insert_eq. injection H' as <-.
        exists ts. split; [by left|done].
      * destruct (Hnew id t' H') as (x & ? & ?); [by rewrite lookup_insert_ne|].
        exists x. split; [by right|done].
    + intros x Hx Hv. apply elem_of_cons in Hx as [->|Hx]; [|by apply Hall].
      exists t. apply Hkeep, lookup_insert_eq.
Qed.

(** ** Who validated a ticket *)

(** Whatever its handlers answer, applying a VALIDATE to an issued ticket records [validatorID]. *)
Lemma apply_validate_records req validatorID a t :
  Messages.Operation req = "VALIDATE" →
  currentState (a_sm a) !! Messages.TicketID req = Some t → t_State t = StateIssued →
  ∃ t', currentState (a_sm (apply_operation req validatorID a).1) !! Messages.TicketID req = Some t' ∧
    t_State t' = StateValidated ∧ t_ValidatorID t' = validatorID.
Proof.
  intros Hop Ht Hst. unfold apply_operation, TicketMachine.ValidateTicket.
  rewrite Hop, String.eqb_refl, Ht, Hst. cbn [validate_guard].
  rewrite (proj2 (validate_guard_None _ StateIssued) eq_refl).
  destruct (finish_transition_sm (Messages.TicketID req)
    (set_validator validatorID (retag StateValidated (e_now (a_env a)) t)) StateIssued StateValidated
    validatorID (a_sm a) (a_env a)) as (e & err & ->).
  cbn [fst snd a_sm currentState]. rewrite lookup_insert_eq. by eexists.
Qed.

Lemma consensus_handler_sm n_ID req a :
  a_sm (consensus_handler n_ID req a).1 = a_sm (apply_operation req (validator_of n_ID req) a).1.
Proof.
  unfold consensus_handler. destruct (apply_operation _ _ _) as [a' [err|]]; cbn.
  - destruct (idempotent err); cbn; by rewrite ?persistTicket_sm.
  - by rewrite persistTicket_sm.
Qed.

(** Replicas record themselves, not the node that took the request. The node that proposes a
    VALIDATE executes its own copy of the request, which names the originating node; a replica
    [n2] executes what it decodes from the PRE-PREPARE, which does not. Both move the issued
    ticket to VALIDATED, with different validators unless [n2] is the originator. *)
Theorem replicas_record_themselves `{!pb.ProtoLaws pb.PrePrepare pb.unset_PrePrepare}
    n1 n2 view seq digest req data m a1 a2 t1 t2 :
  Messages.NodeID req ≠ "" → Messages.Operation req = "VALIDATE" →
  Messages.SerializePrePrepare (Messages.MkPrePrepareMsg view seq digest req) = Ok data →
  Messages.DeserializePrePrepare data = Ok m →
  currentState (a_sm a1) !! Messages.TicketID req = Some t1 → t_State t1 = StateIssued →
  currentState (a_sm a2) !! Messages.TicketID req = Some t2 → t_State t2 = StateIssued →
  ∃ t1' t2',
    currentState (a_sm (consensus_handler n1 req a1).1) !! Messages.TicketID req = Some t1' ∧
    t_State t1' = StateValidated ∧ t_ValidatorID t1' = Messages.NodeID req ∧
    currentState (a_sm (consensus_handler n2 (Messages.ppm_Request m) a2).1) !! Messages.TicketID req
      = Some t2' ∧
    t_State t2' = StateValidated ∧ t_ValidatorID t2' = n2.
Proof.
  intros Hne Hop Hser Hdes Ht1 Hs1 Ht2 Hs2.
  rewrite (Messages.PrePrepare_decodes _ _ Hser) in Hdes. injection Hdes as <-.
  destruct (apply_validate_records req (validator_of n1 req) a1 t1 Hop Ht1 Hs1) as (t1' & ? & ? & Hv1).
  destruct (apply_validate_records (Messages.received_in_preprepare req) n2 a2 t2) as (t2' & ? & ? & ?);
    [cbn; by rewrite Hop|done..|].
  exists t1', t2'. rewrite !consensus_handler_sm. split_and!; try done.
  rewrite Hv1. unfold validator_of. by destruct (String.eqb_spec (Messages.NodeID req) "").
Qed.

(** C38: what a state synchronisation response can change. It never touches the consensus state or
    a ticket the node has. Every ticket that is new afterwards is a VALIDATED entry of the
    response, recorded as validated by the responder; and nothing is added unless the response
    claims a sequence beyond the node's own, in which case every VALIDATED entry is known
    afterwards. *)
Theorem sync_response_only_adds_validated payload n n' err :
  handleStateSyncResponse payload n = (n', err) →
  let m := currentState (a_sm (v_app n)) in
  let m' := currentState (a_sm (v_app n')) in
  v_pbft n' = v_pbft n ∧
  (∀ id t, m !! id = Some t → m' !! id = Some t) ∧
  (∀ id t, m' !! id = Some t → m !! id = None →
    ∃ response ts, pb.Unmarshal payload = Ok response ∧
      (Pbft.sequence (v_pbft n) < pb.ss_CurrentSequence response)%Z ∧
      ts ∈ pb.ss_ValidatedTickets response ∧ pb.ts_TicketId ts = id ∧
      synced (pb.ss_ResponderId response) ts t) ∧
  (∀ response ts, pb.Unmarshal payload = Ok response →
    (Pbft.sequence (v_pbft n) < pb.ss_CurrentSequence response)%Z →
    ts ∈ pb.ss_ValidatedTickets response → pb.ts_State ts = pb.State_VALIDATED →
    is_Some (m' !! pb.ts_TicketId ts)).
Proof.
  unfold handleStateSyncResponse.
  destruct (pb.Unmarshal payload) as [response|] eqn:Hu;
    [|intros [= <- <-]; split_and!; [done..|congruence|done]].
  destruct (Z.ltb_spec (Pbft.sequence (v_pbft n)) (pb.ss_CurrentSequence response)) as [Hlt|Hge].
  - intros [= <- <-].
    destruct (sync_tickets (pb.ss_ResponderId response) (pb.ss_ValidatedTickets response) (v_app n))
      as (Hkeep & Hnew & Hall).
    split_and!; [done|exact Hkeep| |].
    + intros id t Hid Hno. destruct (Hnew id t Hid Hno) as (ts & ? & ? & ?). by exists response, ts.
    + intros response' ts [= <-] _. apply Hall.
  - intros [= <- <-]. split_and!; [done..|congruence|]. intros response' ts [= <-]. lia.
Qed.

End props.

(** ** Witnesses *)

#[local] Existing Instance Storage.bit_json.
#[local] Existing Instance Storage.bit_json_laws.

(** An encoder with fixed output: nothing below decodes what these nodes send. *)
#[local] Instance fixed_codec (M : Type) : pb.ProtoMessage M := {|
  pb.Marshal _ := Ok "message";
  pb.Unmarshal _ := Err "not a message";
|}.

(** An engine, whose cache is kept small. *)
Definition demo_gossip : GossipEngine.GossipEngine unit :=
  GossipEngine.MkGossipEngine "node0" 3
    (GossipCache.MkMessageCache 4 ∅ [] (GossipCache.MkBloomFilter (replicate 64 false) 64 3) 0) [] false [] ∅ ∅ ∅ 0.

Definition demo_env : Env Storage.mem_db :=
  MkEnv Storage.mem_store Notifier.NewStateNotifier demo_gossip [] None 1700000000 1700000000000000000.

(** A node of a network of four, holding the issued ticket T1. *)
Definition demo_node : ValidatorNode Storage.mem_db :=
  let n := setup "node0" "peer0" 4 true demo_env in
  set_app (MkApp (fst (IssueTicket 1600000000 "T1" "seat A1" (a_sm (v_app n)))) demo_env) n.

Definition demo_request (origin : string) : Messages.Request :=
  Messages.MkRequest "node0-1-T1" "T1" "VALIDATE" "seat A1" 1700000000 origin.

Lemma committed_ticket_survives_restart_witness : ∃ a1 t t',
  apply_operation (demo_request "node0") "node0" (v_app demo_node) = (a1, None) ∧
  currentState (a_sm a1) !! "T1" = Some t ∧ t_State t = StateValidated ∧ same_ticket t t'.
Proof.
  destruct (apply_operation (demo_request "node0") "node0" (v_app demo_node)) as [a1 err] eqn:Ha.
  assert (err = None) as Herr.
  { change err with ((a1, err).2). rewrite <- Ha. vm_compute. reflexivity. }
  rewrite Herr in Ha.
  destruct (committed_ticket_survives_restart (λ _, True) "node0" (demo_request "node0") (v_app demo_node) a1
    "peer0" 4 true (a_env (consensus_handler "node0" (demo_request "node0") (v_app demo_node)).1))
    as [Hok Hrun].
  - split; reflexivity.
  - apply NewVectorClock_wf.
  - intros t Ht. vm_compute in Ht. injection Ht as <-. reflexivity.
  - intros k v Hkv. vm_compute in Hkv. discriminate.
  - apply list_elem_of_here.
  - exact Ha.
  - intros t _. exact I.
  - destruct (Hrun eq_refl) as (t & t' & Ht & Hst & _ & Hsame).
    exists a1, t, t'. split; [rewrite Herr; reflexivity|]. split; [|split; [exact Hst|exact Hsame]].
    rewrite <- Ht. unfold consensus_handler, validator_of. cbn [demo_request Messages.NodeID].
    change (if ("node0" =? "")%string then "node0" else "node0") with "node0".
    rewrite Ha. unfold persistTicket. destruct (TicketMachine.GetTicket _ _); reflexivity.
Defined.

#[local] Instance preprepare_codec : pb.ProtoMessage pb.PrePrepare := pb.bit_codec pb.PrePrepare.
#[local] Instance preprepare_laws : pb.ProtoLaws pb.PrePrepare pb.unset_PrePrepare :=
  pb.bit_codec_laws pb.PrePrepare.
#[local] Instance sync_codec : pb.ProtoMessage pb.StateSyncResponse := pb.bit_codec pb.StateSyncResponse.

Lemma replicas_record_themselves_witness : ∃ m t1 t2,
  currentState (a_sm (consensus_handler "node0" (demo_request "node0") (v_app demo_node)).1) !! "T1" = Some t1 ∧
  currentState (a_sm (consensus_handler "node2" (Messages.ppm_Request m) (v_app demo_node)).1) !! "T1" = Some t2 ∧
  t_ValidatorID t1 = "node0" ∧ t_ValidatorID t2 = "node2".
Proof.
  destruct (Messages.SerializePrePrepare (Messages.MkPrePrepareMsg 0 1 "d" (demo_request "node0")))
    as [data|] eqn:Hd; [|discriminate].
  destruct (Messages.DeserializePrePrepare data) as [m|] eqn:Hm.
  2: { rewrite (Messages.PrePrepare_decodes _ _ Hd) in Hm. discriminate. }
  destruct (currentState (a_sm (v_app demo_node)) !! "T1") as [t|] eqn:Ht; [|discriminate].
  assert (t_State t = StateIssued) as Hst by (vm_compute in Ht; injection Ht as <-; reflexivity).
  destruct (replicas_record_themselves "node0" "node2" 0 1 "d" (demo_request "node0") data m
    (v_app demo_node) (v_app demo_node) t t) as (t1 & t2 & H1 & _ & Hv1 & H2 & _ & Hv2);
    [discriminate|reflexivity|exact Hd|exact Hm|exact Ht|exact Hst|exact Ht|exact Hst|].
  exists m, t1, t2. split; [exact H1|split; [exact H2|split; [exact Hv1|exact Hv2]]].
Defined.

(** A response that knows one ticket more, and lies about T1. *)
Definition demo_response : pb.StateSyncResponse :=
  pb.MkStateSyncResponse "node3" 5 0
    [pb.MkTicketState "T1" pb.State_CONSUMED 9 "node3" None "";
     pb.MkTicketState "T2" pb.State_VALIDATED 9 "node1" None "seat A2"] ["T2"] 9.

Lemma sync_response_only_adds_validated_witness : ∃ payload,
  pb.Marshal demo_response = Ok payload ∧
  let n' := (handleStateSyncResponse payload demo_node).1 in
  currentState (a_sm (v_app n')) !! "T1" = currentState (a_sm (v_app demo_node)) !! "T1" ∧
  is_Some (currentState (a_sm (v_app n')) !! "T2").
Proof.
  destruct (pb.Marshal demo_response) as [payload|] eqn:Hm; [|discriminate].
  exists payload. split; [reflexivity|]. cbv zeta.
  destruct (handleStateSyncResponse payload demo_node) as [n' err] eqn:Hn.
  destruct (sync_response_only_adds_validated payload demo_node n' err Hn) as (_ & Hkeep & _ & Hall).
  split.
  - destruct (currentState (a_sm (v_app demo_node)) !! "T1") as [t|] eqn:Ht; [|discriminate].
    exact (Hkeep _ _ Ht).
  - refine (Hall demo_response (pb.MkTicketState "T2" pb.State_VALIDATED 9 "node1" None "seat A2") _ _ _ _).
    + exact (@pb.Unmarshal_Marshal _ _ _ (pb.bit_codec_laws pb.StateSyncResponse) _ _ Hm).
    + vm_compute. reflexivity.
    + right. left.
    + reflexivity.
Defined.

(** The node once the first seeded ticket is validated. *)
Definition demo_seed : TicketSeed := seed_ticket 1700000000 1.

Definition demo_validated : Ticket :=
  MkTicket (seed_ID demo_seed) StateValidated (seed_Data demo_seed) "node0" 1700000000
    (MkVectorClock "node0" {[ "node0" := 1%Z ]}) ∅.

Definition demo_seeded_node : ValidatorNode Storage.mem_db :=
  set_app (MkApp (MergeState [demo_validated] (a_sm (v_app demo_node))) demo_env) demo_node.

Lemma reseeding_resets_stored_state_witness :
  let n' := (SeedTickets demo_seeded_node).1 in
  t_State demo_validated = StateValidated ∧
  ∃ t t', currentState (a_sm (v_app n')) !! "TICKET-001" = Some t ∧ t_State t = StateValidated ∧
    currentState (a_sm (v_app (start (setup "node0" "peer0" 4 true (a_env (v_app n')))))) !! "TICKET-001"
      = Some t' ∧ t_State t' = StateIssued.
Proof.
  cbv zeta. split; [reflexivity|].
  destruct (currentState (a_sm (v_app demo_seeded_node)) !! "TICKET-001") as [t|] eqn:Ht; [|discriminate].
  assert (t_State t = StateValidated) as Hst by (vm_compute in Ht; injection Ht as <-; reflexivity).
  destruct (reseeding_resets_stored_state (λ _, True) demo_seeded_node demo_seed t "node0" "peer0" 4 true
    (a_env (v_app (SeedTickets demo_seeded_node).1))) as [Hkeep Hrun].
  - apply list_elem_of_here.
  - exact Ht.
  - intros record db _ Hb. unfold Storage.SaveTicket. eexists.
    unfold Storage.Update, Storage.with_bucket. cbn in Hb |- *. rewrite Hb. reflexivity.
  - intros s _. exact I.
  - reflexivity.
  - intros k v Hkv. vm_compute in Hkv. discriminate.
  - destruct (Hrun eq_refl) as (t' & Ht' & Hst' & _).
    exists t, t'. split; [exact Hkeep|split; [exact Hst|split; [exact Ht'|exact Hst']]].
Defined.

End ValidatorProps.
