(* ===== verification/GoStrings.v ===== *)
(** Functions of Go's [strings] and [strconv] packages that the HTTP servers and the simulator's
    controller use, on byte strings: case and white space are those of ASCII. *)

From S2P Require Import Prelude.

Module GoStrings.

(** ** Characters *)

Definition code (c : ascii) : nat := nat_of_ascii c.

Definition is_digit (c : ascii) : bool := (48 <=? code c) && (code c <=? 57).
Definition is_lower (c : ascii) : bool := (97 <=? code c) && (code c <=? 122).
Definition is_upper (c : ascii) : bool := (65 <=? code c) && (code c <=? 90).

(** White space of [strings.TrimSpace]. *)
Definition is_space (c : ascii) : bool :=
  (code c =? 32) || ((9 <=? code c) && (code c <=? 13)).

Definition to_lower (c : ascii) : ascii := if is_upper c then ascii_of_nat (code c + 32) else c.

(** ** Cutting *)

(** The longest prefix of characters that satisfy [p], and the rest. *)
Fixpoint span (p : ascii → bool) (s : string) : string * string :=
  match s with
  | EmptyString => (""%string, ""%string)
  | String c s' => if p c then let r := span p s' in (String c r.1, r.2) else (""%string, s)
  end.

(** What follows the literal [l] at the start of [s]. *)
Fixpoint lit (l s : string) : option string :=
  match l, s with
  | EmptyString, _ => Some s
  | String a l, String b s => if Ascii.eqb a b then lit l s else None
  | String _ _, EmptyString => None
  end.

Definition TrimPrefix (s p : string) : string := default s (lit p s).

Fixpoint rev_string (s : string) (acc : string) : string :=
  match s with
  | EmptyString => acc
  | String c s => rev_string s (String c acc)
  end.

Definition TrimSuffix (s p : string) : string :=
  match lit (rev_string p "") (rev_string s "") with
  | Some r => rev_string r ""
  | None => s
  end.

Definition TrimSpace (s : string) : string :=
  rev_string (span is_space (rev_string (span is_space s).2 "")).2 "".

(** [strings.Split(s, sep)] for a separator of one character *)
Fixpoint Split (s : string) (sep : ascii) : list string :=
  match s with
  | EmptyString => [""%string]
  | String c s =>
      if Ascii.eqb c sep then ""%string :: Split s sep
      else match Split s sep with
           | x :: l => String c x :: l
           | [] => [String c ""]
           end
  end.

Fixpoint fold_case (s : string) : string :=
  match s with
  | EmptyString => ""
  | String c s => String (to_lower c) (fold_case s)
  end.

Definition EqualFold (s t : string) : bool := (fold_case s =? fold_case t)%string.

(** ** Numbers *)

(** The value [strconv.Atoi] returns for digits only, with or without a range error. *)
Definition Atoi_digits (s : string) : Z := Z.min (digits_value 0 s) (2 ^ 63 - 1).

(** * Lemmas *)

Fixpoint all_chars (p : ascii → bool) (s : string) : bool :=
  match s with
  | EmptyString => true
  | String c s => p c && all_chars p s
  end.

Lemma str_app_nil_r (s : string) : s +:+ "" = s.
Proof. induction s as [|c s IH]; simpl; [done|]. change (String c (s +:+ "") = String c s). by rewrite IH. Qed.

Lemma str_app_assoc (a b c : string) : (a +:+ b) +:+ c = a +:+ (b +:+ c).
Proof.
  induction a as [|x a IH]; [done|].
  change (String x ((a +:+ b) +:+ c) = String x (a +:+ (b +:+ c))). by rewrite IH.
Qed.

Lemma span_all p s t :
  all_chars p s = true → span p (s +:+ t) = (s +:+ (span p t).1, (span p t).2).
Proof.
  induction s as [|c s IH]; [intros _; apply surjective_pairing|].
  cbn [all_chars]. intros [Hc Hs]%andb_true_iff.
  change (String c s +:+ t) with (String c (s +:+ t)). cbn [span]. by rewrite Hc, IH.
Qed.

Lemma span_stop p c s : p c = false → span p (String c s) = (""%string, String c s).
Proof. simpl. by intros ->. Qed.

Lemma rev_string_app s t acc : rev_string (s +:+ t) acc = rev_string t (rev_string s acc).
Proof.
  revert acc. induction s as [|c s IH]; intros acc; [done|].
  change (String c s +:+ t) with (String c (s +:+ t)). cbn [rev_string]. apply IH.
Qed.

Lemma rev_string_rev s t acc : rev_string (rev_string s t) acc = rev_string t (s +:+ acc).
Proof.
  revert t. induction s as [|c s IH]; intros t; [done|]. cbn [rev_string]. by rewrite IH.
Qed.

Lemma all_chars_rev p s acc :
  all_chars p (rev_string s acc) = all_chars p s && all_chars p acc.
Proof.
  revert acc. induction s as [|c s IH]; intros acc; [done|]. cbn [rev_string all_chars].
  rewrite IH. cbn [all_chars]. destruct (p c), (all_chars p s); done.
Qed.

(** A suffix of one character is taken off where it is, and only there. *)
Lemma TrimSuffix_app s c : TrimSuffix (s +:+ String c "") (String c "") = s.
Proof.
  unfold TrimSuffix. rewrite rev_string_app. cbn [rev_string lit]. rewrite Ascii.eqb_refl.
  rewrite rev_string_rev. apply str_app_nil_r.
Qed.

Lemma TrimSuffix_none p s c :
  all_chars p s = true → p c = false → TrimSuffix s (String c "") = s.
Proof.
  intros Hs Hc. unfold TrimSuffix. cbn [rev_string].
  pose proof (all_chars_rev p s "") as Hr. destruct (rev_string s "") as [|d r]; [done|].
  rewrite Hs in Hr. cbn [all_chars andb] in Hr. apply andb_true_iff in Hr as [Hd _]. cbn [lit].
  destruct (Ascii.eqb_spec c d) as [->|]; [congruence | done].
Qed.

Lemma lit_app l s : lit l (l +:+ s) = Some s.
Proof. induction l as [|c l IH]; simpl; [done|]. by rewrite Ascii.eqb_refl. Qed.

Lemma has_prefix_lit s p : has_prefix s p = bool_decide (is_Some (lit p s)).
Proof.
  revert s. induction p as [|a p IH]; intros [|b s]; simpl; try done.
  rewrite (Ascii.eqb_sym b a). destruct (Ascii.eqb a b); simpl; [apply IH | done].
Qed.

Lemma digit_char_is_digit d : (0 ≤ d < 10)%Z → is_digit (digit_char d) = true.
Proof.
  intros Hd. unfold is_digit, digit_char, code. rewrite nat_ascii_embedding by lia.
  apply andb_true_iff. rewrite !Nat.leb_le. lia.
Qed.

Lemma digits_acc_digits fuel n acc :
  (0 ≤ n)%Z → all_chars is_digit acc = true → all_chars is_digit (digits_acc fuel n acc) = true.
Proof.
  revert n acc. induction fuel as [|fuel IH]; intros n acc Hn Hacc; cbn [digits_acc]; [done|].
  pose proof (Z.mod_pos_bound n 10 ltac:(lia)) as Hm.
  assert (all_chars is_digit (String (digit_char (n mod 10)) acc) = true) as Hall.
  { cbn [all_chars]. rewrite (digit_char_is_digit _ Hm). exact Hacc. }
  case_match; [exact Hall|]. apply IH; [apply Z.div_pos; lia | exact Hall].
Qed.

(** The text of a number without sign consists of digits, and there is one at least. *)
Lemma FormatInt_digits n : (0 ≤ n)%Z → all_chars is_digit (FormatInt n) = true.
Proof.
  intros Hn. unfold FormatInt. destruct (Z.ltb_spec n 0); [lia|].
  unfold format_nonneg. by apply digits_acc_digits.
Qed.

Lemma digits_acc_nonempty fuel n acc :
  0 < fuel → ∃ c s, digits_acc fuel n acc = String c s.
Proof.
  revert n acc. induction fuel as [|fuel IH]; intros n acc Hf; [lia|]. cbn [digits_acc].
  case_match; [eauto|]. destruct fuel; [cbn [digits_acc]; eauto | apply IH; lia].
Qed.

Lemma FormatInt_cons n : (0 ≤ n)%Z → ∃ c s, FormatInt n = String c s ∧ is_digit c = true.
Proof.
  intros Hn. pose proof (FormatInt_digits n Hn) as Hd. unfold FormatInt in *.
  destruct (Z.ltb_spec n 0); [lia|].
  destruct (digits_acc_nonempty (S (Z.to_nat (Z.log2 n))) n "" ltac:(lia)) as (c & s & Heq).
  unfold format_nonneg in *. rewrite Heq in *. exists c, s. split; [done|].
  cbn [all_chars] in Hd. by apply andb_true_iff in Hd as [? _].
Qed.

Lemma FormatInt_value n : (0 ≤ n)%Z → digits_value 0 (FormatInt n) = n.
Proof.
  intros Hn. unfold FormatInt. destruct (Z.ltb_spec n 0); [lia|]. by apply format_nonneg_value.
Qed.

Lemma Atoi_FormatInt n : (0 ≤ n < 2 ^ 63)%Z → Atoi_digits (FormatInt n) = n.
Proof. intros Hn. unfold Atoi_digits. rewrite FormatInt_value; lia. Qed.
End GoStrings.
