(* ===== verification/Float64.v ===== *)
(** Go's [float64]: IEEE 754 binary64 with the operations of [SpecFloat], the conversions from and to
    [int], and reading and printing of decimal text ([strconv.ParseFloat] on digits and dots, [fmt]'s
    [%.Nf]). *)

From Stdlib Require Import SpecFloat.
From S2P Require Import Prelude.

Module Float64.
Local Open Scope Z_scope.

Definition prec : Z := 53.
Definition emax : Z := 1024.

(** [float64(z)] *)
Definition of_int (z : Z) : spec_float := binary_normalize prec emax z 0 false.

Definition fdiv (x y : spec_float) : spec_float := SFdiv prec emax x y.
Definition fmul (x y : spec_float) : spec_float := SFmul prec emax x y.

(** The correctly rounded quotient of two positive integers of any size. *)
Definition of_ratio (num den : positive) : spec_float :=
  SFdiv prec emax (S754_finite false num 0) (S754_finite false den 0).

(** [int(f)]: truncation. A value that does not fit gives the smallest integer, as on amd64; Go leaves
    it to the implementation. *)
Definition to_int (f : spec_float) : Z :=
  match f with
  | S754_zero _ => 0
  | S754_finite s m e =>
      let a := if 0 <=? e then Zpos m * 2 ^ e else Zpos m / 2 ^ (- e) in
      let z := if s then - a else a in
      if (- 2 ^ 63 <=? z) && (z <? 2 ^ 63) then z else - 2 ^ 63
  | _ => - 2 ^ 63
  end.

(** [m * 2^e * 10^k], rounded to an integer, halves to the even one. *)
Definition scaled (m : positive) (e : Z) (k : nat) : Z :=
  let num := Zpos m * 10 ^ Z.of_nat k in
  if 0 <=? e then num * 2 ^ e
  else
    let q := num / 2 ^ (- e) in
    let r := num mod 2 ^ (- e) in
    match 2 * r ?= 2 ^ (- e) with
    | Lt => q
    | Eq => if Z.even q then q else q + 1
    | Gt => q + 1
    end.

Fixpoint pad_zeros (k : nat) (s : string) : string :=
  match k with O => s | S k => String "0" (pad_zeros k s) end.

(** An unsigned number of units of [10^-k] in decimal notation. *)
Definition decimal_text (k : nat) (q : Z) : string :=
  let frac := FormatInt (q mod 10 ^ Z.of_nat k) in
  FormatInt (q / 10 ^ Z.of_nat k) +:+
  (if (0 <? k)%nat then "." +:+ pad_zeros (k - String.length frac) frac else "").

(** [fmt]'s [%.kf] *)
Definition FormatFixed (k : nat) (f : spec_float) : string :=
  match f with
  | S754_nan => "NaN"
  | S754_infinity s => if s then "-Inf" else "+Inf"
  | S754_zero s => (if s then "-" else "") +:+ decimal_text k 0
  | S754_finite s m e => (if s then "-" else "") +:+ decimal_text k (scaled m e k)
  end.

(** Digits with at most one dot: the digits without the dot, and how many come after it. [seen] says
    whether the dot has been read. *)
Fixpoint read_decimal (s : string) (seen : bool) (digits : string) (after : nat)
    : option (string * nat) :=
  match s with
  | EmptyString => Some (digits, after)
  | String c s =>
      if (c =? ".")%char then
        if seen then None else read_decimal s true digits after
      else read_decimal s seen (digits +:+ String c "") (if seen then S after else after)
  end.

(** The value that [strconv.ParseFloat(s, 64)] returns, with or without an error, for a text of
    digits and dots: zero when the syntax is wrong, infinity when it is too large. *)
Definition ParseFloat (s : string) : spec_float :=
  match read_decimal s false "" 0 with
  | Some (digits, after) =>
      match digits_value 0 digits with
      | Zpos num =>
          if (after =? 0)%nat then of_int (Zpos num)
          else of_ratio num (Z.to_pos (10 ^ Z.of_nat after))
      | _ => S754_zero false
      end
  | None => S754_zero false
  end.

(** * Integers survive the conversion *)

Lemma digits2_log2 p : Zpos (digits2_pos p) = Z.log2 (Zpos p) + 1.
Proof.
  induction p as [p IH|p IH|]; [| |done].
  - cbn [digits2_pos]. rewrite Pos2Z.inj_succ, IH. rewrite (Pos2Z.inj_xI p), Z.log2_succ_double by lia. lia.
  - cbn [digits2_pos]. rewrite Pos2Z.inj_succ, IH. rewrite (Pos2Z.inj_xO p), Z.log2_double by lia. lia.
Qed.

Lemma iter_xO p k : Zpos (Pos.iter xO p k) = Zpos p * 2 ^ Zpos k.
Proof.
  induction k as [|k IH] using Pos.peano_ind; [simpl; lia|].
  rewrite Pos.iter_succ, Pos2Z.inj_xO, IH, Pos2Z.inj_succ, Z.pow_succ_r by lia. lia.
Qed.

Lemma shl_align_value p d :
  0 ≤ d → (let '(m, e) := shl_align p 0 (- d) in Zpos m = Zpos p * 2 ^ d ∧ e = - d).
Proof.
  intros Hd. unfold shl_align. rewrite Z.sub_0_r. destruct d as [|k|k]; [|by split; [apply iter_xO|]|lia].
  simpl. lia.
Qed.

(** An integer of at most 53 bits is represented by itself, shifted to 53 bits. *)
Lemma of_int_exact p :
  Zpos p < 2 ^ 53 → ∃ m d, of_int (Zpos p) = S754_finite false m (- d) ∧ 0 ≤ d ∧ Zpos m = Zpos p * 2 ^ d.
Proof.
  intros Hp. set (d := 52 - Z.log2 (Zpos p)).
  pose proof (Z.log2_lt_pow2 (Zpos p) 53 ltac:(lia)) as [Hl _]. specialize (Hl Hp).
  pose proof (Z.log2_nonneg (Zpos p)) as H0.
  assert (Hd : 0 ≤ d) by lia. exists (shl_align p 0 (- d)).1, d.
  pose proof (shl_align_value p d Hd) as Hs.
  unfold of_int, binary_normalize, binary_round.
  replace (fexp prec emax (Z.pos (digits2_pos p) + 0)) with (- d)
    by (rewrite digits2_log2; unfold fexp, emin, prec, emax; lia).
  destruct (shl_align p 0 (- d)) as [m e]. destruct Hs as [Hm ->].
  split; [|by split]. simpl.
  assert (Hfe : fexp prec emax (Zdigits2 (Zpos m) + - d) - - d = 0).
  { unfold Zdigits2. rewrite digits2_log2, Hm, Z.log2_mul_pow2 by lia.
    unfold fexp, emin, prec, emax. lia. }
  unfold binary_round_aux, shr_fexp. rewrite Hfe. cbn [shr shr_record_of_loc shr_m loc_of_shr_record
    round_nearest_even]. rewrite Hfe. cbn [shr shr_m].
  destruct (Z.leb_spec (- d) (emax - prec)) as [|Hgt]; [done|]. unfold emax, prec in Hgt. lia.
Qed.

(** [int(float64(n)) = n] up to 53 bits. *)
Lemma to_int_of_int n : 0 ≤ n < 2 ^ 53 → to_int (of_int n) = n.
Proof.
  intros Hn. destruct n as [|p|]; [done | | lia].
  destruct (of_int_exact p ltac:(lia)) as (m & d & -> & Hd & Hm). unfold to_int.
  assert (Ha : (if 0 <=? - d then Z.pos m * 2 ^ (- d) else Z.pos m / 2 ^ (- - d)) = Zpos p).
  { destruct (Z.leb_spec 0 (- d)).
    - assert (d = 0) as -> by lia. rewrite Hm. simpl. lia.
    - rewrite Hm, Z.opp_involutive, Z.div_mul; [done | lia]. }
  rewrite Ha. destruct (Z.leb_spec (- 2 ^ 63) (Z.pos p)); [|lia].
  destruct (Z.ltb_spec (Z.pos p) (2 ^ 63)); [done|lia].
Qed.
End Float64.
