(* ===== verification/GoFlag.v ===== *)
(** Go's [flag] package and the parts of [strconv] it uses: parsing of command line arguments. Errors
    end the program, so they are [None]; what they print is left out. *)

From S2P Require Import Prelude GoStrings.

Module GoFlag.
Import GoStrings.

(** * [strconv.ParseBool] and [strconv.ParseInt] with base 0 *)

Definition ParseBool (s : string) : option bool :=
  if bool_decide (s ∈ ["1"; "t"; "T"; "true"; "TRUE"; "True"]%string) then Some true
  else if bool_decide (s ∈ ["0"; "f"; "F"; "false"; "FALSE"; "False"]%string) then Some false
  else None.

Definition is_letter (c : ascii) : bool := is_lower (to_lower c).

Definition digit_of (c : ascii) : option Z :=
  if is_digit c then Some (Z.of_nat (code c) - 48)%Z
  else if is_letter c then Some (Z.of_nat (code (to_lower c)) - 87)%Z
  else None.

Definition underscore : ascii := "_".
Definition minus : ascii := "-".
Definition plus : ascii := "+".
Definition equals : ascii := "=".
Definition zero : ascii := "0".

(** The value of the digits in the base; underscores are skipped. *)
Fixpoint digits_in (base acc : Z) (s : string) : option Z :=
  match s with
  | EmptyString => Some acc
  | String c s =>
      if Ascii.eqb c underscore then digits_in base acc s
      else match digit_of c with
           | Some d => if (d <? base)%Z then digits_in base (acc * base + d)%Z s else None
           | None => None
           end
  end.

(** What [underscoreOK] has seen last: nothing, a digit or the prefix of the base, an underscore,
    something else. *)
Inductive seen := SawNothing | SawDigit | SawUnderscore | SawOther.

Fixpoint underscores_ok (hex : bool) (last : seen) (s : string) : bool :=
  match s with
  | EmptyString => match last with SawUnderscore => false | _ => true end
  | String c s =>
      if is_digit c || hex && is_lower (to_lower c) && (code (to_lower c) <=? 102)
      then underscores_ok hex SawDigit s
      else if Ascii.eqb c underscore then
        match last with SawDigit => underscores_ok hex SawUnderscore s | _ => false end
      else match last with SawUnderscore => false | _ => underscores_ok hex SawOther s end
  end.

(** The base that the prefix says, and what follows the prefix *)
Definition base_prefix (s : string) : Z * bool * string :=
  match s with
  | String z (String b (String c s')) =>
      if Ascii.eqb z zero then
        if Ascii.eqb (to_lower b) "b" then (2%Z, true, String c s')
        else if Ascii.eqb (to_lower b) "o" then (8%Z, true, String c s')
        else if Ascii.eqb (to_lower b) "x" then (16%Z, true, String c s')
        else (8%Z, false, String b (String c s'))
      else (10%Z, false, s)
  | String z s' => if Ascii.eqb z zero then (8%Z, false, s') else (10%Z, false, s)
  | EmptyString => (10%Z, false, s)
  end.

Definition ParseUint0 (s : string) : option Z :=
  match s with
  | EmptyString => None
  | _ =>
      let '(base, prefix, digits) := base_prefix s in
      let ok := underscores_ok (base =? 16)%Z (if prefix then SawDigit else SawNothing)
        (if prefix then digits else s) in
      if ok then digits_in base 0 digits else None
  end.

Definition in_i64 (z : Z) : bool := (- 2 ^ 63 <=? z)%Z && (z <=? 2 ^ 63 - 1)%Z.

Definition ParseInt0 (s : string) : option Z :=
  let '(neg, digits) := match s with
    | String c s' => if Ascii.eqb c minus then (true, s') else if Ascii.eqb c plus then (false, s') else (false, s)
    | EmptyString => (false, s)
    end in
  match ParseUint0 digits with
  | Some n => let z := if neg : bool then (- n)%Z else n in if in_i64 z then Some z else None
  | None => None
  end.

(** * [flag.Parse] *)

Section parse.
Context {C : Type}.

(** The flags: whether a name is one, and a boolean one; and what setting a flag does. *)
Variable formal : string → option bool.
Variable Set_ : string → string → C → option C.

(** The name, and the value after the first [=]; the first character belongs to the name. *)
Fixpoint cut_equals (s : string) : string * option string :=
  match s with
  | EmptyString => (""%string, None)
  | String c s => if Ascii.eqb c equals then (""%string, Some s) else let r := cut_equals s in (String c r.1, r.2)
  end.

Definition name_value (s : string) : string * option string :=
  match s with
  | EmptyString => (s, None)
  | String c s => let r := cut_equals s in (String c r.1, r.2)
  end.

(** How an argument begins: not as a flag, as the end of the flags, or with this name and value. *)
Inductive argument := NotFlag | EndOfFlags | FlagText (s : string) | BadSyntax.

Definition argument_of (s : string) : argument :=
  match s with
  | String m (String c s') =>
      if negb (Ascii.eqb m minus) then NotFlag
      else
        let text := if Ascii.eqb c minus then s' else String c s' in
        match text with
        | EmptyString => EndOfFlags
        | String x _ => if Ascii.eqb x minus || Ascii.eqb x equals then BadSyntax else FlagText text
        end
  | _ => NotFlag
  end.

Fixpoint parse (args : list string) (c : C) : option C :=
  match args with
  | [] => Some c
  | s :: args =>
      match argument_of s with
      | NotFlag | EndOfFlags => Some c
      | BadSyntax => None
      | FlagText text =>
          let '(name, value) := name_value text in
          match formal name with
          | None => None
          | Some true =>
              match Set_ name (default "true"%string value) c with Some c => parse args c | None => None end
          | Some false =>
              match value with
              | Some v => match Set_ name v c with Some c => parse args c | None => None end
              | None =>
                  match args with
                  | v :: args => match Set_ name v c with Some c => parse args c | None => None end
                  | [] => None
                  end
              end
          end
      end
  end.
End parse.

(** * Lemmas *)

Lemma digit_char_digit_of d : (0 ≤ d < 10)%Z → digit_of (digit_char d) = Some d.
Proof.
  intros Hd. unfold digit_of. rewrite digit_char_is_digit by done. unfold digit_char, code.
  rewrite nat_ascii_embedding by lia. f_equal. lia.
Qed.

Lemma is_digit_range c : is_digit c = true → (48 ≤ code c ≤ 57).
Proof. unfold is_digit. rewrite andb_true_iff, !Nat.leb_le. lia. Qed.

Lemma is_digit_not_underscore c : is_digit c = true → Ascii.eqb c underscore = false.
Proof. intros Hc%is_digit_range. apply Ascii.eqb_neq. intros ->. vm_compute in Hc. lia. Qed.

(** Decimal digits are read as [Atoi] reads them. *)
Lemma digits_in_decimal acc s :
  all_chars is_digit s = true → digits_in 10 acc s = Some (digits_value acc s).
Proof.
  revert acc. induction s as [|c s IH]; intros acc; [done|]. cbn [all_chars digits_in digits_value].
  intros [Hc Hs]%andb_true_iff. rewrite is_digit_not_underscore by done. unfold digit_of. rewrite Hc.
  apply is_digit_range in Hc. destruct (Z.ltb_spec (Z.of_nat (code c) - 48) 10) as [_|]; [|lia].
  rewrite IH by done. do 2 f_equal. unfold code in *. lia.
Qed.

Lemma underscores_ok_decimal hex last s :
  last ≠ SawUnderscore → all_chars is_digit s = true → underscores_ok hex last s = true.
Proof.
  revert last. induction s as [|c s IH]; intros last Hl; cbn [underscores_ok all_chars]; [by destruct last|].
  intros [Hc Hs]%andb_true_iff. rewrite Hc. simpl. by apply IH.
Qed.

(** The first digit of a positive number is not zero. *)
Lemma digits_acc_head fuel n acc :
  (0 < n < 10 ^ Z.of_nat fuel)%Z →
  ∃ d s, (0 < d < 10)%Z ∧ digits_acc fuel n acc = String (digit_char d) s.
Proof.
  revert n acc. induction fuel as [|fuel IH]; intros n acc Hn.
  { change (10 ^ Z.of_nat 0)%Z with 1%Z in Hn. lia. }
  rewrite Nat2Z.inj_succ, Z.pow_succ_r in Hn by lia. cbn [digits_acc].
  destruct (Z.eqb_spec (n / 10) 0) as [Hz|Hz].
  - exists (n mod 10)%Z, acc. split; [|done]. pose proof (Z.div_mod n 10 ltac:(lia)).
    pose proof (Z.mod_pos_bound n 10 ltac:(lia)). lia.
  - apply IH. pose proof (Z.div_pos n 10 ltac:(lia) ltac:(lia)). split; [lia|].
    apply Z.div_lt_upper_bound; lia.
Qed.

Lemma digit_char_eqb d e : (0 ≤ d < 10)%Z → (0 ≤ e < 10)%Z →
  Ascii.eqb (digit_char d) (digit_char e) = (d =? e)%Z.
Proof.
  intros Hd He. destruct (Z.eqb_spec d e) as [->|Hne]; [apply Ascii.eqb_refl|].
  apply Ascii.eqb_neq. intros Heq. apply (f_equal (λ c, Z.of_nat (nat_of_ascii c) - 48)%Z) in Heq.
  rewrite !digit_char_value in Heq by done. done.
Qed.

Lemma ParseUint0_decimal c s :
  all_chars is_digit (String c s) = true → Ascii.eqb c zero = false →
  ParseUint0 (String c s) = Some (digits_value 0 (String c s)).
Proof.
  intros Hd Hc. unfold ParseUint0.
  assert (Hb : base_prefix (String c s) = (10%Z, false, String c s)).
  { unfold base_prefix. destruct s as [|b [|e s]]; rewrite Hc; done. }
  rewrite Hb. simpl Z.eqb. rewrite underscores_ok_decimal by done. by apply digits_in_decimal.
Qed.

Lemma ParseUint0_FormatInt n : (0 ≤ n)%Z → ParseUint0 (FormatInt n) = Some n.
Proof.
  intros Hn. destruct (decide (n = 0%Z)) as [->|Hne]; [done|].
  pose proof (FormatInt_digits n Hn) as Hd. pose proof (FormatInt_value n Hn) as Hv.
  unfold FormatInt, format_nonneg in *. destruct (Z.ltb_spec n 0); [lia|].
  destruct (digits_acc_head (S (Z.to_nat (Z.log2 n))) n "") as (d & s & Hr & Heq).
  { pose proof (Z.log2_nonneg n). rewrite Nat2Z.inj_succ, Z2Nat.id by done. split; [lia|].
    pose proof (Z.log2_spec n ltac:(lia)) as [_ Hlt].
    apply (Z.lt_le_trans _ _ _ Hlt), Z.pow_le_mono_l. lia. }
  rewrite Heq in *. rewrite ParseUint0_decimal; [by rewrite Hv | done |].
  change zero with (digit_char 0). rewrite digit_char_eqb by lia. apply Z.eqb_neq. lia.
Qed.

(** Integers that are printed are read back. *)
Lemma ParseInt0_FormatInt z : is_i64 z → ParseInt0 (FormatInt z) = Some z.
Proof.
  intros Hz. assert (Hin : in_i64 z = true).
  { unfold in_i64, is_i64 in *. rewrite andb_true_iff, !Z.leb_le. lia. }
  destruct (Z.ltb_spec z 0) as [Hneg|Hpos].
  - assert (Hf : FormatInt z = String minus (FormatInt (- z))).
    { unfold FormatInt. destruct (Z.ltb_spec z 0), (Z.ltb_spec (- z) 0); try lia. done. }
    rewrite Hf. unfold ParseInt0. simpl Ascii.eqb. cbv iota.
    rewrite ParseUint0_FormatInt by lia. by rewrite Z.opp_involutive, Hin.
  - destruct (FormatInt_cons z Hpos) as (c & s & Heq & Hc). unfold ParseInt0. rewrite Heq.
    apply is_digit_range in Hc.
    assert (H1 : Ascii.eqb c minus = false) by (apply Ascii.eqb_neq; intros ->; vm_compute in Hc; lia).
    assert (H2 : Ascii.eqb c plus = false) by (apply Ascii.eqb_neq; intros ->; vm_compute in Hc; lia).
    rewrite H1, H2, <- Heq, ParseUint0_FormatInt by done. by rewrite Hin.
Qed.
End GoFlag.
