(* ===== verification/Manager.v ===== *)
(** The supervisor's node manager, [src/pkg/supervisor/manager.go]: starting, stopping and watching
    validator processes, one at a time or a whole cluster.

    A [*ManagedNode] is shared by the map of nodes, the goroutine that runs its process and the
    goroutines that read its output, so nodes live in a heap. What a goroutine has still to do is
    kept in [World]: [procs] for [startNodeProcess], [stopping] for a [StopNode] between its two
    halves, [cluster] for [StartCluster], whose presence is the lock [clusterMu]. Every function is
    what happens between two points where another goroutine may run; [ManagerInv] interleaves them.
    The operating system answers as arguments: whether pipes and process could be made, how a
    process exits, the time, the environment. *)

From S2P Require Import Prelude.

Module Manager.

(** * [path/filepath] *)

Fixpoint split_path (s : string) : list string :=
  match s with
  | EmptyString => [""%string]
  | String c s =>
      if (c =? "/")%char then ""%string :: split_path s
      else match split_path s with
           | x :: l => String c x :: l
           | [] => [String c ""]
           end
  end.

(** Lexical processing of the elements; [acc] is what is kept so far, last element first. *)
Fixpoint clean_elements (rooted : bool) (els acc : list string) : list string :=
  match els with
  | [] => rev acc
  | el :: els =>
      if (el =? "")%string || (el =? ".")%string then clean_elements rooted els acc
      else if (el =? "..")%string then
        match acc with
        | [] => clean_elements rooted els (if rooted then [] else [".."%string])
        | last :: acc' =>
            if (last =? "..")%string then clean_elements rooted els (".."%string :: acc)
            else clean_elements rooted els acc'
        end
      else clean_elements rooted els (el :: acc)
  end.

(** [filepath.Clean] *)
Definition filepath_Clean (path : string) : string :=
  let rooted := has_prefix path "/" in
  let out := str_join (clean_elements rooted (split_path path) []) "/" in
  if rooted then "/" +:+ out else if (out =? "")%string then "." else out.

(** [filepath.Join(a, b)] *)
Definition filepath_Join (a b : string) : string :=
  if (a =? "")%string && (b =? "")%string then ""
  else if (a =? "")%string then filepath_Clean b
  else filepath_Clean (a +:+ "/" +:+ b).

(** [filepath.Dir]: everything up to the last slash, cleaned *)
Definition filepath_Dir (path : string) : string :=
  filepath_Clean (str_join (removelast (split_path path)) "/" +:+
    (if str_contains path "/" then "/" else "")).

(** * Data *)

Inductive NodeStatus :=
| NodeStatusStopped
| NodeStatusStarting
| NodeStatusRunning
| NodeStatusStopping
| NodeStatusError.

#[export] Instance NodeStatus_eq_dec : EqDecision NodeStatus.
Proof. solve_decision. Defined.

Definition status_text (s : NodeStatus) : string :=
  match s with
  | NodeStatusStopped => "stopped"
  | NodeStatusStarting => "starting"
  | NodeStatusRunning => "running"
  | NodeStatusStopping => "stopping"
  | NodeStatusError => "error"
  end.

(** ** Output buffers *)

Record OutputBuffer := MkOutputBuffer {
  lines : list string;
  maxLines : nat;
}.

Definition NewOutputBuffer (maxLines : nat) : OutputBuffer := MkOutputBuffer [] maxLines.

Definition Write (line : string) (b : OutputBuffer) : OutputBuffer :=
  let lines := lines b ++ [line] in
  if decide (maxLines b < length lines) then
    MkOutputBuffer (drop (length lines - maxLines b) lines) (maxLines b)
  else MkOutputBuffer lines (maxLines b).

Definition GetLines (b : OutputBuffer) : list string := lines b.

Definition Clear (b : OutputBuffer) : OutputBuffer := MkOutputBuffer [] (maxLines b).

(** ** Nodes *)

(** An [exec.Cmd]: the program, its arguments and directory, and its environment, [None] where the
    supervisor's own is inherited. *)
Record Cmd := MkCmd {
  cmd_Path : string;
  cmd_Args : list string;
  cmd_Dir : string;
  cmd_Env : option (list string);
}.

(** [hasCancel] is [cancelFunc != nil]; the function cancels the context of the node's goroutine,
    which is known by the node's address. The zero time is [None]. *)
Record ManagedNode := MkManagedNode {
  mn_ID : string;
  mn_Port : Z;
  mn_APIPort : Z;
  mn_Status : NodeStatus;
  mn_PeerID : string;
  mn_IsPrimary : bool;
  mn_IsBootstrap : bool;
  mn_StartedAt : option Z;
  mn_Error : string;
  mn_Config : gmap string string;
  mn_cmd : option Cmd;
  mn_hasCancel : bool;
  mn_outputBuf : OutputBuffer;
}.

Definition set_status (s : NodeStatus) (n : ManagedNode) : ManagedNode :=
  MkManagedNode (mn_ID n) (mn_Port n) (mn_APIPort n) s (mn_PeerID n) (mn_IsPrimary n)
    (mn_IsBootstrap n) (mn_StartedAt n) (mn_Error n) (mn_Config n) (mn_cmd n) (mn_hasCancel n)
    (mn_outputBuf n).

Definition set_error (e : string) (n : ManagedNode) : ManagedNode :=
  MkManagedNode (mn_ID n) (mn_Port n) (mn_APIPort n) (mn_Status n) (mn_PeerID n) (mn_IsPrimary n)
    (mn_IsBootstrap n) (mn_StartedAt n) e (mn_Config n) (mn_cmd n) (mn_hasCancel n) (mn_outputBuf n).

Definition set_primary (b : bool) (n : ManagedNode) : ManagedNode :=
  MkManagedNode (mn_ID n) (mn_Port n) (mn_APIPort n) (mn_Status n) (mn_PeerID n) b
    (mn_IsBootstrap n) (mn_StartedAt n) (mn_Error n) (mn_Config n) (mn_cmd n) (mn_hasCancel n)
    (mn_outputBuf n).

Definition set_hasCancel (n : ManagedNode) : ManagedNode :=
  MkManagedNode (mn_ID n) (mn_Port n) (mn_APIPort n) (mn_Status n) (mn_PeerID n) (mn_IsPrimary n)
    (mn_IsBootstrap n) (mn_StartedAt n) (mn_Error n) (mn_Config n) (mn_cmd n) true (mn_outputBuf n).

Definition set_started (cmd : Cmd) (now : Z) (n : ManagedNode) : ManagedNode :=
  MkManagedNode (mn_ID n) (mn_Port n) (mn_APIPort n) NodeStatusRunning (mn_PeerID n)
    (mn_IsPrimary n) (mn_IsBootstrap n) (Some now) (mn_Error n) (mn_Config n) (Some cmd)
    (mn_hasCancel n) (mn_outputBuf n).

Definition set_output (b : OutputBuffer) (n : ManagedNode) : ManagedNode :=
  MkManagedNode (mn_ID n) (mn_Port n) (mn_APIPort n) (mn_Status n) (mn_PeerID n) (mn_IsPrimary n)
    (mn_IsBootstrap n) (mn_StartedAt n) (mn_Error n) (mn_Config n) (mn_cmd n) (mn_hasCancel n) b.

(** The copy that [GetNode] and [GetAllNodes] hand out. *)
Definition snapshot (n : ManagedNode) : ManagedNode :=
  MkManagedNode (mn_ID n) (mn_Port n) (mn_APIPort n) (mn_Status n) (mn_PeerID n) (mn_IsPrimary n)
    (mn_IsBootstrap n) (mn_StartedAt n) (mn_Error n) ∅ None false (NewOutputBuffer 0).

Definition zero_node : ManagedNode :=
  MkManagedNode "" 0 0 NodeStatusStopped "" false false None "" ∅ None false (NewOutputBuffer 0).

(** ** The manager *)

Inductive ClusterStatus :=
| ClusterStatusIdle
| ClusterStatusStarting
| ClusterStatusRunning
| ClusterStatusStopping.

(** Calls of the manager's callbacks, in order. *)
Inductive callback :=
| OutputCallback (nodeID line : string)
| StatusCallback (nodeID : string) (status : NodeStatus)
| ClusterCallback (status : ClusterStatus) (nodesStarted nodesTotal : Z).

(** The callbacks are present or [nil]; what they do is up to the owner. *)
Record NodeManagerConfig := MkNodeManagerConfig {
  cfg_ValidatorPath : string;
  cfg_DataDir : string;
  cfg_BasePort : Z;
  cfg_BaseAPIPort : Z;
  cfg_APIKey : string;
  cfg_OutputCallback : bool;
  cfg_StatusCallback : bool;
  cfg_ClusterCallback : bool;
}.

Record NodeManager := MkNodeManager {
  nodes : gmap string positive;
  validatorPath : string;
  dataDir : string;
  basePort : Z;
  baseAPIPort : Z;
  totalNodes : Z;
  apiKey : string;
  outputCallback : bool;
  statusCallback : bool;
  clusterCallback : bool;
  clusterStatus : ClusterStatus;
}.

Definition set_nodes (ns : gmap string positive) (m : NodeManager) : NodeManager :=
  MkNodeManager ns (validatorPath m) (dataDir m) (basePort m) (baseAPIPort m) (totalNodes m)
    (apiKey m) (outputCallback m) (statusCallback m) (clusterCallback m) (clusterStatus m).

Definition set_totalNodes (t : Z) (m : NodeManager) : NodeManager :=
  MkNodeManager (nodes m) (validatorPath m) (dataDir m) (basePort m) (baseAPIPort m) t
    (apiKey m) (outputCallback m) (statusCallback m) (clusterCallback m) (clusterStatus m).

Definition set_clusterStatus (s : ClusterStatus) (m : NodeManager) : NodeManager :=
  MkNodeManager (nodes m) (validatorPath m) (dataDir m) (basePort m) (baseAPIPort m) (totalNodes m)
    (apiKey m) (outputCallback m) (statusCallback m) (clusterCallback m) s.

Definition NewNodeManager (cfg : NodeManagerConfig) : NodeManager :=
  let basePort := if (cfg_BasePort cfg =? 0)%Z then 4001%Z else cfg_BasePort cfg in
  let baseAPIPort := if (cfg_BaseAPIPort cfg =? 0)%Z then 9001%Z else cfg_BaseAPIPort cfg in
  let dataDir := if (cfg_DataDir cfg =? "")%string then "./data"%string else cfg_DataDir cfg in
  MkNodeManager ∅ (cfg_ValidatorPath cfg) dataDir basePort baseAPIPort 0 (cfg_APIKey cfg)
    (cfg_OutputCallback cfg) (cfg_StatusCallback cfg) (cfg_ClusterCallback cfg) ClusterStatusIdle.

(** ** Goroutines *)

(** [startNodeProcess], at [go], before [cmd.Start] and in [cmd.Wait]. *)
Inductive process :=
| Spawned (bootstrapAddr : string)
| Prepared (cmd : Cmd)
| Waiting (cmd : Cmd).

(** [StartCluster] and [startClusterAsync]: in [StopAllNodes], where [cur] is a node whose context
    is still to be cancelled; in [waitForAllStopped]; before and after the start of the first node;
    at the head of the loop; and in a batch, with the indices whose goroutines have not run. *)
Inductive cluster_pc :=
| CpStop (nodeCount : Z) (cur : option positive) (ids : list string)
| CpWaitStopped (nodeCount : Z)
| CpBoot (nodeCount : Z)
| CpWaitBoot (nodeCount : Z)
| CpLoop (nodeCount batchStart nodesStarted : Z) (bootstrapAddr : string)
| CpBatch (nodeCount batchStart batchEnd nodesStarted : Z) (bootstrapAddr : string) (todo : list Z).

Record World := MkWorld {
  mgr : NodeManager;
  heap : gmap positive ManagedNode;
  procs : gmap positive process;
  cancelled : gset positive;  (** contexts that have been cancelled *)
  stopping : gset positive;  (** marked by [StopNode], not yet cancelled *)
  cluster : option cluster_pc;
}.

Definition set_mgr m w := MkWorld m (heap w) (procs w) (cancelled w) (stopping w) (cluster w).
Definition set_heap h w := MkWorld (mgr w) h (procs w) (cancelled w) (stopping w) (cluster w).
Definition set_procs p w := MkWorld (mgr w) (heap w) p (cancelled w) (stopping w) (cluster w).
Definition set_cancelled c w := MkWorld (mgr w) (heap w) (procs w) c (stopping w) (cluster w).
Definition set_stopping s w := MkWorld (mgr w) (heap w) (procs w) (cancelled w) s (cluster w).
Definition set_cluster c w := MkWorld (mgr w) (heap w) (procs w) (cancelled w) (stopping w) c.

Definition new_world (cfg : NodeManagerConfig) : World :=
  MkWorld (NewNodeManager cfg) ∅ ∅ ∅ ∅ None.

Definition deref (w : World) (l : positive) : ManagedNode := default zero_node (heap w !! l).

Definition store (l : positive) (n : ManagedNode) (w : World) : World :=
  set_heap (<[l := n]> (heap w)) w.

(** * Starting a node *)

Definition notifyStatus (w : World) (nodeID : string) (s : NodeStatus) : list callback :=
  if statusCallback (mgr w) then [StatusCallback nodeID s] else [].

Definition notifyCluster (w : World) (s : ClusterStatus) (started total : Z) : list callback :=
  if clusterCallback (mgr w) then [ClusterCallback s started total] else [].

(** The check for an existing entry: an error, or the map without an entry that has ended. *)
Definition clear_entry (nodeID : string) (w : World) : result (gmap string positive) :=
  let ns := nodes (mgr w) in
  match ns !! nodeID with
  | Some l =>
      let status := mn_Status (deref w l) in
      if decide (status = NodeStatusRunning ∨ status = NodeStatusStarting) then
        Err ("node " +:+ nodeID +:+ " is already running (status: " +:+ status_text status +:+ ")")
      else if decide (status = NodeStatusStopped ∨ status = NodeStatusError) then
        Ok (delete nodeID ns)
      else Ok ns
  | None => Ok ns
  end.

Definition startNodeWithTotal (nodeID : string) (isPrimary isBootstrap : bool)
    (bootstrapAddr : string) (targetTotal : Z) (w : World) : World * error :=
  let m := mgr w in
  match clear_entry nodeID w with
  | Err e => (w, Some e)
  | Ok ns =>
      let nodeIndex :=
        match ns !! nodeID with
        | Some l => wrap_i64 (mn_Port (deref w l) - basePort m)
        | None => Z.of_nat (size ns)
        end in
      let port := wrap_i64 (basePort m + nodeIndex) in
      let apiPort := wrap_i64 (baseAPIPort m + nodeIndex) in
      let l := fresh (dom (heap w)) in
      let node := MkManagedNode nodeID port apiPort NodeStatusStarting "" isPrimary isBootstrap
        None "" ∅ None false (NewOutputBuffer 1000) in
      let ns := <[nodeID := l]> ns in
      let total := if (0 <? targetTotal)%Z then targetTotal else Z.of_nat (size ns) in
      (set_procs (<[l := Spawned bootstrapAddr]> (procs w))
        (store l node (set_mgr (set_totalNodes total (set_nodes ns m)) w)), None)
  end.

Definition StartNode (nodeID : string) (isPrimary isBootstrap : bool) (bootstrapAddr : string)
    (w : World) : World * error :=
  startNodeWithTotal nodeID isPrimary isBootstrap bootstrapAddr 0 w.

(** ** [startNodeProcess] *)

Definition node_args (m : NodeManager) (n : ManagedNode) (bootstrapAddr : string) : list string :=
  ["-id"; mn_ID n; "-port"; FormatInt (mn_Port n); "-api-port"; FormatInt (mn_APIPort n);
   "-data-dir"; filepath_Join (dataDir m) (mn_ID n); "-total-nodes"; FormatInt (totalNodes m)]
  ++ (if mn_IsPrimary n then ["-primary"] else [])
  ++ (if mn_IsBootstrap n then ["-bootstrap-node"] else [])
  ++ (if (bootstrapAddr =? "")%string then [] else ["-bootstrap"; bootstrapAddr]).

(** [environ] is [os.Environ()], [cwd] the answer of [os.Getwd]. *)
Definition node_command (environ : list string) (cwd : result string) (m : NodeManager)
    (n : ManagedNode) (bootstrapAddr : string) : Cmd :=
  let dir := filepath_Dir (validatorPath m) in
  let dir := if (dir =? "")%string || (dir =? ".")%string then
      match cwd with Ok cwd => cwd | Err _ => dir end
    else dir in
  let env := if (apiKey m =? "")%string then None
    else Some (environ ++ ["DTVN_API_KEY=" +:+ apiKey m]) in
  MkCmd (validatorPath m) (node_args m n bootstrapAddr) dir env.

(** The goroutine begins: its context, and the command. *)
Definition process_begin (environ : list string) (cwd : result string) (l : positive)
    (bootstrapAddr : string) (w : World) : World :=
  let node := deref w l in
  let cmd := node_command environ cwd (mgr w) node bootstrapAddr in
  set_procs (<[l := Prepared cmd]> (procs w)) (store l (set_hasCancel node) w).

(** What the operating system makes of the command. *)
Inductive start_outcome :=
| StdoutPipeFails (err : string)
| StderrPipeFails (err : string)
| StartFails (err : string)
| Started.

Definition setNodeError (l : positive) (errMsg : string) (w : World) : World * list callback :=
  let node := deref w l in
  let w := store l (set_error errMsg (set_status NodeStatusError node)) w in
  (w, notifyStatus w (mn_ID node) NodeStatusError).

(** Returning cancels the context and ends the goroutine. *)
Definition process_return (l : positive) (w : World) : World :=
  set_cancelled ({[l]} ∪ cancelled w) (set_procs (delete l (procs w)) w).

Definition process_start (outcome : start_outcome) (now : Z) (l : positive) (cmd : Cmd)
    (w : World) : World * list callback :=
  let fail msg := let '(w, cbs) := setNodeError l msg w in (process_return l w, cbs) in
  match outcome with
  | StdoutPipeFails err => fail ("failed to create stdout pipe: " +:+ err)
  | StderrPipeFails err => fail ("failed to create stderr pipe: " +:+ err)
  | StartFails err => fail ("failed to start process: " +:+ err)
  | Started =>
      let node := deref w l in
      let w := set_procs (<[l := Waiting cmd]> (procs w)) (store l (set_started cmd now node) w) in
      (w, notifyStatus w (mn_ID node) NodeStatusRunning)
  end.

(** [cmd.Wait] returns [err]. *)
Definition process_exit (err : error) (l : positive) (w : World) : World * list callback :=
  let node := deref w l in
  let node :=
    if decide (l ∈ cancelled w) then set_status NodeStatusStopped node
    else match err with
         | Some err =>
             set_error ("process exited with error: " +:+ err) (set_status NodeStatusError node)
         | None => set_status NodeStatusStopped node
         end in
  let w := store l node w in
  (process_return l w, notifyStatus w (mn_ID node) (mn_Status node)).

(** One turn of the loop of [streamOutput]. *)
Definition streamOutput_line (source line : string) (l : positive) (w : World)
    : World * list callback :=
  let node := deref w l in
  let prefix := "[" +:+ source +:+ "] " in
  (store l (set_output (Write (prefix +:+ line) (mn_outputBuf node)) node) w,
   if outputCallback (mgr w) then [OutputCallback (mn_ID node) line] else []).

(** * Stopping nodes *)

(** [StopNode] up to the call of the cancel function; the address is the node it will cancel. *)
Definition StopNode_mark (nodeID : string) (w : World) : result (World * list callback * positive) :=
  match nodes (mgr w) !! nodeID with
  | None => Err ("node " +:+ nodeID +:+ " not found")
  | Some l =>
      let node := deref w l in
      if decide (mn_Status node ≠ NodeStatusRunning) then
        Err ("node " +:+ nodeID +:+ " is not running (status: " +:+ status_text (mn_Status node) +:+ ")")
      else
        let w := store l (set_status NodeStatusStopping node) w in
        Ok (w, notifyStatus w nodeID NodeStatusStopping, l)
  end.

Definition StopNode_cancel (l : positive) (w : World) : World :=
  if mn_hasCancel (deref w l) then set_cancelled ({[l]} ∪ cancelled w) w else w.

Definition StopNode (nodeID : string) (w : World) : World * list callback * error :=
  match StopNode_mark nodeID w with
  | Err e => (w, [], Some e)
  | Ok (w, cbs, l) => (StopNode_cancel l w, cbs, None)
  end.

(** [order] lists the keys of the map in the order of its iteration. *)
Fixpoint StopAllNodes (order : list string) (w : World) : World * list callback :=
  match order with
  | [] => (w, [])
  | id :: order =>
      let '(w, cbs, _) := StopNode id w in
      let '(w, cbs') := StopAllNodes order w in (w, cbs ++ cbs')
  end.

(** * Looking at nodes *)

Definition GetNode (nodeID : string) (w : World) : result ManagedNode :=
  match nodes (mgr w) !! nodeID with
  | None => Err ("node " +:+ nodeID +:+ " not found")
  | Some l => Ok (snapshot (deref w l))
  end.

(** [order] lists the entries of the map in the order of its iteration. *)
Definition GetAllNodes (order : list positive) (w : World) : list ManagedNode :=
  map (λ l, snapshot (deref w l)) order.

Definition UpdatePrimaryStatus (nodeID : string) (isPrimary : bool) (w : World) : World * bool :=
  match nodes (mgr w) !! nodeID with
  | None => (w, false)
  | Some l =>
      let node := deref w l in
      if Bool.eqb (mn_IsPrimary node) isPrimary then (w, false)
      else (store l (set_primary isPrimary node) w, true)
  end.

Definition GetNodeLogs (nodeID : string) (w : World) : result (list string) :=
  match nodes (mgr w) !! nodeID with
  | None => Err ("node " +:+ nodeID +:+ " not found")
  | Some l => Ok (GetLines (mn_outputBuf (deref w l)))
  end.

Definition GetClusterStatus (w : World) : ClusterStatus := clusterStatus (mgr w).

Definition RemoveNode (nodeID : string) (w : World) : World * error :=
  match nodes (mgr w) !! nodeID with
  | None => (w, Some ("node " +:+ nodeID +:+ " not found"))
  | Some l =>
      let status := mn_Status (deref w l) in
      if decide (status = NodeStatusRunning ∨ status = NodeStatusStarting) then
        (w, Some ("cannot remove running node " +:+ nodeID))
      else
        let ns := delete nodeID (nodes (mgr w)) in
        (set_mgr (set_totalNodes (Z.of_nat (size ns)) (set_nodes ns (mgr w))) w, None)
  end.

Definition SetTotalNodes (count : Z) (w : World) : World :=
  set_mgr (set_totalNodes count (mgr w)) w.

(** * Starting a cluster *)

(** [StartCluster] up to [StopAllNodes]: it has then taken the lock and cannot fail any more. *)
Definition StartCluster (order : list string) (nodeCount : Z) (w : World) : World * error :=
  if (nodeCount <? 1)%Z then (w, Some "node count must be at least 1")
  else match cluster w with
       | Some _ => (w, Some "cluster operation already in progress")
       | None => (set_cluster (Some (CpStop nodeCount None order)) w, None)
       end.

Definition all_stopped (w : World) : bool :=
  forallb (λ e, bool_decide (mn_Status (deref w e.2) = NodeStatusStopped
                             ∨ mn_Status (deref w e.2) = NodeStatusError)) (map_to_list (nodes (mgr w))).

Definition node_running (nodeID : string) (w : World) : bool :=
  match nodes (mgr w) !! nodeID with
  | None => false
  | Some l => bool_decide (mn_Status (deref w l) = NodeStatusRunning)
  end.

Definition batchSize : Z := 10.

(** The indices from [a] up to [b], [b] excluded. *)
Definition range (a b : Z) : list Z := map (λ k, (a + Z.of_nat k)%Z) (seq 0 (Z.to_nat (b - a))).

Definition node_name (i : Z) : string := "node" +:+ FormatInt i.

(** [peer_id] is [peer.IDFromPrivateKey] after [network.GenerateDeterministicKey]. *)
Section cluster.
Variable peer_id : string → result string.

(** Giving up: the lock is released; [clusterStatus] stays what it is. *)
Definition cluster_fail (nodeCount : Z) (w : World) : World * list callback :=
  (set_cluster None w, notifyCluster w ClusterStatusIdle 0 nodeCount).

Definition cluster_booted (nodeCount : Z) (w : World) : World * list callback :=
  match nodes (mgr w) !! "node0"%string with
  | None => cluster_fail nodeCount w
  | Some l =>
      match peer_id "node0" with
      | Err _ => cluster_fail nodeCount w
      | Ok id =>
          let addr := "/ip4/127.0.0.1/tcp/" +:+ FormatInt (mn_Port (deref w l)) +:+ "/p2p/" +:+ id in
          (set_cluster (Some (CpLoop nodeCount 1 1 addr)) w, [])
      end
  end.

(** The next turn of the loop over batches, or the end of it. *)
Definition cluster_loop (nodeCount batchStart nodesStarted : Z) (addr : string) (w : World)
    : World * list callback :=
  if (batchStart <? nodeCount)%Z then
    let batchEnd := wrap_i64 (batchStart + batchSize) in
    let batchEnd := if (nodeCount <? batchEnd)%Z then nodeCount else batchEnd in
    (set_cluster (Some (CpBatch nodeCount batchStart batchEnd nodesStarted addr
       (range batchStart batchEnd))) w, [])
  else
    let w := set_mgr (set_clusterStatus ClusterStatusRunning (mgr w)) w in
    (set_cluster None w, notifyCluster w ClusterStatusRunning nodeCount nodeCount).

(** One step of the goroutine that holds the lock, [None] where it has to wait: [timed_out] says
    whether the deadline of a wait has passed, [pick] which goroutine of a batch runs. *)
Definition cluster_step (timed_out : bool) (pick : nat) (w : World)
    : option (World * list callback) :=
  match cluster w with
  | None => None
  | Some (CpStop nodeCount (Some l) ids) =>
      Some (set_cluster (Some (CpStop nodeCount None ids)) (StopNode_cancel l w), [])
  | Some (CpStop nodeCount None (id :: ids)) =>
      match StopNode_mark id w with
      | Err _ => Some (set_cluster (Some (CpStop nodeCount None ids)) w, [])
      | Ok (w, cbs, l) => Some (set_cluster (Some (CpStop nodeCount (Some l) ids)) w, cbs)
      end
  | Some (CpStop nodeCount None []) => Some (set_cluster (Some (CpWaitStopped nodeCount)) w, [])
  | Some (CpWaitStopped nodeCount) =>
      if timed_out || all_stopped w then
        let m := set_clusterStatus ClusterStatusStarting
          (set_totalNodes nodeCount (set_nodes ∅ (mgr w))) in
        let w := set_cluster (Some (CpBoot nodeCount)) (set_mgr m w) in
        Some (w, notifyCluster w ClusterStatusStarting 0 nodeCount)
      else None
  | Some (CpBoot nodeCount) =>
      match startNodeWithTotal "node0" true true "" nodeCount w with
      | (w, Some _) => Some (cluster_fail nodeCount w)
      | (w, None) => Some (set_cluster (Some (CpWaitBoot nodeCount)) w, [])
      end
  | Some (CpWaitBoot nodeCount) =>
      if timed_out || node_running "node0" w then Some (cluster_booted nodeCount w) else None
  | Some (CpLoop nodeCount batchStart nodesStarted addr) =>
      Some (cluster_loop nodeCount batchStart nodesStarted addr w)
  | Some (CpBatch nodeCount batchStart batchEnd nodesStarted addr todo) =>
      match todo !! pick with
      | Some i =>
          let '(w, _) := startNodeWithTotal (node_name i) false false addr nodeCount w in
          Some (set_cluster (Some (CpBatch nodeCount batchStart batchEnd nodesStarted addr
            (delete pick todo))) w, [])
      | None =>
          match todo with
          | [] =>
              let started := wrap_i64 (nodesStarted + (batchEnd - batchStart)) in
              let batchStart := wrap_i64 (batchStart + batchSize) in
              Some (set_cluster (Some (CpLoop nodeCount batchStart started addr)) w,
                notifyCluster w ClusterStatusStarting started nodeCount)
          | _ => None
          end
      end
  end.
End cluster.
End Manager.

#[export] Existing Instance Manager.NodeStatus_eq_dec.
