(* ===== verification/ManagerInv.v ===== *)
(** Properties of the node manager ([src/pkg/supervisor/manager.go], modelled in [Manager]) under
    every interleaving of API calls, process goroutines and a cluster start: what a node's status
    says about its process, how statuses change, what a finished cluster start has made, and that
    one always finishes. *)

From stdpp Require Import relations fin_sets.
From S2P Require Import Prelude Manager.

Module ManagerInv.
Import Manager.

(** * Interleaving *)

(** What may happen next: calls of the API ([StopNode] in its two halves, [StopAllNodes] being a
    sequence of them), the goroutines of processes, and the goroutine of a cluster start. *)
Inductive event :=
| EvStartNode (nodeID : string) (isPrimary isBootstrap : bool) (bootstrapAddr : string)
| EvStopMark (nodeID : string)
| EvStopCancel (l : positive)
| EvRemoveNode (nodeID : string)
| EvSetTotalNodes (count : Z)
| EvUpdatePrimary (nodeID : string) (isPrimary : bool)
| EvStartCluster (order : list string) (nodeCount : Z)
| EvBegin (environ : list string) (cwd : result string) (l : positive)
| EvStarted (outcome : start_outcome) (now : Z) (l : positive)
| EvExit (err : error) (l : positive)
| EvOutput (source line : string) (l : positive)
| EvCluster (timed_out : bool) (pick : nat).

Section relation.
Variable peer_id : string → result string.

Definition silent (w : World) : option (World * list callback) := Some (w, []).

Definition run_event (ev : event) (w : World) : option (World * list callback) :=
  match ev with
  | EvStartNode id p b addr => silent (StartNode id p b addr w).1
  | EvStopMark id =>
      match StopNode_mark id w with
      | Err _ => None
      | Ok (w, cbs, l) => Some (set_stopping ({[l]} ∪ stopping w) w, cbs)
      end
  | EvStopCancel l =>
      if decide (l ∈ stopping w) then
        silent (set_stopping (stopping w ∖ {[l]}) (StopNode_cancel l w))
      else None
  | EvRemoveNode id => silent (RemoveNode id w).1
  | EvSetTotalNodes count => silent (SetTotalNodes count w)
  | EvUpdatePrimary id p => silent (UpdatePrimaryStatus id p w).1
  | EvStartCluster order n =>
      if decide (order ≡ₚ (map_to_list (nodes (mgr w))).*1) then silent (StartCluster order n w).1
      else None
  | EvBegin environ cwd l =>
      match procs w !! l with
      | Some (Spawned addr) => silent (process_begin environ cwd l addr w)
      | _ => None
      end
  | EvStarted outcome now l =>
      match procs w !! l with
      | Some (Prepared cmd) => Some (process_start outcome now l cmd w)
      | _ => None
      end
  | EvExit err l =>
      match procs w !! l with
      | Some (Waiting _) => Some (process_exit err l w)
      | _ => None
      end
  | EvOutput source line l =>
      match mn_cmd (deref w l) with
      | Some _ => Some (streamOutput_line source line l w)
      | None => None
      end
  | EvCluster timed_out pick => cluster_step peer_id timed_out pick w
  end.

Definition step (w w' : World) : Prop := ∃ ev cbs, run_event ev w = Some (w', cbs).

Definition reachable (w : World) : Prop := ∃ cfg, rtc step (new_world cfg) w.
End relation.

(** A run given by its events. *)
Fixpoint run_events (peer_id : string → result string) (evs : list event) (w : World)
    : option World :=
  match evs with
  | [] => Some w
  | ev :: evs =>
      match run_event peer_id ev w with
      | Some (w, _) => run_events peer_id evs w
      | None => None
      end
  end.

Lemma run_events_steps peer_id evs w w' :
  run_events peer_id evs w = Some w' → rtc (step peer_id) w w'.
Proof.
  revert w. induction evs as [|ev evs IH]; intros w; simpl; [by intros [= ->]|].
  destruct (run_event peer_id ev w) as [[w1 cbs]|] eqn:Hr; [|done].
  intros Hw. eapply rtc_l; [by exists ev, cbs | by apply IH].
Qed.

(** * The life of a node *)

(** What concerns the node at one address: the node, its goroutine, whether its context is
    cancelled, and whether a [StopNode] is about to cancel it. *)
Record life := MkLife {
  l_node : option ManagedNode;
  l_proc : option process;
  l_cancelled : bool;
  l_marked : bool;
}.

Definition cluster_cur (w : World) : option positive :=
  match cluster w with Some (CpStop _ cur _) => cur | _ => None end.

Definition life_of (w : World) (l : positive) : life :=
  MkLife (heap w !! l) (procs w !! l) (bool_decide (l ∈ cancelled w))
    (bool_decide (l ∈ stopping w ∨ cluster_cur w = Some l)).

Definition unborn : life := MkLife None None false false.

(** What a node keeps for good. *)
Definition identity (n : ManagedNode) : string * Z * Z := (mn_ID n, mn_Port n, mn_APIPort n).

(** A node is created, its goroutine begins, the process starts or fails to, a [StopNode] marks it
    and cancels its context, and the process exits. [Touch] changes neither status nor process. *)
Inductive life_step : life → life → Prop :=
| Create n addr :
    mn_Status n = NodeStatusStarting → mn_hasCancel n = false → mn_cmd n = None →
    life_step unborn (MkLife (Some n) (Some (Spawned addr)) false false)
| Begin n addr cmd c m :
    life_step (MkLife (Some n) (Some (Spawned addr)) c m)
      (MkLife (Some (set_hasCancel n)) (Some (Prepared cmd)) c m)
| StartOk n cmd now c m :
    life_step (MkLife (Some n) (Some (Prepared cmd)) c m)
      (MkLife (Some (set_started cmd now n)) (Some (Waiting cmd)) c m)
| StartFail n cmd e c m :
    life_step (MkLife (Some n) (Some (Prepared cmd)) c m)
      (MkLife (Some (set_error e (set_status NodeStatusError n))) None true m)
| Mark n p c m :
    mn_Status n = NodeStatusRunning →
    life_step (MkLife (Some n) p c m) (MkLife (Some (set_status NodeStatusStopping n)) p c true)
| Cancel n p c m' :
    life_step (MkLife (Some n) p c true) (MkLife (Some n) p (mn_hasCancel n || c) m')
| ExitStopped n cmd c m :
    life_step (MkLife (Some n) (Some (Waiting cmd)) c m)
      (MkLife (Some (set_status NodeStatusStopped n)) None true m)
| ExitError n cmd e m :
    life_step (MkLife (Some n) (Some (Waiting cmd)) false m)
      (MkLife (Some (set_error e (set_status NodeStatusError n))) None true m)
| Touch n n' p c m :
    identity n' = identity n → mn_Status n' = mn_Status n → mn_hasCancel n' = mn_hasCancel n →
    mn_cmd n' = mn_cmd n →
    life_step (MkLife (Some n) p c m) (MkLife (Some n') p c m).

(** What holds in every life. *)
Definition life_ok (v : life) : Prop :=
  match l_node v with
  | None => v = unborn
  | Some n =>
      match mn_Status n, l_proc v with
      | NodeStatusStarting, Some (Spawned _) =>
          l_cancelled v = false ∧ l_marked v = false ∧ mn_cmd n = None
      | NodeStatusStarting, Some (Prepared _) =>
          mn_hasCancel n = true ∧ l_cancelled v = false ∧ l_marked v = false ∧ mn_cmd n = None
      | NodeStatusRunning, Some (Waiting _) =>
          mn_hasCancel n = true ∧ l_cancelled v = false ∧ l_marked v = false
      | NodeStatusStopping, Some (Waiting _) => mn_hasCancel n = true
      | NodeStatusStopped, None | NodeStatusError, None => True
      | _, _ => False
      end
  end.

Lemma life_step_ok v v' : life_ok v → life_step v v' → life_ok v'.
Proof.
  intros Hok Hs. inversion Hs; subst; unfold life_ok in *; simpl in *; try done;
    repeat match goal with H : mn_Status _ = _ |- _ => rewrite H in * end;
    repeat match goal with H : mn_hasCancel _ = _ |- _ => rewrite H in * end;
    repeat match goal with H : mn_cmd _ = _ |- _ => rewrite H in * end;
    try done; repeat case_match; naive_solver.
Qed.

(** ** Statuses *)

Definition status_edge (s s' : NodeStatus) : bool :=
  match s, s' with
  | NodeStatusStarting, (NodeStatusRunning | NodeStatusError)
  | NodeStatusRunning, (NodeStatusStopping | NodeStatusStopped | NodeStatusError)
  | NodeStatusStopping, (NodeStatusStopped | NodeStatusError) => true
  | _, _ => bool_decide (s = s')
  end.

Lemma life_step_status v v' n n' :
  life_ok v → life_step v v' → l_node v = Some n → l_node v' = Some n' →
  identity n' = identity n ∧ status_edge (mn_Status n) (mn_Status n') = true ∧
  (l_cancelled v = true → mn_Status n = NodeStatusStopping →
   mn_Status n' = NodeStatusStopping ∨ mn_Status n' = NodeStatusStopped).
Proof.
  intros Hok Hs. inversion Hs; subst; intros; simplify_eq/=; unfold life_ok, identity in *; simpl in *;
    repeat match goal with H : mn_Status _ = _ |- _ => rewrite H in * end;
    (split; [congruence|]); try destruct (mn_Status n); repeat case_match; try done;
    intuition congruence.
Qed.

(** * Well-formed worlds *)

Definition entries_ok (w : World) : Prop :=
  ∀ id l, nodes (mgr w) !! id = Some l → ∃ n, heap w !! l = Some n ∧ mn_ID n = id.

Definition wf (w : World) : Prop := (∀ l, life_ok (life_of w l)) ∧ entries_ok w.

(** The world has changed at most at [l], by a step of that node's life. *)
Definition changes_at (l : positive) (w w' : World) : Prop :=
  (∀ l', l' ≠ l → life_of w' l' = life_of w l') ∧
  (life_of w' l = life_of w l ∨ life_step (life_of w l) (life_of w' l)).

Ltac life_simpl :=
  unfold life_of, cluster_cur in *; simpl;
  rewrite ?lookup_insert_eq, ?lookup_delete_eq.

(** The other addresses, after a change at [l]. *)
Ltac life_others :=
  let l' := fresh "l'" in let Hl := fresh "Hl" in
  intros l' Hl; life_simpl;
  rewrite ?lookup_insert_ne, ?lookup_delete_ne by done;
  f_equal; apply bool_decide_ext; set_solver.

Lemma deref_Some w l n : heap w !! l = Some n → deref w l = n.
Proof. unfold deref. by intros ->. Qed.

Lemma life_ok_proc w l p :
  wf w → procs w !! l = Some p → ∃ n, heap w !! l = Some n ∧ deref w l = n.
Proof.
  intros [Hok _] Hp. specialize (Hok l). unfold life_ok in Hok. simpl in Hok.
  destruct (heap w !! l) as [n|] eqn:E; [by eauto using deref_Some|].
  unfold unborn, life_of in Hok. simplify_eq.
Qed.

Lemma entries_deref w id l :
  wf w → nodes (mgr w) !! id = Some l →
  ∃ n, heap w !! l = Some n ∧ deref w l = n ∧ mn_ID n = id.
Proof. intros [_ He] Hl. destruct (He _ _ Hl) as (n & Hn & Hid). eauto using deref_Some. Qed.

(** ** One lemma per kind of step *)

Lemma startNodeWithTotal_changes id p b addr total w w' e :
  wf w → startNodeWithTotal id p b addr total w = (w', e) →
  ∃ l, changes_at l w w' ∧
    (nodes (mgr w') = nodes (mgr w) ∨
     nodes (mgr w') = <[id := l]> (nodes (mgr w)) ∧ ∃ n, heap w' !! l = Some n ∧ mn_ID n = id).
Proof.
  intros [Hok He]. unfold startNodeWithTotal.
  destruct (clear_entry id w) as [ns|er] eqn:Hc; intros [= <- <-].
  2: { exists 1%positive. split; [|by left]. split; [done|by left]. }
  set (l := fresh (dom (heap w))). exists l.
  assert (Hl : heap w !! l = None) by (apply not_elem_of_dom, is_fresh).
  split.
  - split; [life_others|]. right.
    pose proof (Hok l) as Hu. unfold life_ok in Hu. simpl in Hu. rewrite Hl in Hu.
    rewrite Hu. unfold unborn, life_of, cluster_cur in *. simpl in *.
    rewrite !lookup_insert_eq. injection Hu as _ _ -> ->. by constructor.
  - right. simpl. split; [|eexists; by rewrite lookup_insert_eq].
    unfold clear_entry in Hc. repeat case_match; simplify_eq; try done.
    by rewrite insert_delete_eq.
Qed.

Lemma StopNode_mark_changes id w w' cbs l (mk : World → World) :
  wf w → StopNode_mark id w = Ok (w', cbs, l) →
  heap (mk w') = heap w' → procs (mk w') = procs w' → cancelled (mk w') = cancelled w' →
  (∀ k, k ∈ stopping (mk w') ∨ cluster_cur (mk w') = Some k ↔
        k = l ∨ k ∈ stopping w ∨ cluster_cur w = Some k) →
  changes_at l w (mk w').
Proof.
  intros Hwf. unfold StopNode_mark. destruct (nodes (mgr w) !! id) as [l0|] eqn:Hl; [|done].
  destruct (entries_deref _ _ _ Hwf Hl) as (n & Hn & -> & _).
  case_decide as Hs; [done|]. intros [= <- <- <-] Hh Hp Hc Hm.
  unfold changes_at, life_of. rewrite Hh, Hp, Hc. simpl. split.
  - intros l' Hne. rewrite lookup_insert_ne by done. f_equal. apply bool_decide_ext.
    rewrite Hm. naive_solver.
  - right. rewrite lookup_insert_eq, Hn.
    rewrite (bool_decide_eq_true_2 (l0 ∈ stopping (mk _) ∨ _)) by (apply Hm; by left).
    by constructor.
Qed.

Lemma StopNode_cancel_changes l w (mk : World → World) :
  wf w → l ∈ stopping w ∨ cluster_cur w = Some l →
  (∀ u, heap (mk u) = heap u ∧ procs (mk u) = procs u ∧ cancelled (mk u) = cancelled u) →
  (∀ u k, stopping u = stopping w → cluster u = cluster w → k ≠ l →
     k ∈ stopping (mk u) ∨ cluster_cur (mk u) = Some k ↔ k ∈ stopping w ∨ cluster_cur w = Some k) →
  changes_at l w (mk (StopNode_cancel l w)).
Proof.
  intros [Hok _] Hm Hmk Hk. destruct (Hmk (StopNode_cancel l w)) as (Hh & Hp & Hc).
  assert (Hst : stopping (StopNode_cancel l w) = stopping w ∧ cluster (StopNode_cancel l w) = cluster w
    ∧ heap (StopNode_cancel l w) = heap w ∧ procs (StopNode_cancel l w) = procs w)
    by (unfold StopNode_cancel; by case_match).
  destruct Hst as (Hs1 & Hs2 & Hs3 & Hs4).
  unfold changes_at, life_of. rewrite Hh, Hp, Hc, Hs3, Hs4. split.
  - intros l' Hne. f_equal; apply bool_decide_ext.
    + unfold StopNode_cancel. case_match; [simpl; set_solver | done].
    + by apply Hk.
  - right. rewrite (bool_decide_eq_true_2 (l ∈ stopping w ∨ _)) by done.
    pose proof (Hok l) as Hl. unfold life_ok in Hl. simpl in Hl.
    destruct (heap w !! l) as [n|] eqn:Hn.
    + replace (bool_decide (l ∈ cancelled (StopNode_cancel l w)))
        with (mn_hasCancel n || bool_decide (l ∈ cancelled w)); [constructor|].
      unfold StopNode_cancel. rewrite (deref_Some _ _ _ Hn).
      destruct (mn_hasCancel n); simpl; [|done].
      symmetry. apply bool_decide_eq_true. set_solver.
    + exfalso. unfold unborn, life_of in Hl. simplify_eq.
      by rewrite bool_decide_eq_false in *.
Qed.

(** Steps that concern no node. *)
Lemma changes_none l w w' :
  heap w' = heap w → procs w' = procs w → cancelled w' = cancelled w → stopping w' = stopping w →
  cluster_cur w' = cluster_cur w → changes_at l w w'.
Proof.
  intros Hh Hp Hc Hs Hcur. unfold changes_at, life_of. rewrite Hh, Hp, Hc, Hs, Hcur.
  split; [done | by left].
Qed.

Lemma process_begin_changes environ cwd l addr w :
  wf w → procs w !! l = Some (Spawned addr) → changes_at l w (process_begin environ cwd l addr w).
Proof.
  intros Hwf Hp. destruct (life_ok_proc _ _ _ Hwf Hp) as (n & Hn & Hd).
  split; [unfold process_begin; life_others|]. right. unfold process_begin. rewrite Hd.
  life_simpl. rewrite Hn, Hp. constructor.
Qed.

(** A goroutine that returns has changed its own node only. *)
Lemma process_return_life l n w :
  life_of (process_return l (store l n w)) l
  = MkLife (Some n) None true (l_marked (life_of w l)).
Proof.
  unfold process_return, store. life_simpl. f_equal. apply bool_decide_eq_true. set_solver.
Qed.

Lemma process_return_others l l' n w :
  l' ≠ l → life_of (process_return l (store l n w)) l' = life_of w l'.
Proof. revert l'. unfold process_return, store. life_others. Qed.

Lemma process_start_changes outcome now l cmd w :
  wf w → procs w !! l = Some (Prepared cmd) →
  changes_at l w (process_start outcome now l cmd w).1.
Proof.
  intros Hwf Hp. destruct (life_ok_proc _ _ _ Hwf Hp) as (n & Hn & Hd).
  assert (Hl : life_of w l = MkLife (Some n) (Some (Prepared cmd)) (l_cancelled (life_of w l))
    (l_marked (life_of w l))) by (unfold life_of; simpl; by rewrite Hn, Hp).
  assert (Hfail : ∀ e, changes_at l w (process_return l
    (store l (set_error e (set_status NodeStatusError n)) w))).
  { intros e. split; [intros; by apply process_return_others|].
    right. rewrite process_return_life, Hl at 1. constructor. }
  destruct outcome; unfold process_start, setNodeError; rewrite Hd; simpl; try done.
  split; [life_others|]. right. rewrite Hl at 1. life_simpl. constructor.
Qed.

Lemma process_exit_changes err l cmd w :
  wf w → procs w !! l = Some (Waiting cmd) → changes_at l w (process_exit err l w).1.
Proof.
  intros Hwf Hp. destruct (life_ok_proc _ _ _ Hwf Hp) as (n & Hn & Hd).
  unfold process_exit. rewrite Hd. simpl.
  split; [intros; by apply process_return_others|]. right. rewrite process_return_life.
  unfold life_of at 1. simpl. rewrite Hn, Hp.
  case_decide as Hc; [constructor|]. rewrite bool_decide_eq_false_2 by done.
  destruct err; constructor.
Qed.

Lemma store_touch_changes l n n' w :
  heap w !! l = Some n → identity n' = identity n → mn_Status n' = mn_Status n →
  mn_hasCancel n' = mn_hasCancel n → mn_cmd n' = mn_cmd n → changes_at l w (store l n' w).
Proof.
  intros Hn ? ? ? ?. split; [unfold store; life_others|]. right. unfold store. life_simpl.
  rewrite Hn. by constructor.
Qed.

(** ** Entries of the map *)

(** The map of nodes after a step: as before, without an entry, empty, or with a new one. *)
Definition entries_change (w w' : World) : Prop :=
  nodes (mgr w') ⊆ nodes (mgr w) ∨
  ∃ id l n, nodes (mgr w') = <[id := l]> (nodes (mgr w)) ∧ heap w' !! l = Some n ∧ mn_ID n = id.

Lemma entries_change_same w w' : nodes (mgr w') = nodes (mgr w) → entries_change w w'.
Proof. intros H. left. by rewrite H. Qed.

Lemma changes_keep l w w' k n :
  wf w → changes_at l w w' → heap w !! k = Some n →
  ∃ n', heap w' !! k = Some n' ∧ identity n' = identity n ∧
    (life_of w' k = life_of w k ∨ life_step (life_of w k) (life_of w' k)).
Proof.
  intros [Hok _] [Hne Hl] Hn. destruct (decide (k = l)) as [->|Hk].
  - destruct Hl as [Hl|Hs].
    { pose proof Hl as Heq. injection Heq as Hh _ _ _. rewrite Hh. eauto. }
    destruct (heap w' !! l) as [n'|] eqn:Hn'.
    + exists n'. split_and!; [done | by apply (life_step_status _ _ _ _ (Hok l) Hs) | by right].
    + exfalso. unfold life_of in Hs. rewrite Hn, Hn' in Hs. inversion Hs.
  - specialize (Hne _ Hk). pose proof Hne as Heq. injection Heq as Hh _ _ _. rewrite Hh. eauto.
Qed.

Lemma identity_ID n n' : identity n' = identity n → mn_ID n' = mn_ID n.
Proof. by intros [= ? ? ?]. Qed.

Lemma changes_entries l w w' :
  wf w → changes_at l w w' → entries_change w w' → entries_ok w'.
Proof.
  intros Hwf Hch Hc. pose proof Hwf as [_ He].
  intros id k Hk. destruct Hc as [Hsub|(id' & l' & n' & Heq & Hn' & Hid)].
  - destruct (He id k) as (n & Hn & <-); [by eapply lookup_weaken|].
    destruct (changes_keep _ _ _ _ _ Hwf Hch Hn) as (n' & ? & ?%identity_ID & _). eauto.
  - rewrite Heq in Hk. apply lookup_insert_Some in Hk as [[<- <-]|[_ Hk]]; [eauto|].
    destruct (He _ _ Hk) as (n & Hn & <-).
    destruct (changes_keep _ _ _ _ _ Hwf Hch Hn) as (n'' & ? & ?%identity_ID & _). eauto.
Qed.

Lemma changes_wf l w w' : wf w → changes_at l w w' → entries_change w w' → wf w'.
Proof.
  intros Hwf Hch He. split; [|by eapply changes_entries]. destruct Hwf as [Hok _], Hch as [Hne Hl].
  intros k. destruct (decide (k = l)) as [->|Hk]; [|by rewrite Hne].
  destruct Hl as [->|Hs]; [done|]. by eapply life_step_ok.
Qed.

(** * Every step *)

Lemma changes_then l w w1 w2 :
  changes_at l w w1 → heap w2 = heap w1 → procs w2 = procs w1 → cancelled w2 = cancelled w1 →
  stopping w2 = stopping w1 → cluster_cur w2 = cluster_cur w1 → changes_at l w w2.
Proof.
  intros [Hne Hl] Hh Hp Hc Hs Hcur.
  assert (Heq : ∀ k, life_of w2 k = life_of w1 k)
    by (intros k; unfold life_of; by rewrite Hh, Hp, Hc, Hs, Hcur).
  split; [intros; rewrite Heq; auto | by rewrite Heq].
Qed.

Lemma startNodeWithTotal_cluster id p b addr total w w' e :
  startNodeWithTotal id p b addr total w = (w', e) → cluster w' = cluster w.
Proof. unfold startNodeWithTotal. by case_match; intros [= <- <-]. Qed.

(** A step changes one node and the map of nodes consistently. *)
Definition good_step (w w' : World) : Prop := ∃ l, changes_at l w w' ∧ entries_change w w'.

Lemma good_none w w' :
  heap w' = heap w → procs w' = procs w → cancelled w' = cancelled w → stopping w' = stopping w →
  cluster_cur w' = cluster_cur w → nodes (mgr w') ⊆ nodes (mgr w) → good_step w w'.
Proof. intros. exists 1%positive. split; [by apply changes_none | by left]. Qed.

Lemma good_start id p b addr total w w' e pc :
  wf w → startNodeWithTotal id p b addr total w = (w', e) →
  cluster_cur (set_cluster pc w') = cluster_cur w → good_step w (set_cluster pc w').
Proof.
  intros Hwf Hs Hcur. destruct (startNodeWithTotal_changes _ _ _ _ _ _ _ _ Hwf Hs) as (l & Hch & Hn).
  exists l. split.
  - eapply changes_then; try done. rewrite Hcur. unfold cluster_cur.
    by rewrite (startNodeWithTotal_cluster _ _ _ _ _ _ _ _ Hs).
  - destruct Hn as [Hn|(Hn & n & Hl & Hid)]; [by apply entries_change_same|].
    right. by exists id, l, n.
Qed.

Lemma StopNode_mark_nodes id w w' cbs l :
  StopNode_mark id w = Ok (w', cbs, l) →
  nodes (mgr w') = nodes (mgr w) ∧ stopping w' = stopping w ∧ cluster w' = cluster w.
Proof. unfold StopNode_mark. repeat case_match; by intros [= <- <- <-]. Qed.

Lemma StopNode_cancel_same l w :
  mgr (StopNode_cancel l w) = mgr w ∧ heap (StopNode_cancel l w) = heap w ∧
  procs (StopNode_cancel l w) = procs w ∧ stopping (StopNode_cancel l w) = stopping w ∧
  cluster (StopNode_cancel l w) = cluster w.
Proof. unfold StopNode_cancel. by case_match. Qed.

Section steps.
Variable peer_id : string → result string.

Lemma cluster_step_good timed_out pick w w' cbs :
  wf w → cluster_step peer_id timed_out pick w = Some (w', cbs) → good_step w w'.
Proof.
  intros Hwf. unfold cluster_step.
  destruct (cluster w) as [[n cur ids|n|n|n|n bs st addr|n bs be st addr todo]|] eqn:Hpc; [..|done].
  - destruct cur as [l|]; [|destruct ids as [|id ids]].
    + intros [= <- <-]. destruct (StopNode_cancel_same l w) as (Hm & _ & _ & Hs & _). exists l.
      split; [|apply entries_change_same; simpl; by rewrite Hm].
      apply (StopNode_cancel_changes l w (set_cluster _)); [done | | done |].
      * right. unfold cluster_cur. by rewrite Hpc.
      * intros u k Hu _ Hk. unfold cluster_cur. simpl. rewrite Hu, Hpc. naive_solver.
    + intros [= <- <-]. apply good_none; try done. unfold cluster_cur. simpl. by rewrite Hpc.
    + destruct (StopNode_mark id w) as [[[w1 cbs1] l]|e] eqn:Hmk; intros [= <- <-].
      * destruct (StopNode_mark_nodes _ _ _ _ _ Hmk) as (Hn & Hs & _).
        exists l. split; [|by apply entries_change_same].
        apply (StopNode_mark_changes _ _ _ _ _ (set_cluster _) Hwf Hmk); try done.
        intros k. unfold cluster_cur. simpl. rewrite Hs, Hpc. naive_solver.
      * apply good_none; try done. unfold cluster_cur. simpl. by rewrite Hpc.
  - destruct (timed_out || all_stopped w); [|done]. intros [= <- <-].
    apply good_none; try done; [unfold cluster_cur; simpl; by rewrite Hpc | apply map_empty_subseteq].
  - destruct (startNodeWithTotal _ _ _ _ _ w) as [w1 [e|]] eqn:Hs; intros [= <- <-];
      eapply good_start; try done; unfold cluster_cur; simpl; by rewrite Hpc.
  - destruct (timed_out || _); [|done]. intros [= Heq]. revert Heq. unfold cluster_booted, cluster_fail.
    repeat case_match; intros [= <- <-]; apply good_none; try done; unfold cluster_cur; simpl;
      by rewrite Hpc.
  - intros [= Heq]. revert Heq. unfold cluster_loop.
    case_match; intros [= <- <-]; apply good_none; try done; unfold cluster_cur; simpl;
      by rewrite Hpc.
  - destruct (todo !! pick) as [i|].
    + destruct (startNodeWithTotal _ _ _ _ _ w) as [w1 e] eqn:Hs. intros [= <- <-].
      eapply good_start; try done. unfold cluster_cur. simpl. by rewrite Hpc.
    + destruct todo; [|done]. intros [= <- <-]. apply good_none; try done.
      unfold cluster_cur. simpl. by rewrite Hpc.
Qed.

Lemma run_event_good ev w w' cbs :
  wf w → run_event peer_id ev w = Some (w', cbs) → good_step w w'.
Proof.
  intros Hwf. pose proof Hwf as [Hok He].
  destruct ev as [id p b addr|id|l|id|cnt|id p|order n|environ cwd l|outcome now l|err l|src line l|to pick];
    simpl; unfold silent.
  - intros [= <- <-]. unfold StartNode.
    destruct (startNodeWithTotal id p b addr 0 w) as [w1 e] eqn:Hs. simpl.
    pose proof (startNodeWithTotal_cluster _ _ _ _ _ _ _ _ Hs) as Hc.
    destruct (good_start _ _ _ _ _ _ _ _ (cluster w1) Hwf Hs) as (l & H1 & H2).
    { unfold cluster_cur. simpl. by rewrite Hc. }
    exists l. split; [by eapply changes_then | done].
  - destruct (StopNode_mark id w) as [[[w1 cbs1] l]|e] eqn:Hmk; [|done]. intros [= <- <-].
    destruct (StopNode_mark_nodes _ _ _ _ _ Hmk) as (Hn & Hs & Hc).
    exists l. split; [|by apply entries_change_same].
    apply (StopNode_mark_changes _ _ _ _ _ (λ u, set_stopping ({[l]} ∪ stopping u) u) Hwf Hmk); try done.
    intros k. unfold cluster_cur. simpl. rewrite Hs, Hc. set_solver.
  - case_decide as Hl; [|done]. intros [= <- <-].
    destruct (StopNode_cancel_same l w) as (Hm & _ & _ & Hs & _).
    exists l. split; [|apply entries_change_same; simpl; by rewrite Hm].
    apply (StopNode_cancel_changes l w (set_stopping _)); [done | by left | done |].
    intros u k _ Hc Hk. unfold cluster_cur. simpl. rewrite Hc. set_solver.
  - intros [= <- <-]. unfold RemoveNode. repeat (case_match; simpl); apply good_none; try done.
    simpl. apply delete_subseteq.
  - intros [= <- <-]. by apply good_none.
  - intros [= <- <-]. unfold UpdatePrimaryStatus.
    destruct (nodes (mgr w) !! id) as [l|] eqn:Hl; [|by apply good_none].
    destruct (entries_deref _ _ _ Hwf Hl) as (nd & Hn & -> & _).
    case_match; [by apply good_none|]. exists l. split; [|by apply entries_change_same].
    by apply (store_touch_changes _ nd).
  - case_decide; [|done]. intros [= <- <-]. unfold StartCluster.
    repeat (case_match; simpl); apply good_none; try done.
    unfold cluster_cur. simpl. by case_match.
  - destruct (procs w !! l) as [[addr| |]|] eqn:Hp; try done. intros [= <- <-].
    exists l. split; [by apply process_begin_changes | by apply entries_change_same].
  - destruct (procs w !! l) as [[|cmd|]|] eqn:Hp; try done. intros [= Heq].
    assert (w' = (process_start outcome now l cmd w).1) as -> by (by rewrite Heq).
    exists l. split; [by apply process_start_changes|].
    apply entries_change_same. by destruct outcome.
  - destruct (procs w !! l) as [[| |cmd]|] eqn:Hp; try done. intros [= <- <-].
    exists l. split; [by apply (process_exit_changes err l cmd w) | by apply entries_change_same].
  - destruct (mn_cmd (deref w l)) as [cmd|] eqn:Hc; [|done]. intros [= <- <-].
    assert (∃ nd, heap w !! l = Some nd ∧ deref w l = nd) as (nd & Hn & Hd).
    { unfold deref in *. destruct (heap w !! l); [eauto | done]. }
    exists l. split; [|by apply entries_change_same]. apply (store_touch_changes _ nd); by rewrite ?Hd.
  - by apply cluster_step_good.
Qed.

Lemma step_wf w w' : wf w → step peer_id w w' → wf w'.
Proof.
  intros Hwf (ev & cbs & Hr). destruct (run_event_good _ _ _ _ Hwf Hr) as (l & Hch & He).
  by eapply changes_wf.
Qed.

Lemma wf_new cfg : wf (new_world cfg).
Proof. split; [done|]. intros id l. simpl. by rewrite lookup_empty. Qed.

Lemma reachable_wf w : reachable peer_id w → wf w.
Proof.
  intros (cfg & Hr). pose proof (wf_new cfg) as Hwf. induction Hr; [done|].
  eauto using step_wf.
Qed.
End steps.

(** * Status and process *)

(** The goroutine of a node with this status. *)
Definition status_matches (s : NodeStatus) (p : option process) : Prop :=
  match s with
  | NodeStatusStarting => match p with Some (Spawned _) | Some (Prepared _) => True | _ => False end
  | NodeStatusRunning | NodeStatusStopping => match p with Some (Waiting _) => True | _ => False end
  | NodeStatusStopped | NodeStatusError => p = None
  end.

(** C12: in every world that API calls, process goroutines and cluster starts can reach, the status
    of a node says exactly what its goroutine is doing: starting while the process is not yet made,
    running or stopping while there is a process to wait for, stopped or in error when the goroutine
    has ended. An entry of the map is a node with that ID, and a node whose context is cancelled is
    neither starting nor running. *)
Theorem status_tells_process peer_id w :
  reachable peer_id w →
  (∀ l n, heap w !! l = Some n → status_matches (mn_Status n) (procs w !! l) ∧
     (l ∈ cancelled w → mn_Status n ≠ NodeStatusStarting ∧ mn_Status n ≠ NodeStatusRunning)) ∧
  (∀ l, heap w !! l = None → procs w !! l = None) ∧
  (∀ id l, nodes (mgr w) !! id = Some l → ∃ n, heap w !! l = Some n ∧ mn_ID n = id).
Proof.
  intros [Hok He]%reachable_wf. split_and!; [intros l n Hn | intros l Hn | done].
  - specialize (Hok l). unfold life_ok in Hok. simpl in Hok. rewrite Hn in Hok.
    unfold status_matches. destruct (mn_Status n), (procs w !! l) as [[]|]; simpl in *;
      split; try done; intros Hc; rewrite bool_decide_eq_false in Hok; naive_solver.
  - specialize (Hok l). unfold life_ok in Hok. simpl in Hok. rewrite Hn in Hok.
    by injection Hok.
Qed.

Lemma store_status l0 x w l n n' :
  <[l0 := x]> (heap w) !! l = Some n' → heap w !! l = Some n → mn_Status n' ≠ mn_Status n →
  l = l0 ∧ n' = x ∧ deref w l0 = n.
Proof.
  intros [[<- <-]|[_ Hl]]%lookup_insert_Some Hn Hs; [eauto using deref_Some|].
  exfalso. apply Hs. congruence.
Qed.

Ltac same_status := intros; exfalso; simpl in *; congruence.

Lemma startNodeWithTotal_heap id p b addr total w w' e l n :
  startNodeWithTotal id p b addr total w = (w', e) → heap w !! l = Some n → heap w' !! l = Some n.
Proof.
  unfold startNodeWithTotal. case_match; intros [= <- <-] Hl; [|done]. simpl.
  rewrite lookup_insert_ne; [done|]. intros Heq.
  assert (Hf : fresh (dom (heap w)) ∉ dom (heap w)) by apply is_fresh.
  rewrite Heq in Hf. apply Hf, elem_of_dom_2 with n, Hl.
Qed.

Lemma StopNode_mark_announces id w w' cbs l0 l n n' :
  wf w → StopNode_mark id w = Ok (w', cbs, l0) → statusCallback (mgr w) = true →
  heap w !! l = Some n → heap w' !! l = Some n' → mn_Status n' ≠ mn_Status n →
  StatusCallback (mn_ID n) (mn_Status n') ∈ cbs.
Proof.
  intros Hwf. unfold StopNode_mark. destruct (nodes (mgr w) !! id) as [l1|] eqn:Hl; [|done].
  destruct (entries_deref _ _ _ Hwf Hl) as (n1 & Hn1 & Hd & Hid).
  case_decide; [done|]. intros [= <- <- <-] Hcb Hn Hn' Hne.
  destruct (store_status _ _ _ _ _ _ Hn' Hn Hne) as (-> & -> & <-).
  unfold notifyStatus. simpl. rewrite Hcb, Hd, Hid. by left.
Qed.

Lemma cluster_step_announces peer_id timed_out pick w w' cbs l n n' :
  wf w → cluster_step peer_id timed_out pick w = Some (w', cbs) → statusCallback (mgr w) = true →
  heap w !! l = Some n → heap w' !! l = Some n' → mn_Status n' ≠ mn_Status n →
  StatusCallback (mn_ID n) (mn_Status n') ∈ cbs.
Proof.
  intros Hwf. unfold cluster_step, cluster_booted, cluster_loop, cluster_fail.
  destruct (cluster w) as [[m cur ids|m|m|m|m bs st addr|m bs be st addr todo]|]; [..|done].
  - destruct cur as [l0|]; [|destruct ids as [|id ids]].
    + intros [= <- <-] _. simpl. destruct (StopNode_cancel_same l0 w) as (_ & -> & _). same_status.
    + intros [= <- <-] _. same_status.
    + destruct (StopNode_mark id w) as [[[w1 cbs1] l0]|e] eqn:Hmk; intros [= <- <-]; [|same_status].
      by apply (StopNode_mark_announces _ _ _ _ _ _ _ _ Hwf Hmk).
  - destruct (timed_out || all_stopped w); [|done]. intros [= <- <-] _. same_status.
  - destruct (startNodeWithTotal _ _ _ _ _ w) as [w1 [e|]] eqn:Hs; intros [= <- <-] _ Hn Hn' Hne;
      pose proof (startNodeWithTotal_heap _ _ _ _ _ _ _ _ _ _ Hs Hn); same_status.
  - destruct (timed_out || _); [|done]. intros [= Heq]. revert Heq.
    repeat case_match; intros [= <- <-] _; same_status.
  - intros [= Heq]. revert Heq. case_match; intros [= <- <-] _; same_status.
  - destruct (todo !! pick) as [i|].
    + destruct (startNodeWithTotal _ _ _ _ _ w) as [w1 e] eqn:Hs; intros [= <- <-] _ Hn Hn' Hne.
      pose proof (startNodeWithTotal_heap _ _ _ _ _ _ _ _ _ _ Hs Hn). same_status.
    + destruct todo; [|done]. intros [= <- <-] _. same_status.
Qed.

Lemma run_event_announces peer_id ev w w' cbs l n n' :
  wf w → run_event peer_id ev w = Some (w', cbs) → statusCallback (mgr w) = true →
  heap w !! l = Some n → heap w' !! l = Some n' → mn_Status n' ≠ mn_Status n →
  StatusCallback (mn_ID n) (mn_Status n') ∈ cbs.
Proof.
  intros Hwf. destruct ev as [id p b addr|id|l0|id|cnt|id p|order m|environ cwd l0|outcome now l0
    |err l0|src line l0|to pick]; simpl; unfold silent.
  - intros [= <- <-] _ Hn. unfold StartNode.
    destruct (startNodeWithTotal id p b addr 0 w) as [w1 e] eqn:Hs. simpl.
    pose proof (startNodeWithTotal_heap _ _ _ _ _ _ _ _ _ _ Hs Hn). same_status.
  - destruct (StopNode_mark id w) as [[[w1 cbs1] l0]|e] eqn:Hmk; [|done]. intros [= <- <-].
    by apply (StopNode_mark_announces _ _ _ _ _ _ _ _ Hwf Hmk).
  - case_decide; [|done]. intros [= <- <-] _. simpl.
    destruct (StopNode_cancel_same l0 w) as (_ & -> & _). same_status.
  - intros [= <- <-] _. unfold RemoveNode. repeat (case_match; simpl); same_status.
  - intros [= <- <-] _. same_status.
  - intros [= <- <-] _ Hn. unfold UpdatePrimaryStatus. repeat (case_match; simpl); try same_status.
    intros Hn' Hne. destruct (store_status _ _ _ _ _ _ Hn' Hn Hne) as (-> & -> & <-). done.
  - case_decide; [|done]. intros [= <- <-] _. unfold StartCluster. repeat (case_match; simpl); same_status.
  - destruct (procs w !! l0) as [[]|]; try done. intros [= <- <-] _ Hn Hn' Hne.
    destruct (store_status _ _ _ _ _ _ Hn' Hn Hne) as (-> & -> & <-). done.
  - destruct (procs w !! l0) as [[]|]; try done. intros [= Heq] Hcb Hn Hn' Hne. revert Heq Hn'.
    unfold process_start, setNodeError.
    destruct outcome; intros [= <- <-] Hn'; simpl in Hn';
      destruct (store_status _ _ _ _ _ _ Hn' Hn Hne) as (-> & -> & <-);
      unfold notifyStatus; simpl; rewrite Hcb; by left.
  - destruct (procs w !! l0) as [[]|]; try done. intros [= <- <-] Hcb Hn Hn' Hne.
    destruct (store_status _ _ _ _ _ _ Hn' Hn Hne) as (-> & -> & <-).
    unfold notifyStatus. simpl. rewrite Hcb. repeat case_match; by left.
  - destruct (mn_cmd (deref w l0)); [|done]. intros [= <- <-] _ Hn Hn' Hne.
    destruct (store_status _ _ _ _ _ _ Hn' Hn Hne) as (-> & -> & <-). done.
  - by apply cluster_step_announces.
Qed.

(** Whatever happens next in a reachable world, a node keeps its ID and ports and its status
    stays or takes an edge of the life cycle: starting to running or error, running to stopping, and
    from there or directly to stopped or error; a node that has ended never comes back, a restart
    makes a new one. After [StopNode] has cancelled its context a stopping node cannot end in error.
    With a status callback installed, every change of status is announced under the node's ID. *)
Theorem status_follows_lifecycle peer_id ev w w' cbs l n :
  reachable peer_id w → run_event peer_id ev w = Some (w', cbs) → heap w !! l = Some n →
  ∃ n', heap w' !! l = Some n' ∧ identity n' = identity n ∧
    status_edge (mn_Status n) (mn_Status n') = true ∧
    (l ∈ cancelled w → mn_Status n = NodeStatusStopping → mn_Status n' ≠ NodeStatusError) ∧
    (statusCallback (mgr w) = true → mn_Status n' ≠ mn_Status n →
     StatusCallback (mn_ID n) (mn_Status n') ∈ cbs).
Proof.
  intros Hwf%reachable_wf Hr Hn. destruct (run_event_good _ _ _ _ _ Hwf Hr) as (l0 & Hch & _).
  destruct (changes_keep _ _ _ _ _ Hwf Hch Hn) as (n' & Hn' & Hid & Hl). exists n'.
  assert (status_edge (mn_Status n) (mn_Status n') = true ∧
    (l ∈ cancelled w → mn_Status n = NodeStatusStopping → mn_Status n' ≠ NodeStatusError)) as [? ?].
  { destruct Hl as [Heq|Hs].
    - injection Heq as Hh _ _ _. assert (n' = n) as -> by congruence. split; [|congruence].
      by destruct (mn_Status n).
    - destruct (life_step_status _ _ n n' (proj1 Hwf l) Hs Hn Hn') as (_ & Hedge & Hc).
      split; [done|]. intros Hl Hst. rewrite <- (bool_decide_eq_true (l ∈ cancelled w)) in Hl.
      destruct (Hc Hl Hst) as [-> | ->]; done. }
  split_and!; try done. intros Hcb Hne. by eapply run_event_announces.
Qed.

(** ** A node that is started and stopped *)

Definition demo_cfg : NodeManagerConfig := MkNodeManagerConfig "bin/validator" "" 0 0 "" true true true.

Definition demo_peer (id : string) : result string := Ok ("12D3-" +:+ id).

(** The first node's address. *)
Definition node_addr : positive := 1.

Definition demo_start : list event :=
  [EvStartNode "a" true true ""; EvBegin [] (Ok "/srv") node_addr; EvStarted Started 5 node_addr].

Definition demo_world : World :=
  default (new_world demo_cfg) (run_events demo_peer demo_start (new_world demo_cfg)).

Lemma demo_reachable : reachable demo_peer demo_world.
Proof.
  exists demo_cfg. apply (run_events_steps _ demo_start). unfold demo_world. by vm_compute.
Qed.

Definition demo_node : ManagedNode := deref demo_world node_addr.

Lemma demo_lookup : heap demo_world !! node_addr = Some demo_node.
Proof. by vm_compute. Qed.

Lemma status_tells_process_witness :
  reachable demo_peer demo_world ∧ status_matches NodeStatusRunning (procs demo_world !! node_addr).
Proof.
  split; [apply demo_reachable|].
  exact (proj1 (proj1 (status_tells_process demo_peer demo_world demo_reachable) _ _ demo_lookup)).
Defined.

Lemma status_follows_lifecycle_witness : ∃ w' cbs n',
  run_event demo_peer (EvStopMark "a") demo_world = Some (w', cbs) ∧
  heap w' !! node_addr = Some n' ∧ mn_Status n' = NodeStatusStopping ∧
  StatusCallback "a" NodeStatusStopping ∈ cbs.
Proof.
  destruct (run_event demo_peer (EvStopMark "a") demo_world) as [[w' cbs]|] eqn:Hr;
    [|by vm_compute in Hr].
  destruct (status_follows_lifecycle _ _ _ _ _ _ _ demo_reachable Hr demo_lookup)
    as (n' & Hn' & _ & _ & _ & Hcb).
  assert (Hst : mn_Status n' = NodeStatusStopping).
  { revert Hr Hn'. unfold run_event. destruct (StopNode_mark "a" demo_world) as [[[w1 c1] l1]|] eqn:Hm;
      [|by vm_compute in Hm].
    intros [= <- _]. vm_compute in Hm. injection Hm as <- _ _. intros Hn'. vm_compute in Hn'.
    by injection Hn' as <-. }
  exists w', cbs, n'. split_and!; [done..|].
  rewrite Hst in Hcb. apply (Hcb eq_refl). by vm_compute.
Defined.
End ManagerInv.
