(* ===== verification/ManagerCluster.v ===== *)
(** Starting a whole cluster ([StartCluster] and [startClusterAsync] of
    [src/pkg/supervisor/manager.go], modelled in [Manager]): it always finishes, and has then started
    each node once, on a port of its own. The last part has what is not so: nodes that are restarted
    one by one may share a port, and a cluster start may leave a process that nothing can stop. *)

From stdpp Require Import relations fin_sets.
From S2P Require Import Prelude Manager ManagerInv.

Module ManagerCluster.
Import Manager ManagerInv.

(** * Ranges *)

Lemma elem_of_range a b i : i ∈ range a b ↔ (a ≤ i < b)%Z.
Proof.
  unfold range. rewrite list_elem_of_fmap. setoid_rewrite elem_of_seq. split.
  - intros (k & -> & Hk). lia.
  - intros Hi. exists (Z.to_nat (i - a)). lia.
Qed.

Lemma NoDup_range a b : NoDup (range a b).
Proof.
  unfold range. apply NoDup_fmap_2_strong; [lia | apply NoDup_seq].
Qed.

Lemma length_range a b : length (range a b) = Z.to_nat (b - a).
Proof. unfold range. by rewrite length_map, length_seq. Qed.

Lemma range_app a b c : (a ≤ b ≤ c)%Z → range a b ++ range b c ≡ₚ range a c.
Proof.
  intros H. apply NoDup_Permutation.
  - apply NoDup_app. split_and!; [apply NoDup_range | | apply NoDup_range].
    intros x. rewrite !elem_of_range. lia.
  - apply NoDup_range.
  - intros x. rewrite elem_of_app, !elem_of_range. lia.
Qed.

Lemma range_empty a b : (b ≤ a)%Z → range a b = [].
Proof. intros H. unfold range. by replace (Z.to_nat (b - a)) with 0 by lia. Qed.

Lemma node_name_inj i j : (0 ≤ i)%Z → (0 ≤ j)%Z → node_name i = node_name j → i = j.
Proof. unfold node_name. intros Hi Hj [= H]. by apply FormatInt_inj. Qed.

(** * Nodes started so far *)

(** The entries of the map are the nodes with the indices of [order], which got the ports in that
    order. *)
Record placed (base apiBase : Z) (order : list Z) (w : World) : Prop := Placed {
  placed_nodup : NoDup order;
  placed_dom : dom (nodes (mgr w)) = list_to_set (node_name <$> order);
  placed_size : size (nodes (mgr w)) = length order;
  placed_at : ∀ k i, order !! k = Some i → (0 ≤ i)%Z ∧ ∃ l n,
    nodes (mgr w) !! node_name i = Some l ∧ heap w !! l = Some n ∧
    identity n = (node_name i, (base + Z.of_nat k)%Z, (apiBase + Z.of_nat k)%Z);
}.

Lemma placed_nil base apiBase w : nodes (mgr w) = ∅ → placed base apiBase [] w.
Proof. intros H. split; rewrite ?H; try done. constructor. Qed.

Lemma placed_free base apiBase order w i :
  placed base apiBase order w → (0 ≤ i)%Z → i ∉ order → nodes (mgr w) !! node_name i = None.
Proof.
  intros Hp Hi Hn. apply not_elem_of_dom. rewrite (placed_dom _ _ _ _ Hp).
  rewrite elem_of_list_to_set, list_elem_of_fmap. intros (j & Hj & [k Hk]%list_elem_of_lookup_1).
  destruct (placed_at _ _ _ _ Hp _ _ Hk) as [Hj0 _].
  apply node_name_inj in Hj as ->; try done. by eapply Hn, list_elem_of_lookup_2.
Qed.

(** Entries, and what their nodes keep, stay. *)
Definition nodes_kept (w w' : World) : Prop :=
  nodes (mgr w') = nodes (mgr w) ∧
  ∀ l n, heap w !! l = Some n → ∃ n', heap w' !! l = Some n' ∧ identity n' = identity n.

Lemma placed_kept base apiBase order w w' :
  placed base apiBase order w → nodes_kept w w' → placed base apiBase order w'.
Proof.
  intros [Hnd Hdom Hsz Hat] [Hn Hh]. split; rewrite ?Hn; try done.
  intros k i Hk. destruct (Hat k i Hk) as (Hi & l & n & Hl & Hnode & Hid). split; [done|].
  destruct (Hh _ _ Hnode) as (n' & Hn' & Hid'). exists l, n'. by rewrite Hid'.
Qed.

Lemma placed_start base apiBase order w i p b addr total w' e :
  basePort (mgr w) = base → baseAPIPort (mgr w) = apiBase →
  is_i64 (base + Z.of_nat (length order)) → is_i64 (apiBase + Z.of_nat (length order)) →
  placed base apiBase order w → (0 ≤ i)%Z → i ∉ order →
  startNodeWithTotal (node_name i) p b addr total w = (w', e) →
  e = None ∧ placed base apiBase (order ++ [i]) w' ∧
  mgr w' = set_totalNodes (if (0 <? total)%Z then total else totalNodes (mgr w'))
             (set_nodes (nodes (mgr w')) (mgr w)).
Proof.
  intros Hb Ha Hbr Har Hp Hi Hn. pose proof (placed_free _ _ _ _ _ Hp Hi Hn) as Hfree.
  unfold startNodeWithTotal, clear_entry. rewrite !Hfree. cbv beta iota zeta.
  rewrite (placed_size _ _ _ _ Hp), Hb, Ha, !wrap_i64_id by done. intros [= <- <-].
  split_and!; [done | | by destruct (0 <? total)%Z].
  destruct Hp as [Hnd Hdom Hsz Hat]. split; simpl.
  - apply NoDup_app. split_and!; [done | | apply NoDup_singleton]. set_solver.
  - rewrite dom_insert_L, Hdom, fmap_app, list_to_set_app_L. simpl. set_solver.
  - rewrite map_size_insert_None by done. rewrite Hsz, length_app. simpl. lia.
  - intros k j Hk. apply lookup_app_Some in Hk as [Hk|[Hle Hk]].
    + destruct (Hat k j Hk) as (Hj & l & n & Hl & Hnode & Hid). split; [done|].
      exists l, n. rewrite lookup_insert_ne, lookup_insert_ne; [done | | ].
      * intros Heq. assert (Hf : fresh (dom (heap w)) ∉ dom (heap w)) by apply is_fresh.
        rewrite Heq in Hf. by eapply Hf, elem_of_dom_2.
      * intros Heq. apply node_name_inj in Heq as ->; try done. by eapply Hn, list_elem_of_lookup_2.
    + apply list_lookup_singleton_Some in Hk as [Hk <-]. split; [done|]. eexists _, _.
      split_and!; [apply lookup_insert_eq | apply lookup_insert_eq|].
      unfold identity. simpl. by replace k with (length order) by lia.
Qed.

(** * Runs *)

(** Everything but calls that add or remove entries or set the number of nodes: processes begin,
    start, exit and write, nodes are stopped, primaries change, and the cluster start goes on. *)
Definition quiet (ev : event) : bool :=
  match ev with
  | EvStartNode _ _ _ _ | EvRemoveNode _ | EvSetTotalNodes _ | EvStartCluster _ _ => false
  | _ => true
  end.

Definition is_cluster (ev : event) : bool := match ev with EvCluster _ _ => true | _ => false end.

(** [quiet_run k w w']: a run with [k] steps of the cluster start. *)
Inductive quiet_run (peer_id : string → result string) : nat → World → World → Prop :=
| QuietNil w : quiet_run peer_id 0 w w
| QuietSnoc k w w' w'' ev cbs :
    quiet_run peer_id k w w' → quiet ev = true → run_event peer_id ev w' = Some (w'', cbs) →
    quiet_run peer_id (if is_cluster ev then S k else k) w w''.

Lemma quiet_run_wf peer_id k w w' : wf w → quiet_run peer_id k w w' → wf w'.
Proof.
  intros Hwf. induction 1 as [|k w w1 w2 ev cbs _ IH _ Hr]; [done|].
  apply (step_wf peer_id w1); [by apply IH | by exists ev, cbs].
Qed.

Lemma nodes_kept_event peer_id ev w w' cbs :
  wf w → run_event peer_id ev w = Some (w', cbs) → nodes (mgr w') = nodes (mgr w) → nodes_kept w w'.
Proof.
  intros Hwf Hr Hn. split; [done|]. intros l n Hl.
  destruct (run_event_good _ _ _ _ _ Hwf Hr) as (l0 & Hch & _).
  destruct (changes_keep _ _ _ _ _ Hwf Hch Hl) as (n' & ? & ? & _). eauto.
Qed.

Lemma quiet_other peer_id ev w w' cbs :
  quiet ev = true → is_cluster ev = false → run_event peer_id ev w = Some (w', cbs) →
  mgr w' = mgr w ∧ cluster w' = cluster w.
Proof.
  destruct ev as [id p b addr|id|l0|id|cnt|id p|order m|environ cwd l0|outcome now l0
    |err l0|src line l0|to pick]; simpl; unfold silent; intros Hq Hc; try done.
  - destruct (StopNode_mark id w) as [[[w1 c1] l1]|] eqn:Hm; [|done]. intros [= <- <-]. revert Hm.
    unfold StopNode_mark. repeat case_match; by intros [= <- <- <-].
  - case_decide; [|done]. intros [= <- <-]. by destruct (StopNode_cancel_same l0 w) as (? & _ & _ & _ & ?).
  - intros [= <- <-]. unfold UpdatePrimaryStatus. by repeat case_match.
  - destruct (procs w !! l0) as [[]|]; try done. by intros [= <- <-].
  - destruct (procs w !! l0) as [[]|]; try done. intros [= Heq]. revert Heq.
    unfold process_start, setNodeError. by destruct outcome; intros [= <- <-].
  - destruct (procs w !! l0) as [[]|]; try done. by intros [= <- <-].
  - case_match; [|done]. by intros [= <- <-].
Qed.

Section start.
Variables (peer_id : string → result string) (n base apiBase : Z).
Hypothesis Hpeer : ∃ id, peer_id "node0" = Ok id.
Hypothesis Hn : (1 ≤ n < 2 ^ 63 - 10)%Z.
Hypothesis Hbase : (- 2 ^ 63 ≤ base ∧ base + n < 2 ^ 63)%Z.
Hypothesis HapiBase : (- 2 ^ 63 ≤ apiBase ∧ apiBase + n < 2 ^ 63)%Z.

(** The cluster is up: [n] nodes, each index once, on the first [n] ports. *)
Definition finished (w : World) : Prop :=
  clusterStatus (mgr w) = ClusterStatusRunning ∧ totalNodes (mgr w) = n ∧
  ∃ order, order ≡ₚ range 0 n ∧ placed base apiBase order w.

(** What holds while the cluster start is where it is. *)
Definition progress (w : World) : Prop :=
  basePort (mgr w) = base ∧ baseAPIPort (mgr w) = apiBase ∧
  match cluster w with
  | Some (CpStop m _ _) | Some (CpWaitStopped m) => m = n
  | Some (CpBoot m) => m = n ∧ totalNodes (mgr w) = n ∧ nodes (mgr w) = ∅
  | Some (CpWaitBoot m) => m = n ∧ totalNodes (mgr w) = n ∧ placed base apiBase [0%Z] w
  | Some (CpLoop m bs st _) => m = n ∧ totalNodes (mgr w) = n ∧ (1 ≤ bs ≤ n + 9)%Z ∧ st = Z.min bs n ∧
      ∃ order, order ≡ₚ range 0 (Z.min bs n) ∧ placed base apiBase order w
  | Some (CpBatch m bs be st _ todo) => m = n ∧ totalNodes (mgr w) = n ∧ (1 ≤ bs < n)%Z ∧
      be = Z.min (bs + 10) n ∧ st = bs ∧
      ∃ order, order ++ todo ≡ₚ range 0 be ∧ placed base apiBase order w
  | None => finished w
  end.

(** Steps the cluster start has still to take, at most. *)
Definition steps_left (w : World) : nat :=
  match cluster w with
  | None => 0
  | Some (CpStop _ cur ids) =>
      3 * Z.to_nat n + 2 + 2 * length ids + match cur with Some _ => 1 | None => 0 end
  | Some (CpWaitStopped _) => 3 * Z.to_nat n + 1
  | Some (CpBoot _) => 3 * Z.to_nat n
  | Some (CpWaitBoot _) => 3 * Z.to_nat (n - 1) + 2
  | Some (CpLoop _ bs _ _) => 3 * Z.to_nat (n - bs) + 1
  | Some (CpBatch _ _ be _ _ todo) => length todo + 3 * Z.to_nat (n - be) + 2
  end.

Lemma placed_same order w w' :
  placed base apiBase order w → nodes (mgr w') = nodes (mgr w) → heap w' = heap w →
  placed base apiBase order w'.
Proof.
  intros Hp Hns Hh. eapply placed_kept; [done|]. split; [done|]. intros l nd. rewrite Hh. eauto.
Qed.

Lemma start_entry order w i p b addr w' e :
  basePort (mgr w) = base → baseAPIPort (mgr w) = apiBase → totalNodes (mgr w) = n →
  placed base apiBase order w → (Z.of_nat (length order) < n)%Z → (0 ≤ i)%Z → i ∉ order →
  startNodeWithTotal (node_name i) p b addr n w = (w', e) →
  e = None ∧ placed base apiBase (order ++ [i]) w' ∧ basePort (mgr w') = base ∧
  baseAPIPort (mgr w') = apiBase ∧ totalNodes (mgr w') = n.
Proof.
  intros Hb Ha Ht Hp Hlen Hi Hni Hs.
  destruct (placed_start base apiBase order w _ _ _ _ _ _ _ Hb Ha ltac:(unfold is_i64; lia) ltac:(unfold is_i64; lia)
    Hp Hi Hni Hs) as (-> & Hp' & Hm).
  split_and!; [done | done | | |]; rewrite Hm; simpl; try done.
  by destruct (Z.ltb_spec 0 n); [|lia].
Qed.

Ltac same_map := eapply placed_same; [eassumption | done | done].

Lemma stop_step_progress timed_out pick w w' cbs m cur ids :
  cluster w = Some (CpStop m cur ids) → progress w →
  cluster_step peer_id timed_out pick w = Some (w', cbs) →
  progress w' ∧ steps_left w' < steps_left w.
Proof.
  intros Hpc (Hb & Ha & Hinv). unfold cluster_step, progress, steps_left. rewrite Hpc in *.
  destruct cur as [l|]; [|destruct ids as [|id ids]].
  - intros [= <- <-]. simpl. destruct (StopNode_cancel_same l w) as (-> & _).
    split; [done | lia].
  - intros [= <- <-]. simpl. split; [done | lia].
  - destruct (StopNode_mark id w) as [[[w1 c1] l]|e] eqn:Hm; intros [= <- <-]; simpl.
    + assert (mgr w1 = mgr w) as ->.
      { revert Hm. unfold StopNode_mark. repeat case_match; by intros [= <- <- <-]. }
      split; [done | lia].
    + split; [done | lia].
Qed.

Lemma boot_step_progress timed_out pick w w' cbs m :
  cluster w = Some (CpBoot m) → progress w →
  cluster_step peer_id timed_out pick w = Some (w', cbs) →
  progress w' ∧ steps_left w' < steps_left w.
Proof.
  intros Hpc (Hb & Ha & Hinv). unfold cluster_step, progress, steps_left. rewrite Hpc in *.
  destruct Hinv as (-> & Ht & Hns).
  destruct (startNodeWithTotal "node0" true true "" n w) as [w1 e] eqn:Hs.
  destruct (start_entry [] w 0 true true "" w1 e) as (-> & Hp & Hb1 & Ha1 & Ht1); try done;
    [by apply placed_nil | simpl; lia | set_solver |].
  intros [= <- <-]. simpl. split; [|lia]. split_and!; try done. same_map.
Qed.

Lemma booted_step_progress timed_out pick w w' cbs m :
  cluster w = Some (CpWaitBoot m) → progress w →
  cluster_step peer_id timed_out pick w = Some (w', cbs) →
  progress w' ∧ steps_left w' < steps_left w.
Proof.
  intros Hpc (Hb & Ha & Hinv). unfold cluster_step, progress, steps_left. rewrite Hpc in *.
  destruct Hinv as (-> & Ht & Hp). destruct (timed_out || _); [|done]. intros [= Heq]. revert Heq.
  unfold cluster_booted.
  destruct (placed_at _ _ _ _ Hp 0 0%Z eq_refl) as (_ & l & nd & Hl & _).
  change (node_name 0) with "node0"%string in Hl. rewrite Hl. destruct Hpeer as (id & ->).
  intros [= <- <-]. simpl. split; [|lia]. split_and!; try done; [lia..|].
  exists [0%Z]. split; [|same_map]. by replace (Z.min 1 n) with 1%Z by lia.
Qed.

Lemma loop_step_progress timed_out pick w w' cbs m bs st addr :
  cluster w = Some (CpLoop m bs st addr) → progress w →
  cluster_step peer_id timed_out pick w = Some (w', cbs) →
  progress w' ∧ steps_left w' < steps_left w.
Proof.
  intros Hpc (Hb & Ha & Hinv). unfold cluster_step, progress, steps_left. rewrite Hpc in *.
  destruct Hinv as (-> & Ht & Hbs & -> & order & Hord & Hp). intros [= Heq]. revert Heq.
  unfold cluster_loop. destruct (Z.ltb_spec bs n) as [Hlt|Hge]; intros [= <- <-]; simpl.
  - unfold batchSize. rewrite wrap_i64_id by (unfold is_i64; lia).
    assert (Hbe : (if (n <? bs + 10)%Z then n else (bs + 10)%Z) = Z.min (bs + 10) n)
      by (destruct (Z.ltb_spec n (bs + 10)); lia).
    rewrite Hbe, length_range. split; [|lia]. split_and!; try done; [lia..|].
    exists order. split; [|same_map]. rewrite Hord, Z.min_l by lia. apply range_app. lia.
  - split; [|lia]. unfold finished. split_and!; try done. exists order. split; [|same_map].
    by rewrite Hord, Z.min_r by lia.
Qed.

Lemma batch_step_progress timed_out pick w w' cbs m bs be st addr todo :
  cluster w = Some (CpBatch m bs be st addr todo) → progress w →
  cluster_step peer_id timed_out pick w = Some (w', cbs) →
  progress w' ∧ steps_left w' < steps_left w.
Proof.
  intros Hpc (Hb & Ha & Hinv). unfold cluster_step, progress, steps_left. rewrite Hpc in *.
  destruct Hinv as (-> & Ht & Hbs & -> & -> & order & Hord & Hp).
  destruct (todo !! pick) as [i|] eqn:Hi.
  - pose proof (delete_Permutation _ _ _ Hi) as Hdel.
    assert (Hall : order ++ i :: delete pick todo ≡ₚ range 0 (Z.min (bs + 10) n)) by by rewrite <- Hdel.
    assert (Hir : i ∈ range 0 (Z.min (bs + 10) n)) by (rewrite <- Hall; set_solver).
    apply elem_of_range in Hir.
    assert (Hlen : length order + length todo = Z.to_nat (Z.min (bs + 10) n)).
    { rewrite <- length_app, Hord, length_range. lia. }
    assert (Hni : i ∉ order).
    { pose proof (NoDup_range 0 (Z.min (bs + 10) n)) as Hnd. rewrite <- Hall in Hnd.
      apply NoDup_app in Hnd as (_ & Hnd & _). intros Hin. apply (Hnd _ Hin). by left. }
    assert (0 < length todo) by (destruct todo; simpl; [done | lia]).
    destruct (startNodeWithTotal (node_name i) false false addr n w) as [w1 e] eqn:Hs.
    destruct (start_entry order w i false false addr w1 e) as (-> & Hp1 & Hb1 & Ha1 & Ht1); try done; [lia..|].
    intros [= <- <-]. simpl. rewrite (length_delete _ _ (mk_is_Some _ _ Hi)). split; [|lia].
    split_and!; try done; [lia..|]. exists (order ++ [i]). split; [by rewrite <- app_assoc | same_map].
  - destruct todo; [|done]. intros [= <- <-]. simpl. unfold batchSize.
    rewrite !wrap_i64_id by (unfold is_i64; lia). split; [|lia].
    split_and!; try done; [lia..|]. exists order. split; [|same_map].
    by rewrite app_nil_r in Hord.
Qed.

Lemma cluster_step_progress timed_out pick w w' cbs :
  progress w → cluster_step peer_id timed_out pick w = Some (w', cbs) →
  progress w' ∧ steps_left w' < steps_left w.
Proof.
  intros Hinv Hs.
  destruct (cluster w) as [[m cur ids|m|m|m|m bs st addr|m bs be st addr todo]|] eqn:Hpc;
    [by eapply stop_step_progress | | by eapply boot_step_progress | by eapply booted_step_progress
    | by eapply loop_step_progress | by eapply batch_step_progress |].
  - destruct Hinv as (Hb & Ha & Hinv). revert Hs Hinv. unfold cluster_step, progress, steps_left.
    rewrite Hpc. destruct (timed_out || all_stopped w); [|done]. intros [= <- <-] ->. simpl.
    split; [done | lia].
  - unfold cluster_step in Hs. by rewrite Hpc in Hs.
Qed.

Lemma quiet_other_progress ev w w' cbs :
  wf w → quiet ev = true → is_cluster ev = false → run_event peer_id ev w = Some (w', cbs) →
  progress w → progress w' ∧ steps_left w' = steps_left w.
Proof.
  intros Hwf Hq Hc Hr (Hb & Ha & Hinv). destruct (quiet_other _ _ _ _ _ Hq Hc Hr) as [Hm Hcl].
  assert (Hk : nodes_kept w w') by (eapply nodes_kept_event; try done; by rewrite Hm).
  unfold progress, steps_left, finished in *. rewrite Hcl, Hm. split; [|done]. split_and!; try done.
  destruct (cluster w) as [[]|]; naive_solver eauto using placed_kept.
Qed.

(** The goroutine of a cluster start is never stuck: a wait ends when its deadline has passed. *)
Lemma cluster_step_enabled w : cluster w ≠ None → progress w →
  ∃ w' cbs, cluster_step peer_id true 0 w = Some (w', cbs).
Proof.
  intros Hc _. unfold cluster_step.
  destruct (cluster w) as [[m [l|] [|id ids]|m|m|m|m bs st addr|m bs be st addr [|i todo]]|]; try done;
    simpl; repeat case_match; eauto;
    match goal with |- ∃ _ _, Some ?x = _ => destruct x; eauto end.
Qed.

Lemma quiet_run_progress k w w' :
  wf w → progress w → quiet_run peer_id k w w' →
  progress w' ∧ k + steps_left w' ≤ steps_left w.
Proof.
  intros Hwf Hinv. induction 1 as [|k w w1 w2 ev cbs Hr IH Hq Hs]; [split; [done | lia]|].
  destruct (IH Hwf Hinv) as [Hinv1 Hk]. pose proof (quiet_run_wf _ _ _ _ Hwf Hr) as Hwf1.
  destruct (is_cluster ev) eqn:Hc.
  - destruct ev; try done. destruct (cluster_step_progress _ _ _ _ _ Hinv1 Hs). split; [done | lia].
  - destruct (quiet_other_progress _ _ _ _ Hwf1 Hq Hc Hs Hinv1) as [? ->]. done.
Qed.
End start.

Lemma length_keys (m : gmap string positive) (order : list string) :
  order ≡ₚ (map_to_list m).*1 → length order = size m.
Proof. intros ->. by rewrite length_fmap, length_map_to_list. Qed.

(** What a run after an accepted cluster start keeps *)
Lemma start_run peer_id order n w w0 k w' :
  (∃ id, peer_id "node0" = Ok id) → (n < 2 ^ 63 - 10)%Z →
  (- 2 ^ 63 ≤ basePort (mgr w) ∧ basePort (mgr w) + n < 2 ^ 63)%Z →
  (- 2 ^ 63 ≤ baseAPIPort (mgr w) ∧ baseAPIPort (mgr w) + n < 2 ^ 63)%Z →
  reachable peer_id w → StartCluster order n w = (w0, None) → quiet_run peer_id k w0 w' →
  (1 ≤ n)%Z ∧ cluster w0 = Some (CpStop n None order) ∧
  progress n (basePort (mgr w)) (baseAPIPort (mgr w)) w' ∧ k + steps_left n w' ≤ steps_left n w0.
Proof.
  intros Hpeer Hn Hb Ha Hwf%reachable_wf Hs Hr. unfold StartCluster in Hs.
  destruct (Z.ltb_spec n 1); [done|]. destruct (cluster w) eqn:Hc; [done|]. injection Hs as <-.
  assert (Hwf0 : wf (set_cluster (Some (CpStop n None order)) w)).
  { apply (changes_wf 1 w); [done | | by apply entries_change_same].
    apply changes_none; try done. unfold cluster_cur. by rewrite Hc. }
  split; [done|]. split; [done|].
  exact (quiet_run_progress peer_id n (basePort (mgr w)) (baseAPIPort (mgr w)) Hpeer
    ltac:(lia) Hb Ha _ _ _ Hwf0 ltac:(done) Hr).
Qed.

(** C13: a cluster start that was accepted finishes, and finishes well. In any run in which meanwhile
    no node is added or removed by hand, its goroutine takes at most [3 n + 2 s + 2] steps, where
    [s] nodes were there before; until it has finished it can always go on once its deadline has
    passed; and when it has, the cluster is running with the total [n], its entries are the nodes
    [node0] to [node(n-1)], each once, and their ports are the first [n] ports from the base ports
    on, no two the same, in whatever order processes start, exit or are stopped. *)
Theorem cluster_start_completes peer_id order n w w0 k w' :
  (∃ id, peer_id "node0" = Ok id) → (n < 2 ^ 63 - 10)%Z →
  (- 2 ^ 63 ≤ basePort (mgr w) ∧ basePort (mgr w) + n < 2 ^ 63)%Z →
  (- 2 ^ 63 ≤ baseAPIPort (mgr w) ∧ baseAPIPort (mgr w) + n < 2 ^ 63)%Z →
  reachable peer_id w → order ≡ₚ (map_to_list (nodes (mgr w))).*1 →
  StartCluster order n w = (w0, None) → quiet_run peer_id k w0 w' →
  k ≤ 3 * Z.to_nat n + 2 * size (nodes (mgr w)) + 2 ∧
  match cluster w' with
  | Some _ => ∃ w'' cbs, cluster_step peer_id true 0 w' = Some (w'', cbs)
  | None => finished n (basePort (mgr w)) (baseAPIPort (mgr w)) w'
  end.
Proof.
  intros Hpeer Hn Hb Ha Hreach Hord Hs Hr.
  destruct (start_run _ _ _ _ _ _ _ Hpeer Hn Hb Ha Hreach Hs Hr) as (_ & Hc0 & Hinv & Hk).
  unfold steps_left at 2 in Hk. rewrite Hc0, (length_keys _ _ Hord) in Hk.
  split; [lia|]. destruct (cluster w') eqn:Hc'.
  - apply (cluster_step_enabled peer_id n (basePort (mgr w)) (baseAPIPort (mgr w))); [by rewrite Hc' | done].
  - destruct Hinv as (_ & _ & Hinv). by rewrite Hc' in Hinv.
Qed.

Lemma cluster_start_completes_witness : ∃ k w',
  quiet_run demo_peer k (StartCluster [] 2 (new_world demo_cfg)).1 w' ∧ cluster w' = None ∧
  finished 2 4001 9001 w'.
Proof.
  set (w0 := (StartCluster [] 2 (new_world demo_cfg)).1).
  set (go w := match cluster_step demo_peer true 0 w with Some (w, _) => w | None => w end).
  assert (Hgo : ∀ k w, quiet_run demo_peer k w0 w → cluster_step demo_peer true 0 w ≠ None →
    quiet_run demo_peer (S k) w0 (go w)).
  { intros k w Hr Hs. unfold go. destruct (cluster_step demo_peer true 0 w) as [[w1 cbs]|] eqn:E; [|done].
    apply (QuietSnoc demo_peer k w0 w w1 (EvCluster true 0) cbs Hr eq_refl E). }
  assert (Hr : quiet_run demo_peer 8 w0 (go (go (go (go (go (go (go (go w0)))))))))
    by (do 8 (apply Hgo; [|by vm_compute]); constructor).
  eexists 8, _. split; [exact Hr|]. split; [by vm_compute|].
  assert (Hreach : reachable demo_peer (new_world demo_cfg)) by (exists demo_cfg; done).
  pose proof (cluster_start_completes demo_peer [] 2 (new_world demo_cfg) w0 8 _
    ltac:(by eexists) ltac:(lia) ltac:(simpl; lia) ltac:(simpl; lia) Hreach
    ltac:(simpl; by rewrite map_to_list_empty) eq_refl Hr) as [_ Hfin].
  assert (Hnone : cluster (go (go (go (go (go (go (go (go w0)))))))) = None) by by vm_compute.
  rewrite Hnone in Hfin. exact Hfin.
Defined.

(** * What a cluster start does not clean up *)

(** Two processes are or will be running with the same port. *)
Definition port_shared (w : World) (l l' : positive) : Prop :=
  l ≠ l' ∧ is_Some (procs w !! l) ∧ is_Some (procs w !! l') ∧
  mn_Port (deref w l) = mn_Port (deref w l').

#[export] Instance port_shared_dec w l l' : Decision (port_shared w l l').
Proof. unfold port_shared. apply _. Defined.

Definition bring_up (id : string) (l : positive) : list event :=
  [EvStartNode id false false ""; EvBegin [] (Ok "/srv") l; EvStarted Started 5 l].

(** Nodes [a], [b] and [c] are started; [a] stops, is started again and gets the port of [c]. *)
Definition restart_run : list event :=
  bring_up "a" 1 ++ bring_up "b" 2 ++ bring_up "c" 3 ++
  [EvStopMark "a"; EvStopCancel 1; EvExit None 1; EvStartNode "a" false false ""].

(** A cluster is started while the process of [x] is being made. The process is not stopped, the
    entry of [x] is dropped, and [node0] gets its port. *)
Definition orphan_run : list event :=
  [EvStartNode "x" false false ""; EvBegin [] (Ok "/srv") 1; EvStartCluster ["x"] 1] ++
  repeat (EvCluster true 0) 6 ++ [EvStarted Started 5 1].

(** The node manager lets two processes use one port. A node that is started again after others
    were started gets the number of entries as its index, which a live node has; and a cluster start
    does not stop nodes that are still starting: it forgets them, their processes come up and hold
    the ports of the new nodes, and [StopNode] does not find them any more. *)
Theorem processes_share_ports :
  (∃ w l l', run_events demo_peer restart_run (new_world demo_cfg) = Some w ∧
     nodes (mgr w) !! "a"%string = Some l ∧ nodes (mgr w) !! "c"%string = Some l' ∧
     mn_Status (deref w l') = NodeStatusRunning ∧ port_shared w l l') ∧
  (∃ w l l', run_events demo_peer orphan_run (new_world demo_cfg) = Some w ∧
     mn_ID (deref w l) = "x"%string ∧ mn_Status (deref w l) = NodeStatusRunning ∧
     nodes (mgr w) !! "node0"%string = Some l' ∧ port_shared w l l' ∧
     StopNode "x" w = (w, [], Some "node x not found"%string)).
Proof.
  split.
  - eexists _, _, _. split; [vm_compute; reflexivity|]. split_and!; try (vm_compute; reflexivity).
    compute_decide.
  - eexists _, 1%positive, _. split; [vm_compute; reflexivity|].
    split_and!; try (vm_compute; reflexivity). compute_decide.
Qed.

(** * Output buffers *)

(** The lines written since the last [Clear], which is [None]. *)
Definition since_clear (ops : list (option string)) : list string :=
  foldl (λ acc op, match op with Some line => acc ++ [line] | None => [] end) [] ops.

Definition run_buffer (ops : list (option string)) (b : OutputBuffer) : OutputBuffer :=
  foldl (λ b op, match op with Some line => Write line b | None => Clear b end) b ops.

Lemma Write_lines line b l :
  lines b = drop (length l - maxLines b) l →
  lines (Write line b) = drop (length (l ++ [line]) - maxLines b) (l ++ [line]) ∧
  maxLines (Write line b) = maxLines b.
Proof.
  intros Hl. unfold Write. rewrite Hl, length_app, length_drop, length_app. cbn [length].
  case_decide as Hd; split; try done; cbn [lines].
  - rewrite <- (drop_app_le l) by lia. rewrite drop_drop. f_equal. lia.
  - rewrite <- (drop_app_le l) by lia. f_equal. lia.
Qed.

(** An output buffer holds, in order, exactly the last [maxLines] lines written since it was last
    cleared, whatever was written to it. *)
Theorem output_buffer_keeps_last max ops :
  GetLines (run_buffer ops (NewOutputBuffer max))
  = drop (length (since_clear ops) - max) (since_clear ops).
Proof.
  assert (H : lines (run_buffer ops (NewOutputBuffer max))
      = drop (length (since_clear ops) - maxLines (run_buffer ops (NewOutputBuffer max))) (since_clear ops)
    ∧ maxLines (run_buffer ops (NewOutputBuffer max)) = max).
  { induction ops as [|[line|] ops [IH Hm]] using rev_ind; [done | |];
      unfold run_buffer, since_clear in *; rewrite !foldl_app; simpl.
    - destruct (Write_lines line _ _ IH) as [-> Hm']. by rewrite Hm', Hm.
    - done. }
  destruct H as [H Hm]. rewrite Hm in H. exact H.
Qed.
End ManagerCluster.
