(* ===== verification/Launch.v ===== *)
(** How a node comes up and goes down: the options, the construction and the shutdown of
    [src/cmd/validator/main.go], and [NewP2PHost] of [src/pkg/network/host.go].

    What the operating system and libp2p answer is in [Answers]. A construction is the trace of what it
    opens and closes, and the node, where it succeeds. *)

From S2P Require Import Prelude GoStrings GoFlag VectorClock TicketMachine Proto Messages Pbft GossipCache GossipEngine Storage Network Notifier Validator Discovery Manager.

Module Launch.
Import GoStrings.

(** * Options *)

Record Config := MkConfig {
  cfg_NodeID : string;
  cfg_ListenPort : Z;
  cfg_APIPort : Z;
  cfg_DataDir : string;
  cfg_BootstrapPeers : list string;
  cfg_IsBootstrap : bool;
  cfg_IsPrimary : bool;
  cfg_TotalNodes : Z;
  cfg_APIKey : string;
}.

(** The variables of the flags *)
Record Flags := MkFlags {
  fl_id : string;
  fl_port : Z;
  fl_api_port : Z;
  fl_data_dir : string;
  fl_bootstrap : string;
  fl_bootstrap_node : bool;
  fl_primary : bool;
  fl_total_nodes : Z;
  fl_api_key : string;
}.

Definition default_flags : Flags := MkFlags "node0" 4001 8080 "./data" "" false false 4 "".

(** The flags that are defined, and whether they are boolean *)
Definition formal (name : string) : option bool :=
  if bool_decide (name ∈ ["bootstrap-node"; "primary"]%string) then Some true
  else if bool_decide (name ∈ ["id"; "port"; "api-port"; "data-dir"; "bootstrap"; "total-nodes"; "api-key"]%string)
  then Some false
  else None.

Definition set_flag (name value : string) (fl : Flags) : option Flags :=
  let '(MkFlags i p a d b bn pr t k) := fl in
  if (name =? "id")%string then Some (MkFlags value p a d b bn pr t k)
  else if (name =? "port")%string then p ← GoFlag.ParseInt0 value; Some (MkFlags i p a d b bn pr t k)
  else if (name =? "api-port")%string then a ← GoFlag.ParseInt0 value; Some (MkFlags i p a d b bn pr t k)
  else if (name =? "data-dir")%string then Some (MkFlags i p a value b bn pr t k)
  else if (name =? "bootstrap")%string then Some (MkFlags i p a d value bn pr t k)
  else if (name =? "bootstrap-node")%string then bn ← GoFlag.ParseBool value; Some (MkFlags i p a d b bn pr t k)
  else if (name =? "primary")%string then pr ← GoFlag.ParseBool value; Some (MkFlags i p a d b bn pr t k)
  else if (name =? "total-nodes")%string then t ← GoFlag.ParseInt0 value; Some (MkFlags i p a d b bn pr t k)
  else if (name =? "api-key")%string then Some (MkFlags i p a d b bn pr t value)
  else None.

Definition parse_flags (args : list string) : option Flags := GoFlag.parse formal set_flag args default_flags.

Definition comma : ascii := ",".

(** The addresses of the [-bootstrap] flag *)
Definition split_peers (s : string) : list string :=
  if (s =? "")%string then []
  else omap (λ p, let trimmed := TrimSpace p in if (trimmed =? "")%string then None else Some trimmed)
         (Split s comma).

(** [env_key] is the environment variable [DTVN_API_KEY]. Flags that do not parse end the program. *)
Definition main_config (env_key : string) (args : list string) : option Config :=
  fl ← parse_flags args;
  let key := if (fl_api_key fl =? "")%string then env_key else fl_api_key fl in
  Some (MkConfig (fl_id fl) (fl_port fl) (fl_api_port fl) (fl_data_dir fl) (split_peers (fl_bootstrap fl))
    (fl_bootstrap_node fl) (fl_primary fl) (fl_total_nodes fl) key).

(** [os.Getenv] in a process that was started with the environment [env]: where a name is there more
    than once, [os/exec] passes on the last one. *)
Definition getenv (name : string) (env : list string) : string :=
  default ""%string (last (omap (lit (name +:+ "=")) env)).

(** The environment of a command: without one of its own, it gets that of the process. *)
Definition command_env (environ : list string) (cmd : Manager.Cmd) : list string :=
  default environ (Manager.cmd_Env cmd).

(** * Construction *)

Inductive resource := RContext | RStore | RHost | RDiscovery | RGossip | RPbft | RApi.

#[export] Instance resource_eq_dec : EqDecision resource.
Proof. solve_decision. Defined.

Inductive action := Opened (r : resource) | Closed (r : resource).

#[export] Instance action_eq_dec : EqDecision action.
Proof. solve_decision. Defined.

Section node.
Context {DB : Type} `{Storage.BoltDB DB, Storage.JsonCodec Storage.TicketRecord}.
Context `{pb.ProtoMessage pb.ValidatorMessage, pb.ProtoMessage pb.PrePrepare,
  pb.ProtoMessage pb.Prepare, pb.ProtoMessage pb.Commit, pb.ProtoMessage pb.Request,
  pb.ProtoMessage pb.ViewChange, pb.ProtoMessage pb.Checkpoint, pb.ProtoMessage pb.StateUpdate,
  pb.ProtoMessage pb.StateSyncRequest, pb.ProtoMessage pb.StateSyncResponse}.

(** [NewMultiaddr] and [AddrInfoFromP2pAddr]; addresses are their text. The key of the host is what the
    seed's reader or a random one gives; [libp2p.New] answers with the host's identifier. The engine,
    the PBFT node and the API server could fail too. *)
Record Answers := MkAnswers {
  an_salt : string;                                     (** [DTVN_KEY_SEED] *)
  an_MkdirAll : string → error;
  an_Open : string → result DB;
  an_GenerateKey : option Network.deterministicReader → result string;
  an_NewMultiaddr : string → result string;
  an_AddrInfo : string → result Discovery.AddrInfo;
  an_NewHost : string → string → result string;
  an_NewDHT : error;
  an_Bootstrap : error;
  an_Connect : list Discovery.AddrInfo → list (Discovery.AddrInfo * error);
  an_gossip : error;
  an_pbft : error;
  an_api : error;
}.

(** The peers that can be parsed; an address without an identifier is kept without one. *)
Definition parse_bootstrap (a : Answers) (peerAddrs : list string) : list Discovery.AddrInfo :=
  omap (λ peerAddr,
    if (peerAddr =? "")%string then None
    else match an_NewMultiaddr a peerAddr with
         | Err _ => None
         | Ok addr =>
             match an_AddrInfo a addr with
             | Err _ => Some (Discovery.MkAddrInfo "" [addr])
             | Ok peerInfo => Some peerInfo
             end
         end) peerAddrs.

(** [cfg.PrivateKey] is never set: the key comes from the identifier of the node, or is random. *)
Definition NewP2PHost (a : Answers) (listenPort : Z) (nodeID : string) : result string :=
  let key :=
    if (nodeID =? "")%string then Messages.wrap_err "failed to generate key pair" (an_GenerateKey a None)
    else Messages.wrap_err "failed to generate deterministic key"
      (Messages.wrap_err "failed to generate deterministic key"
         (an_GenerateKey a (Some (Network.key_reader (an_salt a) nodeID)))) in
  match key with
  | Err err => Err err
  | Ok privKey =>
      match an_NewMultiaddr a ("/ip4/0.0.0.0/tcp/" +:+ FormatInt listenPort) with
      | Err err => Err ("failed to create listen address: " +:+ err)
      | Ok listenAddr =>
          Messages.wrap_err "failed to create libp2p host" (an_NewHost a privKey listenAddr)
      end
  end.

Record Node := MkNode {
  nd_cfg : Config;
  nd_validator : Validator.ValidatorNode DB;
  nd_discovery : Discovery.Discovery Discovery.requests;
}.

(** [Stop]; what the components answer is ignored. [api] tells whether the server is there already. *)
Definition stop_actions (api : bool) : list action :=
  [Closed RContext] ++ (if api then [Closed RApi] else [])
  ++ [Closed RPbft; Closed RGossip; Closed RDiscovery; Closed RHost; Closed RStore].

(** The engine panics only where its cache has no room. [now] is the time in nanoseconds. *)
Definition NewValidatorNode (a : Answers) (now : Z) (cfg : Config) : list action * outcome (result Node) :=
  let fail tr e := (tr, Done (Err e)) in
  let t0 := [Opened RContext] in
  match an_MkdirAll a (cfg_DataDir cfg) with
  | Some err => fail (t0 ++ [Closed RContext]) ("failed to create data directory: " +:+ err)
  | None =>
      match Storage.NewStore (an_Open a (cfg_DataDir cfg +:+ "/" +:+ cfg_NodeID cfg +:+ ".db")) with
      | Err err => fail (t0 ++ [Closed RContext]) ("failed to initialize storage: " +:+ err)
      | Ok db =>
          let t1 := t0 ++ [Opened RStore] in
          match NewP2PHost a (cfg_ListenPort cfg) (cfg_NodeID cfg) with
          | Err err => fail (t1 ++ [Closed RStore; Closed RContext]) ("failed to initialize P2P host: " +:+ err)
          | Ok peerID =>
              let t2 := t1 ++ [Opened RHost] in
              let bootstrapPeers := parse_bootstrap a (cfg_BootstrapPeers cfg) in
              match Discovery.NewDiscovery (an_NewDHT a) (an_Bootstrap a) (an_Connect a bootstrapPeers) with
              | Err err =>
                  fail (t2 ++ [Closed RHost; Closed RStore; Closed RContext])
                    ("failed to initialize discovery: " +:+ err)
              | Ok d =>
                  let t3 := t2 ++ [Opened RDiscovery] in
                  let close3 := [Closed RDiscovery; Closed RHost; Closed RStore; Closed RContext] in
                  match an_gossip a with
                  | Some err => fail (t3 ++ close3) ("failed to initialize gossip engine: " +:+ err)
                  | None =>
                      match GossipEngine.NewGossipEngine (cfg_NodeID cfg) 0 with
                      | Panic why => (t3, Panic why)
                      | Done g =>
                          let t4 := t3 ++ [Opened RGossip] in
                          match an_pbft a with
                          | Some err => fail (t4 ++ close3) ("failed to initialize PBFT: " +:+ err)
                          | None =>
                              let t5 := t4 ++ [Opened RPbft] in
                              match an_api a with
                              | Some err => fail (t5 ++ stop_actions false) ("failed to initialize API server: " +:+ err)
                              | None =>
                                  let e := Validator.MkEnv db Notifier.NewStateNotifier g [] None (now / 1000000000) now in
                                  let n := Validator.setup (cfg_NodeID cfg) peerID (cfg_TotalNodes cfg)
                                    (cfg_IsPrimary cfg) e in
                                  (t5 ++ [Opened RApi], Done (Ok (MkNode cfg n (Discovery.node_discovery d))))
                              end
                          end
                      end
                  end
              end
          end
      end
  end.

(** * Start *)

(** The wait for peers: [counts] are the numbers of connected peers it sees, one a second, as long as
    the 15 seconds last. How many it looks at *)
Fixpoint await_peers (expected : Z) (counts : list Z) : nat :=
  match counts with
  | [] => 0
  | c :: counts => if (expected <=? c)%Z then 1 else S (await_peers expected counts)
  end.

Inductive started := SDiscovery | STickets | SGossip | SPbft | SApi | SAntiEntropy.

(** What is started, in order; [discovery] and [api] are the errors of the two [Start] methods, which
    the code never returns. *)
Definition Start (discovery api : error) (counts : list Z) (n : Node) : Node * list started * nat * error :=
  match discovery with
  | Some err => (n, [], 0, Some ("failed to start discovery: " +:+ err))
  | None =>
      let expectedPeers := (wrap_i64 (cfg_TotalNodes (nd_cfg n) - 1))%Z in
      let waited := if (0 <? expectedPeers)%Z then await_peers expectedPeers (take 15 counts) else 0 in
      let n := MkNode (nd_cfg n) (Validator.start (nd_validator n)) (nd_discovery n) in
      let st := [SDiscovery; STickets; SGossip; SPbft] in
      match api with
      | Some err => (n, st, waited, Some ("failed to start API server: " +:+ err))
      | None => (n, st ++ [SApi; SAntiEntropy], waited, None)
      end
  end.

(** The loop of [runAntiEntropy]: at each tick, while the context lives, state is requested from a peer;
    [picks] has the peers connected at each tick and the one that is drawn. *)
Definition runAntiEntropy (picks : list (nat * list string)) (n : Validator.ValidatorNode DB) :
    Validator.ValidatorNode DB :=
  foldl (λ n p, Validator.performAntiEntropySync p.1 p.2 n) n picks.

(** How [main] ends: in [flag.Parse], or with an exit status. *)
Inductive ending := InFlags | Exit (status : Z).

(** The run of the program, with what it opens and closes. *)
Definition main (env_key : string) (args : list string) (a : Answers) (now : Z) (discovery api : error)
    (counts : list Z) : list action * outcome ending :=
  match main_config env_key args with
  | None => ([], Done InFlags)
  | Some cfg =>
      match NewValidatorNode a now cfg with
      | (tr, Panic why) => (tr, Panic why)
      | (tr, Done (Err _)) => (tr, Done (Exit 1))
      | (tr, Done (Ok n)) =>
          match Start discovery api counts n with
          | (_, _, _, Some _) => (tr, Done (Exit 1))
          | (_, _, _, None) => (tr ++ stop_actions true, Done (Exit 0))
          end
      end
  end.
End node.
Arguments Answers : clear implicits.
Arguments Node : clear implicits.
End Launch.
