(* ===== verification/LaunchProps.v ===== *)
(** Properties of the launch of a node ([Launch]): the options that the supervisor passes are the ones
    the node reads, and a construction that fails, or a node that stops, keeps nothing open. *)

From S2P Require Import Prelude GoStrings GoFlag VectorClock TicketMachine Proto Messages Pbft GossipCache GossipEngine Storage Network Notifier Validator Discovery Manager ManagerInv Launch.

Module LaunchProps.
Import GoStrings Launch.

(** * Options *)

Lemma parse_value name v args fl fl' :
  GoFlag.argument_of ("-" +:+ name) = GoFlag.FlagText name → GoFlag.name_value name = (name, None) →
  formal name = Some false → set_flag name v fl = Some fl' →
  GoFlag.parse formal set_flag (("-" +:+ name) :: v :: args) fl = GoFlag.parse formal set_flag args fl'.
Proof. intros Ha Hn Hf Hs. cbn [GoFlag.parse]. by rewrite Ha, Hn, Hf, Hs. Qed.

Lemma parse_switch name args fl fl' :
  GoFlag.argument_of ("-" +:+ name) = GoFlag.FlagText name → GoFlag.name_value name = (name, None) →
  formal name = Some true → set_flag name "true" fl = Some fl' →
  GoFlag.parse formal set_flag (("-" +:+ name) :: args) fl = GoFlag.parse formal set_flag args fl'.
Proof. intros Ha Hn Hf Hs. cbn [GoFlag.parse]. rewrite Ha, Hn, Hf. cbn [default from_option]. by rewrite Hs. Qed.

Lemma set_port v z i p a d b bn pr t k :
  GoFlag.ParseInt0 v = Some z →
  set_flag "port" v (MkFlags i p a d b bn pr t k) = Some (MkFlags i z a d b bn pr t k).
Proof. intros Hz. unfold set_flag. simpl. by rewrite Hz. Qed.

Lemma set_api_port v z i p a d b bn pr t k :
  GoFlag.ParseInt0 v = Some z →
  set_flag "api-port" v (MkFlags i p a d b bn pr t k) = Some (MkFlags i p z d b bn pr t k).
Proof. intros Hz. unfold set_flag. simpl. by rewrite Hz. Qed.

Lemma set_total_nodes v z i p a d b bn pr t k :
  GoFlag.ParseInt0 v = Some z →
  set_flag "total-nodes" v (MkFlags i p a d b bn pr t k) = Some (MkFlags i p a d b bn pr z k).
Proof. intros Hz. unfold set_flag. simpl. by rewrite Hz. Qed.

Tactic Notation "next_value" constr(name) "by" tactic3(setter) :=
  etrans; [apply (parse_value name); [reflexivity..|setter]|].
Ltac next_switch name := etrans; [apply (parse_switch name); reflexivity|].

(** The arguments of [startNodeProcess], parsed *)
Lemma node_args_parsed m n addr :
  is_i64 (Manager.mn_Port n) → is_i64 (Manager.mn_APIPort n) → is_i64 (Manager.totalNodes m) →
  parse_flags (Manager.node_args m n addr) =
    Some (MkFlags (Manager.mn_ID n) (Manager.mn_Port n) (Manager.mn_APIPort n)
      (Manager.filepath_Join (Manager.dataDir m) (Manager.mn_ID n)) addr (Manager.mn_IsBootstrap n)
      (Manager.mn_IsPrimary n) (Manager.totalNodes m) "").
Proof.
  intros Hp Ha Ht. unfold parse_flags, default_flags, Manager.node_args. cbn [app].
  next_value "id"%string by reflexivity.
  next_value "port"%string by (by apply set_port, GoFlag.ParseInt0_FormatInt).
  next_value "api-port"%string by (by apply set_api_port, GoFlag.ParseInt0_FormatInt).
  next_value "data-dir"%string by reflexivity.
  next_value "total-nodes"%string by (by apply set_total_nodes, GoFlag.ParseInt0_FormatInt).
  destruct (Manager.mn_IsPrimary n); cbn [app]; [next_switch "primary"%string|];
    (destruct (Manager.mn_IsBootstrap n); cbn [app]; [next_switch "bootstrap-node"%string|]);
    (destruct (String.eqb_spec addr "") as [->|Hne]; [reflexivity|]);
    next_value "bootstrap"%string by reflexivity; reflexivity.
Qed.

Lemma getenv_last name value env : getenv name (env ++ [name +:+ "=" +:+ value]) = value.
Proof.
  unfold getenv. rewrite omap_app. simpl.
  rewrite <- str_app_assoc, lit_app, last_snoc. done.
Qed.
(** An address without commas and white space is one peer. *)
Definition plain (c : ascii) : bool := negb (is_space c) && negb (Ascii.eqb c comma).

Lemma Split_plain s : all_chars plain s = true → Split s comma = [s].
Proof.
  induction s as [|c s IH]; [done|]. cbn [all_chars Split]. intros [Hc Hs]%andb_true_iff.
  unfold plain in Hc. apply andb_true_iff in Hc as [_ Hc]. apply negb_true_iff in Hc.
  by rewrite Hc, (IH Hs).
Qed.

Lemma span_plain s : all_chars plain s = true → (span is_space s).2 = s.
Proof.
  destruct s as [|c s]; [done|]. cbn [all_chars]. intros [Hc _]%andb_true_iff.
  unfold plain in Hc. apply andb_true_iff in Hc as [Hc _]. apply negb_true_iff in Hc.
  by rewrite span_stop.
Qed.

Lemma TrimSpace_plain s : all_chars plain s = true → TrimSpace s = s.
Proof.
  intros Hs. unfold TrimSpace. rewrite (span_plain s Hs).
  rewrite span_plain by (by rewrite all_chars_rev, Hs).
  rewrite rev_string_rev. apply str_app_nil_r.
Qed.

Lemma split_peers_plain s :
  all_chars plain s = true → split_peers s = if (s =? "")%string then [] else [s].
Proof.
  intros Hs. unfold split_peers. destruct (String.eqb_spec s "") as [|Hne]; [done|].
  rewrite Split_plain by done. simpl. rewrite TrimSpace_plain by done.
  by destruct (String.eqb_spec s "").
Qed.

(** A node reads the configuration that the manager means to give it. The command that
    [startNodeProcess] prepares has options that [main] parses without error into the node's ID, its
    two ports, its directory below the data directory, its two roles, the number of nodes the manager
    counts, and the peers of the bootstrap address, which is a single one where the address has no
    comma or white space; the key arrives through the environment. No ID, path, address or key is
    taken for an option, whatever its text. *)
Theorem launched_node_reads_its_configuration environ cwd l addr w :
  let n := Manager.deref w l in
  let m := Manager.mgr w in
  is_i64 (Manager.mn_Port n) → is_i64 (Manager.mn_APIPort n) → is_i64 (Manager.totalNodes m) →
  ∃ cmd, Manager.procs (Manager.process_begin environ cwd l addr w) !! l = Some (Manager.Prepared cmd) ∧
    main_config (getenv "DTVN_API_KEY" (command_env environ cmd)) (Manager.cmd_Args cmd) =
      Some (MkConfig (Manager.mn_ID n) (Manager.mn_Port n) (Manager.mn_APIPort n)
        (Manager.filepath_Join (Manager.dataDir m) (Manager.mn_ID n)) (split_peers addr)
        (Manager.mn_IsBootstrap n) (Manager.mn_IsPrimary n) (Manager.totalNodes m)
        (if (Manager.apiKey m =? "")%string then getenv "DTVN_API_KEY" environ else Manager.apiKey m)) ∧
    (all_chars plain addr = true → split_peers addr = if (addr =? "")%string then [] else [addr]).
Proof.
  intros n m Hp Ha Ht. exists (Manager.node_command environ cwd m n addr). split; [|split].
  - unfold Manager.process_begin. cbn. by rewrite lookup_insert_eq.
  - unfold main_config. cbn [Manager.cmd_Args Manager.node_command]. rewrite node_args_parsed by done.
    cbn [mbind option_bind fl_api_key]. rewrite String.eqb_refl. do 2 f_equal.
    unfold command_env, Manager.node_command. cbn [Manager.cmd_Env].
    destruct (_ =? _)%string; [done|]. cbn [default from_option id]. apply (getenv_last "DTVN_API_KEY").
  - apply split_peers_plain.
Qed.

(** * Construction *)

Section construction.
Context {DB : Type} `{Storage.BoltDB DB, Storage.JsonCodec Storage.TicketRecord}.
Context `{pb.ProtoMessage pb.ValidatorMessage, pb.ProtoMessage pb.PrePrepare,
  pb.ProtoMessage pb.Prepare, pb.ProtoMessage pb.Commit, pb.ProtoMessage pb.Request,
  pb.ProtoMessage pb.ViewChange, pb.ProtoMessage pb.Checkpoint, pb.ProtoMessage pb.StateUpdate,
  pb.ProtoMessage pb.StateSyncRequest, pb.ProtoMessage pb.StateSyncResponse}.

(** What is closed once, after it was opened, and nothing else *)
Definition released (tr : list action) : Prop :=
  ∀ r before after, tr = before ++ Opened r :: after → Closed r ∈ after.

Definition released_b (tr : list action) : bool :=
  (fix go tr := match tr with
                | [] => true
                | Opened r :: tr => bool_decide (Closed r ∈ tr) && go tr
                | Closed _ :: tr => go tr
                end) tr.

Lemma released_b_true tr : released_b tr = true → released tr.
Proof.
  induction tr as [|[r|r] tr IH]; simpl; intros Hb r' before after Heq.
  - by destruct before.
  - apply andb_true_iff in Hb as [Hc Hb]. apply bool_decide_eq_true in Hc.
    destruct before as [|x before]; simplify_eq/=; [done|]. by eapply IH.
  - destruct before as [|x before]; simplify_eq/=. by eapply IH.
Qed.

(** C27: nothing stays open behind a node that could not be built or that was stopped. Whatever the
    system and the libraries answer, when a step of [NewValidatorNode] fails, everything that it has
    opened before is closed afterwards, and when all succeed, [Stop] closes everything after the
    signal; nothing is opened or closed twice, and the program ends with 1 or 0. The constructor of
    the PBFT node and the [Start] methods, which never fail in this program, are taken not to. The
    DHT of a discovery that fails is not counted apart from the context and the host it runs on. *)
Theorem nothing_stays_open env_key args (a : Answers DB) now counts tr status :
  an_pbft a = None → main env_key args a now None None counts = (tr, Done (Exit status)) →
  released tr ∧ NoDup tr ∧ (status = 0%Z ∨ status = 1%Z).
Proof.
  intros Hpbft. unfold main, NewValidatorNode. rewrite Hpbft.
  repeat (case_match; simplify_eq/=); intros; simplify_eq/=;
    (split; [by apply released_b_true|]; split; [by apply (bool_decide_unpack _) | auto]).
Qed.
End construction.
(** * Examples *)

(** The nodes "node0" to "node3", started one by one through [StartNode], and the sizes of the network
    that their options tell them, each as its process begins *)
Definition start_each (ids : list string) (w : Manager.World) : Manager.World * list (option Z) :=
  foldl (λ '(w, sizes) id,
    let '(w, _) := Manager.StartNode id false false "" w in
    match Manager.nodes (Manager.mgr w) !! id with
    | Some l =>
        let w := Manager.process_begin [] (Ok "/") l "" w in
        (w, sizes ++ [match Manager.procs w !! l with
                      | Some (Manager.Prepared cmd) => cfg_TotalNodes <$> main_config "" (Manager.cmd_Args cmd)
                      | _ => None
                      end])
    | None => (w, sizes)
    end) (w, []) ids.

Definition empty_world : Manager.World := Manager.new_world ManagerInv.demo_cfg.

(** Nodes that are started one by one do not agree on the size of the network, and so not on quorums:
    each is told how many there are when it starts. *)
Theorem nodes_disagree_on_size :
  (start_each ["node0"; "node1"; "node2"; "node3"] empty_world).2 = [Some 1%Z; Some 2%Z; Some 3%Z; Some 4%Z].
Proof. vm_compute. reflexivity. Qed.

Lemma launched_node_reads_its_configuration_witness :
  let l := ManagerInv.node_addr in
  let w := ManagerInv.demo_world in
  ∃ cmd, Manager.procs (Manager.process_begin ["HOME=/root"] (Ok "/") l "/ip4/127.0.0.1/tcp/4001/p2p/12D3" w) !! l
      = Some (Manager.Prepared cmd) ∧
    main_config (getenv "DTVN_API_KEY" (command_env ["HOME=/root"] cmd)) (Manager.cmd_Args cmd) =
      Some (MkConfig "a" 4001 9001 "data/a" ["/ip4/127.0.0.1/tcp/4001/p2p/12D3"] true true 1 "").
Proof.
  intros l w.
  destruct (launched_node_reads_its_configuration ["HOME=/root"] (Ok "/"%string) l
    "/ip4/127.0.0.1/tcp/4001/p2p/12D3" w) as (cmd & Hcmd & Hcfg & _);
    [vm_compute; split; congruence.. |].
  exists cmd. split; [exact Hcmd|]. etransitivity; [exact Hcfg|]. vm_compute. reflexivity.
Defined.

#[local] Existing Instance pb.bit_codec.
#[local] Instance json_record : Storage.JsonCodec Storage.TicketRecord := Storage.bit_json Storage.TicketRecord.

(** A system on which everything works but the connection to a bootstrap peer *)
Definition lonely : Answers Storage.mem_db := {|
  an_salt := ""; an_MkdirAll _ := None; an_Open _ := Ok Storage.emptyDB; an_GenerateKey _ := Ok "key";
  an_NewMultiaddr a := Ok a; an_AddrInfo a := Ok (Discovery.MkAddrInfo a [a]);
  an_NewHost _ _ := Ok "12D3"; an_NewDHT := None; an_Bootstrap := None;
  an_Connect ps := (λ p, (p, Some "connection refused"%string)) <$> ps;
  an_gossip := None; an_pbft := None; an_api := None;
|}.

Lemma nothing_stays_open_witness :
  let tr := [Opened RContext; Opened RStore; Opened RHost; Closed RHost; Closed RStore; Closed RContext] in
  main "" ["-id"; "node1"; "-bootstrap"; "/ip4/10.0.0.1/tcp/4001/p2p/12D3"]%string lonely 5 None None []
    = (tr, Done (Exit 1)) ∧
  (released tr ∧ NoDup tr ∧ (1%Z = 0%Z ∨ 1%Z = 1%Z)).
Proof.
  intros tr.
  assert (Hmain : main "" ["-id"; "node1"; "-bootstrap"; "/ip4/10.0.0.1/tcp/4001/p2p/12D3"]%string lonely 5 None None []
    = (tr, Done (Exit 1))) by reflexivity.
  split; [exact Hmain|]. exact (nothing_stays_open _ _ lonely 5 [] tr 1%Z eq_refl Hmain).
Defined.
End LaunchProps.
