(* ===== verification/LaunchCluster.v ===== *)
(** A cluster from the supervisor's request to the nodes' consensus: [StartCluster] of [Manager]
    composed with [main] and [NewValidatorNode] of [Launch]. The nodes that it starts are told one size
    of the network, so that they count the same quorums and name the same primaries, and different
    ports. *)

From S2P Require Import Prelude GoStrings GoFlag VectorClock TicketMachine Proto Messages Pbft GossipCache GossipEngine Storage Network Notifier Validator Discovery Manager ManagerInv ManagerCluster Launch LaunchProps.

Module LaunchCluster.
Import Launch.

(** The configuration that the process of an entry reads, if it begins now *)
Definition configuration (environ : list string) (cwd : result string) (addr : string) (l : positive)
    (w : Manager.World) : option Config :=
  match Manager.procs (Manager.process_begin environ cwd l addr w) !! l with
  | Some (Manager.Prepared cmd) =>
      main_config (getenv "DTVN_API_KEY" (command_env environ cmd)) (Manager.cmd_Args cmd)
  | _ => None
  end.

(** The cluster start has dropped the nodes of before. *)
Definition cleared (w : Manager.World) : Prop :=
  match Manager.cluster w with
  | Some (Manager.CpStop _ _ _) | Some (Manager.CpWaitStopped _) | Some (Manager.CpBoot _) => False
  | _ => True
  end.

Lemma configuration_of environ cwd addr l w n :
  Manager.heap w !! l = Some n → is_i64 (Manager.mn_Port n) → is_i64 (Manager.mn_APIPort n) →
  is_i64 (Manager.totalNodes (Manager.mgr w)) →
  ∃ cfg, configuration environ cwd addr l w = Some cfg ∧ cfg_NodeID cfg = Manager.mn_ID n ∧
    cfg_ListenPort cfg = Manager.mn_Port n ∧ cfg_APIPort cfg = Manager.mn_APIPort n ∧
    cfg_TotalNodes cfg = Manager.totalNodes (Manager.mgr w).
Proof.
  intros Hl Hp Ha Ht. unfold configuration, Manager.process_begin. cbn. rewrite lookup_insert_eq.
  assert (Hd : Manager.deref w l = n) by (unfold Manager.deref; by rewrite Hl).
  unfold main_config. cbn [Manager.cmd_Args Manager.node_command]. rewrite Hd.
  rewrite LaunchProps.node_args_parsed by done. by eexists.
Qed.

Section nodes.
Context {DB : Type} `{Storage.BoltDB DB, Storage.JsonCodec Storage.TicketRecord}.
Context `{pb.ProtoMessage pb.ValidatorMessage, pb.ProtoMessage pb.PrePrepare,
  pb.ProtoMessage pb.Prepare, pb.ProtoMessage pb.Commit, pb.ProtoMessage pb.Request,
  pb.ProtoMessage pb.ViewChange, pb.ProtoMessage pb.Checkpoint, pb.ProtoMessage pb.StateUpdate,
  pb.ProtoMessage pb.StateSyncRequest, pb.ProtoMessage pb.StateSyncResponse}.

Lemma built_node (a : Answers DB) now cfg tr nd :
  NewValidatorNode a now cfg = (tr, Done (Ok nd)) →
  ∃ peerID e, nd_validator nd = Validator.setup (cfg_NodeID cfg) peerID (cfg_TotalNodes cfg) (cfg_IsPrimary cfg) e.
Proof. unfold NewValidatorNode. repeat (case_match; simplify_eq/=); intros; simplify_eq/=; eauto. Qed.

(** What a node of a network of [n] counts and whom it follows *)
Definition counts_for {W} (n : Z) (id : string) (p : Pbft.PBFTNode W) : Prop :=
  Pbft.nodeID p = id ∧ Pbft.required_votes p = (2 * ((n - 1) / 3) + 1)%Z ∧
  ∀ view, (0 ≤ view)%Z → Pbft.primary_of view (Pbft.totalNodes p) = Done (Manager.node_name (view mod n)).

Lemma built_counts (a : Answers DB) now cfg tr nd n :
  (1 ≤ n < 2 ^ 63)%Z → cfg_TotalNodes cfg = n → NewValidatorNode a now cfg = (tr, Done (Ok nd)) →
  counts_for n (cfg_NodeID cfg) (Validator.v_pbft (nd_validator nd)).
Proof.
  intros Hn Ht (peerID & e & ->)%built_node. rewrite Ht. split; [done|]. split.
  - unfold Pbft.required_votes. cbn [Pbft.f]. simpl. rewrite wrap_i64_id by (unfold is_i64; lia).
    rewrite Z.quot_div_nonneg by lia. assert (0 ≤ (n - 1) / 3)%Z by (apply Z.div_pos; lia).
    destruct (Z.ltb_spec (2 * ((n - 1) / 3) + 1) 1); lia.
  - intros view Hv. unfold Pbft.primary_of. simpl. destruct (Z.eqb_spec n 0); [lia|].
    by rewrite Z.rem_mod_nonneg by lia.
Qed.

Section started.
Variables (peer_id : string → result string) (n base apiBase : Z).
Hypothesis Hn : (1 ≤ n < 2 ^ 63 - 10)%Z.
Hypothesis Hbase : (- 2 ^ 63 ≤ base ∧ base + n < 2 ^ 63)%Z.
Hypothesis HapiBase : (- 2 ^ 63 ≤ apiBase ∧ apiBase + n < 2 ^ 63)%Z.

Lemma cleared_placed w :
  ManagerCluster.progress n base apiBase w → cleared w →
  Manager.totalNodes (Manager.mgr w) = n ∧
  ∃ order, ManagerCluster.placed base apiBase order w ∧ (∀ i, i ∈ order → (0 ≤ i < n)%Z).
Proof.
  intros (_ & _ & Hinv) Hc. unfold cleared in Hc. setoid_rewrite <- ManagerCluster.elem_of_range.
  destruct (Manager.cluster w) as [[]|]; try done.
  - destruct Hinv as (_ & Ht & Hp). split; [done|]. exists [0%Z]. split; [done|].
    intros i ->%list_elem_of_singleton. apply ManagerCluster.elem_of_range. lia.
  - destruct Hinv as (_ & Ht & _ & _ & order & Hord & Hp). split; [done|]. exists order. split; [done|].
    intros i. rewrite Hord, !ManagerCluster.elem_of_range. lia.
  - destruct Hinv as (_ & Ht & _ & -> & _ & order & Hord & Hp). split; [done|]. exists order. split; [done|].
    intros i Hi. assert (Hi' : i ∈ Manager.range 0 (Z.min (batchStart + 10) n)).
    { rewrite <- Hord. apply elem_of_app. by left. }
    revert Hi'. rewrite !ManagerCluster.elem_of_range. lia.
  - destruct Hinv as (_ & Ht & order & Hord & Hp). split; [done|]. exists order. split; [done|].
    intros i. by rewrite Hord.
Qed.

Lemma entry_place order w id l :
  ManagerCluster.placed base apiBase order w → Manager.nodes (Manager.mgr w) !! id = Some l →
  ∃ k i nd, order !! k = Some i ∧ id = Manager.node_name i ∧ Manager.heap w !! l = Some nd ∧
    ManagerInv.identity nd = (id, (base + Z.of_nat k)%Z, (apiBase + Z.of_nat k)%Z).
Proof.
  intros Hp Hl. assert (Hid : id ∈ dom (Manager.nodes (Manager.mgr w))) by by eapply elem_of_dom_2.
  rewrite (ManagerCluster.placed_dom _ _ _ _ Hp), elem_of_list_to_set, list_elem_of_fmap in Hid.
  destruct Hid as (i & -> & [k Hk]%list_elem_of_lookup_1).
  destruct (ManagerCluster.placed_at _ _ _ _ Hp k i Hk) as (_ & l' & nd & Hl' & Hnd & Hidn).
  rewrite Hl in Hl'. injection Hl' as <-. by exists k, i, nd.
Qed.

(** The index of an entry, its configuration, and the place in the order that its ports come from *)
Lemma entry_configuration order w id l environ cwd addr :
  ManagerCluster.placed base apiBase order w → (∀ i, i ∈ order → (0 ≤ i < n)%Z) →
  Manager.totalNodes (Manager.mgr w) = n → Manager.nodes (Manager.mgr w) !! id = Some l →
  ∃ k i cfg, order !! k = Some i ∧ (0 ≤ Z.of_nat k < n)%Z ∧ (0 ≤ i < n)%Z ∧ id = Manager.node_name i ∧
    configuration environ cwd addr l w = Some cfg ∧ cfg_NodeID cfg = id ∧ cfg_TotalNodes cfg = n ∧
    cfg_ListenPort cfg = (base + Z.of_nat k)%Z ∧ cfg_APIPort cfg = (apiBase + Z.of_nat k)%Z.
Proof.
  intros Hp Hord Ht Hl. destruct (entry_place _ _ _ _ Hp Hl) as (k & i & nd & Hk & -> & Hnd & Hid).
  assert (Hlen : length order ≤ Z.to_nat n).
  { rewrite <- (Z.sub_0_r n), <- ManagerCluster.length_range. apply submseteq_length, NoDup_submseteq.
    - apply (ManagerCluster.placed_nodup _ _ _ _ Hp).
    - intros j Hj. by apply ManagerCluster.elem_of_range, Hord. }
  pose proof (lookup_lt_Some _ _ _ Hk). injection Hid as Hid Hport Hapi.
  destruct (configuration_of environ cwd addr l w nd) as (cfg & Hcfg & Hc1 & Hc2 & Hc3 & Hc4);
    [done | unfold is_i64; lia.. |].
  exists k, i, cfg. split_and!; try congruence; try lia; apply Hord; by eapply list_elem_of_lookup_2.
Qed.
End started.

(** C14: the nodes of a cluster agree with each other. While a cluster start that was accepted goes on
    and after it has finished, in any run in which no node is added or removed by hand, whenever the
    process of an entry begins, with whatever environment and bootstrap address: the command that
    the supervisor prepares is read by [main] as the configuration of that node, with [n] as the
    number of nodes and with ports that no other entry gets; and if the node can be built from it,
    its consensus waits for [2 ((n - 1) / 3) + 1] votes and takes [node(v mod n)] as the primary of
    view [v], like that of all other entries. When the cluster start has finished, each of these
    primaries is an entry. *)
Theorem started_cluster_agrees peer_id order n w w0 k w' id l environ cwd addr :
  (∃ id, peer_id "node0" = Ok id) → (n < 2 ^ 63 - 10)%Z →
  (- 2 ^ 63 ≤ Manager.basePort (Manager.mgr w) ∧ Manager.basePort (Manager.mgr w) + n < 2 ^ 63)%Z →
  (- 2 ^ 63 ≤ Manager.baseAPIPort (Manager.mgr w) ∧ Manager.baseAPIPort (Manager.mgr w) + n < 2 ^ 63)%Z →
  ManagerInv.reachable peer_id w → Manager.StartCluster order n w = (w0, None) →
  ManagerCluster.quiet_run peer_id k w0 w' → cleared w' →
  Manager.nodes (Manager.mgr w') !! id = Some l →
  ∃ cfg, configuration environ cwd addr l w' = Some cfg ∧ cfg_NodeID cfg = id ∧ cfg_TotalNodes cfg = n ∧
    (∀ id2 l2 environ2 cwd2 addr2 cfg2, Manager.nodes (Manager.mgr w') !! id2 = Some l2 → id2 ≠ id →
      configuration environ2 cwd2 addr2 l2 w' = Some cfg2 →
      cfg_ListenPort cfg2 ≠ cfg_ListenPort cfg ∧ cfg_APIPort cfg2 ≠ cfg_APIPort cfg) ∧
    (∀ (a : Answers DB) now tr nd, NewValidatorNode a now cfg = (tr, Done (Ok nd)) →
      counts_for n id (Validator.v_pbft (nd_validator nd))) ∧
    (Manager.cluster w' = None → ∀ view, (0 ≤ view)%Z →
      is_Some (Manager.nodes (Manager.mgr w') !! Manager.node_name (view mod n))).
Proof.
  intros Hpeer Hn Hb Ha Hreach Hs Hr Hc Hl.
  destruct (ManagerCluster.start_run peer_id order n w w0 k w' Hpeer Hn Hb Ha Hreach Hs Hr) as (Hn1 & _ & Hprog & _).
  assert (Hn' : (1 ≤ n < 2 ^ 63 - 10)%Z) by lia.
  destruct (cleared_placed n _ _ Hn' w' Hprog Hc) as (Ht & ord & Hp & Hord).
  destruct (entry_configuration n _ _ Hn' Hb Ha ord w' id l environ cwd addr Hp Hord Ht Hl)
    as (k1 & i & cfg & Hk1 & _ & _ & -> & Hcfg & Hid & Htot & Hport & Hapi).
  exists cfg. split_and!; try done.
  - intros id2 l2 env2 cwd2 addr2 cfg2 Hl2 Hne Hcfg2.
    destruct (entry_configuration n _ _ Hn' Hb Ha ord w' id2 l2 env2 cwd2 addr2 Hp Hord Ht Hl2)
      as (k2 & i2 & cfg2' & Hk2 & _ & _ & -> & Hcfg2' & _ & _ & Hport2 & Hapi2).
    assert (cfg2' = cfg2) as -> by congruence. assert (k2 ≠ k1) by congruence. lia.
  - intros a now tr nd Hnd. rewrite <- Hid. eapply built_counts; [lia | done | exact Hnd].
  - intros Hdone view Hv. destruct Hprog as (_ & _ & Hfin). rewrite Hdone in Hfin.
    destruct Hfin as (_ & _ & full & Hfull & Hplaced). apply elem_of_dom.
    rewrite (ManagerCluster.placed_dom _ _ _ _ Hplaced), elem_of_list_to_set. apply list_elem_of_fmap_2.
    rewrite Hfull. apply ManagerCluster.elem_of_range. apply Z.mod_pos_bound. lia.
Qed.
End nodes.

(** * Two nodes *)

#[local] Existing Instance pb.bit_codec.
#[local] Instance json_record : Storage.JsonCodec Storage.TicketRecord := Storage.bit_json Storage.TicketRecord.

(** The world after some steps of the cluster start *)
Definition after_steps (k : nat) : Manager.World :=
  Nat.iter k (λ w, match Manager.cluster_step ManagerInv.demo_peer true 0 w with Some (w, _) => w | None => w end)
    (Manager.StartCluster [] 2 (Manager.new_world ManagerInv.demo_cfg)).1.

Lemma started_cluster_agrees_witness : ∃ l cfg,
  Manager.nodes (Manager.mgr (after_steps 8)) !! "node1"%string = Some l ∧
  configuration [] (Ok "/srv"%string) "/ip4/127.0.0.1/tcp/4001/p2p/12D3" l (after_steps 8) = Some cfg ∧
  cfg_NodeID cfg = "node1"%string ∧ cfg_TotalNodes cfg = 2%Z ∧
  ∀ (a : Answers Storage.mem_db) now tr nd, NewValidatorNode a now cfg = (tr, Done (Ok nd)) →
    counts_for 2 "node1" (Validator.v_pbft (nd_validator nd)).
Proof.
  set (w := Manager.new_world ManagerInv.demo_cfg).
  assert (Hgo : ∀ k, ManagerCluster.quiet_run ManagerInv.demo_peer k (after_steps 0) (after_steps k) →
    Manager.cluster_step ManagerInv.demo_peer true 0 (after_steps k) ≠ None →
    ManagerCluster.quiet_run ManagerInv.demo_peer (S k) (after_steps 0) (after_steps (S k))).
  { intros k Hr Hs. simpl (after_steps (S k)). unfold after_steps in *. cbn [Nat.iter nat_rect] in *.
    destruct (Manager.cluster_step _ _ _ _) as [[w1 cbs]|] eqn:E; [|done].
    apply (ManagerCluster.QuietSnoc _ _ _ _ _ (ManagerInv.EvCluster true 0) cbs Hr eq_refl E). }
  assert (Hr : ManagerCluster.quiet_run ManagerInv.demo_peer 8 (after_steps 0) (after_steps 8))
    by (do 8 (apply Hgo; [|by vm_compute]); constructor).
  assert (Hreach : ManagerInv.reachable ManagerInv.demo_peer w) by (exists ManagerInv.demo_cfg; done).
  destruct (Manager.nodes (Manager.mgr (after_steps 8)) !! "node1"%string) as [l|] eqn:Hl; [|by vm_compute in Hl].
  destruct (started_cluster_agrees (DB:=Storage.mem_db) ManagerInv.demo_peer [] 2 w (after_steps 0) 8 (after_steps 8) "node1" l
    [] (Ok "/srv"%string) "/ip4/127.0.0.1/tcp/4001/p2p/12D3" ltac:(by eexists) ltac:(lia) ltac:(simpl; lia)
    ltac:(simpl; lia) Hreach eq_refl Hr ltac:(by vm_compute) Hl) as (cfg & Hcfg & Hid & Ht & _ & Hb & _).
  exists l, cfg. split; [done|]. split; [exact Hcfg|]. split; [exact Hid|]. split; [exact Ht | exact Hb].
Defined.
End LaunchCluster.
