(* ===== verification/SimControl.v ===== *)
(** The supervisor's control of the simulator process, [src/pkg/supervisor/simulator.go]: its
    configuration limits, the status of a run, the filter for repeated lines, and what is read out of
    the simulator's output.

    A run is a goroutine with two more that read the streams of the process; [World] has, for each run
    that has not ended, what they have still to do, so that there may be several. A line is handled in
    one step. *)

From Stdlib Require Import SpecFloat.
From S2P Require Import Prelude GoStrings Float64 Manager.

Module SimControl.
Import GoStrings Float64.

(** * Data *)

Inductive SimulatorStatus :=
| SimulatorStatusIdle
| SimulatorStatusRunning
| SimulatorStatusComplete
| SimulatorStatusError.

#[export] Instance SimulatorStatus_eq_dec : EqDecision SimulatorStatus.
Proof. solve_decision. Defined.

Record SimulatorConfig := MkSimulatorConfig {
  Nodes : Z;
  ByzantineNodes : Z;
  Tickets : Z;
  DurationSeconds : Z;
  LatencyMs : Z;
  PacketLossRate : spec_float;
  EnablePartitions : bool;
}.

Record SimulatorResults := MkSimulatorResults {
  TotalTickets : Z;
  ValidatedTickets : Z;
  ConsensusRounds : Z;
  SuccessfulRounds : Z;
  FailedRounds : Z;
  SuccessRate : spec_float;
  MessagesSent : Z;
  MessagesReceived : Z;
  PartitionEvents : Z;
  AverageLatencyMs : spec_float;
}.

Definition zero_results : SimulatorResults :=
  MkSimulatorResults 0 0 0 0 0 (S754_zero false) 0 0 0 (S754_zero false).

Record SimulatorProgress := MkSimulatorProgress {
  p_CurrentTicket : Z;
  p_TotalTickets : Z;
  p_ConsensusRounds : Z;
  p_SuccessfulRounds : Z;
  p_FailedRounds : Z;
  p_ProgressPercent : spec_float;
}.

(** Calls of the controller's callbacks; nothing calls [resultCallback]. *)
Inductive sim_callback :=
| SimOutput (line : string)
| SimProgress (progress : SimulatorProgress)
| SimStatus (status : SimulatorStatus).

Record SimulatorControllerConfig := MkSimulatorControllerConfig {
  scfg_SimulatorPath : string;
  scfg_MaxOutputLines : nat;
  scfg_OutputCallback : bool;
  scfg_ProgressCallback : bool;
  scfg_StatusCallback : bool;
}.

(** [recentLines] and [dedupCallCount]; times are in nanoseconds. *)
Record Dedup := MkDedup {
  recentLines : gmap string Z;
  dedupCallCount : Z;
}.

(** [cancelFunc] belongs to the context of the run with that number. *)
Record SimulatorController := MkSimulatorController {
  simulatorPath : string;
  status : SimulatorStatus;
  config : option SimulatorConfig;
  progress : option SimulatorProgress;
  results : option SimulatorResults;
  outputLines : list string;
  maxOutputLines : nat;
  cmd : option Manager.Cmd;
  cancelFunc : option nat;
  outputCallback : bool;
  progressCallback : bool;
  statusCallback : bool;
  dedup : Dedup;
}.

Definition set_status x s := MkSimulatorController (simulatorPath s) x (config s) (progress s)
  (results s) (outputLines s) (maxOutputLines s) (cmd s) (cancelFunc s) (outputCallback s)
  (progressCallback s) (statusCallback s) (dedup s).
Definition set_config x s := MkSimulatorController (simulatorPath s) (status s) x (progress s)
  (results s) (outputLines s) (maxOutputLines s) (cmd s) (cancelFunc s) (outputCallback s)
  (progressCallback s) (statusCallback s) (dedup s).
Definition set_progress x s := MkSimulatorController (simulatorPath s) (status s) (config s) x
  (results s) (outputLines s) (maxOutputLines s) (cmd s) (cancelFunc s) (outputCallback s)
  (progressCallback s) (statusCallback s) (dedup s).
Definition set_results x s := MkSimulatorController (simulatorPath s) (status s) (config s)
  (progress s) x (outputLines s) (maxOutputLines s) (cmd s) (cancelFunc s) (outputCallback s)
  (progressCallback s) (statusCallback s) (dedup s).
Definition set_outputLines x s := MkSimulatorController (simulatorPath s) (status s) (config s)
  (progress s) (results s) x (maxOutputLines s) (cmd s) (cancelFunc s) (outputCallback s)
  (progressCallback s) (statusCallback s) (dedup s).
Definition set_cmd x s := MkSimulatorController (simulatorPath s) (status s) (config s)
  (progress s) (results s) (outputLines s) (maxOutputLines s) x (cancelFunc s) (outputCallback s)
  (progressCallback s) (statusCallback s) (dedup s).
Definition set_cancelFunc x s := MkSimulatorController (simulatorPath s) (status s) (config s)
  (progress s) (results s) (outputLines s) (maxOutputLines s) (cmd s) x (outputCallback s)
  (progressCallback s) (statusCallback s) (dedup s).
Definition set_dedup x s := MkSimulatorController (simulatorPath s) (status s) (config s)
  (progress s) (results s) (outputLines s) (maxOutputLines s) (cmd s) (cancelFunc s)
  (outputCallback s) (progressCallback s) (statusCallback s) x.

Definition NewSimulatorController (cfg : SimulatorControllerConfig) : SimulatorController :=
  let maxLines := if decide (scfg_MaxOutputLines cfg = 0) then 500 else scfg_MaxOutputLines cfg in
  MkSimulatorController (scfg_SimulatorPath cfg) SimulatorStatusIdle None None None [] maxLines None
    None (scfg_OutputCallback cfg) (scfg_ProgressCallback cfg) (scfg_StatusCallback cfg)
    (MkDedup ∅ 0).

Definition dedupWindow : Z := 500 * 1000000.

(** * Configuration *)

Definition DefaultSimulatorConfig : SimulatorConfig :=
  MkSimulatorConfig 7 2 100 60 50 (of_ratio 1 100) false.

(** The constant [0.5] *)
Definition half : spec_float := of_ratio 1 2.

Definition ValidateConfig (config : SimulatorConfig) : error :=
  if (Nodes config <? 4)%Z then Some "minimum 4 nodes required for BFT"
  else if (30 <? Nodes config)%Z then Some "maximum 30 nodes supported"
  else
    let maxByzantine := Z.quot (Nodes config - 1) 3 in
    if (maxByzantine <? ByzantineNodes config)%Z then
      Some ("byzantine nodes (" +:+ FormatInt (ByzantineNodes config) +:+ ") exceeds maximum ("
        +:+ FormatInt maxByzantine +:+ ") for " +:+ FormatInt (Nodes config) +:+ " total nodes")
    else if (Tickets config <? 1)%Z then Some "minimum 1 ticket required"
    else if (1000 <? Tickets config)%Z then Some "maximum 1000 tickets supported"
    else if (DurationSeconds config <? 10)%Z then Some "minimum 10 seconds duration required"
    else if (600 <? DurationSeconds config)%Z then Some "maximum 600 seconds duration supported"
    else if SFltb (PacketLossRate config) (S754_zero false) || SFltb half (PacketLossRate config) then
      Some "packet loss rate must be between 0 and 0.5"
    else None.

(** * Output *)

Definition addOutput (line : string) (s : SimulatorController) : SimulatorController :=
  let lines := outputLines s ++ [line] in
  if decide (maxOutputLines s < length lines) then
    set_outputLines (drop (length lines - maxOutputLines s) lines) s
  else set_outputLines lines s.

Definition isDuplicateLine (now : Z) (line : string) (d : Dedup) : Dedup * bool :=
  let calls := wrap_i64 (dedupCallCount d + 1) in
  let recent := recentLines d in
  let seen := match recent !! line with
    | Some lastSeen => (now - lastSeen <? dedupWindow)%Z
    | None => false
    end in
  let recent := <[line := now]> recent in
  if seen then (MkDedup recent calls, true)
  else if (Z.rem calls 100 =? 0)%Z then
    let cleanupThreshold := (now - 2 * dedupWindow)%Z in
    (MkDedup (filter (λ kv, ¬ (kv.2 < cleanupThreshold)%Z) recent) calls, false)
  else (MkDedup recent calls, false).

(** ** The two regular expressions *)

Definition is_word (c : ascii) : bool :=
  is_digit c || is_lower c || is_upper c || (c =? "_")%char.

(** [\s] of Go's regexp *)
Definition is_re_space (c : ascii) : bool :=
  existsb (fun k => (code c =? k)%nat) [9; 10; 12; 13; 32].

Definition nonempty (s : string) : bool := negb (s =? "")%string.

(** The first position at which [m] matches. *)
Fixpoint find_first {A} (m : string → option A) (s : string) : option A :=
  match m s with
  | Some a => Some a
  | None => match s with
            | EmptyString => None
            | String _ s => find_first m s
            end
  end.

(** [resultRegex] at this position: a word character, more of them and spaces, a colon and a space,
    digits and dots, and perhaps a percent sign. The key ends at the first character that is no word character
    and no space, which has to be the colon. *)
Definition result_at (s : string) : option (string * string) :=
  match s with
  | String c _ =>
      if is_word c then
        let '(key, rest) := span (λ c, is_word c || is_re_space c) s in
        match lit ": " rest with
        | Some rest =>
            let '(num, rest) := span (λ c, is_digit c || (c =? ".")%char) rest in
            if nonempty num then
              Some (key, num +:+ if has_prefix rest "%" then "%" else "")
            else None
        | None => None
        end
      else None
  | EmptyString => None
  end.

Definition resultRegex (line : string) : option (string * string) := find_first result_at line.

(** [l] and then one or more digits *)
Definition lit_digits (l s : string) : option (string * string) :=
  match lit l s with
  | Some s => let '(num, rest) := span is_digit s in if nonempty num then Some (num, rest) else None
  | None => None
  end.

(** [progressRegex] at this position *)
Definition progress_at (s : string) : option (string * string * string * string * string) :=
  match lit_digits "Progress: " s with
  | Some (current, s) =>
  match lit_digits "/" s with
  | Some (total, s) =>
  match lit_digits " tickets | Rounds: " s with
  | Some (rounds, s) =>
  match lit_digits " | Success: " s with
  | Some (success, s) =>
  match lit_digits " | Failed: " s with
  | Some (failed, _) => Some (current, total, rounds, success, failed)
  | None => None end
  | None => None end
  | None => None end
  | None => None end
  | None => None end.

Definition progressRegex (line : string) : option (string * string * string * string * string) :=
  find_first progress_at line.

(** ** Reading a line *)

Definition parse_progress (line : string) : option SimulatorProgress :=
  match progressRegex line with
  | Some (current, total, rounds, success, failed) =>
      let current := Atoi_digits current in
      let total := Atoi_digits total in
      Some (MkSimulatorProgress current total (Atoi_digits rounds) (Atoi_digits success)
        (Atoi_digits failed) (fmul (fdiv (of_int current) (of_int total)) (of_int 100)))
  | None => None
  end.

(** One result, put into its field. *)
Definition put_result (key : string) (intValue : Z) (numValue : spec_float) (r : SimulatorResults)
    : SimulatorResults :=
  let '(MkSimulatorResults tot vt cr sr fr rate ms mr pe lat) := r in
  if (key =? "Total Tickets")%string then MkSimulatorResults intValue vt cr sr fr rate ms mr pe lat
  else if (key =? "Validated Tickets")%string then MkSimulatorResults tot intValue cr sr fr rate ms mr pe lat
  else if (key =? "Consensus Rounds")%string then MkSimulatorResults tot vt intValue sr fr rate ms mr pe lat
  else if (key =? "Successful Rounds")%string then MkSimulatorResults tot vt cr intValue fr rate ms mr pe lat
  else if (key =? "Failed Rounds")%string then MkSimulatorResults tot vt cr sr intValue rate ms mr pe lat
  else if (key =? "Success Rate")%string then MkSimulatorResults tot vt cr sr fr numValue ms mr pe lat
  else if (key =? "Messages Sent")%string then MkSimulatorResults tot vt cr sr fr rate intValue mr pe lat
  else if (key =? "Messages Received")%string then MkSimulatorResults tot vt cr sr fr rate ms intValue pe lat
  else if (key =? "Partition Events")%string then MkSimulatorResults tot vt cr sr fr rate ms mr intValue lat
  else r.

Definition parseResultLine (key value : string) (s : SimulatorController) : SimulatorController :=
  let r := default zero_results (results s) in
  let value := TrimSuffix value "%" in
  let numValue := ParseFloat value in
  let intValue := to_int numValue in
  set_results (Some (put_result (TrimSpace key) intValue numValue r)) s.

Definition notifyStatus (s : SimulatorController) (st : SimulatorStatus) : list sim_callback :=
  if statusCallback s then [SimStatus st] else [].

Definition notifyProgress (s : SimulatorController) (p : SimulatorProgress) : list sim_callback :=
  if progressCallback s then [SimProgress p] else [].

(** The part of the loop of [streamOutput] after the check for duplicates. *)
Definition record_line (line : string) (s : SimulatorController)
    : SimulatorController * list sim_callback :=
  let s := addOutput line s in
  let '(s, cbs) := match parse_progress line with
    | Some p => (set_progress (Some p) s, notifyProgress s p)
    | None => (s, [])
    end in
  let s := if str_contains line "=== Simulation Results ===" then
      match results s with
      | None => set_results (Some zero_results) s
      | Some _ => s
      end
    else s in
  let s := match resultRegex line with
    | Some (key, value) => parseResultLine key value s
    | None => s
    end in
  (s, cbs ++ if outputCallback s then [SimOutput line] else []).

Definition streamOutput_line (now : Z) (line : string) (s : SimulatorController)
    : SimulatorController * list sim_callback :=
  let '(d, dup) := isDuplicateLine now line (dedup s) in
  let s := set_dedup d s in
  if dup then (s, []) else record_line line s.

(** * Runs *)

(** [runSimulator], at [go], before [cmd.Start], and waiting for the readers of the process' streams
    that are still open, and then for the process. *)
Inductive run_stage :=
| RunSpawned (config : SimulatorConfig)
| RunPrepared (cmd : Manager.Cmd)
| RunStreaming (open_streams : nat).

Record World := MkWorld {
  sim : SimulatorController;
  live : gmap nat run_stage;  (** the goroutines of [runSimulator] that have not returned, by number *)
  runs : nat;  (** how many there have been *)
  cancelled : gset nat;  (** runs whose context is cancelled *)
}.

Definition set_sim s w := MkWorld s (live w) (runs w) (cancelled w).
Definition set_stage (k : nat) (st : run_stage) w := MkWorld (sim w) (<[k := st]> (live w)) (runs w) (cancelled w).
Definition returned (k : nat) w := MkWorld (sim w) (delete k (live w)) (runs w) (cancelled w).

Definition new_world (cfg : SimulatorControllerConfig) : World :=
  MkWorld (NewSimulatorController cfg) ∅ 0 ∅.

Definition Start (cfg : SimulatorConfig) (w : World) : World * list sim_callback * error :=
  let s := sim w in
  if decide (status s = SimulatorStatusRunning) then (w, [], Some "simulator is already running")
  else
    let p := MkSimulatorProgress 0 (Tickets cfg) 0 0 0 (S754_zero false) in
    let s := set_outputLines [] (set_results None (set_progress (Some p)
      (set_config (Some cfg) (set_status SimulatorStatusRunning s)))) in
    (MkWorld s (<[runs w := RunSpawned cfg]> (live w)) (S (runs w)) (cancelled w),
     notifyStatus s SimulatorStatusRunning, None).

Definition sim_args (cfg : SimulatorConfig) : list string :=
  ["-nodes"; FormatInt (Nodes cfg); "-byzantine"; FormatInt (ByzantineNodes cfg);
   "-tickets"; FormatInt (Tickets cfg); "-duration"; FormatInt (DurationSeconds cfg) +:+ "s";
   "-latency"; FormatInt (LatencyMs cfg) +:+ "ms";
   "-packet-loss"; FormatFixed 4 (PacketLossRate cfg)]
  ++ (if EnablePartitions cfg then ["-partition"] else []).

(** The goroutine of run [k] begins: its context and the command, which inherits directory and
    environment. *)
Definition run_begin (k : nat) (w : World) : option World :=
  match live w !! k with
  | Some (RunSpawned cfg) =>
      let c := Manager.MkCmd (simulatorPath (sim w)) (sim_args cfg) "" None in
      Some (set_stage k (RunPrepared c) (set_sim (set_cancelFunc (Some k) (sim w)) w))
  | _ => None
  end.

Definition setError (errMsg : string) (w : World) : World * list sim_callback :=
  let s := addOutput ("ERROR: " +:+ errMsg) (set_status SimulatorStatusError (sim w)) in
  (set_sim s w, notifyStatus s SimulatorStatusError).

(** The run gives up with an error. *)
Definition run_fails (k : nat) (errMsg : string) (w : World) : World * list sim_callback :=
  let '(w, cbs) := setError errMsg w in (returned k w, cbs).

Definition run_start (k : nat) (outcome : Manager.start_outcome) (w : World)
    : option (World * list sim_callback) :=
  match live w !! k with
  | Some (RunPrepared c) =>
      Some match outcome with
      | Manager.StdoutPipeFails err => run_fails k ("failed to create stdout pipe: " +:+ err) w
      | Manager.StderrPipeFails err => run_fails k ("failed to create stderr pipe: " +:+ err) w
      | Manager.StartFails err => run_fails k ("failed to start simulator: " +:+ err) w
      | Manager.Started => (set_stage k (RunStreaming 2) (set_sim (set_cmd (Some c) (sim w)) w), [])
      end
  | _ => None
  end.

(** A reader of run [k] handles a line, or comes to the end of its stream. *)
Definition run_line (k : nat) (now : Z) (line : string) (w : World) : option (World * list sim_callback) :=
  match live w !! k with
  | Some (RunStreaming (S _)) =>
      let '(s, cbs) := streamOutput_line now line (sim w) in Some (set_sim s w, cbs)
  | _ => None
  end.

Definition run_eof (k : nat) (w : World) : option World :=
  match live w !! k with
  | Some (RunStreaming (S open)) => Some (set_stage k (RunStreaming open) w)
  | _ => None
  end.

(** Both streams are closed and [cmd.Wait] returns [err]. *)
Definition run_exit (k : nat) (err : error) (w : World) : option (World * list sim_callback) :=
  match live w !! k with
  | Some (RunStreaming O) =>
      let '(st, line) :=
        if decide (k ∈ cancelled w) then (SimulatorStatusIdle, "Simulation cancelled by user")%string
        else match err with
             | Some err => (SimulatorStatusError, "Simulation error: " +:+ err)
             | None => (SimulatorStatusComplete, "Simulation completed successfully")%string
             end in
      let s := addOutput line (set_status st (sim w)) in
      Some (returned k (set_sim s w), notifyStatus s st)
  | _ => None
  end.

Definition Stop (w : World) : World * error :=
  if decide (status (sim w) ≠ SimulatorStatusRunning) then (w, Some "simulator is not running")
  else match cancelFunc (sim w) with
       | Some k => (MkWorld (sim w) (live w) (runs w) ({[k]} ∪ cancelled w), None)
       | None => (w, None)
       end.

(** * Queries *)

Definition GetStatus (w : World) : SimulatorStatus := status (sim w).
Definition GetProgress (w : World) : option SimulatorProgress := progress (sim w).
Definition GetOutput (w : World) : list string := outputLines (sim w).
Definition GetConfig (w : World) : option SimulatorConfig := config (sim w).

(** The copy has no [AverageLatencyMs]. *)
Definition GetResults (w : World) : option SimulatorResults :=
  match results (sim w) with
  | Some r => Some (MkSimulatorResults (TotalTickets r) (ValidatedTickets r) (ConsensusRounds r)
      (SuccessfulRounds r) (FailedRounds r) (SuccessRate r) (MessagesSent r) (MessagesReceived r)
      (PartitionEvents r) (S754_zero false))
  | None => None
  end.

(** What [GetFullState] collects: absent fields are left out of the map. The code hands out the slice
    and the pointers it holds; here they are copied. *)
Record FullState := MkFullState {
  fs_status : SimulatorStatus;
  fs_output : list string;
  fs_config : option SimulatorConfig;
  fs_progress : option SimulatorProgress;
  fs_results : option SimulatorResults;
}.

Definition GetFullState (w : World) : FullState :=
  let s := sim w in MkFullState (status s) (outputLines s) (config s) (progress s) (results s).
End SimControl.

#[export] Existing Instance SimControl.SimulatorStatus_eq_dec.
