(* ===== verification/Simulator.v ===== *)
(** The network simulator, [src/cmd/simulator/main.go]: simulated validators with message queues,
    random loss and partitions, the loop that feeds them tickets, its statistics and what it prints.

    Nodes are shared between the loop, their message handlers and the goroutines that deliver
    messages; they live in a list and are known by their index. What goroutines have still to do is
    in [World]: messages on their way, partitions that will heal. Random numbers and the time are
    arguments. *)

From Stdlib Require Import SpecFloat.
From S2P Require Import Prelude GoStrings Float64.

Module Simulator.
Import GoStrings Float64.

(** * Data *)

(** The fields that are used; no code sets the others ([ConsumedTickets], [DisputedTickets],
    [AverageLatencyMs], [ByzantineDetected], and a node's [VectorClock]). *)
Record SimulationStats := MkSimulationStats {
  TotalTickets : Z;
  ValidatedTickets : Z;
  ConsensusRounds : Z;
  SuccessfulRounds : Z;
  FailedRounds : Z;
  MessagesSent : Z;
  MessagesReceived : Z;
  PartitionEvents : Z;
}.

(** Messages are sent to ["all"]; the payload is a ticket ID. *)
Record SimulatedMessage := MkSimulatedMessage {
  From : string;
  To : string;
  Type_ : string;
  Payload : string;
  Timestamp : Z;
}.

Record ConsensusEntry := MkConsensusEntry {
  ce_Sequence : Z;
  ce_TicketID : string;
  ce_Operation : string;
  ce_Timestamp : Z;
}.

Record SimulatedNode := MkSimulatedNode {
  ID : string;
  IsByzantine : bool;
  IsPartitioned : bool;
  MessageQueue : list SimulatedMessage;
  TicketState : gmap string string;
  ConsensusLog : list ConsensusEntry;
}.

Definition queue_capacity : nat := 100.

Definition set_partitioned b n :=
  MkSimulatedNode (ID n) (IsByzantine n) b (MessageQueue n) (TicketState n) (ConsensusLog n).
Definition set_queue q n :=
  MkSimulatedNode (ID n) (IsByzantine n) (IsPartitioned n) q (TicketState n) (ConsensusLog n).
Definition set_state st n :=
  MkSimulatedNode (ID n) (IsByzantine n) (IsPartitioned n) (MessageQueue n) st (ConsensusLog n).
Definition set_log l n :=
  MkSimulatedNode (ID n) (IsByzantine n) (IsPartitioned n) (MessageQueue n) (TicketState n) l.

Record SimulatorConfig := MkSimulatorConfig {
  NodeCount : Z;
  ByzantineCount : Z;
  TicketCount : Z;
  SimulationTime : Z;
  NetworkLatency : Z;
  PacketLoss : spec_float;
  PartitionEnabled : bool;
}.

(** [honestNodes] are indices; [ticketValidations] maps a ticket to the IDs of the honest nodes that
    were seen to have validated it. *)
Record Simulator := MkSimulator {
  cfg : SimulatorConfig;
  stats : SimulationStats;
  honestNodes : list nat;
  ticketValidations : gmap string (gset string);
  quorumThreshold : Z;
}.

(** The loop of [Run]: taking tickets, waiting for the last messages, or ended. *)
Inductive loop_stage := Looping | Finishing | Ended.

Record World := MkWorld {
  sim : Simulator;
  nodes : list SimulatedNode;
  pending : list (nat * SimulatedMessage);  (** to be put into the queue of that node *)
  healing : list nat;  (** partitions of so many nodes that will end *)
  ticketIndex : Z;
  consensusRound : Z;
  stage : loop_stage;
  stdout : string;
}.

Definition set_sim x w := MkWorld x (nodes w) (pending w) (healing w) (ticketIndex w)
  (consensusRound w) (stage w) (stdout w).
Definition set_nodes x w := MkWorld (sim w) x (pending w) (healing w) (ticketIndex w)
  (consensusRound w) (stage w) (stdout w).
Definition set_pending x w := MkWorld (sim w) (nodes w) x (healing w) (ticketIndex w)
  (consensusRound w) (stage w) (stdout w).
Definition set_healing x w := MkWorld (sim w) (nodes w) (pending w) x (ticketIndex w)
  (consensusRound w) (stage w) (stdout w).
Definition set_loop t r w := MkWorld (sim w) (nodes w) (pending w) (healing w) t r (stage w) (stdout w).
Definition set_stage x w := MkWorld (sim w) (nodes w) (pending w) (healing w) (ticketIndex w)
  (consensusRound w) x (stdout w).
Definition print (text : string) w := MkWorld (sim w) (nodes w) (pending w) (healing w) (ticketIndex w)
  (consensusRound w) (stage w) (stdout w +:+ text).

Definition set_stats st s :=
  MkSimulator (cfg s) st (honestNodes s) (ticketValidations s) (quorumThreshold s).

Definition newline : string := String "010" "".
Definition carriage_return : string := String "013" "".

(** * Setting up *)

(** The check of [main]: the message with which the program exits. *)
Definition check_byzantine (nodeCount byzantineCount : Z) : error :=
  let maxByzantine := Z.quot (nodeCount - 1) 3 in
  if (maxByzantine <? byzantineCount)%Z then
    Some ("Error: Byzantine nodes (" +:+ FormatInt byzantineCount +:+ ") exceeds maximum allowed ("
      +:+ FormatInt maxByzantine +:+ ") for " +:+ FormatInt nodeCount +:+ " total nodes")
  else None.

Definition NewSimulator (c : SimulatorConfig) : Simulator :=
  MkSimulator c (MkSimulationStats (TicketCount c) 0 0 0 0 0 0 0) [] ∅ 0.

Definition new_node (c : SimulatorConfig) (i : nat) : SimulatedNode :=
  MkSimulatedNode ("node-" +:+ FormatInt (Z.of_nat i)) (Z.of_nat i <? ByzantineCount c)%Z false [] ∅ [].

(** The indices of the nodes that are not Byzantine. *)
Definition is_honest_at (ns : list SimulatedNode) (i : nat) : bool :=
  match ns !! i with Some n => negb (IsByzantine n) | None => false end.

Definition honest_indices (ns : list SimulatedNode) : list nat :=
  filter (λ i, is_honest_at ns i = true) (seq 0 (length ns)).

Definition createNodes (s : Simulator) : outcome (Simulator * list SimulatedNode) :=
  let c := cfg s in
  if (NodeCount c <? 0)%Z then Panic "makeslice: len out of range"
  else if (NodeCount c - ByzantineCount c <? 0)%Z then Panic "makeslice: cap out of range"
  else
  let ns := map (new_node (cfg s)) (seq 0 (Z.to_nat (NodeCount (cfg s)))) in
  let honest := honest_indices ns in
  let threshold := if (2 <=? length honest) then (Z.quot (Z.of_nat (length honest) * 2) 3 + 1)%Z
    else quorumThreshold s in
  Done (MkSimulator (cfg s) (stats s) honest ∅ threshold, ns).

(** What [createNodes] and [initializeNetwork] print. *)
Definition setup_text (ns : list SimulatedNode) : string :=
  foldr String.append ""
    (map (λ n, if IsByzantine n then "Node " +:+ ID n +:+ " configured as Byzantine" +:+ newline else "")
      ns)
  +:+ "Initializing network with " +:+ FormatInt (Z.of_nat (length ns)) +:+ " nodes..." +:+ newline.

Definition start_run (s : Simulator) : outcome World :=
  match createNodes s with
  | Done (s, ns) =>
      Done (MkWorld s ns [] [] 0 0 Looping ("Starting simulation..." +:+ newline +:+ setup_text ns))
  | Panic why => Panic why
  end.

(** * Messages *)

(** [draws i] is the random number drawn for node [i]. *)
Fixpoint broadcast_to (draws : nat → spec_float) (loss : spec_float) (msg : SimulatedMessage) (i : nat)
    (ns : list SimulatedNode) : list (nat * SimulatedMessage) :=
  match ns with
  | [] => []
  | n :: ns =>
      let rest := broadcast_to draws loss msg (S i) ns in
      if IsPartitioned n then rest
      else if SFltb (draws i) loss then rest
      else (i, msg) :: rest
  end.

Definition broadcast (draws : nat → spec_float) (msg : SimulatedMessage) (w : World) : World :=
  set_pending (pending w ++ broadcast_to draws (PacketLoss (cfg (sim w))) msg 0 (nodes w)) w.

(** Without honest nodes the first node is primary; without nodes there is none. *)
Definition simulateTicketValidation (now : Z) (draws : nat → spec_float) (ticketID : string) (w : World)
    : outcome World :=
  let primary := match list_find (λ n, IsByzantine n = false) (nodes w) with
    | Some (_, n) => Some n
    | None => nodes w !! 0
    end in
  match primary with
  | Some p => Done (broadcast draws (MkSimulatedMessage (ID p) "all" "VALIDATE" ticketID now) w)
  | None => Panic "index out of range"
  end.

Definition count_sent (st : SimulationStats) : SimulationStats :=
  MkSimulationStats (TotalTickets st) (ValidatedTickets st) (ConsensusRounds st) (SuccessfulRounds st)
    (FailedRounds st) (wrap_i64 (MessagesSent st + 1)) (MessagesReceived st) (PartitionEvents st).

Definition count_received (st : SimulationStats) : SimulationStats :=
  MkSimulationStats (TotalTickets st) (ValidatedTickets st) (ConsensusRounds st) (SuccessfulRounds st)
    (FailedRounds st) (MessagesSent st) (wrap_i64 (MessagesReceived st + 1)) (PartitionEvents st).

Definition count_partition (st : SimulationStats) : SimulationStats :=
  MkSimulationStats (TotalTickets st) (ValidatedTickets st) (ConsensusRounds st) (SuccessfulRounds st)
    (FailedRounds st) (MessagesSent st) (MessagesReceived st) (wrap_i64 (PartitionEvents st + 1)).

(** The [k]-th message on its way arrives; a full queue drops it. *)
Definition deliver (k : nat) (w : World) : option World :=
  match pending w !! k with
  | Some (i, msg) =>
      let w := set_pending (delete k (pending w)) w in
      match nodes w !! i with
      | Some n =>
          if decide (length (MessageQueue n) < queue_capacity) then
            Some (set_sim (set_stats (count_sent (stats (sim w))) (sim w))
              (set_nodes (<[i := set_queue (MessageQueue n ++ [msg]) n]> (nodes w)) w))
          else Some w
      | None => Some w
      end
  | None => None
  end.

(** The constant [0.5] *)
Definition half : spec_float := of_ratio 1 2.

Definition handleByzantineNode (draw : spec_float) (msg : SimulatedMessage) (n : SimulatedNode)
    : SimulatedNode :=
  if SFltb draw half then set_state (<[Payload msg := "INVALID"%string]> (TicketState n)) n else n.

Definition handleHonestNode (now : Z) (msg : SimulatedMessage) (n : SimulatedNode) : SimulatedNode :=
  if (Type_ msg =? "VALIDATE")%string then
    let ticketID := Payload msg in
    let n := set_state (<[ticketID := "VALIDATED"%string]> (TicketState n)) n in
    set_log (ConsensusLog n ++
      [MkConsensusEntry (Z.of_nat (length (ConsensusLog n))) ticketID "VALIDATE" now]) n
  else n.

(** One turn of the loop of [handleNodeMessages] of node [i]. *)
Definition handleNodeMessages (now : Z) (draw : spec_float) (i : nat) (w : World) : option World :=
  match nodes w !! i with
  | Some n =>
      match MessageQueue n with
      | msg :: queue =>
          let w := set_sim (set_stats (count_received (stats (sim w))) (sim w)) w in
          let n := set_queue queue n in
          let n := if IsByzantine n then handleByzantineNode draw msg n
            else handleHonestNode now msg n in
          Some (set_nodes (<[i := n]> (nodes w)) w)
      | [] => None
      end
  | None => None
  end.

(** * Partitions *)

(** [nodes[i].IsPartitioned = b] for the first [size] nodes *)
Fixpoint mark_partition (b : bool) (size : nat) (ns : list SimulatedNode) : list SimulatedNode :=
  match size, ns with
  | S size, n :: ns => set_partitioned b n :: mark_partition b size ns
  | _, _ => ns
  end.

Definition simulateNetworkPartition (w : World) : World :=
  let partitionSize := length (nodes w) / 3 in
  set_healing (healing w ++ [partitionSize])
    (set_nodes (mark_partition true partitionSize (nodes w))
      (set_sim (set_stats (count_partition (stats (sim w))) (sim w)) w)).

Definition heal (k : nat) (w : World) : option World :=
  match healing w !! k with
  | Some size =>
      Some (set_healing (delete k (healing w)) (set_nodes (mark_partition false size (nodes w)) w))
  | None => None
  end.

(** * Statistics *)

(** The tickets of a node are entered under its ID. *)
Definition enter_tickets (n : SimulatedNode) (tv : gmap string (gset string)) : gmap string (gset string) :=
  set_fold (λ t tv, <[t := {[ID n]} ∪ default ∅ (tv !! t)]> tv) tv (dom (TicketState n)).

Definition enter_honest (ns : list SimulatedNode) (honest : list nat) (tv : gmap string (gset string))
    : gmap string (gset string) :=
  foldl (λ tv i, match ns !! i with Some n => enter_tickets n tv | None => tv end) tv honest.

Definition successful_count (threshold : Z) (tv : gmap string (gset string)) : Z :=
  Z.of_nat (size (filter (λ kv : string * gset string, (threshold ≤ Z.of_nat (size kv.2))%Z) tv)).

Definition updateStats (round : Z) (w : World) : World :=
  let s := sim w in
  let st := stats s in
  let '(tv, successful, failed) :=
    if (2 <=? length (honestNodes s)) then
      let tv := enter_honest (nodes w) (honestNodes s) (ticketValidations s) in
      let count := successful_count (quorumThreshold s) tv in
      (tv, count, (round - count)%Z)
    else (ticketValidations s, SuccessfulRounds st, FailedRounds st) in
  let totalValidated := foldr Z.add 0%Z (map (λ n, Z.of_nat (size (TicketState n))) (nodes w)) in
  let validated := if (0 <? length (nodes w))
    then Z.quot totalValidated (Z.of_nat (length (nodes w))) else ValidatedTickets st in
  let st := MkSimulationStats (TotalTickets st) validated round successful failed (MessagesSent st)
    (MessagesReceived st) (PartitionEvents st) in
  set_sim (MkSimulator (cfg s) st (honestNodes s) tv (quorumThreshold s)) w.

(** * The loop *)

Definition progress_text (w : World) : string :=
  let st := stats (sim w) in
  carriage_return +:+ "Progress: " +:+ FormatInt (ticketIndex w) +:+ "/"
  +:+ FormatInt (TicketCount (cfg (sim w))) +:+ " tickets | Rounds: " +:+ FormatInt (ConsensusRounds st)
  +:+ " | Success: " +:+ FormatInt (SuccessfulRounds st) +:+ " | Failed: " +:+ FormatInt (FailedRounds st).

(** The constant [0.05] *)
Definition partition_chance : spec_float := of_ratio 5 100.

Definition maybe_partition (partition_draw : spec_float) (w : World) : World :=
  if PartitionEnabled (cfg (sim w)) && SFltb partition_draw partition_chance
  then simulateNetworkPartition w else w.

Definition show_progress (w : World) : World :=
  if (Z.rem (consensusRound w) 10 =? 0)%Z || (consensusRound w =? TicketCount (cfg (sim w)))%Z
  then print (progress_text w) w else w.

(** A tick of [Run]: [timed_out] is [time.Now().After(endTime)], [partition_draw] the number drawn
    where partitions are enabled. *)
Definition tick (now : Z) (timed_out : bool) (draws : nat → spec_float) (partition_draw : spec_float)
    (w : World) : outcome World :=
  if (TicketCount (cfg (sim w)) <=? ticketIndex w)%Z then Done (set_stage Finishing w)
  else if timed_out then
    Done (set_stage Ended (print (newline +:+ "Simulation timed out" +:+ newline) w))
  else
    match simulateTicketValidation now draws ("ticket-" +:+ FormatInt (ticketIndex w)) w with
    | Panic why => Panic why
    | Done w =>
        let w := set_loop (ticketIndex w + 1) (consensusRound w + 1) w in
        let w := maybe_partition partition_draw w in
        Done (show_progress (updateStats (consensusRound w) w))
    end.

(** After the pause that lets messages arrive. *)
Definition finish (w : World) : World :=
  let w := updateStats (consensusRound w) w in
  set_stage Ended (print (progress_text w +:+ newline +:+ "All tickets processed" +:+ newline) w).

(** A signal ends the loop. *)
Definition interrupt (w : World) : World :=
  set_stage Ended (print (newline +:+ "Simulation interrupted" +:+ newline) w).

(** * Output *)

Definition success_rate (st : SimulationStats) : spec_float :=
  fmul (fdiv (of_int (SuccessfulRounds st)) (of_int (ConsensusRounds st))) (of_int 100).

(** The lines of [PrintResults]. *)
Definition result_lines (st : SimulationStats) : list string :=
  [""; ""; "=== Simulation Results ===";
   "Total Tickets: " +:+ FormatInt (TotalTickets st);
   "Validated Tickets: " +:+ FormatInt (ValidatedTickets st);
   "Consensus Rounds: " +:+ FormatInt (ConsensusRounds st);
   "Successful Rounds: " +:+ FormatInt (SuccessfulRounds st);
   "Failed Rounds: " +:+ FormatInt (FailedRounds st);
   "Success Rate: " +:+ FormatFixed 2 (success_rate st) +:+ "%";
   "Messages Sent: " +:+ FormatInt (MessagesSent st);
   "Messages Received: " +:+ FormatInt (MessagesReceived st);
   "Partition Events: " +:+ FormatInt (PartitionEvents st);
   ""].

Definition unlines (ls : list string) : string := foldr (λ l acc, l +:+ newline +:+ acc) "" ls.

Definition PrintResults (st : SimulationStats) : string := unlines (result_lines st).

(** What [main] prints before the run. [latency] and [duration] are the texts of the durations. *)
Definition banner (c : SimulatorConfig) (duration latency : string) : string :=
  unlines
    ["=== Distributed Ticket Validation Network Simulator ===";
     "Total Nodes: " +:+ FormatInt (NodeCount c);
     "Byzantine Nodes: " +:+ FormatInt (ByzantineCount c);
     "Tickets: " +:+ FormatInt (TicketCount c);
     "Duration: " +:+ duration;
     "Network Latency: " +:+ latency;
     "Packet Loss: " +:+ FormatFixed 2 (fmul (PacketLoss c) (of_int 100)) +:+ "%";
     "Network Partitions: " +:+ (if PartitionEnabled c then "true" else "false");
     ""].

(** [bufio.ScanLines]: the lines of a text, each without its line end. *)
Definition drop_cr (s : string) : string := TrimSuffix s carriage_return.

Definition scan_lines (text : string) : list string :=
  let ls := Split text "010" in
  map drop_cr (match last ls with Some EmptyString => removelast ls | _ => ls end).
End Simulator.
