(* ===== verification/SimProps.v ===== *)
(** Properties of the simulator's controller ([SimControl], [src/pkg/supervisor/simulator.go]) and of
    the simulator it runs ([Simulator], [src/cmd/simulator/main.go]): which configurations are
    accepted, which lines are taken for duplicates, the status of a run, and that the controller reads
    back the results the simulator prints. *)

From Stdlib Require Import SpecFloat.
From stdpp Require Import sorting relations.
From S2P Require Import Prelude GoStrings Float64 Manager SimControl Simulator.

Module SimProps.
Import GoStrings Float64.

(** * Configuration *)

Section config.
Import SimControl.

(** Comparisons with NaN are false, so it is let through; JSON cannot express it. *)
Definition loss_in_range (f : spec_float) : bool :=
  match f with
  | S754_nan => true
  | _ => SFleb (S754_zero false) f && SFleb f half
  end.

Lemma loss_check f :
  SFltb f (S754_zero false) || SFltb half f = negb (loss_in_range f).
Proof.
  assert (Hh : ∃ h, half = S754_finite false h (-53)) by (eexists; by vm_compute).
  destruct Hh as [h Hh]. unfold loss_in_range, SFltb, SFleb. rewrite Hh.
  destruct f as [s|s| |s m e]; [by destruct s | by destruct s | done|].
  destruct s; [done|]. unfold SFcompare.
  rewrite (Z.compare_antisym (-53) e). destruct (-53 ?= e)%Z; try done. cbn [CompOpp orb andb negb].
  change (Pos.compare_cont Eq) with Pos.compare. rewrite (Pos.compare_antisym h m).
  by destruct (Pos.compare h m).
Qed.

(** The configurations the supervisor lets the simulator run with are exactly those with 4 to 30
    nodes, no more Byzantine ones than the network tolerates ([3 b + 1 <= n]), 1 to 1000 tickets, 10 to
    600 seconds and a packet loss rate between 0 and 0.5. There is no lower bound for the number of
    Byzantine nodes. *)
Theorem ValidateConfig_accepts c :
  ValidateConfig c = None ↔
  (4 ≤ Nodes c ≤ 30 ∧ 3 * ByzantineNodes c + 1 ≤ Nodes c ∧ 1 ≤ Tickets c ≤ 1000 ∧
   10 ≤ DurationSeconds c ≤ 600)%Z ∧ loss_in_range (PacketLossRate c) = true.
Proof.
  unfold ValidateConfig. rewrite loss_check.
  destruct (Z.ltb_spec (Nodes c) 4); [split; [done | lia]|].
  destruct (Z.ltb_spec 30 (Nodes c)); [split; [done | lia]|].
  pose proof (Z.quot_rem (Nodes c - 1) 3 ltac:(lia)).
  pose proof (Z.rem_bound_pos (Nodes c - 1) 3 ltac:(lia) ltac:(lia)).
  destruct (Z.ltb_spec (Z.quot (Nodes c - 1) 3) (ByzantineNodes c)); [split; [done | lia]|].
  destruct (Z.ltb_spec (Tickets c) 1); [split; [done | lia]|].
  destruct (Z.ltb_spec 1000 (Tickets c)); [split; [done | lia]|].
  destruct (Z.ltb_spec (DurationSeconds c) 10); [split; [done | lia]|].
  destruct (Z.ltb_spec 600 (DurationSeconds c)); [split; [done | lia]|].
  destruct (loss_in_range (PacketLossRate c)); simpl; split; try done; [|by intros [_ ?]].
  intros _. split; [lia | done].
Qed.

Example default_config_accepted : ValidateConfig DefaultSimulatorConfig = None.
Proof. by vm_compute. Qed.

(** * Duplicate lines *)

(** The calls of [isDuplicateLine], times and lines. *)
Definition dedup_after (calls : list (Z * string)) : Dedup :=
  foldl (λ d c, (isDuplicateLine c.1 c.2 d).1) (MkDedup ∅ 0) calls.

(** When a line was last given. *)
Definition last_time (line : string) (calls : list (Z * string)) : option Z :=
  foldl (λ acc c, if decide (c.2 = line) then Some c.1 else acc) None calls.

Lemma last_time_snoc line calls t l :
  last_time line (calls ++ [(t, l)]) = if decide (l = line) then Some t else last_time line calls.
Proof. unfold last_time. by rewrite foldl_app. Qed.

(** Every call remembers its line and forgets only lines not seen for twice the window. *)
Lemma isDuplicateLine_recent now line d l :
  recentLines (isDuplicateLine now line d).1 !! l = <[line := now]> (recentLines d) !! l ∨
  recentLines (isDuplicateLine now line d).1 !! l = None ∧
    ∃ t, <[line := now]> (recentLines d) !! l = Some t ∧ (t < now - 2 * dedupWindow)%Z.
Proof.
  unfold isDuplicateLine. cbv zeta.
  generalize (match recentLines d !! line with
    | Some lastSeen => (now - lastSeen <? dedupWindow)%Z | None => false end). intros [];
    [by left|]. destruct (Z.rem _ 100 =? 0)%Z; [|by left]. cbn [fst recentLines].
  destruct (<[line := now]> (recentLines d) !! l) as [t|] eqn:Hl.
  - destruct (decide (t < now - 2 * dedupWindow)%Z) as [Ht|Ht].
    + right. split; [|by exists t]. apply map_lookup_filter_None. right.
      intros x Hx. simpl. assert (x = t) as -> by congruence. tauto.
    + left. by apply map_lookup_filter_Some.
  - left. apply map_lookup_filter_None. by left.
Qed.

(** The memory agrees with the history, but for lines too old to matter at [now]. *)
Definition remembers (d : Dedup) (calls : list (Z * string)) (now : Z) : Prop :=
  ∀ line, recentLines d !! line = last_time line calls ∨
    recentLines d !! line = None ∧ ∃ t, last_time line calls = Some t ∧ (t < now - 2 * dedupWindow)%Z.

Definition in_order (calls : list (Z * string)) : Prop := StronglySorted (λ a b, a.1 ≤ b.1)%Z calls.

Lemma dedup_remembers calls now :
  in_order calls → Forall (λ c, (c.1 ≤ now)%Z) calls → remembers (dedup_after calls) calls now.
Proof.
  revert now. induction calls as [|[t l] calls IH] using rev_ind; intros now Hs Hle line; [by left|].
  apply StronglySorted_app in Hs as (Hcross & Hs & _). apply Forall_app in Hle as [Hle Ht].
  apply Forall_cons in Ht as [Ht _]. simpl in Ht.
  assert (Hle' : Forall (λ c, (c.1 ≤ t)%Z) calls).
  { apply Forall_forall. intros c Hc. apply (Hcross c (t, l)); [done | by left]. }
  pose proof (IH t Hs Hle') as Hr. unfold dedup_after. rewrite foldl_app. simpl.
  fold (dedup_after calls). rewrite last_time_snoc.
  destruct (isDuplicateLine_recent t l (dedup_after calls) line) as [Heq|(Heq & t' & Ht' & Hlt)];
    rewrite Heq; [rewrite lookup_insert|rewrite lookup_insert in Ht']; case_decide; simplify_eq.
  - by left.
  - destruct (Hr line) as [->|(-> & t' & -> & Hlt)]; [by left|]. right. split; [done|].
    exists t'. split; [done | lia].
  - exfalso. unfold dedupWindow in Hlt. lia.
  - right. split; [done|]. exists t'. split; [|lia].
    destruct (Hr line) as [<-|(Hn & _)]; [done | congruence].
Qed.

(** When time does not run backwards, a line is taken for a duplicate exactly when the same line
    was last given less than 500 milliseconds ago; the clean-up of old lines, which runs on some calls
    only, makes no difference. Since a duplicate counts as given too, a line that keeps coming in
    shorter intervals is shown once only. *)
Theorem duplicate_iff_seen_recently calls now line :
  in_order calls → Forall (λ c, (c.1 ≤ now)%Z) calls →
  (isDuplicateLine now line (dedup_after calls)).2 =
  match last_time line calls with Some t => (now - t <? 500 * 1000000)%Z | None => false end.
Proof.
  intros Hs Hle. pose proof (dedup_remembers calls now Hs Hle line) as Hr.
  unfold isDuplicateLine.
  assert (Hseen : match recentLines (dedup_after calls) !! line with
      | Some lastSeen => (now - lastSeen <? dedupWindow)%Z | None => false end
    = match last_time line calls with Some t => (now - t <? 500 * 1000000)%Z | None => false end).
  { destruct Hr as [->|(-> & t & -> & Hlt)]; [done|]. unfold dedupWindow in Hlt.
    symmetry. apply Z.ltb_ge. lia. }
  rewrite Hseen. repeat case_match; simplify_eq; done.
Qed.

Lemma duplicate_iff_seen_recently_witness :
  (isDuplicateLine 700000000 "a" (dedup_after [(0%Z, "a"%string); (400000000%Z, "a"%string)])).2 = true.
Proof.
  rewrite duplicate_iff_seen_recently; [by vm_compute | | ].
  - repeat constructor; simpl; lia.
  - repeat constructor; simpl; lia.
Defined.

(** * Runs *)

(** The events of the goroutine of a run carry its number. *)
Inductive sim_event :=
| SimStart (c : SimulatorConfig)
| SimStop
| SimBegin (k : nat)
| SimStarted (k : nat) (outcome : Manager.start_outcome)
| SimLine (k : nat) (now : Z) (line : string)
| SimEof (k : nat)
| SimExit (k : nat) (err : error).

Definition run_sim_event (ev : sim_event) (w : World) : option World :=
  match ev with
  | SimStart c => Some (Start c w).1.1
  | SimStop => Some (Stop w).1
  | SimBegin k => run_begin k w
  | SimStarted k outcome => fst <$> run_start k outcome w
  | SimLine k now line => fst <$> run_line k now line w
  | SimEof k => run_eof k w
  | SimExit k err => fst <$> run_exit k err w
  end.

Definition sim_reachable (w : World) : Prop :=
  ∃ scfg, rtc (λ w w', ∃ ev, run_sim_event ev w = Some w') (new_world scfg) w.

Lemma addOutput_status line s : status (addOutput line s) = status s.
Proof. unfold addOutput. by case_decide. Qed.

Lemma record_line_status line s : status (record_line line s).1 = status s.
Proof.
  unfold record_line. rewrite <- (addOutput_status line s). generalize (addOutput line s). intros s'.
  destruct (parse_progress line); destruct (resultRegex line) as [[key value]|];
    destruct (str_contains _ _); simpl; repeat case_match; done.
Qed.

Lemma streamOutput_line_status now line s : status (streamOutput_line now line s).1 = status s.
Proof.
  unfold streamOutput_line. destruct (isDuplicateLine now line (dedup s)) as [d []]; [done|].
  by rewrite record_line_status.
Qed.

(** Whether a run is going on, and which. *)
Definition one_run (w : World) : Prop :=
  match runs w with
  | 0 => live w = ∅ ∧ status (sim w) ≠ SimulatorStatusRunning
  | S k => live w = ∅ ∧ status (sim w) ≠ SimulatorStatusRunning ∨
      status (sim w) = SimulatorStatusRunning ∧ ∃ st, live w = {[k := st]}
  end.

(** A goroutine that takes a step is the only one. *)
Lemma one_run_live w k st :
  one_run w → live w !! k = Some st →
  runs w = S k ∧ status (sim w) = SimulatorStatusRunning ∧ live w = {[k := st]}.
Proof.
  unfold one_run. destruct (runs w) as [|k'].
  { intros [-> _] Hk. by rewrite lookup_empty in Hk. }
  intros [[-> _]|(Hs & st' & Hl)] Hk; [by rewrite lookup_empty in Hk|].
  rewrite Hl in Hk. apply lookup_singleton_Some in Hk as [-> ->]. done.
Qed.

(** It goes on to another stage, without a change of the status, or returns with a status. *)
Lemma one_run_stage w k st s :
  runs w = S k → status (sim w) = SimulatorStatusRunning → (∃ st', live w = {[k := st']}) →
  status s = SimulatorStatusRunning → one_run (set_stage k st (set_sim s w)).
Proof.
  intros Hk _ (st' & Hl) Hs. unfold one_run. cbn. rewrite Hk, Hl. right. split; [done|].
  exists st. apply insert_singleton_eq.
Qed.

Lemma one_run_returned w k s :
  runs w = S k → (∃ st, live w = {[k := st]}) → status s ≠ SimulatorStatusRunning →
  one_run (returned k (set_sim s w)).
Proof.
  intros Hk (st & Hl) Hs. unfold one_run. cbn. rewrite Hk, Hl. left. split; [|done].
  apply delete_singleton_eq.
Qed.

Lemma one_run_step ev w w' : run_sim_event ev w = Some w' → one_run w → one_run w'.
Proof.
  intros Hev Hone. destruct ev as [c| |k|k outcome|k now line|k|k err]; simpl in Hev.
  - unfold Start in Hev. case_decide as Hst; simplify_eq/=; [done|].
    assert (Hl : live w = ∅).
    { revert Hone. unfold one_run. destruct (runs w); [by intros [? _]|]. by intros [[? _]|[? _]]. }
    unfold one_run. cbn. rewrite Hl. right. split; [done|]. by eexists.
  - unfold Stop in Hev. repeat case_match; simplify_eq; done.
  - unfold run_begin in Hev. destruct (live w !! k) as [[cfg| |]|] eqn:Hl; simplify_eq.
    destruct (one_run_live _ _ _ Hone Hl) as (Hk & Hs & He). apply one_run_stage; eauto.
  - unfold run_start in Hev. destruct (live w !! k) as [[|c|]|] eqn:Hl; try done.
    destruct (one_run_live _ _ _ Hone Hl) as (Hk & Hs & He).
    destruct outcome; simplify_eq/=;
      try (apply one_run_returned; [done|by eauto|by rewrite addOutput_status]).
    apply one_run_stage; eauto.
  - unfold run_line in Hev. destruct (live w !! k) as [[| |[]]|] eqn:Hl; try done.
    pose proof (streamOutput_line_status now line (sim w)) as Hs.
    destruct (streamOutput_line now line (sim w)) as [s cbs]. simplify_eq/=.
    revert Hone. unfold one_run. cbn. by rewrite Hs.
  - unfold run_eof in Hev. destruct (live w !! k) as [[| |[|open]]|] eqn:Hl; simplify_eq.
    destruct (one_run_live _ _ _ Hone Hl) as (Hk & Hs & He).
    apply (one_run_stage w k (RunStreaming open) (sim w)); eauto.
  - unfold run_exit in Hev. destruct (live w !! k) as [[| |[]]|] eqn:Hl; try done.
    destruct (one_run_live _ _ _ Hone Hl) as (Hk & Hs & He).
    repeat case_match; simplify_eq/=; (apply one_run_returned; [done|by eauto|by rewrite addOutput_status]).
Qed.

(** C28: at most one simulation runs at a time, and the controller says so. Whatever the requests to start
    and to stop and the interleaving of the goroutines of all runs, a goroutine of a run is there only
    while the status is running, it is the only one, and it is that of the last start that was accepted;
    the status is running only while there is one. A start while one is there is refused and starts no
    other; the status of a run is changed by nothing but its own goroutine, when it returns. *)
Theorem running_iff_run w :
  sim_reachable w →
  (status (sim w) = SimulatorStatusRunning ↔ live w ≠ ∅) ∧
  size (live w) ≤ 1 ∧
  (∀ k st, live w !! k = Some st → runs w = S k) ∧
  (∀ ev w', live w ≠ ∅ → run_sim_event ev w = Some w' →
    runs w' = runs w ∧ (live w' = ∅ → ∃ k, live w !! k ≠ None ∧
      ((∃ outcome, ev = SimStarted k outcome) ∨ ∃ err, ev = SimExit k err))).
Proof.
  intros (scfg & Hr).
  assert (Hone : one_run w).
  { assert (Hinit : one_run (new_world scfg)) by done. revert Hinit.
    induction Hr as [|w0 w1 w2 (ev & Hev) _ IH]; [done|]. eauto using one_run_step. }
  assert (Hcases : (status (sim w) = SimulatorStatusRunning ∧ ∃ k st, runs w = S k ∧ live w = {[k := st]}) ∨
    (status (sim w) ≠ SimulatorStatusRunning ∧ live w = ∅)).
  { revert Hone. unfold one_run. destruct (runs w) as [|k]; [intros [? ?]; by right|].
    intros [[? ?]|(? & st & ?)]; [by right|]. left. eauto. }
  clear Hr. destruct Hcases as [(Hs & k & st & Hk & Hl)|[Hs Hl]].
  2:{ rewrite Hl. split_and!; [tauto|by rewrite map_size_empty; lia| |].
      - intros k st. by rewrite lookup_empty.
      - intros ev w' Hne. destruct (Hne eq_refl). }
  assert (Hne : live w ≠ ∅) by (rewrite Hl; apply map_non_empty_singleton).
  split_and!; [tauto|by rewrite Hl, map_size_singleton| |].
  { intros k' st' Hk'. rewrite Hl in Hk'. by apply lookup_singleton_Some in Hk' as [<- _]. }
  intros ev w' _ Hev. destruct ev as [c| |j|j outcome|j now line|j|j err]; simpl in Hev.
  - unfold Start in Hev. rewrite decide_True in Hev by done. by simplify_eq/=.
  - unfold Stop in Hev. repeat case_match; by simplify_eq/=.
  - unfold run_begin in Hev. repeat case_match; simplify_eq/=. split; [done|].
    intros He. by apply insert_non_empty in He.
  - unfold run_start in Hev. destruct (live w !! j) as [[|c|]|] eqn:Hj; try done.
    assert (runs w' = runs w) as -> by (destruct outcome; by simplify_eq/=).
    split; [done|]. intros _. exists j. split; [by rewrite Hj|left; by exists outcome].
  - unfold run_line in Hev. destruct (live w !! j) as [[| |[]]|]; try done.
    destruct (streamOutput_line now line (sim w)). by simplify_eq/=.
  - unfold run_eof in Hev. repeat case_match; simplify_eq/=. split; [done|].
    intros He. by apply insert_non_empty in He.
  - unfold run_exit in Hev. destruct (live w !! j) as [[| |[]]|] eqn:Hj; try done.
    assert (runs w' = runs w) as -> by (repeat case_match; by simplify_eq/=).
    split; [done|]. intros _. exists j. split; [by rewrite Hj|right; by exists err].
Qed.

Definition demo_cfg : SimulatorControllerConfig := MkSimulatorControllerConfig "bin/simulator" 0 true true true.

Fixpoint run_sim_events (evs : list sim_event) (w : World) : option World :=
  match evs with
  | [] => Some w
  | ev :: evs => match run_sim_event ev w with Some w => run_sim_events evs w | None => None end
  end.

Lemma run_sim_events_reachable evs w :
  run_sim_events evs (new_world demo_cfg) = Some w → sim_reachable w.
Proof.
  intros H. exists demo_cfg. revert H. generalize (new_world demo_cfg).
  induction evs as [|ev evs IH]; intros w0; simpl; [by intros [= ->]|].
  destruct (run_sim_event ev w0) as [w1|] eqn:Hev; [|done].
  intros Hw. eapply rtc_l; [by exists ev | by apply IH].
Qed.

(** A second start while the first run is at work *)
Lemma running_iff_run_witness : ∃ w,
  run_sim_events [SimStart DefaultSimulatorConfig; SimBegin 0; SimStart DefaultSimulatorConfig]
    (new_world demo_cfg) = Some w ∧
  status (sim w) = SimulatorStatusRunning ∧ size (live w) ≤ 1 ∧ is_Some (live w !! 0).
Proof.
  eexists. split; [reflexivity|].
  match goal with |- status (sim ?w) = _ ∧ _ =>
    assert (Hw : sim_reachable w) by
      (apply (run_sim_events_reachable
        [SimStart DefaultSimulatorConfig; SimBegin 0; SimStart DefaultSimulatorConfig]); reflexivity);
    destruct (running_iff_run w Hw) as (_ & Hsize & _) end.
  split; [reflexivity|]. split; [exact Hsize|]. vm_compute. eexists; reflexivity.
Defined.

(** [Stop] before the run's goroutine has made its context answers success and does nothing: the run
    goes on and completes. *)
Example early_stop_is_lost : ∃ w1 w2,
  run_sim_events [SimStart DefaultSimulatorConfig] (new_world demo_cfg) = Some w1 ∧
  Stop w1 = (w1, None) ∧
  run_sim_events [SimBegin 0; SimStarted 0 Manager.Started; SimEof 0; SimEof 0; SimExit 0 None] w1 = Some w2 ∧
  status (sim w2) = SimulatorStatusComplete.
Proof.
  eexists _, _. split; [reflexivity|]. split; [reflexivity|]. split; [vm_compute; reflexivity|].
  by vm_compute.
Qed.
End config.

(** * Reading back what the simulator prints *)

Section results.
Import SimControl.

(** ** Lines *)

Definition no_newline (s : string) : bool := all_chars (λ c, negb (Ascii.eqb c "010")) s.

Lemma Split_app_newline l rest :
  no_newline l = true → Split (l +:+ Simulator.newline +:+ rest) "010" = l :: Split rest "010".
Proof.
  unfold no_newline. induction l as [|c l IH]; [done|].
  change (String c l +:+ Simulator.newline +:+ rest)
    with (String c (l +:+ Simulator.newline +:+ rest)).
  cbn [all_chars Split]. intros [Hc Hl]%andb_true_iff. apply negb_true_iff in Hc.
  by rewrite Hc, (IH Hl).
Qed.

Lemma Split_unlines ls :
  forallb no_newline ls = true → Split (Simulator.unlines ls) "010" = ls ++ [""%string].
Proof.
  induction ls as [|l ls IH]; [done|]. cbn [forallb Simulator.unlines foldr].
  intros [Hl Hls]%andb_true_iff. rewrite Split_app_newline by done.
  exact (f_equal (cons l) (IH Hls)).
Qed.

(** A text of complete lines is read as these lines. *)
Lemma scan_lines_unlines ls :
  forallb no_newline ls = true →
  Simulator.scan_lines (Simulator.unlines ls) = map Simulator.drop_cr ls.
Proof.
  intros Hls. unfold Simulator.scan_lines. rewrite Split_unlines by done.
  rewrite last_snoc. f_equal. apply removelast_last.
Qed.

(** ** One result *)

Definition is_number_char (c : ascii) : bool := is_digit c || (c =? ".")%char.
Definition is_key_char (c : ascii) : bool := is_word c || is_re_space c.

(** A line [key: number], with or without a percent sign. *)
Lemma resultRegex_line c key num tail :
  is_word c = true → all_chars is_key_char (String c key) = true →
  all_chars is_number_char num = true → nonempty num = true → (tail = ""%string ∨ tail = "%"%string) →
  resultRegex (String c key +:+ ": " +:+ num +:+ tail) = Some (String c key, num +:+ tail).
Proof.
  intros Hc Hkey Hnum Hne Htail. unfold resultRegex.
  set (line := String c key +:+ ": " +:+ num +:+ tail).
  assert (Hat : result_at line = Some (String c key, num +:+ tail)).
  { unfold line, result_at.
    change (String c key +:+ ": " +:+ num +:+ tail) with (String c (key +:+ ": " +:+ num +:+ tail)).
    cbv beta iota. rewrite Hc. change (String c (key +:+ ": " +:+ num +:+ tail)) with (String c key +:+ ": " +:+ num +:+ tail).
    change (λ c, is_word c || is_re_space c) with is_key_char. rewrite span_all by done.
    change (": " +:+ num +:+ tail) with (String ":" (" " +:+ num +:+ tail)).
    rewrite (span_stop _ ":") by done. cbn [fst snd].
    rewrite str_app_nil_r.
    change (String ":" (" " +:+ num +:+ tail)) with (": " +:+ (num +:+ tail)). rewrite lit_app.
    change (λ c, is_digit c || (c =? ".")%char) with is_number_char. rewrite span_all by done.
    destruct Htail as [-> | ->].
    - cbn [span fst snd has_prefix]. rewrite !str_app_nil_r, Hne. done.
    - rewrite (span_stop _ "%") by done. cbn [fst snd]. rewrite str_app_nil_r, Hne. done. }
  assert (∃ c' rest, line = String c' rest) as (c' & rest & Heq) by (by eexists _, _).
  rewrite Heq in *. cbn [find_first]. by rewrite Hat.
Qed.

Lemma read_decimal_digits s acc :
  all_chars is_digit s = true → read_decimal s false acc 0 = Some (acc +:+ s, 0).
Proof.
  revert acc. induction s as [|c s IH]; intros acc; [by rewrite str_app_nil_r|].
  cbn [all_chars read_decimal]. intros [Hc Hs]%andb_true_iff.
  destruct (Ascii.eqb_spec c ".") as [->|]; [done|]. rewrite IH by done. by rewrite str_app_assoc.
Qed.

Lemma ParseFloat_FormatInt n : (0 ≤ n)%Z → ParseFloat (FormatInt n) = of_int n.
Proof.
  intros Hn. unfold ParseFloat. rewrite read_decimal_digits by by apply FormatInt_digits.
  change ("" +:+ FormatInt n) with (FormatInt n). rewrite FormatInt_value by done.
  by destruct n.
Qed.

Lemma all_chars_weaken (p q : ascii → bool) s :
  (∀ c, p c = true → q c = true) → all_chars p s = true → all_chars q s = true.
Proof.
  intros Hpq. induction s as [|c s IH]; [done|]. cbn [all_chars].
  intros [Hc Hs]%andb_true_iff. rewrite (Hpq _ Hc). by apply IH.
Qed.

Lemma FormatInt_number n :
  (0 ≤ n)%Z → all_chars is_number_char (FormatInt n) = true ∧ nonempty (FormatInt n) = true.
Proof.
  intros Hn. split.
  - apply (all_chars_weaken is_digit); [|by apply FormatInt_digits].
    intros c Hc. unfold is_number_char. by rewrite Hc.
  - by destruct (FormatInt_cons n Hn) as (c & s & -> & _).
Qed.

(** ** Feeding lines *)

(** What a line that is no duplicate does to the results. *)
Definition act (r : option SimulatorResults) (line : string) : option SimulatorResults :=
  let r := if str_contains line "=== Simulation Results ===" then Some (default zero_results r) else r in
  match resultRegex line with
  | Some (key, value) =>
      let num := ParseFloat (TrimSuffix value "%") in
      Some (put_result (TrimSpace key) (to_int num) num (default zero_results r))
  | None => r
  end.

Lemma addOutput_keeps line s : results (addOutput line s) = results s ∧ dedup (addOutput line s) = dedup s.
Proof. unfold addOutput. by case_decide. Qed.

Lemma record_line_results line s :
  results (record_line line s).1 = act (results s) line ∧ dedup (record_line line s).1 = dedup s.
Proof.
  unfold record_line, act. destruct (addOutput_keeps line s) as [<- <-].
  generalize (addOutput line s). intros s'.
  destruct (parse_progress line); destruct (str_contains _ _); simpl;
    destruct (results s') eqn:Hr; simpl; destruct (resultRegex line) as [[key value]|]; simpl;
    rewrite ?Hr; done.
Qed.

Definition feed (s : SimulatorController) (inputs : list (Z * string)) : SimulatorController :=
  foldl (λ s i, (streamOutput_line i.1 i.2 s).1) s inputs.

(** At the times given, the line was not seen within the window. *)
Definition fresh (d : Dedup) (times : list Z) (line : string) : Prop :=
  ∀ t0, recentLines d !! line = Some t0 → Forall (λ t, dedupWindow ≤ t - t0)%Z times.

Lemma isDuplicateLine_fresh_other now line d times l :
  l ≠ line → fresh d times l → fresh (isDuplicateLine now line d).1 times l.
Proof.
  intros Hne Hl t0. destruct (isDuplicateLine_recent now line d l) as [->|[-> _]]; [|done].
  rewrite lookup_insert_ne by done. apply Hl.
Qed.

Lemma isDuplicateLine_fresh now line d times :
  fresh d (now :: times) line → (isDuplicateLine now line d).2 = false.
Proof.
  intros Hl. unfold isDuplicateLine. unfold fresh in Hl. destruct (recentLines d !! line) as [t0|].
  - specialize (Hl t0 eq_refl). apply Forall_cons in Hl as [Hl _].
    rewrite (proj2 (Z.ltb_ge _ _) Hl). by case_match.
  - by case_match.
Qed.

Lemma fresh_tail d t times l : fresh d (t :: times) l → fresh d times l.
Proof. intros Hl t0 Ht0. specialize (Hl t0 Ht0). by apply Forall_cons in Hl as [_ ?]. Qed.

(** Fresh lines act one after the other; empty lines may repeat, they do nothing. *)
Lemma feed_results times ls s :
  length times = length ls → NoDup (filter (λ l, l ≠ ""%string) ls) →
  (∀ l, l ∈ ls → l ≠ ""%string → fresh (dedup s) times l) →
  results (feed s (zip times ls)) = foldl act (results s) ls.
Proof.
  revert times s. induction ls as [|l ls IH]; intros [|t times] s Hlen Hnd Hnew; try done.
  injection Hlen as Hlen. cbn [zip zip_with feed foldl fst snd].
  assert (Hd : dedup (streamOutput_line t l s).1 = (isDuplicateLine t l (dedup s)).1).
  { unfold streamOutput_line. destruct (isDuplicateLine t l (dedup s)) as [d []]; [done|].
    by rewrite (proj2 (record_line_results _ _)). }
  assert (Hr : results (streamOutput_line t l s).1 = act (results s) l).
  { unfold streamOutput_line. destruct (decide (l = ""%string)) as [->|Hl].
    - destruct (isDuplicateLine t "" (dedup s)) as [d []].
      + done.
      + by rewrite (proj1 (record_line_results _ _)).
    - pose proof (isDuplicateLine_fresh t l (dedup s) times (Hnew l ltac:(by left) Hl)) as Hdup.
      destruct (isDuplicateLine t l (dedup s)) as [d []]; [done|].
      by rewrite (proj1 (record_line_results _ _)). }
  rewrite <- Hr. apply IH; [done | |].
  - rewrite filter_cons in Hnd. case_decide; [by apply NoDup_cons in Hnd as [_ ?] | done].
  - intros l' Hl' Hne. rewrite Hd. apply isDuplicateLine_fresh_other.
    2:{ eapply fresh_tail, Hnew; [by right | done]. }
    intros ->. rewrite filter_cons_True in Hnd by done. apply NoDup_cons in Hnd as [Hnin _].
    apply Hnin. by apply list_elem_of_filter.
Qed.

Lemma act_result c key n r :
  is_word c = true → all_chars is_key_char (String c key) = true → (0 ≤ n < 2 ^ 53)%Z →
  act (Some r) (String c key +:+ ": " +:+ FormatInt n)
  = Some (put_result (TrimSpace (String c key)) n (of_int n) r).
Proof.
  intros Hc Hkey Hn. destruct (FormatInt_number n ltac:(lia)) as [Hnum Hne].
  pose proof (resultRegex_line c key (FormatInt n) "" Hc Hkey Hnum Hne ltac:(by left)) as Hre.
  rewrite str_app_nil_r in Hre. unfold act. rewrite Hre.
  rewrite (TrimSuffix_none is_number_char) by done.
  rewrite ParseFloat_FormatInt, to_int_of_int by lia. by case_match.
Qed.

(** ** The success rate *)

Definition not_negative (f : spec_float) : Prop :=
  match f with S754_nan => True | S754_zero s | S754_infinity s | S754_finite s _ _ => s = false end.

Lemma round_not_negative m e l : not_negative (binary_round_aux prec emax false m e l).
Proof. unfold binary_round_aux. repeat case_match; done. Qed.

Lemma of_int_not_negative n : (0 ≤ n)%Z → not_negative (of_int n).
Proof.
  intros Hn. destruct n as [|p|]; [done| |lia]. unfold of_int, binary_normalize, binary_round.
  case_match. apply round_not_negative.
Qed.

Lemma fdiv_not_negative x y : not_negative x → not_negative y → not_negative (fdiv x y).
Proof.
  unfold fdiv. destruct x as [s|s| |s m e], y as [s'|s'| |s' m' e']; simpl; intros; subst; try done.
  destruct (SFdiv_core_binary _ _ _ _ _ _) as [[mz ez] lz]. apply round_not_negative.
Qed.

Lemma fmul_not_negative x y : not_negative x → not_negative y → not_negative (fmul x y).
Proof.
  unfold fmul. destruct x as [s|s| |s m e], y as [s'|s'| |s' m' e']; simpl; intros; subst; try done.
  apply round_not_negative.
Qed.

Lemma success_rate_not_negative st :
  (0 ≤ Simulator.SuccessfulRounds st)%Z → (0 ≤ Simulator.ConsensusRounds st)%Z →
  not_negative (Simulator.success_rate st).
Proof.
  intros Hs Hr. apply fmul_not_negative; [apply fdiv_not_negative|]; apply of_int_not_negative; lia.
Qed.

Lemma pad_zeros_number k s :
  all_chars is_number_char s = true → all_chars is_number_char (pad_zeros k s) = true.
Proof. intros Hs. by induction k. Qed.

Lemma all_chars_app p s t : all_chars p (s +:+ t) = all_chars p s && all_chars p t.
Proof.
  induction s as [|c s IH]; [done|]. change (String c s +:+ t) with (String c (s +:+ t)).
  cbn [all_chars]. rewrite IH. apply andb_assoc.
Qed.

Lemma decimal_text_number k q :
  (0 ≤ q)%Z → all_chars is_number_char (decimal_text k q) = true ∧ nonempty (decimal_text k q) = true.
Proof.
  intros Hq. unfold decimal_text.
  assert (Hpow : (0 < 10 ^ Z.of_nat k)%Z) by lia.
  pose proof (Z.div_pos q (10 ^ Z.of_nat k) Hq Hpow) as Hdiv.
  destruct (FormatInt_number (q / 10 ^ Z.of_nat k) Hdiv) as [Hn Hne].
  destruct (FormatInt_number (q mod 10 ^ Z.of_nat k) ltac:(apply Z.mod_pos_bound; lia)) as [Hm _].
  split.
  - rewrite all_chars_app, Hn. case_match; [|done].
    rewrite all_chars_app. by apply pad_zeros_number.
  - destruct (FormatInt_cons (q / 10 ^ Z.of_nat k) Hdiv) as (c & s & -> & _). done.
Qed.

Lemma scaled_nonneg m e k : (0 ≤ scaled m e k)%Z.
Proof.
  unfold scaled. case_match; [lia|].
  assert (0 ≤ Z.pos m * 10 ^ Z.of_nat k / 2 ^ (- e))%Z by (apply Z.div_pos; lia).
  repeat case_match; lia.
Qed.

(** What is read back of a printed rate: nothing of a rate that is no number, which leaves [earlier]. *)
Definition reread (earlier f : spec_float) : spec_float :=
  match f with
  | S754_nan | S754_infinity _ => earlier
  | _ => ParseFloat (FormatFixed 2 f)
  end.

Lemma FormatFixed_number f :
  not_negative f → (∀ s, f ≠ S754_infinity s) → f ≠ S754_nan →
  all_chars is_number_char (FormatFixed 2 f) = true ∧ nonempty (FormatFixed 2 f) = true.
Proof.
  intros Hf Hinf Hnan. destruct f as [s|s| |s m e]; simpl in Hf; try subst s.
  - by vm_compute.
  - by destruct (Hinf false).
  - done.
  - unfold FormatFixed. change ("" +:+ decimal_text 2 (scaled m e 2)) with (decimal_text 2 (scaled m e 2)).
    apply decimal_text_number, scaled_nonneg.
Qed.

Definition set_rate (rate : spec_float) (r : SimulatorResults) : SimulatorResults :=
  put_result "Success Rate" 0 rate r.

Lemma act_rate f r :
  not_negative f →
  act (Some r) ("Success Rate: " +:+ FormatFixed 2 f +:+ "%") =
    Some (set_rate (reread (SuccessRate r) f) r).
Proof.
  intros Hf.
  assert (Hnone : ∀ line, resultRegex line = None → act (Some r) line = Some r).
  { intros line Hl. unfold act. rewrite Hl. by case_match. }
  assert (Hsame : set_rate (SuccessRate r) r = r) by by destruct r.
  destruct f as [s|s| |s m e] eqn:Heq.
  2: { simpl in Hf. subst s. rewrite Hnone by by vm_compute. unfold reread. by rewrite Hsame. }
  2: { rewrite Hnone by by vm_compute. unfold reread. by rewrite Hsame. }
  all: rewrite <- Heq in *;
    destruct (FormatFixed_number f Hf ltac:(by subst f) ltac:(by subst f)) as [Hnum Hne];
    assert (Hrr : reread (SuccessRate r) f = ParseFloat (FormatFixed 2 f)) by (by subst f);
    rewrite Hrr; clear Heq Hrr;
    pose proof (resultRegex_line "S" "uccess Rate" (FormatFixed 2 f) "%" eq_refl eq_refl Hnum Hne
      ltac:(by right)) as Hre;
    change (String "S" "uccess Rate" +:+ ": " +:+ FormatFixed 2 f +:+ "%")
      with ("Success Rate: " +:+ FormatFixed 2 f +:+ "%") in Hre;
    unfold act; rewrite Hre, (TrimSuffix_app (FormatFixed 2 f) "%");
    (case_match; cbn [default]; by destruct r).
Qed.

(** ** All results *)

Definition stats_small (st : Simulator.SimulationStats) : Prop :=
  Forall (λ n, 0 ≤ n < 2 ^ 53)%Z
    [Simulator.TotalTickets st; Simulator.ValidatedTickets st; Simulator.ConsensusRounds st;
     Simulator.SuccessfulRounds st; Simulator.FailedRounds st; Simulator.MessagesSent st;
     Simulator.MessagesReceived st; Simulator.PartitionEvents st].

Lemma no_newline_app s t : no_newline (s +:+ t) = no_newline s && no_newline t.
Proof. apply all_chars_app. Qed.

Lemma number_no_newline s : all_chars is_number_char s = true → no_newline s = true.
Proof.
  apply all_chars_weaken. intros c Hc. destruct (Ascii.eqb_spec c "010") as [->|]; done.
Qed.

Lemma no_cr s : all_chars (λ c, negb (Ascii.eqb c "013")) s = true → Simulator.drop_cr s = s.
Proof. intros Hs. by apply (TrimSuffix_none (λ c, negb (Ascii.eqb c "013"))). Qed.

Lemma result_number_plain key n :
  no_newline key = true → all_chars (λ c, negb (Ascii.eqb c "013")) key = true → (0 ≤ n)%Z →
  no_newline (key +:+ FormatInt n) = true ∧
  Simulator.drop_cr (key +:+ FormatInt n) = key +:+ FormatInt n.
Proof.
  intros Hk Hc Hn. destruct (FormatInt_number n Hn) as [Hnum _]. split.
  - rewrite no_newline_app, Hk. by apply number_no_newline.
  - apply no_cr. rewrite all_chars_app, Hc. revert Hnum. apply all_chars_weaken.
    intros c Hd. destruct (Ascii.eqb_spec c "013") as [->|]; done.
Qed.

Lemma FormatFixed_plain f :
  not_negative f → all_chars (λ c, negb (Ascii.eqb c "010") && negb (Ascii.eqb c "013")) (FormatFixed 2 f) = true.
Proof.
  intros Hf. destruct f as [s|s| |s m e] eqn:Heq; [..|].
  2: { simpl in Hf. subst s. by vm_compute. }
  2: by vm_compute.
  all: rewrite <- Heq in *;
    destruct (FormatFixed_number f Hf ltac:(by subst f) ltac:(by subst f)) as [Hnum _];
    revert Hnum; apply all_chars_weaken; intros c Hd;
    destruct (Ascii.eqb_spec c "010") as [->|]; [done|];
    destruct (Ascii.eqb_spec c "013") as [->|]; done.
Qed.

(** The printed text is read as the printed lines. *)
Lemma scan_PrintResults st :
  stats_small st → Simulator.scan_lines (Simulator.PrintResults st) = Simulator.result_lines st.
Proof.
  unfold stats_small. rewrite !Forall_cons. intros (H1 & H2 & H3 & H4 & H5 & H6 & H7 & H8 & _).
  pose proof (FormatFixed_plain _ (success_rate_not_negative st ltac:(lia) ltac:(lia))) as Hrate.
  assert (Hr : no_newline ("Success Rate: " +:+ FormatFixed 2 (Simulator.success_rate st) +:+ "%") = true
    ∧ Simulator.drop_cr ("Success Rate: " +:+ FormatFixed 2 (Simulator.success_rate st) +:+ "%")
      = "Success Rate: " +:+ FormatFixed 2 (Simulator.success_rate st) +:+ "%").
  { split.
    - rewrite !no_newline_app. unfold no_newline at 2.
      rewrite (all_chars_weaken _ (λ c, negb (Ascii.eqb c "010")) _ ltac:(by intros c [? _]%andb_true_iff) Hrate).
      done.
    - apply no_cr. rewrite !all_chars_app.
      rewrite (all_chars_weaken _ (λ c, negb (Ascii.eqb c "013")) _ ltac:(by intros c [_ ?]%andb_true_iff) Hrate).
      done. }
  unfold Simulator.PrintResults, Simulator.result_lines.
  destruct Hr as [Hr1 Hr2].
  repeat match goal with
  | H : (0 ≤ ?n < 2 ^ 53)%Z |- _ =>
      match goal with |- context [?k +:+ FormatInt n] =>
        let H1 := fresh "Hn" in let H2 := fresh "Hn" in
        destruct (result_number_plain k n eq_refl eq_refl ltac:(lia)) as [H1 H2]; clear H;
        revert H1 H2
      end
  end. intros.
  rewrite scan_lines_unlines.
  - cbn [map]. repeat match goal with H : Simulator.drop_cr _ = _ |- _ => rewrite H; clear H end. done.
  - cbn [forallb]. repeat match goal with H : no_newline _ = true |- _ => rewrite H; clear H end. done.
Qed.

Lemma result_lines_distinct st : NoDup (filter (λ l, l ≠ ""%string) (Simulator.result_lines st)).
Proof.
  unfold Simulator.result_lines.
  repeat first [rewrite filter_cons_False by (intros H; by apply H)
               | rewrite filter_cons_True by done]. rewrite filter_nil.
  repeat (apply NoDup_cons; split; [rewrite ?elem_of_cons, elem_of_nil; intuition discriminate|]).
  constructor.
Qed.

Lemma act_empty o : act o "" = o.
Proof. by vm_compute. Qed.

Lemma act_head o : act o "=== Simulation Results ===" = Some (default zero_results o).
Proof. unfold act. replace (str_contains _ _) with true by by vm_compute. by vm_compute. Qed.

(** One printed number, for the line as it is written in [result_lines]. *)
Lemma act_line c key n line r :
  is_word c = true → all_chars is_key_char (String c key) = true →
  TrimSpace (String c key) = String c key →
  String c (key +:+ ": " +:+ FormatInt n) = line → (0 ≤ n < 2 ^ 53)%Z →
  act (Some r) line = Some (put_result (String c key) n (of_int n) r).
Proof. intros Hc Hkey Htrim <- Hn. rewrite <- Htrim. exact (act_result c key n r Hc Hkey Hn). Qed.

(** C37: the controller reads back what the simulator prints. Whatever numbers below [2^53] a simulation
    ends with and whatever results the controller has by then (every line with a word, a colon and a
    number makes some, the banner's too), when the text of [PrintResults] is scanned line by line and no
    such line was seen within the window of 500 ms before, the controller's results are exactly these
    numbers, and the success rate is the printed one, rounded to two decimals. Two fields can keep what
    was there before, zero at the start of a run: the success rate where the printed one is no
    number (no rounds), and the average latency, which no line sets. *)
Theorem results_read_back st s times :
  stats_small st → length times = 13 →
  (∀ l, l ∈ Simulator.result_lines st → l ≠ ""%string → fresh (dedup s) times l) →
  let earlier := default zero_results (results s) in
  results (feed s (zip times (Simulator.scan_lines (Simulator.PrintResults st))))
  = Some (MkSimulatorResults (Simulator.TotalTickets st) (Simulator.ValidatedTickets st)
      (Simulator.ConsensusRounds st) (Simulator.SuccessfulRounds st) (Simulator.FailedRounds st)
      (reread (SuccessRate earlier) (Simulator.success_rate st)) (Simulator.MessagesSent st)
      (Simulator.MessagesReceived st) (Simulator.PartitionEvents st) (AverageLatencyMs earlier)).
Proof.
  intros Hst Hlen Hnew earlier. rewrite scan_PrintResults by done.
  rewrite feed_results; [|done | apply result_lines_distinct | done].
  revert Hst. unfold stats_small. rewrite !Forall_cons. intros (H1 & H2 & H3 & H4 & H5 & H6 & H7 & H8 & _).
  pose proof (success_rate_not_negative st ltac:(lia) ltac:(lia)) as Hrate.
  unfold Simulator.result_lines. cbn [foldl].
  rewrite !act_empty, act_head. fold earlier. clearbody earlier.
  rewrite (act_line "T" "otal Tickets" _ _ _ eq_refl eq_refl eq_refl eq_refl H1).
  rewrite (act_line "V" "alidated Tickets" _ _ _ eq_refl eq_refl eq_refl eq_refl H2).
  rewrite (act_line "C" "onsensus Rounds" _ _ _ eq_refl eq_refl eq_refl eq_refl H3).
  rewrite (act_line "S" "uccessful Rounds" _ _ _ eq_refl eq_refl eq_refl eq_refl H4).
  rewrite (act_line "F" "ailed Rounds" _ _ _ eq_refl eq_refl eq_refl eq_refl H5).
  rewrite (act_rate _ _ Hrate).
  rewrite (act_line "M" "essages Sent" _ _ _ eq_refl eq_refl eq_refl eq_refl H6).
  rewrite (act_line "M" "essages Received" _ _ _ eq_refl eq_refl eq_refl eq_refl H7).
  rewrite (act_line "P" "artition Events" _ _ _ eq_refl eq_refl eq_refl eq_refl H8).
  by destruct earlier.
Qed.

Definition demo_stats : Simulator.SimulationStats := Simulator.MkSimulationStats 20 7 20 3 17 80 75 0.

Definition demo_config : Simulator.SimulatorConfig :=
  Simulator.MkSimulatorConfig 4 0 20 60 50 (S754_zero false) false.

Definition read_output (text : string) : SimulatorController :=
  let ls := Simulator.scan_lines text in
  feed (NewSimulatorController demo_cfg) (zip (replicate (length ls) 0%Z) ls).

(** The controller after the banner: it has results, all zero. *)
Definition after_banner : SimulatorController := read_output (Simulator.banner demo_config "1m0s" "50ms").

Lemma results_read_back_witness :
  results after_banner = Some zero_results ∧
  results (feed after_banner (zip (replicate 13 0%Z)
    (Simulator.scan_lines (Simulator.PrintResults demo_stats))))
  = Some (MkSimulatorResults 20 7 20 3 17 (of_int 15) 80 75 0 (S754_zero false)).
Proof.
  split; [by vm_compute|]. rewrite results_read_back; [| | done |].
  - by vm_compute.
  - unfold stats_small. repeat constructor; simpl; lia.
  - assert (Hall : forallb (λ l, (l =? "")%string || bool_decide (recentLines (dedup after_banner) !! l = None))
      (Simulator.result_lines demo_stats) = true) by (vm_compute; reflexivity).
    intros l Hl Hne t0 Ht0. rewrite forallb_forall in Hall. apply list_elem_of_In in Hl.
    specialize (Hall l Hl). apply orb_true_iff in Hall as [He|Hn].
    + apply String.eqb_eq in He. destruct (Hne He).
    + apply bool_decide_eq_true in Hn. rewrite Hn in Ht0. discriminate Ht0.
Defined.

(** ** What is not read back *)

(** Ticks of the loop without deliveries. *)
Fixpoint ticks (k : nat) (w : Simulator.World) : Simulator.World :=
  match k with
  | O => w
  | S k => match Simulator.tick 0 false (λ _, of_int 1) (of_int 1) w with
           | Done w => ticks k w
           | Panic _ => w
           end
  end.

(** A simulation of 20 tickets, from the banner to the results, as its controller reads it. *)
Definition demo_world : option Simulator.World :=
  match Simulator.start_run (Simulator.NewSimulator demo_config) with
  | Done w => Some (Simulator.finish (ticks 21 w))
  | Panic _ => None
  end.

Definition demo_output (w : Simulator.World) : string :=
  Simulator.banner demo_config "1m0s" "50ms" +:+ Simulator.stdout w
  +:+ Simulator.PrintResults (Simulator.stats (Simulator.sim w)).

(** The progress of a simulation does not arrive. The simulator writes it again and again over one
    line, with carriage returns, and the controller reads up to the line feed, which comes at the end,
    and takes the first match: at the end of a run of 20 tickets it shows 10. And results are there
    from the start: any line with a word, a colon and a number makes them, all zero. *)
Theorem progress_does_not_arrive :
  (∃ w p, demo_world = Some w ∧ Simulator.ticketIndex w = 20%Z ∧
     progress (read_output (demo_output w)) = Some p ∧ p_CurrentTicket p = 10%Z ∧ p_TotalTickets p = 20%Z) ∧
  results (read_output ("Total Nodes: 4" +:+ Simulator.newline)) = Some zero_results.
Proof.
  split; [|by vm_compute].
  eexists _, _. split; [vm_compute; reflexivity|].
  split; [vm_compute; reflexivity|]. split; [vm_compute; reflexivity|]. by vm_compute.
Qed.
End results.

(** * Counting validations *)

Section counting.
Import Simulator.

(** The count from scratch that [updateStats] avoids. *)
Definition recount (ns : list SimulatedNode) (honest : list nat) : gmap string (gset string) :=
  enter_honest ns honest ∅.

(** The IDs entered for a ticket; none and no entry are the same. *)
Definition entered (tv : gmap string (gset string)) (t : string) : gset string := default ∅ (tv !! t).

(** No entry is empty. *)
Definition no_empty (tv : gmap string (gset string)) : Prop := ∀ t, tv !! t ≠ Some ∅.

Lemma entries_ext tv tv' :
  no_empty tv → no_empty tv' → (∀ t, entered tv t = entered tv' t) → tv = tv'.
Proof.
  intros H H' Heq. apply map_eq. intros t. specialize (Heq t). specialize (H t). specialize (H' t).
  unfold entered in Heq. destruct (tv !! t), (tv' !! t); simpl in Heq; congruence.
Qed.

Lemma entered_insert tv t s t' :
  entered (<[t := s]> tv) t' = if decide (t = t') then s else entered tv t'.
Proof. unfold entered. rewrite lookup_insert. by case_decide. Qed.

Lemma enter_list_entered id (l : list string) tv t :
  entered (foldr (λ t tv, <[t := {[id]} ∪ entered tv t]> tv) tv l) t
  = (if decide (t ∈ l) then {[id]} else ∅) ∪ entered tv t.
Proof.
  induction l as [|x l IH]; cbn [foldr].
  - rewrite decide_False by (intros H; inversion H). set_solver.
  - rewrite entered_insert. destruct (decide (x = t)) as [->|Hx].
    + rewrite IH, (decide_True (P := t ∈ t :: l)) by by left. case_decide; set_solver.
    + rewrite IH. destruct (decide (t ∈ l)); [rewrite (decide_True (P := t ∈ x :: l)) by by right
        | rewrite (decide_False (P := t ∈ x :: l)) by set_solver]; done.
Qed.

Lemma enter_list_no_empty id (l : list string) tv :
  no_empty tv → no_empty (foldr (λ t tv, <[t := {[id]} ∪ default ∅ (tv !! t)]> tv) tv l).
Proof.
  intros H. induction l as [|x l IH]; [done|]. intros t. simpl. rewrite lookup_insert. case_decide.
  - intros [= Heq]. set_solver.
  - apply IH.
Qed.

Lemma enter_tickets_entered n tv t id :
  id ∈ entered (enter_tickets n tv) t ↔ id ∈ entered tv t ∨ id = ID n ∧ t ∈ dom (TicketState n).
Proof.
  unfold enter_tickets, set_fold. simpl. rewrite enter_list_entered, elem_of_union.
  rewrite <- (elem_of_elements (dom (TicketState n)) t). case_decide; set_solver.
Qed.

Lemma enter_tickets_no_empty n tv : no_empty tv → no_empty (enter_tickets n tv).
Proof. apply enter_list_no_empty. Qed.

(** A node with that ID has the ticket. *)
Definition supports (ns : list SimulatedNode) (honest : list nat) (t id : string) : Prop :=
  ∃ i n, i ∈ honest ∧ ns !! i = Some n ∧ ID n = id ∧ t ∈ dom (TicketState n).

Lemma enter_honest_entered ns honest tv t id :
  id ∈ entered (enter_honest ns honest tv) t ↔ id ∈ entered tv t ∨ supports ns honest t id.
Proof.
  unfold enter_honest, supports. revert tv. induction honest as [|i honest IH]; intros tv; simpl.
  - split; [by left|]. intros [?|(i & n & Hi & _)]; [done | inversion Hi].
  - rewrite IH. clear IH. destruct (ns !! i) as [n|] eqn:Hi.
    + rewrite enter_tickets_entered. split.
      * intros [[?|[-> ?]]|(j & m & ? & ? & ? & ?)]; [by left | right | right];
          eexists _, _; split_and!; try done; [by left | by right].
      * intros [?|(j & m & [->|?]%elem_of_cons & ? & ? & ?)]; [by do 2 left | left; right | right].
        -- by simplify_eq.
        -- by exists j, m.
    + split; [intros [?|(j & m & ? & ? & ? & ?)]; [by left|] | intros [?|(j & m & [->|?]%elem_of_cons & ? & ? & ?)]].
      * right. exists j, m. split_and!; try done. by right.
      * by left.
      * congruence.
      * right. by exists j, m.
Qed.

Lemma enter_honest_no_empty ns honest tv : no_empty tv → no_empty (enter_honest ns honest tv).
Proof.
  unfold enter_honest. revert tv. induction honest as [|i honest IH]; intros tv H; simpl; [done|].
  apply IH. case_match; [by apply enter_tickets_no_empty | done].
Qed.

(** The table never has more than a recount finds. *)
Definition table_ok (w : World) : Prop :=
  no_empty (ticketValidations (sim w)) ∧
  ∀ t id, id ∈ entered (ticketValidations (sim w)) t → supports (nodes w) (honestNodes (sim w)) t id.

Lemma table_recount w :
  table_ok w →
  enter_honest (nodes w) (honestNodes (sim w)) (ticketValidations (sim w))
  = recount (nodes w) (honestNodes (sim w)).
Proof.
  intros [Hne Hsup]. apply entries_ext; try apply enter_honest_no_empty; try done.
  intros t. apply set_eq. intros id. unfold recount. rewrite !enter_honest_entered.
  unfold entered at 2. rewrite lookup_empty. set_solver.
Qed.

(** ** Steps of a simulation *)

Inductive sim_step : World → World → Prop :=
| StTick now timed_out draws pdraw w w' :
    stage w = Looping → tick now timed_out draws pdraw w = Done w' → sim_step w w'
| StFinish w : stage w = Finishing → sim_step w (finish w)
| StInterrupt w : stage w = Looping → sim_step w (interrupt w)
| StDeliver k w w' : deliver k w = Some w' → sim_step w w'
| StHandle now draw i w w' : handleNodeMessages now draw i w = Some w' → sim_step w w'
| StHeal k w w' : heal k w = Some w' → sim_step w w'.

Definition sim_run_reachable (w : World) : Prop :=
  ∃ c w0, start_run (NewSimulator c) = Done w0 ∧ rtc sim_step w0 w.

(** Nodes keep their IDs and tickets. *)
Definition nodes_grow (ns ns' : list SimulatedNode) : Prop :=
  ∀ i n, ns !! i = Some n → ∃ n', ns' !! i = Some n' ∧ ID n' = ID n ∧
    dom (TicketState n) ⊆ dom (TicketState n').

Lemma nodes_grow_refl ns : nodes_grow ns ns.
Proof. intros i n H. eauto. Qed.

Lemma nodes_grow_insert ns i n n' :
  ns !! i = Some n → ID n' = ID n → dom (TicketState n) ⊆ dom (TicketState n') →
  nodes_grow ns (<[i := n']> ns).
Proof.
  intros Hi Hid Hd j m Hj. destruct (decide (i = j)) as [<-|].
  - rewrite list_lookup_insert_eq by by eapply lookup_lt_Some. simplify_eq. eauto.
  - rewrite list_lookup_insert_ne by done. eauto.
Qed.

Lemma nodes_grow_mark b size ns : nodes_grow ns (mark_partition b size ns).
Proof.
  revert size. induction ns as [|n ns IH]; intros [|size] i m Hi; simpl; eauto.
  destruct i as [|i]; simpl in *; [simplify_eq; eauto | by apply IH].
Qed.

(** The table and the honest nodes are as before, the nodes have grown. *)
Definition table_kept (w w' : World) : Prop :=
  ticketValidations (sim w') = ticketValidations (sim w) ∧ honestNodes (sim w') = honestNodes (sim w) ∧
  nodes_grow (nodes w) (nodes w').

Lemma table_ok_kept w w' : table_ok w → table_kept w w' → table_ok w'.
Proof.
  intros [Hne Hsup] (Ht & Hh & Hg). split; rewrite Ht; [done|]. intros t id Hid.
  destruct (Hsup t id Hid) as (i & n & Hi & Hn & Hnid & Hd). destruct (Hg i n Hn) as (n' & Hn' & ? & ?).
  exists i, n'. rewrite Hh. split_and!; [done | done | congruence | set_solver].
Qed.

Lemma updateStats_table round w : table_ok w → table_ok (updateStats round w).
Proof.
  intros Hok. unfold updateStats. destruct (2 <=? length (honestNodes (sim w))); [|done].
  split; simpl; [apply enter_honest_no_empty, Hok|].
  intros t id [Hid|Hid]%enter_honest_entered; [by apply Hok | done].
Qed.

Lemma sim_step_table w w' : table_ok w → sim_step w w' → table_ok w'.
Proof.
  intros Hok Hs. destruct Hs as [now to draws pdraw w w' _ Ht|w _|w _|k w w' Hd|now draw i w w' Hh|k w w' Hh].
  - unfold tick in Ht. case_match; [by simplify_eq|]. destruct to; [by simplify_eq|].
    destruct (simulateTicketValidation _ _ _ _) as [w1|] eqn:Hsim; [|done]. cbv zeta in Ht.
    assert (Hk : table_kept w w1).
    { unfold simulateTicketValidation in Hsim. repeat case_match; simplify_eq;
        (split_and!; [done | done | apply nodes_grow_refl]). }
    destruct Hk as (Hk1 & Hk2 & Hk3). injection Ht as <-. unfold show_progress.
    set (w2 := maybe_partition _ _). assert (Hok3 : table_ok (updateStats (consensusRound w2) w2));
      [|by case_match].
    apply updateStats_table. eapply table_ok_kept; [exact Hok|]. subst w2. unfold maybe_partition.
    case_match; [|done]. split_and!; [done | done|]. intros i n Hn.
    destruct (Hk3 i n Hn) as (n1 & Hn1 & <- & Hd1).
    destruct (nodes_grow_mark true (length (nodes w1) / 3) _ i n1 Hn1) as (n2 & Hn2 & <- & Hd2).
    exists n2. split_and!; [done | done | set_solver].
  - by apply updateStats_table.
  - done.
  - unfold deliver in Hd. repeat case_match; simplify_eq/=; try done.
    eapply table_ok_kept; [exact Hok|]. split_and!; try done. simpl. by eapply nodes_grow_insert.
  - unfold handleNodeMessages in Hh. destruct (nodes w !! i) as [n|] eqn:Hi; [|done].
    destruct (MessageQueue n) as [|msg q]; [done|]. simplify_eq.
    eapply table_ok_kept; [exact Hok|]. split_and!; try done. simpl. eapply nodes_grow_insert; [done | |];
      unfold handleByzantineNode, handleHonestNode; repeat case_match; simpl; set_solver.
  - unfold heal in Hh. case_match; simplify_eq. eapply table_ok_kept; [exact Hok|].
    split_and!; try done. apply nodes_grow_mark.
Qed.

(** Counting incrementally is counting from scratch. At any point of any simulation, whatever was
    lost, partitioned or handled in whatever order, [updateStats] enters just the tickets of the
    honest nodes that a recount of all their tables would, so its successful rounds are the tickets
    that a quorum of honest nodes has, and the failed rounds are the others. *)
Theorem updateStats_counts_afresh round w :
  sim_run_reachable w → 2 ≤ length (honestNodes (sim w)) →
  let st := stats (sim (updateStats round w)) in
  SuccessfulRounds st = successful_count (quorumThreshold (sim w)) (recount (nodes w) (honestNodes (sim w))) ∧
  FailedRounds st = (round - SuccessfulRounds st)%Z ∧ ConsensusRounds st = round.
Proof.
  intros (c & w0 & H0 & Hr) Hlen.
  assert (Hok : table_ok w).
  { assert (Hok0 : table_ok w0).
    { unfold start_run, createNodes in H0. repeat case_match; simplify_eq/=;
        (split; simpl; [intros t; by rewrite lookup_empty|]);
        intros t id; unfold entered; simpl; rewrite lookup_empty; set_solver. }
    clear H0. induction Hr; [done|]. eauto using sim_step_table. }
  unfold updateStats. apply Nat.leb_le in Hlen. rewrite Hlen. simpl.
  by rewrite (table_recount _ Hok).
Qed.

Lemma updateStats_counts_afresh_witness : ∃ w,
  start_run (NewSimulator demo_config) = Done w ∧ SuccessfulRounds (stats (sim (updateStats 5 w))) = 0%Z.
Proof.
  eexists. split; [vm_compute; reflexivity|].
  rewrite (proj1 (updateStats_counts_afresh 5 _ ltac:(eexists demo_config, _; split;
    [vm_compute; reflexivity | apply rtc_refl]) ltac:(vm_compute; lia))).
  by vm_compute.
Defined.
End counting.
End SimProps.
