(* ===== verification/Http.v ===== *)
(** What the two HTTP servers ([src/pkg/api], [src/pkg/supervisor]) use of [net/http],
    [encoding/json] and [gorilla/mux]: requests, headers, replies, JSON values and routes.

    Texts are decoded by [Decode], a parameter for every type of request body, and encoded by
    [json_text]; [url.Parse] is the class [UrlParser]; how a path matches a route's pattern is the class
    [Mux]; the client side of [net/http] is the class [HttpClient], over a state of the network. *)

From Stdlib Require Import SpecFloat.
From S2P Require Import Prelude GoStrings.

Module Http.
Import GoStrings.

(** ** JSON values, as [json.NewEncoder(w).Encode] gets them *)
Inductive json :=
| JNull
| JBool (b : bool)
| JInt (z : Z)
| JFloat (f : spec_float)
| JStr (s : string)
| JArr (l : list json)
| JObj (fields : list (string * json)).

(** [json.NewDecoder(body).Decode] and [json.Unmarshal] into an [A]. *)
Class JsonDecode (A : Type) := Decode : string → result A.

(** [json.Marshal] *)
Class JsonEncode := json_text : json → string.

(** A [map[string]interface{}]: its entries, the last of a key counting, or [None] for [nil]. *)
Abbreviation object := (option (list (string * json))).

Definition obj_get (k : string) (o : object) : option json :=
  match o with
  | Some fs => option_map snd (List.find (λ f, (f.1 =? k)%string) (rev fs))
  | None => None
  end.

Definition obj_set (k : string) (v : json) (fs : list (string * json)) : list (string * json) :=
  List.filter (λ f, negb (f.1 =? k)%string) fs ++ [(k, v)].

(** [url.Parse]: [Host] and [Hostname()] of the URL. *)
Class UrlParser := url_Parse : string → result (string * string).

(** ** Headers *)

(** [CanonicalHeaderKey]: letters after the start and after hyphens are upper case, others lower. *)
Definition to_upper (c : ascii) : ascii := if is_lower c then ascii_of_nat (code c - 32) else c.

Fixpoint canonical (upper : bool) (s : string) : string :=
  match s with
  | EmptyString => ""
  | String c s => String (if upper then to_upper c else to_lower c) (canonical (c =? "-")%char s)
  end.

Definition CanonicalHeaderKey (k : string) : string := canonical true k.

(** Keys are canonical, as the server stores them. *)
Abbreviation Header := (gmap string (list string)).

Definition Header_Get (k : string) (h : Header) : string :=
  match h !! CanonicalHeaderKey k with Some (v :: _) => v | _ => ""%string end.

Definition Header_Set (k v : string) (h : Header) : Header := <[CanonicalHeaderKey k := [v]]> h.

(** [for key, values := range from { for _, v := range values { h.Add(key, v) } }] *)
Definition Header_AddAll (from h : Header) : Header :=
  merge (λ vs ws, match vs, ws with
                  | Some vs, Some ws => Some (ws ++ vs)
                  | Some [], None => None
                  | Some vs, None => Some vs
                  | None, ws => ws
                  end) from h.

(** ** Requests and replies *)

(** The body is [None] where it is [nil]. *)
Record Request := MkRequest {
  Method : string;
  Path : string;
  Host : string;
  Headers : Header;
  Body : option string;
}.

Inductive body :=
| BEmpty
| BJson (j : json)
| BRaw (s : string).

Record Reply := MkReply {
  Status : Z;
  RHeaders : Header;
  RBody : body;
}.

(** What a request for a WebSocket comes to: a connection, with the reply that switches protocols, or
    the library's refusal *)
Inductive upgraded (conn : Type) :=
| Upgraded (c : conn) (r : Reply)
| NotUpgraded (r : Reply).
Arguments Upgraded {conn} c r.
Arguments NotUpgraded {conn} r.

Definition upgrade_reply {conn} (u : upgraded conn) : Reply :=
  match u with Upgraded _ r | NotUpgraded r => r end.

Definition StatusOK : Z := 200.
Definition StatusBadRequest : Z := 400.
Definition StatusUnauthorized : Z := 401.
Definition StatusNotFound : Z := 404.
Definition StatusMethodNotAllowed : Z := 405.
Definition StatusInternalServerError : Z := 500.
Definition StatusBadGateway : Z := 502.
Definition StatusServiceUnavailable : Z := 503.

Definition json_header (h : Header) : Header := Header_Set "Content-Type" "application/json" h.

(** What a decoder sees of a body behind [http.MaxBytesReader]. *)
Definition limited (limit : Z) (b : option string) : string :=
  let b := default ""%string b in
  if (Z.of_nat (String.length b) <=? limit)%Z then b else String.substring 0 (Z.to_nat limit) b.

(** [io.ReadAll] behind [http.MaxBytesReader] *)
Definition read_limited (limit : Z) (b : string) : result string :=
  if (Z.of_nat (String.length b) <=? limit)%Z then Ok b else Err "http: request body too large".

(** [subtle.ConstantTimeCompare(a, b) == 1] *)
Definition ConstantTimeCompare (a b : string) : bool := (a =? b)%string.

(** ** The client *)

Record ClientRequest := MkClientRequest {
  c_Method : string;
  c_URL : string;
  c_Headers : Header;
  c_Body : option string;
}.

Record Answer := MkAnswer {
  resp_Status : Z;
  resp_Headers : Header;
  resp_Body : string;
}.

(** [http.NewRequest], which can only refuse, and [Client.Do], on a network in state [N]. *)
Class HttpClient (N : Type) := {
  NewRequest : string → string → error;
  Do : ClientRequest → N → N * result Answer;
}.

(** ** Routes *)

(** Whether a path matches a pattern, and the variables of the pattern. *)
Class Mux := path_match : string → string → option (gmap string string).

(** A route for a method, or, without one, for all. *)
Record route (H : Type) := MkRoute {
  rt_method : option string;
  rt_pattern : string;
  rt_handler : H;
}.
Arguments MkRoute {H}.
Arguments rt_method {H}.
Arguments rt_pattern {H}.
Arguments rt_handler {H}.

Inductive matched (H : Type) :=
| Matched (h : H) (vars : gmap string string)
| WrongMethod
| NoRoute.
Arguments Matched {H}.
Arguments WrongMethod {H}.
Arguments NoRoute {H}.

(** The first route that fits in path and method; a route that fits in its path only is remembered. *)
Fixpoint match_route {H} `{Mux} (routes : list (route H)) (r : Request) (mismatch : bool) : matched H :=
  match routes with
  | [] => if mismatch then WrongMethod else NoRoute
  | rt :: routes =>
      match path_match (rt_pattern rt) (Path r) with
      | Some vars =>
          if match rt_method rt with Some m => (m =? Method r)%string | None => true end
          then Matched (rt_handler rt) vars
          else match_route routes r true
      | None => match_route routes r mismatch
      end
  end.

(** A pattern below [/api/] only matches paths below [/api/]. *)
Class MuxLaws `{Mux} := path_match_api : ∀ pattern path vars,
  has_prefix pattern "/api/" = true → path_match pattern path = Some vars → has_prefix path "/api/" = true.

(** A route that is taken is one of the routes and fits the path. *)
Lemma match_route_in {K} `{Mux} (rs : list (route K)) r m hd vars :
  match_route rs r m = Matched hd vars →
  ∃ rt, rt ∈ rs ∧ rt_handler rt = hd ∧ path_match (rt_pattern rt) (Path r) = Some vars.
Proof.
  revert m. induction rs as [|rt rs IH]; intros m; simpl; [by destruct m|].
  destruct (path_match (rt_pattern rt) (Path r)) as [v|] eqn:Hp.
  - case_match.
    + intros [= <- <-]. exists rt. split; [by left | done].
    + intros (rt' & ? & ? & ?)%IH. exists rt'. split; [by right | done].
  - intros (rt' & ? & ? & ?)%IH. exists rt'. split; [by right | done].
Qed.

(** Only path and method of a request are looked at. *)
Lemma match_route_ext {K} `{Mux} (rs : list (route K)) r r' m :
  Path r = Path r' → Method r = Method r' → match_route rs r m = match_route rs r' m.
Proof.
  intros Hp Hm. revert m. induction rs as [|rt rs IH]; intros m; simpl; [done|].
  by rewrite Hp, Hm, !IH.
Qed.

(** ** The key a request carries *)

Definition presented_key (h : Header) : string :=
  let key := Header_Get "X-API-Key" h in
  if (key =? "")%string then
    let auth := Header_Get "Authorization" h in
    if has_prefix auth "Bearer " then TrimPrefix auth "Bearer " else key
  else key.
(** What [os.Stat] answers *)
Inductive stat := Exists | NotExists | StatFails.
End Http.
