(* ===== verification/Api.v ===== *)
(** A node's HTTP API, [src/pkg/api/server.go] and [peers.go]: middleware, handlers over a validator,
    the channel of events for WebSocket clients, and the check of their origin.

    The validator is an interface, the class [ValidatorInterface] over a state [V]. A handler that
    sends to the channel of events waits while it is full ([Blocked]). *)

From S2P Require Import Prelude GoStrings Http.

Module Api.
Import GoStrings Http.

Definition maxRequestBodySize : Z := 1024 * 1024.

(** * The validator *)

Record PeerInfo := MkPeerInfo {
  pi_ID : string;
  pi_Addrs : list string;
  pi_ConnectedAt : Z;
}.

(** Values for the dashboard are JSON already. *)
Class ValidatorInterface (V : Type) := {
  ValidateTicket : string → string → V → V * error;
  ConsumeTicket : string → V → V * error;
  DisputeTicket : string → V → V * error;
  SeedTickets : V → V * result Z;
  GetTicket : string → V → result json;
  GetAllTickets : V → result (list json);
  GetStats : V → json;
  GetPeers : V → result (list PeerInfo);
  GetConfig : V → result json;
  GetConsensusLogs : V → result (list json);
  GetNodeCryptoInfo : V → json;
  GetStorageEntries : V → json;
}.

(** * Requests and replies *)

Record ValidateRequest := MkValidateRequest { vr_TicketID : string; vr_Data : string }.
Record ConsumeRequest := MkConsumeRequest { cr_TicketID : string }.
Record DisputeRequest := MkDisputeRequest { dr_TicketID : string }.

Record Response := MkResponse {
  Success : bool;
  Message : string;
  Data : json;
  Error_ : string;
}.

(** [omitempty] leaves out empty texts and a [nil] value. *)
Definition encode_Response (r : Response) : json :=
  JObj (("success"%string, JBool (Success r))
    :: (if (Message r =? "")%string then [] else [("message"%string, JStr (Message r))])
    ++ (match Data r with JNull => [] | d => [("data"%string, d)] end)
    ++ (if (Error_ r =? "")%string then [] else [("error"%string, JStr (Error_ r))])).

Definition sendSuccess (h : Header) (message : string) (data : json) : Reply :=
  MkReply StatusOK (json_header h) (BJson (encode_Response (MkResponse true message data ""))).

Definition sendError (h : Header) (statusCode : Z) (e : string) : Reply :=
  MkReply statusCode (json_header h) (BJson (encode_Response (MkResponse false "" JNull e))).

Definition encode_PeerInfo (p : PeerInfo) : json :=
  JObj ([("id"%string, JStr (pi_ID p)); ("addrs"%string, JArr (map JStr (pi_Addrs p)))]
    ++ if (pi_ConnectedAt p =? 0)%Z then [] else [("connected_at"%string, JInt (pi_ConnectedAt p))]).

(** * The server *)

(** [conn] is a WebSocket connection. *)
Section server.
Context {V conn : Type} `{!ValidatorInterface V, Countable conn}.
Context `{!JsonDecode ValidateRequest, !JsonDecode ConsumeRequest, !JsonDecode DisputeRequest}.
Context `{!UrlParser, !Mux}.

Record Server := MkServer {
  validator : V;
  wsClients : gset conn;
  broadcast : list json;
  apiKey : string;
}.

Definition channel_capacity : nat := 100.

Definition set_validator v s := MkServer v (wsClients s) (broadcast s) (apiKey s).
Definition set_wsClients c s := MkServer (validator s) c (broadcast s) (apiKey s).
Definition set_broadcast b s := MkServer (validator s) (wsClients s) b (apiKey s).

Definition NewServer (key : string) (v : V) : Server := MkServer v ∅ [] key.

(** How a handler ends: with a reply, or waiting to send a message, after which it replies. *)
Inductive handled :=
| Replied (s : Server) (r : Reply)
| Blocked (s : Server) (msg : json) (r : Reply).

(** [s.broadcast <- msg], and then the reply *)
Definition send_then (msg : json) (r : Reply) (s : Server) : handled :=
  if decide (length (broadcast s) < channel_capacity) then
    Replied (set_broadcast (broadcast s ++ [msg]) s) r
  else Blocked s msg r.

(** A blocked handler goes on when there is room. *)
Definition resume (h : handled) : handled :=
  match h with
  | Blocked s msg r => send_then msg r s
  | _ => h
  end.

Definition event (type ticketID : string) (now : Z) : json :=
  JObj [("type"%string, JStr type); ("ticket_id"%string, JStr ticketID); ("timestamp"%string, JInt now)].

(** ** Handlers; [h] holds the headers that the middleware has set. *)

Definition handleValidateTicket (now : Z) (h : Header) (r : Request) (s : Server) : handled :=
  match Decode (A := ValidateRequest) (limited maxRequestBodySize (Body r)) with
  | Err _ => Replied s (sendError h StatusBadRequest "Invalid request body")
  | Ok req =>
      if (vr_TicketID req =? "")%string then
        Replied s (sendError h StatusBadRequest "ticket_id is required")
      else
        let '(v, err) := ValidateTicket (vr_TicketID req) (vr_Data req) (validator s) in
        let s := set_validator v s in
        match err with
        | Some err => Replied s (sendError h StatusInternalServerError ("Failed to validate ticket: " +:+ err))
        | None => send_then (event "ticket_validated" (vr_TicketID req) now)
                    (sendSuccess h "Ticket validated successfully" JNull) s
        end
  end.

Definition handleConsumeTicket (now : Z) (h : Header) (r : Request) (s : Server) : handled :=
  match Decode (A := ConsumeRequest) (limited maxRequestBodySize (Body r)) with
  | Err _ => Replied s (sendError h StatusBadRequest "Invalid request body")
  | Ok req =>
      if (cr_TicketID req =? "")%string then
        Replied s (sendError h StatusBadRequest "ticket_id is required")
      else
        let '(v, err) := ConsumeTicket (cr_TicketID req) (validator s) in
        let s := set_validator v s in
        match err with
        | Some err => Replied s (sendError h StatusInternalServerError ("Failed to consume ticket: " +:+ err))
        | None => send_then (event "ticket_consumed" (cr_TicketID req) now)
                    (sendSuccess h "Ticket consumed successfully" JNull) s
        end
  end.

Definition handleDisputeTicket (now : Z) (h : Header) (r : Request) (s : Server) : handled :=
  match Decode (A := DisputeRequest) (limited maxRequestBodySize (Body r)) with
  | Err _ => Replied s (sendError h StatusBadRequest "Invalid request body")
  | Ok req =>
      if (dr_TicketID req =? "")%string then
        Replied s (sendError h StatusBadRequest "ticket_id is required")
      else
        let '(v, err) := DisputeTicket (dr_TicketID req) (validator s) in
        let s := set_validator v s in
        match err with
        | Some err => Replied s (sendError h StatusInternalServerError ("Failed to dispute ticket: " +:+ err))
        | None => send_then (event "ticket_disputed" (dr_TicketID req) now)
                    (sendSuccess h "Ticket disputed successfully" JNull) s
        end
  end.

Definition handleSeedTickets (now : Z) (h : Header) (s : Server) : handled :=
  let '(v, res) := SeedTickets (validator s) in
  let s := set_validator v s in
  match res with
  | Err err => Replied s (sendError h StatusInternalServerError ("Failed to seed tickets: " +:+ err))
  | Ok seeded =>
      send_then (JObj [("type"%string, JStr "tickets_seeded"); ("count"%string, JInt seeded);
                       ("timestamp"%string, JInt now)])
        (sendSuccess h ("Seeded " +:+ FormatInt seeded +:+ " tickets") (JObj [("seeded"%string, JInt seeded)])) s
  end.

Definition handleGetTicket (h : Header) (vars : gmap string string) (s : Server) : Reply :=
  match GetTicket (map_get ""%string vars "id") (validator s) with
  | Err err => sendError h StatusNotFound ("Ticket not found: " +:+ err)
  | Ok ticket => sendSuccess h "Ticket retrieved successfully" ticket
  end.

Definition handleGetAllTickets (h : Header) (s : Server) : Reply :=
  match GetAllTickets (validator s) with
  | Err err => sendError h StatusInternalServerError ("Failed to retrieve tickets: " +:+ err)
  | Ok tickets => sendSuccess h "Tickets retrieved successfully" (JArr tickets)
  end.

Definition handleGetStatus (now : Z) (h : Header) (s : Server) : Reply :=
  sendSuccess h "Status retrieved successfully"
    (JObj [("status"%string, JStr "running"); ("timestamp"%string, JInt now);
           ("ws_clients"%string, JInt (Z.of_nat (size (wsClients s))))]).

Definition handleGetStats (h : Header) (s : Server) : Reply :=
  sendSuccess h "Stats retrieved successfully" (GetStats (validator s)).

Definition handleGetConsensusLogs (h : Header) (s : Server) : Reply :=
  match GetConsensusLogs (validator s) with
  | Err err => sendError h StatusInternalServerError ("Failed to retrieve consensus logs: " +:+ err)
  | Ok logs => sendSuccess h "Consensus logs retrieved successfully" (JArr logs)
  end.

Definition handleGetNodeCrypto (h : Header) (s : Server) : Reply :=
  sendSuccess h "Node crypto info retrieved successfully" (GetNodeCryptoInfo (validator s)).

Definition handleGetStorageEntries (h : Header) (s : Server) : Reply :=
  sendSuccess h "Storage entries retrieved successfully" (GetStorageEntries (validator s)).

Definition handleHealthCheck (h : Header) : Reply :=
  MkReply StatusOK h (BJson (JObj [("status"%string, JStr "healthy")])).

Definition handleGetPeers (h : Header) (s : Server) : Reply :=
  match GetPeers (validator s) with
  | Err err => sendError h StatusInternalServerError ("Failed to get peers: " +:+ err)
  | Ok peers =>
      sendSuccess h "Peers retrieved successfully"
        (JObj [("peers"%string, JArr (map encode_PeerInfo peers))])
  end.

Definition handleGetConfig (h : Header) (s : Server) : Reply :=
  match GetConfig (validator s) with
  | Err err => sendError h StatusInternalServerError ("Failed to get config: " +:+ err)
  | Ok config => sendSuccess h "Config retrieved successfully" config
  end.

(** ** WebSocket clients *)

(** [wsOrigins] is the environment's [DTVN_WS_ORIGINS]. *)
Definition checkWSOrigin (wsOrigins : string) (r : Request) : bool :=
  let origin := Header_Get "Origin" (Headers r) in
  if (origin =? "")%string then true
  else match url_Parse origin with
       | Err _ => false
       | Ok (host, hostname) =>
           if EqualFold host (Host r) then true
           else if (hostname =? "localhost")%string || (hostname =? "127.0.0.1")%string
                   || (hostname =? "::1")%string then true
           else if (wsOrigins =? "")%string then false
           else existsb (λ a, let a := TrimSpace a in negb (a =? "")%string && EqualFold origin a)
                  (Split wsOrigins ",")
       end.

(** [handleWebSocket] after a successful upgrade, and when the client is gone. *)
Definition ws_connect (c : conn) (s : Server) : Server := set_wsClients ({[c]} ∪ wsClients s) s.
Definition ws_disconnect (c : conn) (s : Server) : Server := set_wsClients (wsClients s ∖ {[c]}) s.

(** The handler stays with the connection until reading from it fails, which is [ws_disconnect]. *)
Definition handleWebSocket (u : upgraded conn) (s : Server) : handled :=
  match u with
  | Upgraded c r => Replied (ws_connect c s) r
  | NotUpgraded r => Replied s r
  end.

(** Where [broadcastLoop] is: at its [select], or writing a message to the clients that are left, the
    first of which it waits for: [WriteJSON] has no deadline. *)
Inductive broadcaster :=
| Selecting
| Writing (msg : json) (clients : list conn)
| Ended.

Inductive broadcaster_event :=
| CtxDone
| TakeMessage
| WriteReturns (ok : bool).

Definition writing (msg : json) (clients : list conn) : broadcaster :=
  match clients with [] => Selecting | _ => Writing msg clients end.

(** One step of [broadcastLoop]: it ends, takes a message and a snapshot of the clients ([order] is that of
    the map), or a write returns, whose client is dropped where it has failed; [None] where the loop does
    not wait for that event. *)
Definition broadcastLoop_step (order : gset conn → list conn) (ctx_done : bool) (ev : broadcaster_event)
    (b : broadcaster) (s : Server) : option (broadcaster * Server) :=
  match b, ev with
  | Selecting, CtxDone => if ctx_done then Some (Ended, s) else None
  | Selecting, TakeMessage =>
      match broadcast s with
      | [] => None
      | msg :: rest => Some (writing msg (order (wsClients s)), set_broadcast rest s)
      end
  | Writing msg (c :: clients), WriteReturns ok =>
      Some (writing msg clients, if ok then s else ws_disconnect c s)
  | _, _ => None
  end.

Definition Broadcast (msg : json) (s : Server) : Server :=
  if decide (length (broadcast s) < channel_capacity) then set_broadcast (broadcast s ++ [msg]) s else s.

(** ** Routes and middleware *)

(** The directory that [setupStaticRoutes] serves, if it serves any; [abs] is [filepath.Abs]. *)
Definition setupStaticRoutes (os_Stat : string → stat) (abs : string → result string) : option string :=
  match os_Stat "web/static"%string with
  | NotExists =>
      let found alt := match abs alt with
        | Ok absPath => match os_Stat absPath with Exists => Some absPath | _ => None end
        | Err _ => None
        end in
      head (omap found ["../../web/static"; "../web/static"; "./web/static"]%string)
  | _ => Some "web/static"%string
  end.

Inductive handler :=
| HValidateTicket | HConsumeTicket | HDisputeTicket | HSeedTickets | HGetTicket | HGetAllTickets
| HGetStatus | HGetStats | HGetPeers | HGetConfig | HGetConsensusLogs | HGetNodeCrypto
| HGetStorageEntries | HHealthCheck | HWebSocket | HStatic.

(** [static_files] tells whether [setupStaticRoutes] has a directory to serve. *)
Definition setupRoutes (static_files : bool) : list (route handler) :=
  [MkRoute (Some "POST"%string) "/api/v1/tickets/validate" HValidateTicket;
   MkRoute (Some "POST"%string) "/api/v1/tickets/consume" HConsumeTicket;
   MkRoute (Some "POST"%string) "/api/v1/tickets/dispute" HDisputeTicket;
   MkRoute (Some "POST"%string) "/api/v1/tickets/seed" HSeedTickets;
   MkRoute (Some "GET"%string) "/api/v1/tickets/{id}" HGetTicket;
   MkRoute (Some "GET"%string) "/api/v1/tickets" HGetAllTickets;
   MkRoute (Some "GET"%string) "/api/v1/status" HGetStatus;
   MkRoute (Some "GET"%string) "/api/v1/stats" HGetStats;
   MkRoute (Some "GET"%string) "/api/v1/peers" HGetPeers;
   MkRoute (Some "GET"%string) "/api/v1/config" HGetConfig;
   MkRoute (Some "GET"%string) "/api/v1/consensus/logs" HGetConsensusLogs;
   MkRoute (Some "GET"%string) "/api/v1/node/crypto" HGetNodeCrypto;
   MkRoute (Some "GET"%string) "/api/v1/storage/entries" HGetStorageEntries;
   MkRoute (Some "GET"%string) "/health" HHealthCheck;
   MkRoute None "/ws" HWebSocket]
  ++ (if static_files then [MkRoute None "/" HStatic] else []).

(** [corsMiddleware]: its headers, and the reply where it ends the request. *)
Definition cors_headers (h : Header) : Header :=
  Header_Set "Access-Control-Allow-Headers" "Content-Type, Authorization, X-API-Key"
    (Header_Set "Access-Control-Allow-Methods" "GET, POST, PUT, DELETE, OPTIONS"
      (Header_Set "Access-Control-Allow-Origin" "*" h)).

Definition corsMiddleware (r : Request) : Header * option Reply :=
  let h := cors_headers ∅ in
  (h, if (Method r =? "OPTIONS")%string then Some (MkReply StatusOK h BEmpty) else None).

(** [apiKeyMiddleware]: the reply where it ends the request. *)
Definition apiKeyMiddleware (h : Header) (r : Request) (s : Server) : option Reply :=
  let path := Path r in
  if (path =? "/health")%string || (path =? "/ws")%string || negb (has_prefix path "/api/") then None
  else if negb (ConstantTimeCompare (presented_key (Headers r)) (apiKey s)) then
    Some (sendError h StatusUnauthorized "Invalid or missing API key")
  else None.

(** The WebSocket upgrade and the file server are libraries: their answers are arguments. *)
Definition dispatch (now : Z) (upgrade : Request → upgraded conn) (static : Request → Reply)
    (hd : handler) (vars : gmap string string) (h : Header) (r : Request) (s : Server) : handled :=
  match hd with
  | HValidateTicket => handleValidateTicket now h r s
  | HConsumeTicket => handleConsumeTicket now h r s
  | HDisputeTicket => handleDisputeTicket now h r s
  | HSeedTickets => handleSeedTickets now h s
  | HGetTicket => Replied s (handleGetTicket h vars s)
  | HGetAllTickets => Replied s (handleGetAllTickets h s)
  | HGetStatus => Replied s (handleGetStatus now h s)
  | HGetStats => Replied s (handleGetStats h s)
  | HGetPeers => Replied s (handleGetPeers h s)
  | HGetConfig => Replied s (handleGetConfig h s)
  | HGetConsensusLogs => Replied s (handleGetConsensusLogs h s)
  | HGetNodeCrypto => Replied s (handleGetNodeCrypto h s)
  | HGetStorageEntries => Replied s (handleGetStorageEntries h s)
  | HHealthCheck => Replied s (handleHealthCheck h)
  | HWebSocket => handleWebSocket (upgrade r) s
  | HStatic => Replied s (static r)
  end.

(** A request: the route, then logging, CORS, the key where one is configured, and the handler. Without
    a route no middleware runs. *)
Definition serve (static_files : bool) (now : Z) (upgrade : Request → upgraded conn)
    (static : Request → Reply) (r : Request) (s : Server) : handled :=
  match match_route (setupRoutes static_files) r false with
  | NoRoute => Replied s (MkReply StatusNotFound ∅ (BRaw "404 page not found"))
  | WrongMethod => Replied s (MkReply StatusMethodNotAllowed ∅ BEmpty)
  | Matched hd vars =>
      let '(h, cors) := corsMiddleware r in
      match cors with
      | Some reply => Replied s reply
      | None =>
          match (if (apiKey s =? "")%string then None else apiKeyMiddleware h r s) with
          | Some reply => Replied s reply
          | None => dispatch now upgrade static hd vars h r s
          end
      end
  end.
End server.
Arguments Server : clear implicits.
Arguments Server V conn {_ _}.
Arguments handled : clear implicits.
Arguments handled V conn {_ _}.
Arguments broadcaster : clear implicits.
End Api.
