(* ===== verification/ApiProps.v ===== *)
(** Properties of a node's HTTP API ([Api], [src/pkg/api/server.go]): without the key a request has no
    effect and learns nothing of the validator. *)

From S2P Require Import Prelude GoStrings Http Api.

Module ApiProps.
Import GoStrings Http Api.

Section props.
Context {V conn : Type} `{!ValidatorInterface V, Countable conn}.
Context `{!JsonDecode ValidateRequest, !JsonDecode ConsumeRequest, !JsonDecode DisputeRequest}.
Context `{!UrlParser, !Mux, !MuxLaws}.
Implicit Types s : Server V conn.

Definition open_handler (hd : handler) : bool :=
  match hd with HHealthCheck | HWebSocket | HStatic => true | _ => false end.

(** Every handler that uses the validator is below [/api/]. *)
Lemma routes_below_api static_files rt :
  rt ∈ setupRoutes static_files → open_handler (rt_handler rt) = false →
  has_prefix (rt_pattern rt) "/api/" = true.
Proof.
  intros Hin Hop.
  assert (Hall : Forall (λ rt, open_handler (rt_handler rt) = false →
    has_prefix (rt_pattern rt) "/api/" = true) (setupRoutes static_files)).
  { unfold setupRoutes. destruct static_files; repeat (constructor; [by intros; vm_compute|]); constructor. }
  rewrite Forall_forall in Hall. by apply Hall.
Qed.

(** A reply that tells nothing about the validator. *)
Definition uninformed (upgrade : Request → upgraded conn) (static : Request → Reply) (r : Request)
    (reply : Reply) : Prop :=
  Status reply = StatusUnauthorized ∨ Status reply = StatusNotFound ∨
  Status reply = StatusMethodNotAllowed ∨ RBody reply = BEmpty ∨
  reply = handleHealthCheck (cors_headers ∅) ∨ reply = upgrade_reply (upgrade r) ∨ reply = static r.

(** The request is one for the WebSocket, which is not below [/api/], and the library makes a
    connection of it. *)
Definition connects static_files (upgrade : Request → upgraded conn) (r : Request) (c : conn) : Prop :=
  Method r ≠ "OPTIONS"%string ∧ has_prefix (Path r) "/api/" = false ∧
  ∃ vars reply, match_route (setupRoutes static_files) r false = Matched HWebSocket vars ∧
    upgrade r = Upgraded c reply.

(** The paths that the key is not asked for are those outside [/api/]. *)
Lemma exempt_path (path : string) :
  (path =? "/health")%string || (path =? "/ws")%string || negb (has_prefix path "/api/") =
  negb (has_prefix path "/api/").
Proof.
  destruct (String.eqb_spec path "/health") as [->|_]; [done|].
  by destruct (String.eqb_spec path "/ws") as [->|_].
Qed.

(** The loop writes the next event to a client that has just connected. *)
Lemma connected_gets_event c s (order : gset conn → list conn) msg rest :
  (∀ x, x ∈ order ({[c]} ∪ wsClients s) ↔ x ∈ {[c]} ∪ wsClients s) → broadcast s = msg :: rest →
  ∃ clients, broadcastLoop_step order false TakeMessage Selecting (ws_connect c s) =
    Some (Writing msg clients, set_broadcast rest (ws_connect c s)) ∧ c ∈ clients.
Proof.
  intros Horder Hq.
  assert (Hc : c ∈ order ({[c]} ∪ wsClients s)) by (apply Horder, elem_of_union_l, elem_of_singleton_2; done).
  exists (order ({[c]} ∪ wsClients s)). split; [|done]. cbn. rewrite Hq. unfold writing.
  destruct (order _); [by apply elem_of_nil in Hc|done].
Qed.

(** C29: where a key is configured, a request that does not carry it, in [X-API-Key] or as a bearer
    token, changes nothing at the validator and sends no event, whatever its method, path and body, and
    the reply is a refusal, the empty answer to [OPTIONS], the health check, a WebSocket upgrade or a
    static file. The server is as before, with exactly one exception, which the code makes on purpose:
    a request for the WebSocket that is upgraded leaves the new connection among the clients, without
    the key, so that the loop that takes the next event of the server's queue, ticket identifiers
    included, writes it to this connection too. *)
Theorem no_key_no_effect static_files now upgrade static r s :
  apiKey s ≠ ""%string → presented_key (Headers r) ≠ apiKey s →
  ∃ s' reply, serve static_files now upgrade static r s = Replied s' reply ∧
    uninformed upgrade static r reply ∧
    (s' = s ∧ (∀ c, ¬ connects static_files upgrade r c) ∨
     ∃ c, connects static_files upgrade r c ∧ s' = ws_connect c s ∧
      ∀ order, (∀ x, x ∈ order ({[c]} ∪ wsClients s) ↔ x ∈ {[c]} ∪ wsClients s) →
      ∀ msg rest, broadcast s = msg :: rest →
        ∃ clients, broadcastLoop_step order false TakeMessage Selecting s' =
          Some (Writing msg clients, set_broadcast rest s') ∧ c ∈ clients).
Proof.
  intros Hkey Hpres. unfold serve.
  destruct (match_route (setupRoutes static_files) r false) as [hd vars| |] eqn:Hm.
  - unfold corsMiddleware. destruct (String.eqb_spec (Method r) "OPTIONS") as [Ho|Ho].
    { eexists _, _. split; [done|]. split; [unfold uninformed; tauto|]. left. split; [done|]. by intros c (? & _). }
    destruct (String.eqb_spec (apiKey s) ""); [done|].
    unfold apiKeyMiddleware. rewrite exempt_path.
    destruct (has_prefix (Path r) "/api/") eqn:Hex; cbn [negb].
    + unfold ConstantTimeCompare. destruct (String.eqb_spec (presented_key (Headers r)) (apiKey s)); [done|].
      eexists _, _. split; [done|]. split; [unfold uninformed; tauto|]. left. split; [done|].
      intros c (_ & Hno & _). congruence.
    + destruct (match_route_in _ _ _ _ _ Hm) as (rt & Hin & Heq & Hp).
      assert (Hop : open_handler (rt_handler rt) = true).
      { destruct (open_handler (rt_handler rt)) eqn:Hop; [done|].
        pose proof (path_match_api _ _ _ (routes_below_api _ _ Hin Hop) Hp). congruence. }
      rewrite Heq in Hop. destruct hd; try done; cbn [dispatch].
      * eexists _, _. split; [done|]. split; [unfold uninformed; tauto|]. left. split; [done|].
        intros c (_ & _ & v & rep & Hws & _). congruence.
      * unfold handleWebSocket. destruct (upgrade r) as [c rep|rep] eqn:Hup;
          (eexists _, _; split; [done|]; split; [unfold uninformed; rewrite Hup; tauto|]).
        -- right. exists c. split; [split_and!; [done..|]; by eexists vars, rep|]. split; [done|].
           intros order Horder msg rest Hq. by apply connected_gets_event.
        -- left. split; [done|]. intros c (_ & _ & v & rep' & _ & Hup'). congruence.
      * eexists _, _. split; [done|]. split; [unfold uninformed; tauto|]. left. split; [done|].
        intros c (_ & _ & v & rep & Hws & _). congruence.
  - eexists _, _. split; [done|]. split; [unfold uninformed; tauto|]. left. split; [done|].
    intros c (_ & _ & v & rep & Hws & _). congruence.
  - eexists _, _. split; [done|]. split; [unfold uninformed; tauto|]. left. split; [done|].
    intros c (_ & _ & v & rep & Hws & _). congruence.
Qed.

(** ** A client that does not read *)

(** The loop goes on only when the write it is in returns, whatever becomes of the context. *)
Theorem stuck_client_holds_loop order ctx_done ev msg c clients s b s' :
  broadcastLoop_step order ctx_done ev (Writing msg (c :: clients)) s = Some (b, s') →
  ∃ ok, ev = WriteReturns ok ∧ b = writing msg clients ∧ broadcast s' = broadcast s.
Proof. destruct ev as [| |ok]; cbn; try done. intros [= <- <-]. exists ok. by destruct ok. Qed.

(** While it is held and the channel is full, whoever has changed a ticket waits with its message. *)
Theorem full_channel_blocks_handler s msg r :
  length (broadcast s) = channel_capacity → resume (Blocked s msg r) = Blocked s msg r.
Proof. intros Hl. cbn. unfold send_then. by rewrite decide_False by lia. Qed.

(** When all its writes return it is back at its [select], and ends if the context is done. *)
Theorem returned_writes_free_loop order (oks : list bool) msg clients s :
  length oks = length clients →
  ∃ s', foldl (λ st ok, st ≫= λ '(b, s), broadcastLoop_step order true (WriteReturns ok) b s)
      (Some (writing msg clients, s)) oks = Some (Selecting, s') ∧
    broadcastLoop_step order true CtxDone Selecting s' = Some (Ended, s').
Proof.
  revert clients s. induction oks as [|ok oks IH]; intros [|c clients] s; cbn; try done.
  - intros _. by exists s.
  - intros [= Hlen]. by apply IH.
Qed.

(** No route for another method is taken. *)
Lemma match_route_method {K} (rs : list (route K)) r m :
  Forall (λ rt, path_match (rt_pattern rt) (Path r) = None ∨ ∃ m, rt_method rt = Some m ∧ m ≠ Method r) rs →
  match_route rs r m = WrongMethod ∨ match_route rs r m = NoRoute.
Proof.
  intros Hall. revert m. induction Hall as [|rt rs [Hn|(mt & Hmt & Hne)] _ IH]; intros m; simpl.
  - destruct m; auto.
  - rewrite Hn. apply IH.
  - destruct (path_match _ _); [|apply IH]. rewrite Hmt. destruct (String.eqb_spec mt (Method r)); [done|]. apply IH.
Qed.

(** The preflight of a browser, [OPTIONS] for a path of the API, is refused without any header of CORS
    when the server has no static files: the routes are for [GET] and [POST], and middleware only runs
    for a route that is taken. *)
Theorem preflight_is_refused now upgrade static r s :
  Method r = "OPTIONS"%string → path_match "/ws" (Path r) = None →
  ∃ reply, serve false now upgrade static r s = Replied s reply ∧
    (Status reply = StatusNotFound ∨ Status reply = StatusMethodNotAllowed) ∧ RHeaders reply = ∅.
Proof.
  intros Hm Hws. unfold serve.
  destruct (match_route_method (setupRoutes false) r false) as [-> | ->].
  - unfold setupRoutes. rewrite app_nil_r. rewrite Hm.
    repeat (constructor; [first [right; eexists; split; [reflexivity | discriminate] | left; exact Hws]|]). constructor.
  - eexists. split; [done|]. split; [by right | done].
  - eexists. split; [done|]. split; [by left | done].
Qed.
End props.

(** ** A server to try it on *)

(** A validator that counts its calls. *)
#[export] Instance counting_validator : ValidatorInterface nat := {|
  ValidateTicket _ _ n := (S n, None);
  ConsumeTicket _ n := (S n, None);
  DisputeTicket _ n := (S n, None);
  SeedTickets n := (S n, Ok 500%Z);
  GetTicket _ _ := Err "no such ticket";
  GetAllTickets _ := Ok [];
  GetStats _ := JNull;
  GetPeers _ := Ok [];
  GetConfig _ := Ok JNull;
  GetConsensusLogs _ := Ok [];
  GetNodeCryptoInfo _ := JNull;
  GetStorageEntries _ := JNull;
|}.

(** Bodies are ticket IDs. *)
#[export] Instance plain_validate : JsonDecode ValidateRequest := λ b, Ok (MkValidateRequest b "").
#[export] Instance plain_consume : JsonDecode ConsumeRequest := λ b, Ok (MkConsumeRequest b).
#[export] Instance plain_dispute : JsonDecode DisputeRequest := λ b, Ok (MkDisputeRequest b).
#[export] Instance no_urls : UrlParser := λ _, Err "no URL".
#[export] Instance exact_mux : Mux := λ pattern path,
  if (pattern =? path)%string then Some ∅ else None.

#[export] Instance exact_mux_laws : MuxLaws.
Proof.
  intros pattern path vars. unfold path_match, exact_mux.
  by destruct (String.eqb_spec pattern path) as [->|].
Qed.

Definition no_reply (r : Request) : Reply := MkReply StatusOK ∅ BEmpty.

(** Every upgrade gives connection 5. *)
Definition upgrade_5 (r : Request) : upgraded nat := Upgraded 5 (no_reply r).

Definition validate_request (h : Header) : Request :=
  MkRequest "POST" "/api/v1/tickets/validate" "localhost" h (Some "TICKET-001"%string).

Definition demo_server : Server nat nat := NewServer "secret" 0.

Definition ws_request : Request := MkRequest "GET" "/ws" "localhost" ∅ None.

Lemma no_key_no_effect_witness :
  (∃ s reply, serve false 7 upgrade_5 no_reply (validate_request ∅) demo_server = Replied s reply ∧
    uninformed upgrade_5 no_reply (validate_request ∅) reply) ∧
  (∃ s reply, serve false 7 upgrade_5 no_reply ws_request demo_server = Replied s reply ∧
    uninformed upgrade_5 no_reply ws_request reply) ∧
  serve false 7 upgrade_5 no_reply (validate_request ∅) demo_server ≠
    Replied (ws_connect 5 demo_server) (no_reply ws_request) ∧
  serve false 7 upgrade_5 no_reply ws_request demo_server =
    Replied (ws_connect 5 demo_server) (no_reply ws_request).
Proof.
  split_and!.
  - destruct (no_key_no_effect false 7 upgrade_5 no_reply (validate_request ∅) demo_server) as (s & reply & Hs & Hu & _);
      [discriminate..|]. exists s, reply. exact (conj Hs Hu).
  - destruct (no_key_no_effect false 7 upgrade_5 no_reply ws_request demo_server) as (s & reply & Hs & Hu & _);
      [discriminate..|]. exists s, reply. exact (conj Hs Hu).
  - vm_compute. discriminate.
  - vm_compute. reflexivity.
Defined.

(** With the key the same request is served. *)
Example key_lets_through :
  ∃ s r, serve false 7 upgrade_5 no_reply
    (validate_request (Header_Set "Authorization" "Bearer secret" ∅)) demo_server = Replied s r ∧
    validator s = 1 ∧ Status r = StatusOK ∧ length (broadcast s) = 1.
Proof. eexists _, _. split; [vm_compute; reflexivity|]. by vm_compute. Qed.
End ApiProps.
