(* ===== verification/NodeApi.v ===== *)
(** The node behind its HTTP API: the methods of [ValidatorNode] in [src/cmd/validator/main.go] that
    [api.ValidatorInterface] asks for, the views for the dashboard among them, and the instance that
    puts the node of [Validator] behind the server of [Api].

    What libraries make of the node's values is in [Env]: the JSON of tickets and records, the
    statistics of the database, the public key in a peer's identifier. A call of [ValidateTicket] that
    waits ends as [aw_wait] says. *)

From S2P Require Import Prelude VectorClock TicketMachine Proto Messages Pbft GossipCache GossipEngine Storage Network Notifier Validator Discovery Http Api.

Module NodeApi.
Import Http.

(** Maps as JSON objects *)
Definition json_map {A} (f : A → json) (m : gmap string A) : json :=
  JObj ((λ kv, (kv.1, f kv.2)) <$> map_to_list m).

(** [stateCounts] of [GetStorageEntries]: the four states it starts with, and what the tickets have. *)
Definition stateCounts (tickets : list TicketMachine.Ticket) : gmap string Z :=
  foldl (λ m t, <[TicketMachine.t_State t := (map_get 0 m (TicketMachine.t_State t) + 1)%Z]> m)
    (list_to_map ((λ s, (s, 0%Z)) <$> ["ISSUED"; "VALIDATED"; "CONSUMED"; "DISPUTED"]%string)) tickets.

Section node.
Context {DB : Type} `{Storage.BoltDB DB, Storage.JsonCodec Storage.TicketRecord,
  Storage.JsonCodec Storage.ConsensusRecord, Storage.JsonCodec Storage.CheckpointRecord}.
Context `{pb.ProtoMessage pb.ValidatorMessage, pb.ProtoMessage pb.PrePrepare,
  pb.ProtoMessage pb.Prepare, pb.ProtoMessage pb.Commit, pb.ProtoMessage pb.Request,
  pb.ProtoMessage pb.ViewChange, pb.ProtoMessage pb.Checkpoint, pb.ProtoMessage pb.StateUpdate,
  pb.ProtoMessage pb.StateSyncRequest, pb.ProtoMessage pb.StateSyncResponse}.

Record Libraries := MkLibraries {
  json_Ticket : TicketMachine.Ticket → json;
  json_ConsensusRecord : Storage.ConsensusRecord → json;
  json_CheckpointRecord : Storage.CheckpointRecord → json;
  db_stats : DB → json;
  raw_public_key : string → result string;  (** [ExtractPublicKey] and [Raw], in hexadecimal *)
}.

(** The node, and what it has around it: the connected peers with their addresses, its own
    addresses, the time in nanoseconds, and how waiting ends. *)
Record NodeState := MkNodeState {
  ns_node : Validator.ValidatorNode DB;
  ns_peers : list Discovery.AddrInfo;
  ns_addrs : list string;
  ns_nano : Z;
  ns_wait : Validator.api_call → Validator.ValidatorNode DB → Validator.ValidatorNode DB * error;
}.

Definition set_node n s := MkNodeState n (ns_peers s) (ns_addrs s) (ns_nano s) (ns_wait s).

Variable lib : Libraries.
Variable callback : Pbft.Callback.

(** [GetPeerCount] *)
Definition peer_count (s : NodeState) : Z := Z.of_nat (length (ns_peers s)).

(** A panic ends the request; it is kept as an error. *)
Definition ValidateTicket (ticketID data : string) (s : NodeState) : NodeState * error :=
  match Validator.ValidateTicket (ns_nano s) (peer_count s) callback ticketID data (ns_node s) with
  | Panic why => (s, Some why)
  | Done (n, Validator.Answer err) => (set_node n s, err)
  | Done (n, call) => let '(n, err) := ns_wait s call n in (set_node n s, err)
  end.

Definition ConsumeTicket (ticketID : string) (s : NodeState) : NodeState * error :=
  let '(n, err) := Validator.ConsumeTicket ticketID (ns_node s) in (set_node n s, err).

Definition DisputeTicket (ticketID : string) (s : NodeState) : NodeState * error :=
  let '(n, err) := Validator.DisputeTicket ticketID (ns_node s) in (set_node n s, err).

Definition SeedTickets (s : NodeState) : NodeState * result Z :=
  let '(n, seeded) := Validator.SeedTickets (ns_node s) in (set_node n s, Ok seeded).

Definition GetTicket (ticketID : string) (s : NodeState) : result json :=
  match Validator.GetTicket ticketID (ns_node s) with
  | Ok t => Ok (json_Ticket lib t)
  | Err err => Err err
  end.

Definition GetAllTickets (s : NodeState) : result (list json) :=
  Ok (json_Ticket lib <$> Validator.GetAllTickets (ns_node s)).

Definition environment (s : NodeState) : Validator.Env DB := Validator.a_env (Validator.v_app (ns_node s)).

Definition GetStats (s : NodeState) : json :=
  let p := Validator.v_pbft (ns_node s) in
  JObj [("node_id"%string, JStr (Validator.v_nodeID (ns_node s)));
        ("peer_count"%string, JInt (peer_count s));
        ("is_primary"%string, JBool (Pbft.IsPrimary p));
        ("current_view"%string, JInt (Pbft.view p));
        ("sequence"%string, JInt (Pbft.sequence p));
        ("cache_size"%string, JInt (GossipEngine.GetCacheSize (Validator.e_gossip (environment s))));
        ("storage_stats"%string, db_stats lib (Validator.e_db (environment s)))].

(** [ConnectedAt] is never set. *)
Definition GetPeers (s : NodeState) : result (list Api.PeerInfo) :=
  Ok ((λ p, Api.MkPeerInfo (Discovery.ID p) (Discovery.Addrs p) 0) <$> ns_peers s).

Definition GetConfig (s : NodeState) : result json :=
  let p := Validator.v_pbft (ns_node s) in
  Ok (JObj [("node_id"%string, JStr (Validator.v_nodeID (ns_node s)));
            ("total_nodes"%string, JInt (Validator.v_totalNodes (ns_node s)));
            ("is_primary"%string, JBool (Pbft.IsPrimary p));
            ("current_view"%string, JInt (Pbft.view p))]).

Definition GetConsensusLogs (s : NodeState) : result (list json) :=
  match Storage.GetConsensusLogs (Validator.e_db (environment s)) with
  | (_, Some err) => Err err
  | (logs, None) => Ok (json_ConsensusRecord lib <$> logs)
  end.

Definition GetNodeCryptoInfo (s : NodeState) : json :=
  let peerID := Validator.v_peerID (ns_node s) in
  let publicKeyHex := match raw_public_key lib peerID with Ok raw => raw | Err _ => ""%string end in
  JObj [("node_id"%string, JStr (Validator.v_nodeID (ns_node s)));
        ("peer_id"%string, JStr peerID);
        ("public_key"%string, JStr publicKeyHex);
        ("key_algorithm"%string, JStr "Ed25519");
        ("transport_security"%string, JArr [JStr "noise"; JStr "tls-1.3"]);
        ("listen_addresses"%string, JArr (JStr <$> ns_addrs s))].

Definition GetStorageEntries (s : NodeState) : json :=
  let allTickets := Validator.GetAllTickets (ns_node s) in
  let db := Validator.e_db (environment s) in
  let consensusLogCount := Z.of_nat (length (Storage.GetConsensusLogs db).1) in
  let latestCheckpoint := match Storage.GetLatestCheckpoint db with
    | Ok cp => json_CheckpointRecord lib cp
    | Err _ => JNull
    end in
  JObj [("node_id"%string, JStr (Validator.v_nodeID (ns_node s)));
        ("total_tickets"%string, JInt (Z.of_nat (length allTickets)));
        ("ticket_states"%string, json_map JInt (stateCounts allTickets));
        ("consensus_log_count"%string, JInt consensusLogCount);
        ("latest_checkpoint"%string, latestCheckpoint);
        ("db_stats"%string, db_stats lib db)].

(** The node as the server of [Api] sees it *)
#[export] Instance node_validator : Api.ValidatorInterface NodeState := {|
  Api.ValidateTicket := ValidateTicket;
  Api.ConsumeTicket := ConsumeTicket;
  Api.DisputeTicket := DisputeTicket;
  Api.SeedTickets := SeedTickets;
  Api.GetTicket := GetTicket;
  Api.GetAllTickets := GetAllTickets;
  Api.GetStats := GetStats;
  Api.GetPeers := GetPeers;
  Api.GetConfig := GetConfig;
  Api.GetConsensusLogs := GetConsensusLogs;
  Api.GetNodeCryptoInfo := GetNodeCryptoInfo;
  Api.GetStorageEntries := GetStorageEntries;
|}.
End node.
Arguments NodeState : clear implicits.
Arguments Libraries : clear implicits.
End NodeApi.
