(* ===== verification/NodeProps.v ===== *)
(** Properties of a node from its HTTP API down to its database ([NodeApi], [Api], [Validator]): what a
    request to consume a ticket does, and that other nodes do not hear of it. *)

From S2P Require Import Prelude GoStrings VectorClock TicketMachine Proto Messages Pbft GossipCache GossipEngine Storage Network Notifier Validator ValidatorProps Discovery Http Api ApiProps NodeApi.

Module NodeProps.
Import TicketMachine Validator.

Section node.
Context {DB : Type} `{Storage.BoltDB DB, Storage.JsonCodec Storage.TicketRecord,
  Storage.JsonCodec Storage.ConsensusRecord, Storage.JsonCodec Storage.CheckpointRecord}.
Context `{pb.ProtoLaws pb.ValidatorMessage pb.unset_ValidatorMessage, pb.ProtoMessage pb.PrePrepare,
  pb.ProtoMessage pb.Prepare, pb.ProtoMessage pb.Commit, pb.ProtoMessage pb.Request,
  pb.ProtoMessage pb.ViewChange, pb.ProtoMessage pb.Checkpoint,
  pb.ProtoLaws pb.StateUpdate pb.unset_StateUpdate,
  pb.ProtoMessage pb.StateSyncRequest, pb.ProtoMessage pb.StateSyncResponse}.
Implicit Types n a b : ValidatorNode DB.
Implicit Types sm : StateMachine (Env DB).
Implicit Types e : Env DB.

Definition machine n : StateMachine (Env DB) := a_sm (v_app n).
Definition env n : Env DB := a_env (v_app n).
Definition ticket_state (id : string) n : option string := t_State <$> currentState (machine n) !! id.
Definition save_error (t : Ticket) (db : DB) : error := (Storage.SaveTicket (record_of t) db).2.

Lemma publisher_env n_ID id s v ts e :
  let e' := fst (publisher n_ID id s v ts e) in
  e_db e' = e_db e ∧ e_sent e' = e_sent e ∧ e_now e' = e_now e ∧ e_notifier e' = e_notifier e.
Proof. unfold publisher. repeat case_match; done. Qed.

(** A transition of a wired machine: the ticket is saved before anything is published, and an error of
    saving is the only one. *)
Lemma finish_transition_wired n_ID id t old new v sm e :
  ValidatorProps.wired n_ID sm →
  let t' := MkTicket (t_ID t) (t_State t) (t_Data t) (t_ValidatorID t) (t_Timestamp t)
    (VectorClock.Increment (vectorClock sm)) (t_Metadata t) in
  ∃ sm' e' err, finish_transition id t old new v sm e = (sm', e', err) ∧
    currentState sm' = <[id := t']> (currentState sm) ∧
    e_db e' = (Storage.SaveTicket (record_of t') (e_db e)).1 ∧ (err = None ↔ save_error t' (e_db e) = None) ∧
    e_sent e' = e_sent e ∧ e_now e' = e_now e ∧
    e_notifier e' = Notifier.Notify (t_ID t) new (e_notifier e) ∧ ValidatorProps.wired n_ID sm'.
Proof.
  intros [Hh Hp] t'. unfold finish_transition. rewrite VectorClock.Copy_id. cbn [handlers publishUpdate].
  rewrite Hh, Hp. fold t'. cbn [run_handlers]. unfold notify_handler, storage_handler, save, save_error.
  cbn [e_db set_notifier]. destruct (Storage.SaveTicket (record_of t') (e_db e)) as [db [err|]].
  - do 3 eexists. split; [reflexivity|]. by split_and!.
  - pose proof (publisher_env n_ID id new v (t_Timestamp t)
      (set_db db (set_notifier (Notifier.Notify (t_ID t') new (e_notifier e)) e))) as Hpub.
    destruct (publisher _ _ _ _ _ _) as [e2 perr]. cbn [fst] in Hpub. destruct Hpub as (Hdb & Hs & Hn & Hnot).
    do 3 eexists. split; [reflexivity|]. by split_and!.
Qed.

(** What [ConsumeTicket] of a node does *)
Lemma consume_spec id n :
  ValidatorProps.wired (v_nodeID n) (machine n) →
  ∃ n' err, Validator.ConsumeTicket id n = (n', err) ∧
    v_pbft n' = v_pbft n ∧ v_nodeID n' = v_nodeID n ∧ e_sent (env n') = e_sent (env n) ∧
    (ticket_state id n = Some StateValidated →
      ∃ t', currentState (machine n') !! id = Some t' ∧ t_State t' = StateConsumed ∧
        e_db (env n') = (Storage.SaveTicket (record_of t') (e_db (env n))).1 ∧
        (err = None ↔ save_error t' (e_db (env n)) = None)) ∧
    (ticket_state id n ≠ Some StateValidated → machine n' = machine n ∧ env n' = env n ∧ err ≠ None).
Proof.
  intros Hw. unfold Validator.ConsumeTicket, TicketMachine.ConsumeTicket, ticket_state. fold (machine n) (env n).
  destruct (currentState (machine n) !! id) as [t|] eqn:Ht; cbn [fmap option_fmap option_map].
  2: { do 2 eexists. split; [reflexivity|]. by split_and!. }
  destruct (decide (t_State t = StateValidated)) as [Hv|Hv].
  - destruct (finish_transition_wired (v_nodeID n) id (retag StateConsumed (e_now (env n)) t) (t_State t)
      StateConsumed (v_nodeID n) (machine n) (env n) Hw) as (sm' & e' & err & -> & Hsm & Hdb & Herr & Hs & _).
    do 2 eexists. split; [reflexivity|]. split_and!; [done|done|done| |congruence].
    intros _. eexists. unfold machine, env. cbn. rewrite Hsm, lookup_insert_eq. by split_and!.
  - do 2 eexists. split; [reflexivity|]. split_and!; try done. intros [= ?]. done.
Qed.

(** ** The view of the storage *)

Lemma stateCounts_snoc ts t :
  NodeApi.stateCounts (ts ++ [t]) =
    <[t_State t := (map_get 0 (NodeApi.stateCounts ts) (t_State t) + 1)%Z]> (NodeApi.stateCounts ts).
Proof. unfold NodeApi.stateCounts. by rewrite foldl_app. Qed.

(** The counts are the numbers of tickets in each state. *)
Lemma stateCounts_exact ts st :
  map_get 0%Z (NodeApi.stateCounts ts) st = Z.of_nat (length (filter (λ t, t_State t = st) ts)).
Proof.
  induction ts as [|t ts IH] using rev_ind.
  - unfold NodeApi.stateCounts. cbn [foldl]. unfold map_get. destruct (list_to_map _ !! st) as [z|] eqn:Hz; [|done].
    apply elem_of_list_to_map_2 in Hz. repeat (apply elem_of_cons in Hz as [[= _ ->]|Hz]; [done|]).
    by apply elem_of_nil in Hz.
  - rewrite stateCounts_snoc, map_get_insert, filter_app, filter_cons, filter_nil, length_app.
    destruct (decide (t_State t = st)) as [->|Hne]; rewrite IH; simpl; lia.
Qed.

(** ** A request *)

Section http.
Context {conn : Type} `{Countable conn}.
Context `{!Http.JsonDecode Api.ValidateRequest, !Http.JsonDecode Api.ConsumeRequest, !Http.JsonDecode Api.DisputeRequest}.
Context `{!Http.UrlParser, !Http.Mux}.
Variables (lib : NodeApi.Libraries DB) (callback : Pbft.Callback).

#[local] Instance the_node : Api.ValidatorInterface (NodeApi.NodeState DB) := NodeApi.node_validator lib callback.

Definition node_of (s : Api.Server (NodeApi.NodeState DB) conn) : ValidatorNode DB :=
  NodeApi.ns_node (Api.validator s).

(** The server after a request, and the reply, given or due *)
Definition server_after (h : Api.handled (NodeApi.NodeState DB) conn) : Api.Server (NodeApi.NodeState DB) conn :=
  match h with Api.Replied s _ | Api.Blocked s _ _ => s end.
Definition reply_due (h : Api.handled (NodeApi.NodeState DB) conn) : Http.Reply :=
  match h with Api.Replied _ r | Api.Blocked _ _ r => r end.

(** C16: a request to consume a ticket, followed from the HTTP server to the database. Where the request
    has the key and names a ticket, the node answers 200 exactly if the ticket is VALIDATED and the
    database takes its new record, and 500 otherwise. A ticket that is not VALIDATED, or not there,
    stays as it is, with everything else. A VALIDATED one is CONSUMED, in memory even where saving
    fails and 500 is answered. In no case does consensus take part, and no message is sent to a peer
    directly. *)
Theorem consume_request_end_to_end static_files now upgrade static r (s : Api.Server (NodeApi.NodeState DB) conn) vars req :
  let h := Api.serve static_files now upgrade static r s in
  let n := node_of s in
  let n' := node_of (server_after h) in
  let id := Api.cr_TicketID req in
  ValidatorProps.wired (v_nodeID n) (machine n) →
  (Api.apiKey s = ""%string ∨ Http.presented_key (Http.Headers r) = Api.apiKey s) →
  Http.Method r = "POST"%string →
  Http.match_route (Api.setupRoutes static_files) r false = Http.Matched Api.HConsumeTicket vars →
  Http.Decode (Http.limited Api.maxRequestBodySize (Http.Body r)) = Ok req → id ≠ ""%string →
  v_pbft n' = v_pbft n ∧ e_sent (env n') = e_sent (env n) ∧
  if decide (ticket_state id n = Some StateValidated) then
    ∃ t', currentState (machine n') !! id = Some t' ∧ t_State t' = StateConsumed ∧
      e_db (env n') = (Storage.SaveTicket (record_of t') (e_db (env n))).1 ∧
      Http.Status (reply_due h) = (if decide (save_error t' (e_db (env n)) = None)
        then Http.StatusOK else Http.StatusInternalServerError)
  else machine n' = machine n ∧ env n' = env n ∧ Http.Status (reply_due h) = Http.StatusInternalServerError.
Proof.
  intros h n n' id Hw Hkey Hm Hroute Hdec Hid.
  destruct (consume_spec id n Hw) as (n1 & err & Hc & Hpb & _ & Hsent & Hyes & Hno).
  assert (Hh : node_of (server_after h) = n1 ∧
    Http.Status (reply_due h) = match err with None => Http.StatusOK | Some _ => Http.StatusInternalServerError end).
  { unfold h, Api.serve. rewrite Hroute. unfold Api.corsMiddleware. rewrite Hm. simpl (_ =? _)%string. cbv iota.
    assert (Hopen : (if (Api.apiKey s =? "")%string then None else Api.apiKeyMiddleware (Api.cors_headers ∅) r s) = None).
    { destruct (String.eqb_spec (Api.apiKey s) ""); [done|]. destruct Hkey as [|Hkey]; [done|].
      unfold Api.apiKeyMiddleware, Http.ConstantTimeCompare. rewrite Hkey, String.eqb_refl. simpl. by destruct (_ || _ || _). }
    rewrite Hopen. cbn [Api.dispatch]. unfold Api.handleConsumeTicket. rewrite Hdec. fold id.
    destruct (String.eqb_spec id ""); [done|]. cbn [Api.ConsumeTicket the_node NodeApi.node_validator].
    unfold NodeApi.ConsumeTicket. fold (node_of s). fold n. rewrite Hc. destruct err as [err|].
    - done.
    - unfold Api.send_then. by case_decide. }
  destruct Hh as [Hn Hst]. unfold n'. rewrite Hn, Hst. split; [done|]. split; [done|].
  destruct (decide (ticket_state id n = Some StateValidated)) as [Hv|Hv].
  - destruct (Hyes Hv) as (t' & Ht & Hst' & Hdb & Herr). exists t'. split_and!; [done..|].
    destruct (decide (save_error t' (e_db (env n)) = None)) as [Hse|Hse].
    + by rewrite (proj2 Herr Hse).
    + destruct err; [done|]. by destruct Hse; apply Herr.
  - destruct (Hno Hv) as (-> & -> & He). split_and!; [done..|]. by destruct err.
Qed.
End http.

(** ** The other nodes *)

Lemma zero_clock_Get id k : VectorClock.Get (VectorClock.NewVectorClock id) k = 0%Z.
Proof.
  unfold VectorClock.Get, VectorClock.NewVectorClock, map_get; simpl. rewrite lookup_singleton. by case_decide.
Qed.

Lemma persist_machine id (x : App DB) : a_sm (persistTicket id x) = a_sm x.
Proof. unfold persistTicket. by destruct (TicketMachine.GetTicket _ _). Qed.

(** The announcement of a change, at a node that has the ticket *)
Lemma announcement_ignored peers sender id s v ts e data b from b1 err t :
  causal_inv (machine b) → currentState (machine b) !! id = Some t →
  update_message sender id s v ts e = Ok data →
  Network.RouteMessage data from (setup_router peers) (Done b) = (Done b1, err) →
  currentState (machine b1) !! id = Some t ∧ v_nodeID b1 = v_nodeID b ∧
  handlers (machine b1) = handlers (machine b) ∧ publishUpdate (machine b1) = publishUpdate (machine b).
Proof.
  intros Hinv Ht Hmsg Hroute. unfold update_message in Hmsg.
  set (u := pb.MkStateUpdate _ _ _) in Hmsg.
  destruct (Messages.wrap_err "failed to marshal state update" (pb.Marshal u)) as [payload|] eqn:Hp; [|done].
  cbn [result_bind] in Hmsg. apply Messages.wrap_err_Ok in Hp. unfold wrap in Hmsg. apply Messages.wrap_err_Ok in Hmsg.
  apply pb.Unmarshal_Marshal in Hp, Hmsg.
  unfold Network.RouteMessage, Messages.DeserializeValidatorMessage in Hroute.
  rewrite Hmsg in Hroute. cbn [Messages.wrap_err pb.vm_Type pb.vm_Payload] in Hroute.
  unfold setup_router in Hroute. cbn in Hroute. rewrite Hp in Hroute. cbn in Hroute. injection Hroute as <- _.
  unfold machine, apply_update. cbn. rewrite persist_machine. cbn.
  split; [|done].
  apply (clockless_update_ignored (machine b) [ticket_of_proto (v_nodeID b) _] id t); [done| |done].
  constructor; [|done]. cbn. split; [apply VectorClock.NewVectorClock_wf|]. apply zero_clock_Get.
Qed.

(** C17: a ticket can be consumed at every node. After node [a] has consumed a VALIDATED ticket without
    error, and the announcement of that, the message that its publisher hands to gossip, has been
    routed to another node [b] that has the ticket as VALIDATED, the ticket is still VALIDATED at [b],
    and [b] consumes it again: without error, if its database takes the record. *)
Theorem consumption_stays_local peers a b id a' now e data from b1 err :
  ValidatorProps.wired (v_nodeID a) (machine a) → ValidatorProps.wired (v_nodeID b) (machine b) →
  causal_inv (machine b) →
  ticket_state id a = Some StateValidated → ticket_state id b = Some StateValidated →
  Validator.ConsumeTicket id a = (a', None) →
  update_message (v_nodeID a) id StateConsumed (v_nodeID a) now e = Ok data →
  Network.RouteMessage data from (setup_router peers) (Done b) = (Done b1, err) →
  ticket_state id a' = Some StateConsumed ∧ ticket_state id b1 = Some StateValidated ∧
  ∃ b2 t2 err2, Validator.ConsumeTicket id b1 = (b2, err2) ∧ currentState (machine b2) !! id = Some t2 ∧
    t_State t2 = StateConsumed ∧ (err2 = None ↔ save_error t2 (e_db (env b1)) = None).
Proof.
  intros Hwa Hwb Hinv Ha Hb Hca Hmsg Hroute.
  destruct (consume_spec id a Hwa) as (a1 & erra & Hca' & _ & _ & _ & Hyes & _). rewrite Hca in Hca'. injection Hca' as <- <-.
  destruct (Hyes Ha) as (ta & Hta & Hsta & _).
  unfold ticket_state in Hb. destruct (currentState (machine b) !! id) as [tb|] eqn:Htb; [|done].
  injection Hb as Hb.
  destruct (announcement_ignored _ _ _ _ _ _ _ _ _ _ _ _ _ Hinv Htb Hmsg Hroute) as (Htb1 & Hid & Hh & Hpub).
  assert (Hv : ticket_state id b1 = Some StateValidated) by (unfold ticket_state; rewrite Htb1; cbn; by rewrite Hb).
  split; [unfold ticket_state; rewrite Hta; cbn; by rewrite Hsta|]. split; [done|].
  destruct (consume_spec id b1) as (b2 & err2 & Hc2 & _ & _ & _ & Hyes2 & _).
  { unfold ValidatorProps.wired in *. by rewrite Hh, Hpub, Hid. }
  destruct (Hyes2 Hv) as (t2 & Ht2 & Hst2 & _ & Herr). by exists b2, t2, err2.
Qed.
End node.

(** * Two nodes at two gates *)

#[local] Existing Instances Storage.ConsensusRecord_eq Storage.ConsensusRecord_countable Storage.CheckpointRecord_eq
  Storage.CheckpointRecord_countable Storage.bit_json.
#[local] Existing Instance pb.bit_codec.
#[local] Existing Instances ApiProps.plain_validate ApiProps.plain_consume ApiProps.plain_dispute ApiProps.exact_mux.
#[local] Existing Instance pb.bit_codec_laws.

Definition gate_ticket : Ticket :=
  MkTicket "T1" StateValidated "seat A1" "node0" 1700000000
    (VectorClock.MkVectorClock "node0" {[ "node0" := 1%Z ]}) ∅.

Definition gate_node (id : string) : ValidatorNode Storage.mem_db :=
  let n := setup id "peer" 4 false ValidatorProps.demo_env in
  set_app (MkApp (MergeState [gate_ticket] (a_sm (v_app n))) ValidatorProps.demo_env) n.

Lemma gate_ticket_wf : VectorClock.clock_wf (t_VectorClock gate_ticket).
Proof. unfold VectorClock.clock_wf. apply (bool_decide_unpack _). vm_compute. exact I. Qed.

Lemma gate_node_causal id : causal_inv (machine (gate_node id)).
Proof.
  apply merge_causal; [|constructor; [apply gate_ticket_wf | constructor]].
  split; [apply VectorClock.NewVectorClock_wf | apply map_Forall_empty].
Qed.

Lemma memory_takes_all t (db : Storage.mem_db) :
  Storage.Bucket db Storage.BucketTickets = true → save_error t db = None.
Proof.
  intros Hb. unfold save_error, Storage.SaveTicket, Storage.Update, Storage.with_bucket. by rewrite Hb.
Qed.

Lemma gate_consumes id n' err : Validator.ConsumeTicket "T1" (gate_node id) = (n', err) → err = None.
Proof.
  intros Hc. destruct (consume_spec "T1" (gate_node id)) as (n1 & err1 & Hc' & _ & _ & _ & Hyes & _); [by split|].
  rewrite Hc in Hc'. injection Hc' as <- <-. destruct Hyes as (t' & _ & _ & _ & Herr); [by vm_compute|].
  by apply Herr, memory_takes_all.
Qed.

Lemma consumption_stays_local_witness : ∃ (a' b1 b2 : ValidatorNode Storage.mem_db) data t2 err2,
  Validator.ConsumeTicket "T1" (gate_node "node1") = (a', None) ∧
  update_message "node1" "T1" StateConsumed "node1" 7 ValidatorProps.demo_env = Ok data ∧
  ticket_state "T1" a' = Some StateConsumed ∧ ticket_state "T1" b1 = Some StateValidated ∧
  Validator.ConsumeTicket "T1" b1 = (b2, err2) ∧ currentState (machine b2) !! "T1" = Some t2 ∧
  t_State t2 = StateConsumed.
Proof.
  destruct (Validator.ConsumeTicket "T1" (gate_node "node1")) as [a' ea] eqn:Ha.
  assert (He : ea = None) by exact (gate_consumes "node1" a' ea Ha).
  rewrite He in Ha.
  destruct (update_message "node1" "T1" StateConsumed "node1" 7 ValidatorProps.demo_env) as [data|] eqn:Hm;
    [|discriminate].
  destruct (Network.RouteMessage data "peer" (setup_router 3) (Done (gate_node "node2"))) as [o err] eqn:Hr.
  assert (Ho : match o with Done _ => true | Panic _ => false end = true).
  { change o with ((o, err).1). rewrite <- Hr. change data with (match Ok data with Ok d => d | Err _ => data end).
    rewrite <- Hm. vm_compute. reflexivity. }
  destruct o as [b1|]; [|discriminate].
  destruct (consumption_stays_local 3 (gate_node "node1") (gate_node "node2") "T1" a' 7 ValidatorProps.demo_env
    data "peer" b1 err) as (Ha1 & Hb1 & b2 & t2 & err2 & Hc & Ht & Hst & _).
  - split; reflexivity.
  - split; reflexivity.
  - apply gate_node_causal.
  - vm_compute. reflexivity.
  - vm_compute. reflexivity.
  - exact Ha.
  - exact Hm.
  - exact Hr.
  - exists a', b1, b2, data, t2, err2. rewrite He. split; [reflexivity|]. split; [reflexivity|].
    split; [exact Ha1|]. split; [exact Hb1|]. split; [exact Hc|]. split; [exact Ht | exact Hst].
Defined.

Definition plain_libraries : NodeApi.Libraries Storage.mem_db :=
  NodeApi.MkLibraries (λ _, Http.JNull) (λ _, Http.JNull) (λ _, Http.JNull) (λ _, Http.JNull) (λ id, Ok id).

Definition gate_state : NodeApi.NodeState Storage.mem_db :=
  NodeApi.MkNodeState (gate_node "node1") [] [] 0 (λ _ n, (n, None)).

Definition gate_server : Api.Server (NodeApi.NodeState Storage.mem_db) nat := Api.NewServer "secret" gate_state.

Definition gate_request : Http.Request :=
  Http.MkRequest "POST" "/api/v1/tickets/consume" "localhost" (Http.Header_Set "X-API-Key" "secret" ∅) (Some "T1"%string).

#[local] Instance gate_validator : Api.ValidatorInterface (NodeApi.NodeState Storage.mem_db) :=
  NodeApi.node_validator plain_libraries 0.

Lemma consume_request_end_to_end_witness :
  let h := Api.serve false 7 ApiProps.upgrade_5 ApiProps.no_reply gate_request gate_server in
  ∃ t', currentState (machine (node_of (server_after h))) !! "T1" = Some t' ∧ t_State t' = StateConsumed ∧
    Http.Status (reply_due h) = Http.StatusOK.
Proof.
  intros h.
  destruct (consume_request_end_to_end plain_libraries 0 false 7 ApiProps.upgrade_5 ApiProps.no_reply gate_request
    gate_server ∅ (Api.MkConsumeRequest "T1")) as (_ & _ & Hif).
  - split; reflexivity.
  - right. reflexivity.
  - reflexivity.
  - reflexivity.
  - reflexivity.
  - discriminate.
  - destruct (decide (ticket_state "T1" (node_of gate_server) = Some StateValidated)) as [Hv|Hv];
      [|exfalso; apply Hv; vm_compute; reflexivity].
    destruct Hif as (t' & Ht & Hst & _ & Hs). exists t'. split; [exact Ht|]. split; [exact Hst|].
    etransitivity; [exact Hs|]. destruct (decide _) as [|Hn]; [reflexivity|]. exfalso. apply Hn.
    apply memory_takes_all. reflexivity.
Defined.
End NodeProps.
