(* ===== verification/WaitProps.v ===== *)
(** What a call of [ValidateTicket] waits for at a node that is not the primary ([Validator]): a
    validation that the node executes itself ends the call; one that reaches it in the state of another
    node does not, and the call fails although the ticket is validated. *)

From stdpp Require Import relations.
From S2P Require Import Prelude VectorClock TicketMachine Proto Messages Pbft GossipCache GossipEngine Storage Network Notifier Validator ValidatorProps Discovery Http Api ApiProps NodeApi NodeProps.

Module WaitProps.
Import TicketMachine Validator NodeProps.

(** * Channels *)

Definition subscribed_only (id : string) (ch : Notifier.Chan) (sn : Notifier.StateNotifier) : Prop :=
  Notifier.listening sn id ch ∧ ∀ id', id' ≠ id → ch ∉ Notifier.subs_of sn id'.

(** Channels that are made are not in use. *)
Definition numbered (sn : Notifier.StateNotifier) : Prop :=
  ∀ id ch, ch ∈ Notifier.subs_of sn id → ch < Notifier.next_chan sn.

Lemma Subscribe_only id sn sn' ch :
  numbered sn → Notifier.Subscribe id sn = (sn', ch) →
  subscribed_only id ch sn' ∧ Notifier.buffers sn' !! ch = Some None.
Proof.
  intros Hnum Hs. pose proof (Notifier.Subscribe_listening _ _ _ _ Hs) as [Hl Hb]. split; [|done].
  split; [done|]. intros id' Hne Hin. unfold Notifier.Subscribe in Hs. injection Hs as <- <-.
  unfold Notifier.subs_of in Hin; simpl in Hin. rewrite lookup_insert_ne in Hin by done.
  apply Hnum in Hin. lia.
Qed.

(** A notification of another ticket does not reach the channel; one of its ticket fills it if it is
    empty. *)
Lemma Notify_buffer id ch id' s sn :
  subscribed_only id ch sn →
  Notifier.buffers (Notifier.Notify id' s sn) !! ch =
    (if decide (id' = id ∧ Notifier.buffers sn !! ch = Some None) then Some (Some s) else Notifier.buffers sn !! ch).
Proof.
  intros [[Hin _] Honly]. unfold Notifier.Notify; simpl. rewrite Notifier.offer_lookup.
  destruct (decide (id' = id)) as [->|Hne].
  - repeat case_decide; naive_solver.
  - rewrite !decide_False; [done | by intros [? _] | by intros [?%(Honly _ Hne) _]].
Qed.

Lemma Notify_only id ch id' s sn : subscribed_only id ch sn → subscribed_only id ch (Notifier.Notify id' s sn).
Proof.
  intros Hs. pose proof (Notify_buffer id ch id' s sn Hs) as Hb. destruct Hs as [[Hin Hbuf] Honly].
  split; [|done]. split; [done|]. rewrite Hb. by case_decide.
Qed.

Section node.
Context {DB : Type} `{Storage.BoltDB DB, Storage.JsonCodec Storage.TicketRecord}.
Context `{pb.ProtoMessage pb.ValidatorMessage, pb.ProtoMessage pb.PrePrepare,
  pb.ProtoMessage pb.Prepare, pb.ProtoMessage pb.Commit, pb.ProtoMessage pb.Request,
  pb.ProtoMessage pb.ViewChange, pb.ProtoMessage pb.Checkpoint, pb.ProtoMessage pb.StateUpdate,
  pb.ProtoMessage pb.StateSyncRequest, pb.ProtoMessage pb.StateSyncResponse}.
Implicit Types n : ValidatorNode DB.
Implicit Types a : App DB.
Implicit Types sm : StateMachine (Env DB).

(** * Operations and notifications *)

Definition keyed sm : Prop := ∀ id t, currentState sm !! id = Some t → t_ID t = id.

Definition notifier_of a : Notifier.StateNotifier := e_notifier (a_env a).

(** An operation does nothing, or moves its ticket to a state that is not ISSUED and notifies of that;
    only an ISSUED ticket is validated. *)
Definition operation_effect (id : string) a a' : Prop :=
  (currentState (a_sm a') = currentState (a_sm a) ∧ notifier_of a' = notifier_of a) ∨
  ∃ t, t_ID t = id ∧ t_State t ≠ StateIssued ∧
    currentState (a_sm a') = <[id := t]> (currentState (a_sm a)) ∧
    notifier_of a' = Notifier.Notify id (t_State t) (notifier_of a) ∧
    (t_State t = StateValidated → ∃ t0, currentState (a_sm a) !! id = Some t0 ∧ t_State t0 = StateIssued).

Lemma transition_effect me id t old new v a :
  ValidatorProps.wired me (a_sm a) → t_ID t = id → t_State t = new → new ≠ StateIssued →
  (new = StateValidated → ∃ t0, currentState (a_sm a) !! id = Some t0 ∧ t_State t0 = StateIssued) →
  let r := finish_transition id t old new v (a_sm a) (a_env a) in
  ValidatorProps.wired me r.1.1 ∧ operation_effect id a (MkApp r.1.1 r.1.2).
Proof.
  intros Hw Hid Hst Hne Hv.
  destruct (finish_transition_wired me id t old new v _ (a_env a) Hw)
    as (sm' & e' & err & -> & Hc & _ & _ & _ & _ & Hn & Hw').
  split; [done|]. right. eexists (MkTicket (t_ID t) (t_State t) _ _ _ _ _). unfold notifier_of.
  cbn [fst snd a_sm a_env t_ID t_State]. rewrite Hc, Hn, Hst, Hid. by split_and!.
Qed.

Lemma guard_issued id s : validate_guard id s = None → s = StateIssued.
Proof. unfold validate_guard. destruct (decide (s = StateIssued)); [done|]. by repeat destruct (decide _). Qed.

Lemma apply_operation_effect me req v a :
  ValidatorProps.wired me (a_sm a) → keyed (a_sm a) →
  let a' := (apply_operation req v a).1 in
  ValidatorProps.wired me (a_sm a') ∧ operation_effect (Messages.TicketID req) a a'.
Proof.
  intros Hw Hk. set (id := Messages.TicketID req). unfold apply_operation. fold id.
  assert (Hsame : ValidatorProps.wired me (a_sm (MkApp (a_sm a) (a_env a))) ∧
    operation_effect id a (MkApp (a_sm a) (a_env a))) by (split; [done | by left]).
  destruct (_ =? _)%string; [|destruct (_ =? _)%string; [|destruct (_ =? _)%string]];
    unfold TicketMachine.ValidateTicket, TicketMachine.ConsumeTicket, TicketMachine.DisputeTicket;
    try (destruct a; exact Hsame); destruct (currentState (a_sm a) !! id) as [t|] eqn:Ht; try exact Hsame.
  - destruct (validate_guard id (t_State t)) eqn:Hg; [exact Hsame|]. apply guard_issued in Hg.
    apply transition_effect; try done; [exact (Hk _ _ Ht) | by intros _; exists t].
  - case_decide; [|exact Hsame]. apply transition_effect; try done. exact (Hk _ _ Ht).
  - apply transition_effect; try done. exact (Hk _ _ Ht).
Qed.

Lemma persist_same id a :
  a_sm (persistTicket id a) = a_sm a ∧ notifier_of (persistTicket id a) = notifier_of a.
Proof. unfold persistTicket, save. repeat (case_match; simplify_eq/=); done. Qed.

Lemma handler_effect me req a :
  ValidatorProps.wired me (a_sm a) → keyed (a_sm a) →
  let a' := (consensus_handler me req a).1 in
  ValidatorProps.wired me (a_sm a') ∧ operation_effect (Messages.TicketID req) a a'.
Proof.
  intros Hw Hk. pose proof (apply_operation_effect me req (validator_of me req) a Hw Hk) as [Hw' He].
  unfold consensus_handler. destruct (apply_operation _ _ _) as [a1 err]. cbn [fst] in *.
  pose proof (persist_same (Messages.TicketID req) a1) as [Hsm Hn].
  destruct err as [err|]; [destruct (idempotent err)|]; cbn [fst]; [|done|];
    (rewrite Hsm; split; [done|]; unfold operation_effect in *; by rewrite Hsm, Hn).
Qed.

(** * The call that waits *)

(** The ticket is there and not ISSUED, and the channel does not tell of a validation. *)
Record unnoticed (id : string) (ch : Notifier.Chan) n : Prop := Unnoticed {
  un_wired : ValidatorProps.wired (v_nodeID n) (machine n);
  un_keyed : keyed (machine n);
  un_known : ∃ t, currentState (machine n) !! id = Some t ∧ t_State t ≠ StateIssued;
  un_only : subscribed_only id ch (notifier_of (v_app n));
  un_buffer : Notifier.buffers (notifier_of (v_app n)) !! ch ≠ Some (Some StateValidated);
}.

Lemma effect_unnoticed id ch id' n a' :
  unnoticed id ch n → ValidatorProps.wired (v_nodeID n) (a_sm a') →
  operation_effect id' (v_app n) a' → unnoticed id ch (set_app a' n).
Proof.
  intros [_ Hk (t & Ht & Hst) Honly Hb] Hw [[Hc Hn]|(t' & Hid & Hne & Hc & Hn & Hv)].
  - split; [done| | | |]; unfold machine, keyed; cbn; rewrite ?Hc, ?Hn; try done. by exists t.
  - split; [done| | | |]; unfold machine, keyed; cbn; rewrite ?Hc, ?Hn.
    + intros i u. rewrite lookup_insert_Some. intros [[<- <-]|[_ Hi]]; [done | by apply Hk].
    + destruct (decide (id' = id)) as [->|Hd]; [exists t'; by rewrite lookup_insert_eq|].
      exists t. by rewrite lookup_insert_ne.
    + by apply Notify_only.
    + rewrite (Notify_buffer id ch id' _ _ Honly). case_decide as Hd; [|done]. destruct Hd as [-> _]. intros [= Hval].
      destruct (Hv Hval) as (t0 & Ht0 & Hs0). unfold machine in Ht. rewrite Ht in Ht0. by injection Ht0 as <-.
Qed.
Lemma merge_keyed sm tickets : keyed sm → keyed (MergeState tickets sm).
Proof.
  unfold keyed, MergeState. cbn [currentState]. generalize (currentState sm).
  induction tickets as [|r rs IH]; intros m Hm; cbn [foldl]; [done|]. apply IH. intros id t.
  assert (Hin : ∀ x, t_ID x = t_ID r → <[t_ID r := x]> m !! id = Some t → t_ID t = id).
  { intros x Hx. rewrite lookup_insert_Some. intros [[<- <-]|[_ Hi]]; [done | by apply Hm]. }
  unfold merge_ticket. destruct (m !! t_ID r) as [l|] eqn:Hl; [|exact (Hin (copy_ticket r) eq_refl)].
  pose proof (Hm _ _ Hl) as Hid.
  destruct (VectorClock.Compare _ _); try case_match; first [exact (Hin (adopt r l) Hid) | apply Hm].
Qed.

Lemma persist_all ts a :
  let a' := foldl (λ a t, persistTicket (t_ID t) a) a ts in a_sm a' = a_sm a ∧ notifier_of a' = notifier_of a.
Proof.
  revert a. induction ts as [|t ts IH]; intros a; cbn [foldl]; [done|].
  destruct (IH (persistTicket (t_ID t) a)) as [-> ->]. apply persist_same.
Qed.

(** A state update changes tickets, and notifies nobody. *)
Lemma update_spec update n :
  ∃ n', state_handler update (Done n) = (Done n', None) ∧ v_nodeID n' = v_nodeID n ∧
    notifier_of (v_app n') = notifier_of (v_app n) ∧
    machine n' = MergeState (ticket_of_proto (v_nodeID n) <$> pb.su_Tickets update) (machine n).
Proof.
  eexists. split; [reflexivity|]. unfold machine, apply_update. cbn [v_nodeID v_app set_app]. split; [done|].
  set (ts := ticket_of_proto _ <$> _).
  by destruct (persist_all ts (MkApp (MergeState ts (a_sm (v_app n))) (a_env (v_app n)))) as [-> ->].
Qed.

(** The node goes on while the call waits: it executes requests, tickets are consumed and disputed
    through its API, the state of others arrives, and the call re-sends its message or receives. *)
Inductive goes_on (id : string) (ch : Notifier.Chan) (msgData : string) : ValidatorNode DB → ValidatorNode DB → Prop :=
| GExecute n req : goes_on id ch msgData n (set_app (consensus_handler (v_nodeID n) req (v_app n)).1 n)
| GConsume n id' : goes_on id ch msgData n (Validator.ConsumeTicket id' n).1
| GDispute n id' : goes_on id ch msgData n (Validator.DisputeTicket id' n).1
| GUpdate n n' update err :
    state_handler update (Done n) = (Done n', err) → ticket_state id n' ≠ Some StateIssued → goes_on id ch msgData n n'
| GWait n n' ev : await_state id ch msgData ev n = Some (n', None) → goes_on id ch msgData n n'.

Lemma update_unnoticed id ch update n n' err :
  (∃ t, currentState (machine n) !! id = Some t) → ValidatorProps.wired (v_nodeID n) (machine n) → keyed (machine n) →
  subscribed_only id ch (notifier_of (v_app n)) →
  Notifier.buffers (notifier_of (v_app n)) !! ch ≠ Some (Some StateValidated) →
  state_handler update (Done n) = (Done n', err) → ticket_state id n' ≠ Some StateIssued → unnoticed id ch n'.
Proof.
  intros (t & Ht) Hw Hk Honly Hb Hu Hne. destruct (update_spec update n) as (n1 & Hu' & Hid & Hn & Hm).
  rewrite Hu in Hu'. injection Hu' as -> _. split; rewrite ?Hid, ?Hn, ?Hm; try done; [by apply merge_keyed|].
  assert (Hsome : ∀ ts m, is_Some (m !! id) → is_Some (foldl merge_ticket m ts !! id)).
  { induction ts as [|r rs IH]; intros m Hs; cbn [foldl]; [done|]. apply IH. unfold merge_ticket.
    repeat case_match; try done; rewrite lookup_insert; by case_decide. }
  unfold ticket_state in Hne. rewrite Hm in Hne.
  destruct (Hsome (ticket_of_proto (v_nodeID n) <$> pb.su_Tickets update) (currentState (machine n))) as [t' Ht']; [by eexists|].
  exists t'. unfold MergeState in *. cbn [currentState] in *. rewrite Ht' in Hne |- *. split; [done|].
  intros Hi. apply Hne. cbn. by rewrite Hi.
Qed.

Lemma goes_on_unnoticed id ch md n n' : goes_on id ch md n n' → unnoticed id ch n → unnoticed id ch n'.
Proof.
  intros Hg Hun. pose proof Hun as [Hw Hk (t & Ht & Hst) Honly Hb].
  destruct Hg as [n req|n id'|n id'|n n' update err Hu Hne|n n' ev Ha].
  - destruct (handler_effect (v_nodeID n) req (v_app n) Hw Hk). by eapply effect_unnoticed.
  - destruct (apply_operation_effect (v_nodeID n) (Messages.MkRequest "" id' "CONSUME" "" 0 "") (v_nodeID n) (v_app n) Hw Hk)
      as [Hw' He].
    assert (Heq : (Validator.ConsumeTicket id' n).1 =
      set_app (apply_operation (Messages.MkRequest "" id' "CONSUME" "" 0 "") (v_nodeID n) (v_app n)).1 n).
    { unfold Validator.ConsumeTicket. cbn. by destruct (TicketMachine.ConsumeTicket _ _ _ _ _) as [[? ?] ?]. }
    rewrite Heq. by eapply effect_unnoticed.
  - destruct (apply_operation_effect (v_nodeID n) (Messages.MkRequest "" id' "DISPUTE" "" 0 "") (v_nodeID n) (v_app n) Hw Hk)
      as [Hw' He].
    assert (Heq : (Validator.DisputeTicket id' n).1 =
      set_app (apply_operation (Messages.MkRequest "" id' "DISPUTE" "" 0 "") (v_nodeID n) (v_app n)).1 n).
    { unfold Validator.DisputeTicket. cbn. by destruct (TicketMachine.DisputeTicket _ _ _ _ _) as [[? ?] ?]. }
    rewrite Heq. by eapply effect_unnoticed.
  - eapply update_unnoticed; eauto.
  - unfold await_state in Ha. destruct ev; try done.
    + injection Ha as <-. by split; try (exists t).
    + unfold Notifier.Receive in Ha.
      destruct (Notifier.buffers (e_notifier (a_env (v_app n))) !! ch) as [[s|]|] eqn:Hbuf; try done.
      destruct (_ =? _)%string; [done|]. injection Ha as <-. split; try done; [by exists t| |].
      * destruct Honly as [[Hin _] Ho]. split; [|done]. split; [done|]. cbn. rewrite lookup_insert_eq. by eexists.
      * cbn. by rewrite lookup_insert_eq.
Qed.

(** The state of a call at a node that is not primary, when it begins to wait *)
Lemma call_waits nano peers cb id data n n1 ch md :
  Validator.ValidateTicket nano peers cb id data n = Done (n1, AwaitState ch md) →
  v_nodeID n1 = v_nodeID n ∧ machine n1 = machine n ∧
  notifier_of (v_app n1) = (Notifier.Subscribe id (notifier_of (v_app n))).1 ∧
  ch = (Notifier.Subscribe id (notifier_of (v_app n))).2.
Proof.
  unfold Validator.ValidateTicket. destruct (already_validated id n); [done|].
  destruct (Pbft.IsPrimary (v_pbft n)).
  { destruct (_ && _); [done|]. destruct (Pbft.ProposeRequest _ _ _ _ _) as [[[p a] es] [err|]]; done. }
  destruct (Pbft.GetPrimary (v_pbft n)) as [primary|why]; [|done]. cbn [outcome_bind].
  destruct (_ =? 0)%Z; [done|]. destruct (Messages.SerializeRequest _); [|done].
  destruct (Messages.SerializePBFTMessage _ _ _); [|done]. unfold net_send.
  destruct (e_net_error _); [done|]. cbv beta iota zeta. destruct (Pbft.NotifyPendingRequest _) as [p es].
  destruct (Notifier.Subscribe id _) as [sn c] eqn:Hs. cbn [e_notifier] in Hs.
  destruct (already_validated id _); [done|]. intros [= <- <- _]. by split_and!.
Qed.
(** C19: a validation that arrives as the state of another node is not noticed by the call that waits
    for it. At a node that is not the primary, a call of [ValidateTicket] waits for its channel; before
    the node has executed the request, a state update from a node that has executed it reaches it, and
    the ticket is VALIDATED. Whatever happens afterwards, as long as no update makes the ticket ISSUED
    again (the node executes requests, this one as well, tickets are consumed and disputed, further
    updates arrive, the call re-sends its message and receives), the call ends with an error: at its
    deadline, or when the node shuts down. *)
Theorem merged_validation_unnoticed nano peers cb id data n n1 ch md update n2 err n3 ev n4 answer :
  ValidatorProps.wired (v_nodeID n) (machine n) → keyed (machine n) → numbered (notifier_of (v_app n)) →
  is_Some (ticket_state id n) →
  Validator.ValidateTicket nano peers cb id data n = Done (n1, AwaitState ch md) →
  state_handler update (Done n1) = (Done n2, err) → ticket_state id n2 = Some StateValidated →
  rtc (goes_on id ch md) n2 n3 → await_state id ch md ev n3 = Some (n4, Some answer) →
  answer = Some (timeout_error id "40s") ∨ answer = Some "node shutting down"%string.
Proof.
  intros Hw Hk Hnum [s Hs] Hcall Hu Hst Hrun Ha.
  destruct (call_waits _ _ _ _ _ _ _ _ _ Hcall) as (Hid & Hm & Hn & Hch).
  destruct (Notifier.Subscribe id (notifier_of (v_app n))) as [sn ch0] eqn:Hsub. cbn [fst snd] in Hn, Hch. subst ch0.
  destruct (Subscribe_only _ _ _ _ Hnum Hsub) as [Honly Hbuf].
  assert (Hun : unnoticed id ch n2).
  { apply (update_unnoticed id ch update n1 n2 err); rewrite ?Hid, ?Hm, ?Hn; try done.
    - unfold ticket_state in Hs. destruct (currentState (machine n) !! id) as [t|]; [by exists t | discriminate Hs].
    - by rewrite Hbuf.
    - by rewrite Hst. }
  assert (Hun3 : unnoticed id ch n3).
  { clear Ha Hu Hst. induction Hrun as [|x y z Hxy _ IH]; [done|]. apply IH, (goes_on_unnoticed _ _ _ _ _ Hxy Hun). }
  pose proof (un_buffer _ _ _ Hun3) as Hb. revert Ha. unfold await_state, Notifier.Receive.
  destruct ev; [by intros [= _ <-]; left | by intros [= _ <-]; right | done |].
  unfold notifier_of in Hb.
  destruct (Notifier.buffers (e_notifier (a_env (v_app n3))) !! ch) as [[s'|]|]; [|discriminate..].
  destruct (String.eqb_spec s' StateValidated) as [->|]; [by destruct Hb | done].
Qed.
(** ** The call that is answered *)

(** Meanwhile the call re-sends its message, and the node executes requests for other tickets. *)
Inductive goes_on_elsewhere (id : string) (ch : Notifier.Chan) (msgData : string) :
    ValidatorNode DB → ValidatorNode DB → Prop :=
| EExecute n req : Messages.TicketID req ≠ id →
    goes_on_elsewhere id ch msgData n (set_app (consensus_handler (v_nodeID n) req (v_app n)).1 n)
| ERetry n n' answer : await_state id ch msgData Retry n = Some (n', answer) → goes_on_elsewhere id ch msgData n n'.

(** The ticket is ISSUED, and nothing was notified of it. *)
Record listening (id : string) (ch : Notifier.Chan) n : Prop := Listening {
  li_wired : ValidatorProps.wired (v_nodeID n) (machine n);
  li_keyed : keyed (machine n);
  li_issued : ∃ t, currentState (machine n) !! id = Some t ∧ t_State t = StateIssued;
  li_only : subscribed_only id ch (notifier_of (v_app n));
  li_empty : Notifier.buffers (notifier_of (v_app n)) !! ch = Some None;
}.

Lemma elsewhere_listening id ch md n n' : goes_on_elsewhere id ch md n n' → listening id ch n → listening id ch n'.
Proof.
  intros Hg [Hw Hk (t & Ht & Hst) Honly Hb]. destruct Hg as [n req Hne|n n' answer Ha].
  - destruct (handler_effect (v_nodeID n) req (v_app n) Hw Hk) as [Hw' [[Hc Hn]|(t' & Hid & _ & Hc & Hn & _)]];
      split; unfold machine, keyed in *; cbn; rewrite ?Hc, ?Hn; try done; [by exists t| | | |].
    + intros i u. rewrite lookup_insert_Some. intros [[<- <-]|[_ Hi]]; [done | by apply Hk].
    + exists t. by rewrite lookup_insert_ne.
    + by apply Notify_only.
    + rewrite (Notify_buffer id ch _ _ _ Honly). by rewrite decide_False by (by intros [? _]).
  - injection Ha as <- _. by split; try (exists t).
Qed.

(** Executing a validation of an ISSUED ticket notifies, whether or not the ticket is saved. *)
Lemma handler_notifies me req b t :
  ValidatorProps.wired me (a_sm b) → keyed (a_sm b) →
  currentState (a_sm b) !! Messages.TicketID req = Some t → t_State t = StateIssued →
  Messages.Operation req = "VALIDATE"%string →
  let b' := (consensus_handler me req b).1 in
  notifier_of b' = Notifier.Notify (Messages.TicketID req) StateValidated (notifier_of b) ∧
  t_State <$> currentState (a_sm b') !! Messages.TicketID req = Some StateValidated.
Proof.
  intros Hw Hk Ht Hst Hop. unfold consensus_handler, apply_operation. rewrite Hop. cbn [String.eqb Ascii.eqb Bool.eqb].
  unfold TicketMachine.ValidateTicket. rewrite Ht. unfold validate_guard. rewrite decide_True by done.
  set (v := validator_of me req).
  destruct (finish_transition_wired me (Messages.TicketID req) (set_validator v (retag StateValidated (e_now (a_env b)) t))
    (t_State t) StateValidated v _ (a_env b) Hw) as (sm' & e' & err & -> & Hc & _ & _ & _ & _ & Hn & _). cbn [fst snd].
  assert (Hdone : notifier_of (MkApp sm' e') = Notifier.Notify (Messages.TicketID req) StateValidated (notifier_of b) ∧
    t_State <$> currentState sm' !! Messages.TicketID req = Some StateValidated).
  { split; [|by rewrite Hc, lookup_insert_eq]. unfold notifier_of. cbn. rewrite Hn. f_equal. exact (Hk _ _ Ht). }
  pose proof (persist_same (Messages.TicketID req) (MkApp sm' e')) as [Hsm Hnot].
  destruct err as [err|]; [destruct (idempotent err)|]; cbn [fst]; [|exact Hdone|]; by rewrite Hsm, Hnot.
Qed.

(** C18: a validation that the node executes itself ends the call that waits for it. At a node that is
    not the primary, a call of [ValidateTicket] for an ISSUED ticket waits; while it re-sends its
    message and the node executes requests for other tickets, nothing reaches its channel; and as soon
    as the node has executed a validation of the ticket, whoever asked for it and whatever becomes of
    saving it, the call receives it and is answered without an error, the ticket is VALIDATED, and the
    node no longer expects the primary to act. *)
Theorem executed_validation_ends_wait nano peers cb id data n n1 ch md n2 req a err :
  ValidatorProps.wired (v_nodeID n) (machine n) → keyed (machine n) → numbered (notifier_of (v_app n)) →
  ticket_state id n = Some StateIssued →
  Validator.ValidateTicket nano peers cb id data n = Done (n1, AwaitState ch md) →
  rtc (goes_on_elsewhere id ch md) n1 n2 →
  Messages.TicketID req = id → Messages.Operation req = "VALIDATE"%string →
  consensus_handler (v_nodeID n2) req (v_app n2) = (a, err) →
  await_state id ch md NewState n2 = None ∧
  ∃ n3, await_state id ch md NewState (set_app a n2) = Some (n3, Some None) ∧
    ticket_state id n3 = Some StateValidated ∧ Pbft.hasPendingClientRequest (v_pbft n3) = false.
Proof.
  intros Hw Hk Hnum Hst Hcall Hrun Hid Hop Hexec.
  destruct (call_waits _ _ _ _ _ _ _ _ _ Hcall) as (Hname & Hm & Hn & Hch).
  destruct (Notifier.Subscribe id (notifier_of (v_app n))) as [sn ch0] eqn:Hsub. cbn [fst snd] in Hn, Hch. subst ch0.
  destruct (Subscribe_only _ _ _ _ Hnum Hsub) as [Honly Hbuf].
  assert (Hli : listening id ch n1).
  { split; rewrite ?Hname, ?Hm, ?Hn; try done. unfold ticket_state in Hst.
    destruct (currentState (machine n) !! id) as [t|]; [|discriminate Hst]. exists t. by injection Hst as ->. }
  assert (Hli2 : listening id ch n2).
  { clear Hcall Hname Hm Hn Hexec. induction Hrun as [|x y z Hxy _ IH]; [done|].
    apply IH, (elsewhere_listening _ _ _ _ _ Hxy Hli). }
  destruct Hli2 as [Hw2 Hk2 (t & Ht & Hi) Honly2 Hb2].
  split; [unfold await_state, Notifier.Receive; unfold notifier_of in Hb2; by rewrite Hb2|].
  subst id. destruct (handler_notifies _ _ _ _ Hw2 Hk2 Ht Hi Hop) as [Hnot Hval]. rewrite Hexec in Hnot, Hval.
  cbn [fst] in Hnot, Hval. unfold await_state, Notifier.Receive. cbn [v_app set_app].
  change (e_notifier (a_env a)) with (notifier_of a). rewrite Hnot, (Notify_buffer _ _ _ _ _ Honly2).
  rewrite decide_True by done. rewrite String.eqb_refl. eexists. split; [reflexivity|]. by split.
Qed.
End node.

(** * A node that forwarded a request *)

#[local] Existing Instance pb.bit_codec.
#[local] Existing Instances Storage.bit_json.

Definition follower : ValidatorNode Storage.mem_db :=
  let n := setup "node1" "peer" 4 false ValidatorProps.demo_env in
  set_app (MkApp (fst (IssueTicket 1600000000 "T1" "seat A1" (a_sm (v_app n)))) ValidatorProps.demo_env) n.

(** What another node announces after it has executed the validation *)
Definition replicated_update : pb.StateUpdate :=
  pb.MkStateUpdate [pb.MkTicketState "T1" pb.State_VALIDATED 1700000000 "node0"
    (Some (pb.MkVectorClock {[ "node0" := 1%Z ]})) "seat A1"] None "node0".

Definition follower_request : Messages.Request := Messages.MkRequest "r" "T1" "VALIDATE" "seat A1" 7 "".

Definition waits_for (r : outcome (ValidatorNode Storage.mem_db * api_call)) : bool :=
  match r with Done (_, AwaitState _ _) => true | _ => false end.

Lemma follower_waits : ∃ n1 ch md,
  Validator.ValidateTicket 7 3 0 "T1" "seat A1" follower = Done (n1, AwaitState ch md).
Proof.
  destruct (Validator.ValidateTicket 7 3 0 "T1" "seat A1" follower) as [[n1 call]|why] eqn:Hcall.
  2: { assert (Hw : waits_for (Panic why) = true) by (rewrite <- Hcall; vm_compute; reflexivity). discriminate Hw. }
  assert (Hw : waits_for (Done (n1, call)) = true) by (rewrite <- Hcall; vm_compute; reflexivity).
  destruct call as [err|rid|ch md]; [discriminate Hw | discriminate Hw|]. by exists n1, ch, md.
Qed.

Lemma follower_numbered : numbered (notifier_of (v_app follower)).
Proof. intros id ch Hin. by apply elem_of_nil in Hin. Qed.

Lemma follower_keyed : keyed (machine follower).
Proof.
  assert (Hc : ∃ t1, currentState (machine follower) = {[ "T1" := t1 ]} ∧ t_ID t1 = "T1"%string)
    by (eexists; split; reflexivity).
  destruct Hc as (t1 & Hc & Hid). intros id t. rewrite Hc, lookup_singleton_Some. by intros [<- <-].
Qed.

Lemma merged_validation_unnoticed_witness : ∃ (n1 n2 n4 : ValidatorNode Storage.mem_db) ch md answer,
  Validator.ValidateTicket 7 3 0 "T1" "seat A1" follower = Done (n1, AwaitState ch md) ∧
  state_handler replicated_update (Done n1) = (Done n2, None) ∧ ticket_state "T1" n2 = Some StateValidated ∧
  await_state "T1" ch md Deadline
    (set_app (consensus_handler (v_nodeID n2) follower_request (v_app n2)).1 n2) = Some (n4, Some answer) ∧
  (answer = Some (timeout_error "T1" "40s") ∨ answer = Some "node shutting down"%string).
Proof.
  destruct follower_waits as (n1 & ch & md & Hcall).
  destruct (update_spec replicated_update n1) as (n2 & Hu & Hid & Hn & Hm).
  destruct (call_waits _ _ _ _ _ _ _ _ _ Hcall) as (Hname & Hm1 & _ & _).
  assert (Hst : ticket_state "T1" n2 = Some StateValidated).
  { unfold ticket_state. rewrite Hm, Hname, Hm1. vm_compute. reflexivity. }
  set (n3 := set_app (consensus_handler (v_nodeID n2) follower_request (v_app n2)).1 n2).
  assert (Ha : await_state "T1" ch md Deadline n3 = Some (leave "T1" ch n3, Some (Some (timeout_error "T1" "40s"))))
    by reflexivity.
  exists n1, n2, (leave "T1" ch n3), ch, md, (Some (timeout_error "T1" "40s")).
  split; [exact Hcall|]. split; [exact Hu|]. split; [exact Hst|]. split; [exact Ha|].
  refine (merged_validation_unnoticed 7 3 0 "T1" "seat A1" follower n1 ch md replicated_update n2 None n3 Deadline _ _
    (conj eq_refl eq_refl) follower_keyed follower_numbered _ Hcall Hu Hst _ Ha).
  - exists StateIssued. vm_compute. reflexivity.
  - apply rtc_once, GExecute.
Defined.

Lemma executed_validation_ends_wait_witness : ∃ (n1 n3 : ValidatorNode Storage.mem_db) ch md a err,
  Validator.ValidateTicket 7 3 0 "T1" "seat A1" follower = Done (n1, AwaitState ch md) ∧
  consensus_handler (v_nodeID n1) follower_request (v_app n1) = (a, err) ∧
  await_state "T1" ch md NewState (set_app a n1) = Some (n3, Some None) ∧
  ticket_state "T1" n3 = Some StateValidated.
Proof.
  destruct follower_waits as (n1 & ch & md & Hcall).
  destruct (consensus_handler (v_nodeID n1) follower_request (v_app n1)) as [a err] eqn:Ha.
  destruct (executed_validation_ends_wait 7 3 0 "T1" "seat A1" follower n1 ch md n1 follower_request a err
    (conj eq_refl eq_refl) follower_keyed follower_numbered ltac:(vm_compute; reflexivity) Hcall (rtc_refl _ _)
    eq_refl eq_refl Ha) as (_ & n3 & Hw & Hst & _).
  exists n1, n3, ch, md, a, err. split; [exact Hcall|]. split; [exact Ha|]. split; [exact Hw | exact Hst].
Defined.
End WaitProps.
