(* ===== verification/ValidatorRound.v ===== *)
(** A validation across the network: [ValidateTicket] of the primary ([Validator]) proposes, the nodes
    exchange the messages of the round ([PbftRound]), and every node that takes part has the ticket
    VALIDATED in memory and in its database. *)

From stdpp Require Import relations.
From S2P Require Import Prelude VectorClock TicketMachine Hashing Proto Messages Pbft PbftSpec PbftInv PbftSafety PbftLive Cluster PbftRound GossipCache GossipEngine Storage Network Notifier Validator ValidatorProps Discovery Http Api ApiProps NodeApi NodeProps.

Module ValidatorRound.
Import TicketMachine Validator PbftRound.

Section round.
Context {DB : Type} `{Storage.BoltLaws DB} `{Storage.JsonCodec Storage.TicketRecord}.
Context (clean : Storage.TicketRecord → Prop) `{!Storage.JsonLaws Storage.TicketRecord clean}.
Context `{HLv : pb.ProtoLaws pb.ValidatorMessage pb.unset_ValidatorMessage,
  HLpp : pb.ProtoLaws pb.PrePrepare pb.unset_PrePrepare,
  HLp : pb.ProtoLaws pb.Prepare pb.unset_Prepare,
  HLc : pb.ProtoLaws pb.Commit pb.unset_Commit}.
Context `{!pb.ProtoMessage pb.Request, !pb.ProtoMessage pb.ViewChange, !pb.ProtoMessage pb.Checkpoint,
  !pb.ProtoMessage pb.StateUpdate, !pb.ProtoMessage pb.StateSyncRequest, !pb.ProtoMessage pb.StateSyncResponse}.
Implicit Types a : App DB.

(** ** One node *)

(** The application of node [me] holds the ticket as ISSUED, and its database takes the record with
    [who] as the validator. *)
Record can_validate (me who id : string) a : Prop := CanValidate {
  cv_wired : ValidatorProps.wired me (a_sm a);
  cv_issued : ∃ t, currentState (a_sm a) !! id = Some t ∧ t_ID t = id ∧ t_State t = StateIssued;
  cv_keyed : ValidatorProps.db_keyed (e_db (a_env a));
  cv_takes t : t_ID t = id → t_State t = StateValidated → t_ValidatorID t = who →
    clean (record_of t) ∧ NodeProps.save_error t (e_db (a_env a)) = None;
}.

(** The ticket is validated, in memory and in the database. *)
Definition validated_by (who id : string) a : Prop :=
  ∃ t, currentState (a_sm a) !! id = Some t ∧ t_State t = StateValidated ∧ t_ValidatorID t = who ∧
    ValidatorProps.stored (record_of t) (e_db (a_env a)).

Lemma handler_validates me req a :
  can_validate me (validator_of me req) (Messages.TicketID req) a → Messages.Operation req = "VALIDATE"%string →
  ∃ a', consensus_handler me req a = (a', None) ∧ validated_by (validator_of me req) (Messages.TicketID req) a'.
Proof.
  set (who := validator_of me req). intros [Hw (t & Ht & Hid & Hst) Hk Htakes] Hop.
  unfold consensus_handler, apply_operation. fold who. rewrite Hop. cbn [String.eqb Ascii.eqb Bool.eqb]. unfold TicketMachine.ValidateTicket. rewrite Ht.
  unfold validate_guard. rewrite decide_True by done.
  destruct (NodeProps.finish_transition_wired me (Messages.TicketID req)
    (set_validator who (retag StateValidated (e_now (a_env a)) t)) (t_State t) StateValidated who (a_sm a) (a_env a) Hw)
    as (sm' & e' & err & Hf & Hcur & Hdb & Herr & _). rewrite Hf. cbn [fst snd].
  set (t' := MkTicket _ _ _ _ _ _ _) in Hcur, Hdb, Herr.
  destruct (Htakes t' Hid eq_refl eq_refl) as [Hclean Hsave]. apply Herr in Hsave as Hnone. rewrite Hnone.
  eexists. split; [reflexivity|].
  assert (Hs : Storage.SaveTicket (record_of t') (e_db (a_env a)) = (e_db e', None)).
  { rewrite Hdb. unfold NodeProps.save_error in Hsave. by destruct (Storage.SaveTicket _ _) as [? ?]; cbn in *; subst. }
  destruct (ValidatorProps.save_stored clean _ _ _ Hclean Hs) as [Hin Hk'].
  assert (Ht' : currentState (a_sm (MkApp sm' e')) !! Messages.TicketID req = Some t')
    by (cbn [a_sm]; rewrite Hcur; apply lookup_insert_eq).
  destruct (ValidatorProps.persist_keeps clean _ _ _ Ht' Hclean Hin (Hk' Hk)) as (Hsm & Hstored & _).
  exists t'. rewrite Hsm. by split_and!.
Qed.

Lemma replicator_keeps me req a :
  let a' := fst (state_replicator me req a) in
  a_sm a' = a_sm a ∧ e_db (a_env a') = e_db (a_env a) ∧ e_notifier (a_env a') = e_notifier (a_env a).
Proof. unfold state_replicator, net_send. repeat case_match; simplify_eq/=; done. Qed.

(** What executing the request does to the application of a wired node *)
Lemma node_validates me id req (p : Pbft.PBFTNode (App DB)) a :
  Pbft.handlers p = [consensus_handler me] → Pbft.stateReplicator p = Some (state_replicator me) →
  can_validate me (validator_of me req) id a → Messages.TicketID req = id →
  Messages.Operation req = "VALIDATE"%string →
  PbftLive.handlers_succeed p a req ∧ validated_by (validator_of me req) id (PbftInv.apply_request p req a).
Proof.
  intros Hh Hr Hcan <- Hop. destruct (handler_validates me req a Hcan Hop) as (a' & Ha & t & Hv).
  unfold PbftLive.handlers_succeed, PbftInv.apply_request, PbftSpec.replicated. rewrite Hh, Hr.
  cbn [Pbft.call_handlers]. rewrite Ha. split; [done|].
  destruct (replicator_keeps me req a') as (Hsm & Hdb & _). exists t. by rewrite Hsm, Hdb.
Qed.

(** ** The network *)

(** The nodes that take part. *)
Variable ids : list string.

(** Node [i], with [q] for consensus and the application [a], is ready to agree on number [s] in view
    [v], where [R] votes are a quorum, and to enter [who] as the validator of the ticket. *)
Record prepared (v s R : Z) (id who i : string) (q : Pbft.PBFTNode (App DB)) a : Prop := Prepared {
  pr_name : Pbft.nodeID q = i ∧ i ≠ ""%string;
  pr_view : Pbft.view q = v ∧ Pbft.required_votes q = R;
  pr_fresh : Pbft.messageQueue q = [] ∧ Pbft.votes_at (Pbft.prepareLog q) s = ∅ ∧
    Pbft.votes_at (Pbft.commitLog q) s = ∅ ∧ Pbft.requestLog q !! s = None;
  pr_sends : PbftLive.sendable q s;
  pr_wired : Pbft.handlers q = [consensus_handler i] ∧ Pbft.stateReplicator q = Some (state_replicator i);
  pr_ticket : can_validate i who id a;
}.

(** What has been proposed at [p] is executed by all. *)
Lemma round_validates (start : string → Pbft.PBFTNode (App DB) * App DB) p req v s R id now peers q' a' es err k c0 c :
  NoDup ids → p ∈ ids → (R ≤ Z.of_nat (length ids))%Z →
  s = wrap_i64 (Pbft.sequence (start p).1 + 1) → Z.rem s Pbft.checkpointInterval ≠ 0%Z →
  Messages.TicketID req = id → Messages.Operation req = "VALIDATE"%string →
  (∀ i, i ∈ ids → prepared v s R id (validator_of i (own p req i)) i (start i).1 (start i).2) →
  (∃ n1 m, Pbft.propose_locked peers req (start p).1 = (n1, Ok m)) →
  (∃ d, Pbft.envelope 0 (Messages.SerializePrePrepare (Messages.MkPrePrepareMsg v s (Pbft.computeDigest req) req)) p = Ok d) →
  Pbft.ProposeRequest now peers req (start p).1 (start p).2 = (q', a', es, err) →
  r_nodes c0 !! p = Some (q', a') → (∀ i, i ∈ ids → i ≠ p → r_nodes c0 !! i = Some (start i)) →
  r_flight c0 = to_peers ids p (Cluster.broadcasts es) →
  nsteps (round_step ids) k c0 c →
  k < length ids * length ids * length ids ∧
  ((∃ c', round_step ids c c') ∨
   r_flight c = [] ∧ ∀ i, i ∈ ids → ∃ q, let a := PbftInv.apply_request (start i).1 (own p req i) (start i).2 in
     r_nodes c !! i = Some (q, a) ∧ Pbft.requestLog q !! s = None ∧
     validated_by (validator_of i (own p req i)) id a).
Proof.
  intros Hnd Hp HR Hs Hck Hid Hop Hprep (n1 & m & Hlock) Hpre Hprop Hc0 Hothers Hflight Hsteps.
  unfold Pbft.ProposeRequest in Hprop. rewrite Hlock in Hprop.
  destruct (Hprep p Hp) as [_ (Hview & _) _ _ _ _].
  assert (Hm : m = Messages.MkPrePrepareMsg v s (Pbft.computeDigest req) req).
  { revert Hlock. unfold Pbft.propose_locked. repeat (case_match; [done|]). intros [= _ <-]. by rewrite <- Hview, Hs. }
  assert (Hown : ∀ i, Messages.TicketID (own p req i) = id ∧ Messages.Operation (own p req i) = "VALIDATE"%string).
  { intros i. unfold own. destruct (decide (i = p)); [done|]. split; [done|]. cbn. by rewrite Hop. }
  assert (Hnode : ∀ i, i ∈ ids → PbftLive.handlers_succeed (start i).1 (start i).2 (own p req i) ∧
    validated_by (validator_of i (own p req i)) id (PbftInv.apply_request (start i).1 (own p req i) (start i).2)).
  { intros i Hi. destruct (Hprep i Hi) as [_ _ _ _ [Hh Hr] Hcan]. destruct (Hown i). by apply node_validates. }
  assert (Hready : ready ids start p req v s R).
  { split; try done; [by rewrite Hop|].
    intros i Hi. pose proof (proj1 (Hnode i Hi)) as Hok.
    destruct (Hprep i Hi) as [(Hn & Hie) (Hv & HR') (Hq & Hpl & Hcl & Hrl) Hsend _ _].
    destruct (start i). by split_and!. }
  rewrite Hm in Hlock, Hprop.
  destruct (round_runs ids start p req v s R Hready k c0 c) as [Hk Hend]; [by eapply round_begins | done |].
  split; [exact Hk|]. destruct Hend as [|[Hnil Hall]]; [by left|]. right. split; [exact Hnil|].
  intros i Hi. destruct (Hall i Hi) as (q & Hq & Hlog). exists q. split; [exact Hq|]. split; [exact Hlog|].
  apply (Hnode i Hi).
Qed.

(** The nodes before the call. *)
Variable node : string → ValidatorNode DB.

(** The request of a call at [p], and what the proposal makes of the node. *)
Definition request_of (nano : Z) (id data : string) (n : ValidatorNode DB) : Messages.Request :=
  Messages.MkRequest (v_nodeID n +:+ "-" +:+ FormatInt nano +:+ "-" +:+ id) id "VALIDATE" data
    (e_now (a_env (v_app n))) (v_nodeID n).

Definition proposal (nano peers : Z) (cb : Pbft.Callback) (id data : string) (n : ValidatorNode DB) : Pbft.outputs :=
  let req := request_of nano id data n in
  Pbft.ProposeRequest (e_nano (a_env (v_app n))) peers req
    (Pbft.RegisterCallback (Messages.RequestID req) (Some cb) (v_pbft n)) (v_app n).

(** A call that waits for consensus has proposed. *)
Lemma call_proposes nano peers cb id data n n' rid :
  Validator.ValidateTicket nano peers cb id data n = Done (n', AwaitConsensus rid) →
  rid = Messages.RequestID (request_of nano id data n) ∧
  ∃ es, proposal nano peers cb id data n = (v_pbft n', v_app n', es, None).
Proof.
  unfold Validator.ValidateTicket. destruct (already_validated id n); [done|].
  destruct (Pbft.IsPrimary (v_pbft n)).
  - destruct (_ && _); [done|]. unfold proposal, request_of. cbn [Messages.RequestID].
    destruct (Pbft.ProposeRequest _ _ _ _ _) as [[[p a] es] [err|]]; [done|].
    intros [= <- <-]. split; [done|]. by exists es.
  - unfold outcome_bind. repeat case_match; done.
Qed.

(** A proposal without an error was announced. *)
Lemma proposal_sent now peers req (q : Pbft.PBFTNode (App DB)) a q' a' es :
  Pbft.ProposeRequest now peers req q a = (q', a', es, None) → ∃ n1 m,
  Pbft.propose_locked peers req q = (n1, Ok m) ∧
  ∃ d, Pbft.envelope 0 (Messages.SerializePrePrepare m) (Pbft.nodeID q) = Ok d.
Proof.
  unfold Pbft.ProposeRequest. destruct (Pbft.propose_locked peers req q) as [n1 [m|err]] eqn:Hlock; [|done].
  intros Hs. exists n1, m. split; [done|].
  assert (Hn1 : Pbft.nodeID n1 = Pbft.nodeID q).
  { revert Hlock. unfold Pbft.propose_locked. repeat (case_match; [done|]). by intros [= <- _]. }
  revert Hs. unfold Pbft.propose_send. rewrite Hn1. destruct (Pbft.envelope _ _ _) as [d|]; [eauto | done].
Qed.

(** The messages a call at [p] sends. *)
Definition announced (nano peers : Z) (cb : Pbft.Callback) (id data : string) (n : ValidatorNode DB) : list string :=
  let '(_, _, es, _) := proposal nano peers cb id data n in Cluster.broadcasts es.

(** C3: a validation reaches every node that takes part. Where [2f+1] nodes or more hold a ticket as
    ISSUED, are in one view with nothing in the log for the next number, and [ValidateTicket] at the
    primary among them has proposed it and waits for consensus, the network may deliver the messages
    of the round in any order, as long as it delivers to these nodes: after fewer than N^3 deliveries
    (N nodes take part) none is left, and then every one of the nodes holds the ticket as VALIDATED,
    by itself as the validator, and its database holds the record of that ticket. The databases take
    the record, and the number is not one at which a checkpoint is made; what the nodes announce
    beside consensus is not delivered meanwhile. *)
Theorem validation_reaches_all p v s R nano peers cb id data n' rid k c0 c :
  NoDup ids → p ∈ ids → (R ≤ Z.of_nat (length ids))%Z →
  s = wrap_i64 (Pbft.sequence (v_pbft (node p)) + 1) → Z.rem s Pbft.checkpointInterval ≠ 0%Z →
  (∀ i, i ∈ ids → v_nodeID (node i) = i ∧ prepared v s R id i i (v_pbft (node i)) (v_app (node i))) →
  Validator.ValidateTicket nano peers cb id data (node p) = Done (n', AwaitConsensus rid) →
  r_nodes c0 !! p = Some (v_pbft n', v_app n') →
  (∀ i, i ∈ ids → i ≠ p → r_nodes c0 !! i = Some (v_pbft (node i), v_app (node i))) →
  r_flight c0 = to_peers ids p (announced nano peers cb id data (node p)) →
  nsteps (round_step ids) k c0 c →
  k < length ids * length ids * length ids ∧
  ((∃ c', round_step ids c c') ∨
   r_flight c = [] ∧ ∀ i, i ∈ ids → ∃ q a,
     r_nodes c !! i = Some (q, a) ∧ Pbft.requestLog q !! s = None ∧ validated_by i id a).
Proof.
  intros Hnd Hp HR Hs Hck Hprep Hcall Hc0 Hothers Hflight Hsteps.
  destruct (call_proposes _ _ _ _ _ _ _ _ Hcall) as (_ & es & Hprop).
  unfold announced in Hflight. rewrite Hprop in Hflight.
  set (req := request_of nano id data (node p)) in *.
  set (p1 := Pbft.RegisterCallback (Messages.RequestID req) (Some cb) (v_pbft (node p))).
  set (start i := if decide (i = p) then (p1, v_app (node p)) else (v_pbft (node i), v_app (node i))).
  assert (Hstart : start p = (p1, v_app (node p))) by (unfold start; by rewrite decide_True).
  unfold proposal in Hprop. fold req p1 in Hprop.
  destruct (Hprep p Hp) as (Hid & [(Hname & Hne) (Hview & _) _ _ _ _]).
  pose proof (proposal_sent _ _ _ _ _ _ _ _ Hprop) as (n1 & m & Hlock & Hpre).
  assert (Hwho : ∀ i, i ∈ ids → validator_of i (own p req i) = i).
  { intros i Hi. unfold own. destruct (decide (i = p)) as [->|]; [|done].
    unfold validator_of, req, request_of. cbn [Messages.NodeID]. rewrite Hid. by destruct (String.eqb_spec p ""). }
  destruct (round_validates start p req v s R id (e_nano (a_env (v_app (node p)))) peers (v_pbft n') (v_app n') es None
    k c0 c) as [Hk Hend]; rewrite ?Hstart; try done.
  - intros i Hi. rewrite Hwho by done. destruct (Hprep i Hi) as [_ [Hn Hv Hf Hs' Hw Ht]]. unfold start.
    destruct (decide (i = p)) as [->|]; by split.
  - by exists n1, m.
  - replace (Messages.MkPrePrepareMsg v s _ req) with m; [destruct Hpre as [d Hd]; exists d; rewrite <- Hd; f_equal; by symmetry|].
    revert Hlock. unfold Pbft.propose_locked. repeat (case_match; [done|]). intros [= _ <-]. by rewrite <- Hview, Hs.
  - intros i Hi Hip. unfold start. rewrite decide_False by done. by apply Hothers.
  - split; [exact Hk|]. destruct Hend as [|[Hnil Hall]]; [by left|]. right. split; [exact Hnil|].
    intros i Hi. destruct (Hall i Hi) as (q & Hq & Hlog & Hv). exists q. eexists. split; [exact Hq|]. split; [exact Hlog|].
    rewrite Hwho in Hv by done. exact Hv.
Qed.
End round.

(** * Three of four nodes *)

#[local] Existing Instance pb.bit_codec.
#[local] Existing Instance pb.bit_codec_laws.
#[local] Existing Instances Storage.bit_json Storage.bit_json_laws.

Definition round_ids : list string := ["node0"; "node1"; "node2"].

(** Each has the ticket issued before. *)
Definition round_node (id : string) : ValidatorNode Storage.mem_db :=
  let n := setup id "peer" 4 (id =? "node0")%string ValidatorProps.demo_env in
  set_app (MkApp (fst (IssueTicket 1600000000 "T1" "seat A1" (a_sm (v_app n)))) ValidatorProps.demo_env) n.

Definition waits (r : outcome (ValidatorNode Storage.mem_db * api_call)) : bool :=
  match r with Done (_, AwaitConsensus _) => true | _ => false end.

Lemma round_node_prepared i : i ∈ round_ids → v_nodeID (round_node i) = i ∧
  prepared (λ _, True) 0 1 3 "T1" i i (v_pbft (round_node i)) (v_app (round_node i)).
Proof.
  intros Hi. assert (Hne : i ≠ ""%string)
    by (intros ->; unfold round_ids in Hi; repeat (apply elem_of_cons in Hi as [[=]|Hi]); by apply elem_of_nil in Hi).
  split; [done|]. split; try done.
  - split; intros d; unfold Pbft.envelope, Messages.SerializePrepare, Messages.SerializeCommit,
      Messages.SerializePBFTMessage; simpl; repeat case_decide; simpl; by eexists.
  - split; [by split| | |].
    + eexists. split; [apply lookup_insert_eq|]. by split.
    + intros k v Hkv. vm_compute in Hkv. discriminate.
    + intros t _ _ _. split; [done|]. by apply NodeProps.memory_takes_all.
Qed.

Lemma others_of {A} (x : A) (f : string → A) i : i ∈ round_ids → i ≠ "node0"%string →
  (<["node0" := x]> {[ "node1" := f "node1"; "node2" := f "node2" ]} : gmap string A) !! i = Some (f i).
Proof.
  intros Hi Hne. unfold round_ids in Hi. apply elem_of_cons in Hi as [->|Hi]; [done|].
  repeat (apply elem_of_cons in Hi as [->|Hi]; [reflexivity|]). by apply elem_of_nil in Hi.
Qed.

Lemma validation_reaches_all_witness : ∃ n' rid c0,
  Validator.ValidateTicket 7 2 0 "T1" "seat A1" (round_node "node0") = Done (n', AwaitConsensus rid) ∧
  r_nodes c0 !! "node0"%string = Some (v_pbft n', v_app n') ∧
  (0 < length round_ids * length round_ids * length round_ids ∧
  ((∃ c', round_step round_ids c0 c') ∨
   r_flight c0 = [] ∧ ∀ i, i ∈ round_ids → ∃ q a,
     r_nodes c0 !! i = Some (q, a) ∧ Pbft.requestLog q !! 1%Z = None ∧ validated_by i "T1" a)).
Proof.
  destruct (Validator.ValidateTicket 7 2 0 "T1" "seat A1" (round_node "node0")) as [[n' call]|why] eqn:Hcall.
  2: { assert (Hw : waits (Panic why) = true) by (rewrite <- Hcall; vm_compute; reflexivity). discriminate Hw. }
  assert (Hw : waits (Done (n', call)) = true) by (rewrite <- Hcall; vm_compute; reflexivity).
  destruct call as [err|rid|ch md]; [discriminate Hw | | discriminate Hw].
  set (before i := (v_pbft (round_node i), v_app (round_node i))).
  set (c0 := MkRound (<["node0" := (v_pbft n', v_app n')]> {[ "node1" := before "node1"; "node2" := before "node2" ]})
    (to_peers round_ids "node0" (announced 7 2 0 "T1" "seat A1" (round_node "node0")))).
  assert (Hothers : ∀ i, i ∈ round_ids → i ≠ "node0"%string →
    r_nodes c0 !! i = Some (v_pbft (round_node i), v_app (round_node i))).
  { exact (others_of _ before). }
  exists n', rid, c0. split; [reflexivity|]. split; [apply lookup_insert_eq|].
  assert (Hflight : r_flight c0 = to_peers round_ids "node0" (announced 7 2 0 "T1" "seat A1" (round_node "node0")))
    by reflexivity.
  exact (validation_reaches_all (λ _, True) round_ids round_node "node0" 0 1 3 7 2 0 "T1" "seat A1" n' rid 0 c0 c0
    ltac:(apply (bool_decide_unpack _); vm_compute; exact I) ltac:(left) ltac:(simpl; lia) eq_refl ltac:(vm_compute; discriminate)
    round_node_prepared Hcall (lookup_insert_eq _ _ _) Hothers Hflight (nsteps_O _ _)).
Defined.
End ValidatorRound.
