(* ===== verification/FailOver.v ===== *)
(** A request that outlives its primary ([src/cmd/validator/main.go] with [src/pkg/consensus/pbft.go]): a node
    that is not the primary has forwarded a validation to a primary that is down. The nodes change view
    ([ViewChange]), the call sends its message again, the new primary proposes it, and the round
    ([ValidatorRound]) ends the call. *)

From stdpp Require Import relations.
From S2P Require Import Prelude GoStrings VectorClock TicketMachine Hashing Proto Messages Pbft PbftSpec PbftInv PbftSafety PbftLive Cluster PbftRound ViewChange GossipCache GossipEngine Storage Network Notifier Validator ValidatorProps Discovery Http Api ApiProps NodeApi NodeProps WaitProps ValidatorRound.

Module FailOver.
Import TicketMachine Validator PbftRound ValidatorRound.

Section failover.
Context {DB : Type} `{Storage.BoltLaws DB} `{Storage.JsonCodec Storage.TicketRecord}.
Context (clean : Storage.TicketRecord → Prop) `{!Storage.JsonLaws Storage.TicketRecord clean}.
Context `{HLv : pb.ProtoLaws pb.ValidatorMessage pb.unset_ValidatorMessage,
  HLpp : pb.ProtoLaws pb.PrePrepare pb.unset_PrePrepare,
  HLp : pb.ProtoLaws pb.Prepare pb.unset_Prepare,
  HLc : pb.ProtoLaws pb.Commit pb.unset_Commit,
  HLr : pb.ProtoLaws pb.Request pb.unset_Request,
  HLvc : pb.ProtoLaws pb.ViewChange pb.unset_ViewChange}.
Context `{!pb.ProtoMessage pb.Checkpoint,
  !pb.ProtoMessage pb.StateUpdate, !pb.ProtoMessage pb.StateSyncRequest, !pb.ProtoMessage pb.StateSyncResponse}.
Implicit Types n : ValidatorNode DB.
Implicit Types a : App DB.

(** ** The call *)

(** A call that waits for a state change has forwarded its request, and expects the primary to act. *)
Lemma call_forwards nano peers cb id data n n1 ch md :
  Validator.ValidateTicket nano peers cb id data n = Done (n1, AwaitState ch md) →
  v_pbft n1 = (Pbft.NotifyPendingRequest (v_pbft n)).1 ∧ e_db (a_env (v_app n1)) = e_db (a_env (v_app n)) ∧ ∃ payload,
  Messages.SerializeRequest (request_of nano id data n) = Ok payload ∧
  Messages.SerializePBFTMessage pb.ValidatorMessage_CLIENT_REQUEST payload (v_nodeID n) = Ok md.
Proof.
  unfold Validator.ValidateTicket. destruct (already_validated id n); [done|].
  destruct (Pbft.IsPrimary (v_pbft n)).
  { destruct (_ && _); [done|]. destruct (Pbft.ProposeRequest _ _ _ _ _) as [[[p a] es] [err|]]; done. }
  destruct (Pbft.GetPrimary (v_pbft n)) as [primary|why]; [|done]. cbn [outcome_bind].
  destruct (_ =? 0)%Z; [done|]. fold (request_of nano id data n).
  destruct (Messages.SerializeRequest _) as [payload|] eqn:Hser; [|done].
  destruct (Messages.SerializePBFTMessage _ _ _) as [m|] eqn:Hwrap; [|done]. unfold net_send.
  destruct (e_net_error _); [done|]. cbv beta iota zeta. unfold Pbft.NotifyPendingRequest.
  destruct (Notifier.Subscribe id _) as [sn c] eqn:Hs.
  destruct (already_validated id _); [done|]. intros [= <- <- <-]. split; [done|]. split; [done|]. by exists payload.
Qed.

Lemma pending_busy (q : Pbft.PBFTNode (App DB)) : PbftInv.busy (Pbft.NotifyPendingRequest q).1 = true.
Proof. unfold PbftInv.busy. cbn. by rewrite andb_false_r. Qed.

(** The node that executes the validation answers the call. *)
Lemma execution_answers id ch md n q req b (p : Pbft.PBFTNode (App DB)) :
  Pbft.handlers p = [consensus_handler (v_nodeID n)] → Pbft.stateReplicator p = Some (state_replicator (v_nodeID n)) →
  ValidatorProps.wired (v_nodeID n) (a_sm b) → WaitProps.keyed (a_sm b) →
  (∃ t, currentState (a_sm b) !! id = Some t ∧ t_State t = StateIssued) →
  WaitProps.subscribed_only id ch (WaitProps.notifier_of b) →
  Notifier.buffers (WaitProps.notifier_of b) !! ch = Some None →
  Messages.TicketID req = id → Messages.Operation req = "VALIDATE"%string →
  PbftLive.handlers_succeed p b req →
  ∃ n', await_state id ch md NewState (set_app (PbftInv.apply_request p req b) (set_pbft q n)) = Some (n', Some None).
Proof.
  intros Hh Hr Hw Hk (t & Ht & Hi) Honly Hb <- Hop Hok.
  destruct (WaitProps.handler_notifies _ req b t Hw Hk Ht Hi Hop) as [Hnot _].
  unfold PbftInv.apply_request, PbftSpec.replicated, PbftLive.handlers_succeed in *. rewrite Hh, Hr in *.
  cbn [Pbft.call_handlers] in *. destruct (consensus_handler (v_nodeID n) req b) as [a' [err|]]; [discriminate Hok|].
  cbn [fst] in *. destruct (replicator_keeps (v_nodeID n) req a') as (_ & _ & Hkeep).
  unfold await_state, Notifier.Receive. cbn [v_app set_app]. rewrite Hkeep.
  change (e_notifier (a_env a')) with (WaitProps.notifier_of a').
  rewrite Hnot, (WaitProps.Notify_buffer _ _ _ _ _ Honly), decide_True by done. rewrite String.eqb_refl. by eexists.
Qed.

(** ** Messages that are sent again *)

(** A call sends its message every five seconds, so a primary may propose the validation more than once.
    Executing it again, whoever is entered as the validator this time, succeeds, and leaves the tickets,
    the record of the ticket and the channels as they are. *)
Theorem repeated_validation_harmless me req a t :
  currentState (a_sm a) !! Messages.TicketID req = Some t → t_State t = StateValidated →
  clean (record_of t) → ValidatorProps.stored (record_of t) (e_db (a_env a)) → ValidatorProps.db_keyed (e_db (a_env a)) →
  Messages.Operation req = "VALIDATE"%string →
  ∃ a', consensus_handler me req a = (a', None) ∧ a_sm a' = a_sm a ∧
    ValidatorProps.stored (record_of t) (e_db (a_env a')) ∧ WaitProps.notifier_of a' = WaitProps.notifier_of a.
Proof.
  intros Ht Hst Hclean Hstored Hk Hop. exists (persistTicket (Messages.TicketID req) a).
  destruct (ValidatorProps.persist_keeps clean _ _ _ Ht Hclean Hstored Hk) as (Hsm & Hs & _).
  split; [|by destruct (WaitProps.persist_same (Messages.TicketID req) a)].
  unfold consensus_handler, apply_operation. rewrite Hop. cbn [String.eqb Ascii.eqb Bool.eqb].
  unfold TicketMachine.ValidateTicket. rewrite Ht. unfold validate_guard. rewrite decide_False, decide_True by (by rewrite Hst).
  cbn [fst snd]. unfold idempotent.
  replace ("ticket " +:+ Messages.TicketID req +:+ " already validated")
    with (("ticket " +:+ Messages.TicketID req +:+ " ") +:+ "already validated")
    by (rewrite !GoStrings.str_app_assoc; reflexivity).
  rewrite str_contains_app.
  by destruct a.
Qed.

(** ** The nodes *)

(** The nodes that are up; the one that was called; the next view, its primary, and the quorum; the
    number the request gets, and the ticket. *)
Variables (ids : list string) (node : string → ValidatorNode DB) (caller next : string) (v' R s : Z) (id : string).

(** Who is entered as the validator at node [i]: only the new primary knows who asked. *)
Definition entered_by (i : string) : string := if decide (i = next) then caller else i.

(** Node [i] can leave its view, and can agree on number [s] in the next one. *)
Record standing_by (i : string) (q : Pbft.PBFTNode (App DB)) a : Prop := StandingBy {
  sb_name : Pbft.nodeID q = i ∧ i ≠ ""%string;
  sb_view : wrap_i64 (Pbft.view q + 1) = v' ∧ (Pbft.view q < v')%Z ∧ Pbft.required_votes q = R ∧
    Pbft.primary_of v' (Pbft.totalNodes q) = Done next;
  sb_fresh : Pbft.messageQueue q = [] ∧ Pbft.votes_at (Pbft.viewChangeLog q) v' = ∅ ∧
    Pbft.votes_at (Pbft.prepareLog q) s = ∅ ∧ Pbft.votes_at (Pbft.commitLog q) s = ∅ ∧ Pbft.requestLog q !! s = None;
  sb_votes : ∃ data, Pbft.envelope 3 (Messages.SerializeViewChange (Messages.MkViewChangeMsg v' i)) i = Ok data;
  sb_sends : PbftLive.sendable (Pbft.set_view v' q) s;
  sb_wired : Pbft.handlers q = [consensus_handler i] ∧ Pbft.stateReplicator q = Some (state_replicator i);
  sb_ticket : can_validate clean i (entered_by i) id a;
}.

Definition before (i : string) : Pbft.PBFTNode (App DB) * App DB := (v_pbft (node i), v_app (node i)).

Lemma standing_in_place :
  NoDup ids → (∀ i, i ∈ ids → standing_by i (v_pbft (node i)) (v_app (node i))) →
  ViewChange.in_place ids before v' R next.
Proof.
  intros Hnd Hall. split; [done|]. intros i Hi q. unfold q, before. cbn [fst].
  destruct (Hall i Hi) as [[? ?] (? & ? & ? & ?) (? & ? & _) ? _ _ _]. by split_and!.
Qed.

(** In the next view it is prepared for the round. *)
Lemma moved_prepared i who log q a :
  who = entered_by i → standing_by i q a →
  prepared clean v' s R id who i (ViewChange.moved v' next log q) a.
Proof.
  intros -> [Hn (_ & _ & HR & _) (Hq & _ & Hp & Hc & Hr) _ Hs Hw Ht]. by split.
Qed.

Lemma propose_queue now peers req (q : Pbft.PBFTNode (App DB)) a q' a' es err :
  Pbft.ProposeRequest now peers req q a = (q', a', es, err) → Pbft.messageQueue q' = Pbft.messageQueue q.
Proof.
  unfold Pbft.ProposeRequest, Pbft.propose_send. destruct (Pbft.propose_locked peers req q) as [n1 [m|]] eqn:Hl;
    assert (Hn1 : Pbft.messageQueue n1 = Pbft.messageQueue q) by
      (revert Hl; unfold Pbft.propose_locked; by repeat case_match; intros [= <- _]); [|by intros [= <- _ _ _]].
  destruct (Pbft.envelope _ _ _); [|by intros [= <- _ _ _]].
  destruct (Pbft.handlePrePrepare now m n1 a) as [[[n2 a2] es2] err2] eqn:Hh. intros [= <- _ _ _].
  rewrite <- Hn1. exact (PbftLive.dispatch_queue now (Messages.MPrePrepare m) n1 a _ _ _ _ Hh).
Qed.

(** The message sent again makes the new primary propose. *)
Lemma forwarded_proposes now peers nano data n md log (q : Pbft.PBFTNode (App DB)) a :
  Pbft.messageQueue q = [] →
  (∃ payload, Messages.SerializeRequest (request_of nano id data n) = Ok payload ∧
    Messages.SerializePBFTMessage pb.ValidatorMessage_CLIENT_REQUEST payload (v_nodeID n) = Ok md) →
  Pbft.nodeID q = next → (2 * Pbft.f q + 1 ≤ wrap_i64 (peers + 1))%Z →
  let q1 := ViewChange.moved v' next log q in
  ∃ q2 m q' a' es err, Pbft.propose_locked peers (request_of nano id data n) q1 = (q2, Ok m) ∧
    Pbft.ProposeRequest now peers (request_of nano id data n) q1 a = (q', a', es, err) ∧
    receive now peers md q1 a = Some (q', a', es).
Proof.
  intros Hq (payload & Hser & Hwrap) Hname Hpeers q1.
  assert (Hprim : Pbft.isPrimary q1 = true) by (unfold q1; cbn; rewrite Hname; apply String.eqb_refl).
  assert (∃ q2 m, Pbft.propose_locked peers (request_of nano id data n) q1 = (q2, Ok m)) as (q2 & m & Hlock).
  { unfold Pbft.propose_locked. rewrite Hprim. cbn [negb]. change (Pbft.f q1) with (Pbft.f q).
    rewrite (proj2 (Z.ltb_ge _ _) Hpeers), andb_false_r. by eexists _, _. }
  destruct (Pbft.ProposeRequest now peers (request_of nano id data n) q1 a) as [[[q' a'] es] err] eqn:Hprop.
  exists q2, m, q', a', es, err. split; [done|]. split; [done|].
  unfold receive. rewrite (Messages.envelope_decodes _ _ _ _ Hwrap).
  cbn [pb.vm_Type pb.vm_Payload]. unfold Pbft.HandleNetworkMessage, pb.ValidatorMessage_CLIENT_REQUEST. cbn [Z.eqb Pos.eqb].
  rewrite (Messages.Request_decodes _ _ Hser). rewrite Messages.received_known by by left.
  unfold Pbft.IsPrimary. rewrite Hprim, Hprop. cbn [negb]. unfold Pbft.processMessage.
  rewrite (propose_queue _ _ _ _ _ _ _ _ _ Hprop). change (Pbft.messageQueue q1) with (Pbft.messageQueue q). by rewrite Hq.
Qed.

(** At any other node it only arms the timer: nothing is proposed. So nobody proposes the request when
    the node that was called has become the primary itself, since it sends the message to its peers only. *)
Lemma forwarded_arms now peers nano data n md (q : Pbft.PBFTNode (App DB)) a :
  Pbft.messageQueue q = [] → Pbft.isPrimary q = false →
  (∃ payload, Messages.SerializeRequest (request_of nano id data n) = Ok payload ∧
    Messages.SerializePBFTMessage pb.ValidatorMessage_CLIENT_REQUEST payload (v_nodeID n) = Ok md) →
  receive now peers md q a =
    Some ((Pbft.NotifyPendingRequest q).1, a, [Pbft.ETimerReset (Pbft.viewTimeout (Pbft.set_pending true q))]).
Proof.
  intros Hq Hprim (payload & Hser & Hwrap). unfold receive. rewrite (Messages.envelope_decodes _ _ _ _ Hwrap).
  cbn [pb.vm_Type pb.vm_Payload]. unfold Pbft.HandleNetworkMessage, pb.ValidatorMessage_CLIENT_REQUEST. cbn [Z.eqb Pos.eqb].
  rewrite (Messages.Request_decodes _ _ Hser). unfold Pbft.IsPrimary. rewrite Hprim. cbn.
  unfold Pbft.processMessage. cbn. by rewrite Hq.
Qed.

(** The call receives what its node has executed. *)
Lemma call_ends nano peers cb data n ch md q log req :
  standing_by caller (v_pbft (node caller)) (v_app (node caller)) → v_nodeID (node caller) = caller →
  WaitProps.keyed (NodeProps.machine n) → WaitProps.numbered (WaitProps.notifier_of (v_app n)) →
  Validator.ValidateTicket nano peers cb id data n = Done (node caller, AwaitState ch md) →
  validator_of caller req = entered_by caller → Messages.TicketID req = id →
  Messages.Operation req = "VALIDATE"%string →
  let a := PbftInv.apply_request (ViewChange.moved v' next log (v_pbft (node caller))) req (v_app (node caller)) in
  ∃ n', await_state id ch md NewState (set_app a (set_pbft q (node caller))) = Some (n', Some None).
Proof.
  intros [_ _ _ _ _ [Hh Hr] Hcan] Hcn Hkey Hnum Hcall Hwho Hid Hop. pose proof Hcan as [Hw (t & Ht & _ & Hi) _ _].
  destruct (WaitProps.call_waits _ _ _ _ _ _ _ _ _ Hcall) as (_ & Hm & Hno & Hch).
  destruct (Notifier.Subscribe id (WaitProps.notifier_of (v_app n))) as [sn ch0] eqn:Hsub. cbn [fst snd] in Hno, Hch. subst ch0.
  destruct (WaitProps.Subscribe_only _ _ _ _ Hnum Hsub) as [Honly Hbuf].
  apply execution_answers; rewrite ?Hcn, ?Hno; try done.
  - change (a_sm (v_app (node caller))) with (NodeProps.machine (node caller)). by rewrite Hm.
  - by exists t.
  - rewrite <- Hwho in Hcan. by destruct (node_validates clean caller id req (ViewChange.moved v' next log (v_pbft (node caller))) _ Hh Hr Hcan Hid Hop).
Qed.

(** ** The request is executed *)

(** C4: a request outlives its primary. A node that is not the primary has forwarded a validation and
    waits; the primary is down, and 2f+1 nodes or more are up that hold the ticket as ISSUED, of which at
    least 2f+1 (the one that was called is one) wait for the primary. Let their timers fire at any time and
    the network deliver the VIEW-CHANGE messages in any order: after at most N^2 steps no step is left, and
    the nodes are in the next view. If its primary is another node than the one that was called, gets the
    message that the call sends again, and sees 2f peers, it proposes the request; let the network deliver
    the messages of the round in any order: after fewer than N^3 deliveries none is left, every node that
    is up holds the ticket as VALIDATED, in memory and in its database, and the call receives that and is
    answered without an error. Conditions: the number the new primary gives the request is not a multiple
    of the checkpoint interval (every tenth number is excluded: there a stable checkpoint can drop the
    request at a node that has not executed it); at every node that is up the database takes the record
    of the validated ticket, its handlers are wired as the program wires them, queue, votes and request
    log are empty at that number, and no vote for the next view is on record; the messages can be encoded;
    one view follows the other without overflow; the deadline of the call does not come first. *)
Theorem request_outlives_primary (waiting : gset string) nano peers cb data n ch md k1 c0 c1 :
  NoDup ids → (R ≤ Z.of_nat (length ids))%Z → caller ∈ ids → next ∈ ids → caller ≠ next →
  s = wrap_i64 (Pbft.sequence (v_pbft (node next)) + 1) → Z.rem s Pbft.checkpointInterval ≠ 0%Z →
  (∀ i, i ∈ ids → standing_by i (v_pbft (node i)) (v_app (node i))) → v_nodeID (node caller) = caller →
  WaitProps.keyed (NodeProps.machine n) → WaitProps.numbered (WaitProps.notifier_of (v_app n)) →
  Validator.ValidateTicket nano peers cb id data n = Done (node caller, AwaitState ch md) →
  let req := request_of nano id data n in
  (∃ d, Pbft.envelope 0 (Messages.SerializePrePrepare (Messages.MkPrePrepareMsg v' s (Pbft.computeDigest req) req)) next = Ok d) →
  (∀ i, i ∈ waiting → i ∈ ids ∧ PbftInv.busy (v_pbft (node i)) = true) → (R ≤ Z.of_nat (size ({[caller]} ∪ waiting)))%Z →
  r_flight c0 = [] → (∀ i, i ∈ ids → r_nodes c0 !! i = Some (before i)) →
  nsteps (ViewChange.change_step ids) k1 c0 c1 →
  k1 ≤ length ids * length ids ∧
  ((∃ c', ViewChange.change_step ids c1 c') ∨
   ∃ q a, r_nodes c1 !! next = Some (q, a) ∧
   ∀ now peers', (2 * Pbft.f q + 1 ≤ wrap_i64 (peers' + 1))%Z →
   ∃ q' a' es, receive now peers' md q a = Some (q', a', es) ∧
   ∀ k2 c, nsteps (round_step ids) k2
       (MkRound (<[next := (q', a')]> (r_nodes c1)) (to_peers ids next (Cluster.broadcasts es))) c →
   k2 < length ids * length ids * length ids ∧
   ((∃ c', round_step ids c c') ∨
    r_flight c = [] ∧
    (∀ i, i ∈ ids → ∃ q a, r_nodes c !! i = Some (q, a) ∧ Pbft.requestLog q !! s = None ∧
      validated_by (entered_by i) id a) ∧
    ∃ q a n', r_nodes c !! caller = Some (q, a) ∧
      await_state id ch md NewState (set_app a (set_pbft q (node caller))) = Some (n', Some None))).
Proof.
  intros Hnd HR Hcaller Hnext Hne Hs Hck Hall Hcn Hkey Hnum Hcall req Hpre Hwait Hsize Hnil Hnodes Hsteps.
  destruct (call_forwards _ _ _ _ _ _ _ _ _ Hcall) as (Hp & _ & Hmd).
  destruct (ViewChange.change_runs ids before v' R next (standing_in_place Hnd Hall) ({[caller]} ∪ waiting) k1 c0 c1)
    as [Hk1 Hend]; [|done..|].
  { intros i [->%elem_of_singleton|Hi]%elem_of_union; [|by apply Hwait].
    split; [done|]. unfold before. cbn [fst]. rewrite Hp. apply pending_busy. }
  split; [done|]. destruct Hend as [|[Hfl Hmoved]]; [by left | right].
  destruct (Hmoved next Hnext) as [log Hq].
  pose proof (Hall next Hnext) as [[Hname _] _ (Hqueue & _) _ _ _ _].
  eexists _, _. split; [exact Hq|]. intros now peers' Hpeers.
  destruct (forwarded_proposes now peers' nano data n md log (v_pbft (node next)) (v_app (node next)) Hqueue Hmd Hname Hpeers)
    as (q2 & m & q' & a' & es & err & Hlock & Hprop & Hrec).
  exists q', a', es. split; [exact Hrec|]. intros k2 c Hround.
  set (start i := default (before i) (r_nodes c1 !! i)).
  assert (Hstart : ∀ i, i ∈ ids → ∃ log, start i = (ViewChange.moved v' next log (v_pbft (node i)), v_app (node i)) ∧
    r_nodes c1 !! i = Some (start i)).
  { intros i Hi. destruct (Hmoved i Hi) as [l Hl]. exists l. unfold start. by rewrite Hl. }
  assert (Hid : v_nodeID n = caller) by (destruct (WaitProps.call_waits _ _ _ _ _ _ _ _ _ Hcall) as [<- _]; done).
  assert (Hwho : ∀ i, i ∈ ids → validator_of i (own next req i) = entered_by i).
  { intros i Hi. unfold own, entered_by, validator_of. destruct (decide (i = next)) as [->|]; [|done].
    unfold req, request_of. cbn [Messages.NodeID]. rewrite Hid. destruct (String.eqb_spec caller ""); [|done].
    by destruct (Hall caller Hcaller) as [[_ ?] _ _ _ _ _ _]. }
  assert (Hnx : start next = (ViewChange.moved v' next log (v_pbft (node next)), v_app (node next)))
    by (unfold start; by rewrite Hq).
  destruct (round_validates clean ids start next req v' s R id now peers' q' a' es err k2
    (MkRound (<[next := (q', a')]> (r_nodes c1)) (to_peers ids next (Cluster.broadcasts es))) c) as [Hk2 Hfin]; rewrite ?Hnx; try done.
  - intros i Hi. rewrite Hwho by done. destruct (Hstart i Hi) as (l & -> & _). by apply moved_prepared, Hall.
  - by exists q2, m.
  - apply lookup_insert_eq.
  - intros i Hi Hin. cbn [r_nodes]. rewrite lookup_insert_ne by done. by destruct (Hstart i Hi) as (l & _ & ?).
  - split; [exact Hk2|]. destruct Hfin as [|[Hdone Hval]]; [by left | right]. split; [exact Hdone|]. split.
    + intros i Hi. destruct (Hval i Hi) as (q & Hqi & Hlog & Hv). rewrite Hwho in Hv by done. by eexists _, _.
    + destruct (Hval caller Hcaller) as (q & Hqc & _).
      destruct (Hstart caller Hcaller) as (l & Hst & _). rewrite Hst in Hqc. cbn [fst snd] in Hqc.
      assert (Hop : Messages.TicketID (own next req caller) = id ∧ Messages.Operation (own next req caller) = "VALIDATE"%string)
        by (unfold own; rewrite decide_False by exact Hne; split; reflexivity).
      destruct (call_ends nano peers cb data n ch md q l (own next req caller) (Hall caller Hcaller) Hcn Hkey Hnum Hcall
        (Hwho caller Hcaller) (proj1 Hop) (proj2 Hop)) as [n' Hn']. exists q. eexists. exists n'. split; [exact Hqc | exact Hn'].
Qed.
End failover.

(** * Three of four nodes, whose primary is down *)

#[local] Existing Instance pb.bit_codec.
#[local] Existing Instance pb.bit_codec_laws.
#[local] Existing Instances Storage.bit_json Storage.bit_json_laws.

(** Each waits for the primary; node 2 was called. *)
Definition waiting_node (i : string) : ValidatorNode Storage.mem_db :=
  let n := round_node i in set_pbft (Pbft.NotifyPendingRequest (v_pbft n)).1 n.

Definition with_call (n : ValidatorNode Storage.mem_db) (i : string) : ValidatorNode Storage.mem_db :=
  if decide (i = "node2"%string) then n else waiting_node i.

Lemma node2_waits : ∃ n1 ch md,
  Validator.ValidateTicket 7 3 0 "T1" "seat A1" (round_node "node2") = Done (n1, AwaitState ch md).
Proof.
  destruct (Validator.ValidateTicket 7 3 0 "T1" "seat A1" (round_node "node2")) as [[n1 call]|why] eqn:Hcall.
  2: { assert (Hw : WaitProps.waits_for (Panic why) = true) by (rewrite <- Hcall; vm_compute; reflexivity). discriminate Hw. }
  assert (Hw : WaitProps.waits_for (Done (n1, call)) = true) by (rewrite <- Hcall; vm_compute; reflexivity).
  destruct call as [err|rid|ch md]; [discriminate Hw | discriminate Hw|]. by exists n1, ch, md.
Qed.

Lemma followers_named i : i ∈ ViewChange.followers → i ≠ ""%string.
Proof. revert i. by apply ViewChange.followers_all. Qed.

(** The state of a node that waits, but for its channels *)
Lemma waiting_stands i q (a : App Storage.mem_db) :
  i ∈ ViewChange.followers → q = v_pbft (waiting_node i) →
  a_sm a = a_sm (v_app (round_node i)) → e_db (a_env a) = e_db ValidatorProps.demo_env →
  standing_by (λ _, True) "node2" "node1" 1 3 1 "T1" i q a.
Proof.
  intros Hi -> Hsm Hdb. pose proof (followers_named i Hi) as Hne. split; try done.
  - apply ViewChange.bit_codec_envelope.
  - split; intros d; unfold Pbft.envelope, Messages.SerializePrepare, Messages.SerializeCommit,
      Messages.SerializePBFTMessage; simpl; repeat case_decide; simpl; by eexists.
  - split; rewrite ?Hsm, ?Hdb.
    + by split.
    + eexists. split; [apply lookup_insert_eq|]. by split.
    + intros k v Hkv. vm_compute in Hkv. discriminate Hkv.
    + intros t _ _ _. split; [done|]. by apply NodeProps.memory_takes_all.
Qed.

Lemma request_outlives_primary_witness : ∃ n1 ch md c0,
  Validator.ValidateTicket 7 3 0 "T1" "seat A1" (round_node "node2") = Done (n1, AwaitState ch md) ∧
  r_flight c0 = [] ∧ (∀ i, i ∈ ViewChange.followers → r_nodes c0 !! i = Some (before (with_call n1) i)) ∧
  (0 ≤ length ViewChange.followers * length ViewChange.followers ∧
  ((∃ c', ViewChange.change_step ViewChange.followers c0 c') ∨
   ∃ q a, r_nodes c0 !! "node1"%string = Some (q, a) ∧
   ∀ now peers', (2 * Pbft.f q + 1 ≤ wrap_i64 (peers' + 1))%Z →
   ∃ q' a' es, receive now peers' md q a = Some (q', a', es) ∧
   ∀ k2 c, nsteps (round_step ViewChange.followers) k2
       (MkRound (<["node1"%string := (q', a')]> (r_nodes c0)) (to_peers ViewChange.followers "node1" (Cluster.broadcasts es))) c →
   k2 < length ViewChange.followers * length ViewChange.followers * length ViewChange.followers ∧
   ((∃ c', round_step ViewChange.followers c c') ∨
    r_flight c = [] ∧
    (∀ i, i ∈ ViewChange.followers → ∃ q a, r_nodes c !! i = Some (q, a) ∧ Pbft.requestLog q !! 1%Z = None ∧
      validated_by (entered_by "node2" "node1" i) "T1" a) ∧
    ∃ q a n', r_nodes c !! "node2"%string = Some (q, a) ∧
      await_state "T1" ch md NewState (set_app a (set_pbft q (with_call n1 "node2"))) = Some (n', Some None)))).
Proof.
  destruct node2_waits as (n1 & ch & md & Hcall).
  destruct (call_forwards _ _ _ _ _ _ _ _ _ Hcall) as (Hp & Hdb & _).
  destruct (WaitProps.call_waits _ _ _ _ _ _ _ _ _ Hcall) as (Hid & Hm & _).
  set (b := before (with_call n1)).
  set (c0 := MkRound {[ "node1" := b "node1"; "node2" := b "node2"; "node3" := b "node3" ]} []).
  assert (Hc0 : ∀ i, i ∈ ViewChange.followers → r_nodes c0 !! i = Some (b i)) by (by apply ViewChange.followers_all).
  assert (Hstand : ∀ i, i ∈ ViewChange.followers →
    standing_by (λ _, True) "node2" "node1" 1 3 1 "T1" i (v_pbft (with_call n1 i)) (v_app (with_call n1 i))).
  { intros i Hi. unfold with_call. destruct (decide (i = "node2"%string)) as [->|]; [|by apply waiting_stands].
    apply waiting_stands; [done | exact Hp | exact Hm | exact Hdb]. }
  exists n1, ch, md, c0. split; [exact Hcall|]. split; [reflexivity|]. split; [exact Hc0|].
  assert (Hkeyed : WaitProps.keyed (NodeProps.machine (round_node "node2"))).
  { assert (Hc : ∃ t1, currentState (NodeProps.machine (round_node "node2")) = {[ "T1" := t1 ]} ∧ t_ID t1 = "T1"%string)
      by (eexists; split; reflexivity).
    destruct Hc as (t1 & Hc & Ht1). intros j t. rewrite Hc, lookup_singleton_Some. by intros [<- <-]. }
  assert (Hnum : WaitProps.numbered (WaitProps.notifier_of (v_app (round_node "node2"))))
    by (intros j c Hin; by apply elem_of_nil in Hin).
  assert (Hwait : ∀ i, i ∈ ({[ "node1"; "node3" ]} : gset string) →
    i ∈ ViewChange.followers ∧ PbftInv.busy (v_pbft (with_call n1 i)) = true).
  { intros i [->%elem_of_singleton| ->%elem_of_singleton]%elem_of_union; (split; [|reflexivity]).
    - left.
    - right. right. left. }
  apply (request_outlives_primary (λ _, True) ViewChange.followers (with_call n1) "node2" "node1" 1 3 1 "T1"
    {[ "node1"; "node3" ]} 7 3 0 "seat A1" (round_node "node2") ch md 0 c0 c0); try assumption.
  - apply (bool_decide_unpack _). vm_compute. exact I.
  - simpl. lia.
  - right. left.
  - left.
  - discriminate.
  - reflexivity.
  - vm_compute. discriminate.
  - apply Cluster.bit_codec_serializes.
  - vm_compute. discriminate.
  - reflexivity.
  - constructor.
Defined.
End FailOver.
