(* ===== verification/Supervisor.v ===== *)
(** The supervisor's HTTP server, [src/pkg/supervisor/server.go], and the choices of
    [src/cmd/supervisor/main.go]: the callbacks of node manager and simulator control, the channel of
    events for WebSocket clients, the watch over which node is primary, and the handlers for nodes,
    cluster and simulator. The handlers that forward to validator nodes are in [Proxy].

    Validator nodes are reached through a network in state [N], with [Http.HttpClient]. [now] is the
    time of a step, in nanoseconds, and [iteration] the order in which Go runs through a map of nodes.
    Headers that [net/http] sets by itself are left out. *)

From Stdlib Require Import SpecFloat.
From S2P Require Import Prelude GoStrings Http Manager SimControl.

Module Supervisor.
Import GoStrings Http.

(** * JSON *)

Definition cluster_status_text (s : Manager.ClusterStatus) : string :=
  match s with
  | Manager.ClusterStatusIdle => "idle"
  | Manager.ClusterStatusStarting => "starting"
  | Manager.ClusterStatusRunning => "running"
  | Manager.ClusterStatusStopping => "stopping"
  end.

Definition sim_status_text (s : SimControl.SimulatorStatus) : string :=
  match s with
  | SimControl.SimulatorStatusIdle => "idle"
  | SimControl.SimulatorStatusRunning => "running"
  | SimControl.SimulatorStatusComplete => "complete"
  | SimControl.SimulatorStatusError => "error"
  end.

(** [time.Time.MarshalJSON], [None] for the zero time *)
Class TimeText := time_text : option Z → string.

(** A field with [omitempty] *)
Definition omit_empty (name value : string) : list (string * json) :=
  if (value =? "")%string then [] else [(name, JStr value)].

Definition encode_node `{TimeText} (n : Manager.ManagedNode) : json :=
  JObj ([("id"%string, JStr (Manager.mn_ID n)); ("port"%string, JInt (Manager.mn_Port n));
         ("api_port"%string, JInt (Manager.mn_APIPort n));
         ("status"%string, JStr (Manager.status_text (Manager.mn_Status n)))]
    ++ omit_empty "peer_id" (Manager.mn_PeerID n)
    ++ [("is_primary"%string, JBool (Manager.mn_IsPrimary n));
        ("is_bootstrap"%string, JBool (Manager.mn_IsBootstrap n));
        ("started_at"%string, JStr (time_text (Manager.mn_StartedAt n)))]
    ++ omit_empty "error" (Manager.mn_Error n)
    ++ match map_to_list (Manager.mn_Config n) with
       | [] => []
       | c => [("config"%string, JObj (map (λ kv, (kv.1, JStr kv.2)) c))]
       end).

Definition encode_config (c : SimControl.SimulatorConfig) : json :=
  JObj [("nodes"%string, JInt (SimControl.Nodes c));
        ("byzantine_nodes"%string, JInt (SimControl.ByzantineNodes c));
        ("tickets"%string, JInt (SimControl.Tickets c));
        ("duration_seconds"%string, JInt (SimControl.DurationSeconds c));
        ("latency_ms"%string, JInt (SimControl.LatencyMs c));
        ("packet_loss_rate"%string, JFloat (SimControl.PacketLossRate c));
        ("enable_partitions"%string, JBool (SimControl.EnablePartitions c))].

Definition encode_progress (p : SimControl.SimulatorProgress) : json :=
  JObj [("current_ticket"%string, JInt (SimControl.p_CurrentTicket p));
        ("total_tickets"%string, JInt (SimControl.p_TotalTickets p));
        ("consensus_rounds"%string, JInt (SimControl.p_ConsensusRounds p));
        ("successful_rounds"%string, JInt (SimControl.p_SuccessfulRounds p));
        ("failed_rounds"%string, JInt (SimControl.p_FailedRounds p));
        ("progress_percent"%string, JFloat (SimControl.p_ProgressPercent p))].

Definition encode_results (r : SimControl.SimulatorResults) : json :=
  JObj [("total_tickets"%string, JInt (SimControl.TotalTickets r));
        ("validated_tickets"%string, JInt (SimControl.ValidatedTickets r));
        ("consensus_rounds"%string, JInt (SimControl.ConsensusRounds r));
        ("successful_rounds"%string, JInt (SimControl.SuccessfulRounds r));
        ("failed_rounds"%string, JInt (SimControl.FailedRounds r));
        ("success_rate"%string, JFloat (SimControl.SuccessRate r));
        ("messages_sent"%string, JInt (SimControl.MessagesSent r));
        ("messages_received"%string, JInt (SimControl.MessagesReceived r));
        ("partition_events"%string, JInt (SimControl.PartitionEvents r));
        ("average_latency_ms"%string, JFloat (SimControl.AverageLatencyMs r))].

Definition encode_full_state (st : SimControl.FullState) : json :=
  JObj ([("status"%string, JStr (sim_status_text (SimControl.fs_status st)));
         ("output"%string, JArr (map JStr (SimControl.fs_output st)))]
    ++ match SimControl.fs_config st with Some c => [("config"%string, encode_config c)] | None => [] end
    ++ match SimControl.fs_progress st with Some p => [("progress"%string, encode_progress p)] | None => [] end
    ++ match SimControl.fs_results st with Some r => [("results"%string, encode_results r)] | None => [] end).

(** Bodies of requests *)
Record StartNodeRequest := MkStartNodeRequest {
  sn_NodeID : string;
  sn_IsPrimary : bool;
  sn_IsBootstrap : bool;
  sn_BootstrapAddr : string;
}.

Record StartClusterRequest := MkStartClusterRequest { sc_NodeCount : Z }.

(** The part of a node's statistics that [checkNodeIsPrimary] decodes *)
Record StatsResult := MkStatsResult { sr_IsPrimary : bool }.

(** * The server *)

Record ServerConfig := MkServerConfig {
  cfg_Address : string;
  cfg_Port : Z;
  cfg_ValidatorPath : string;
  cfg_SimulatorPath : string;
  cfg_DataDir : string;
  cfg_StaticDir : string;
  cfg_APIKey : string;
}.

Section server.
Context {N conn : Type} `{!HttpClient N, Countable conn, !TimeText}.
Context `{!JsonDecode StartNodeRequest, !JsonDecode StartClusterRequest}.
Context `{!JsonDecode SimControl.SimulatorConfig, !JsonDecode StatsResult, !UrlParser}.

(** [stopped] is whether [stopCh] is closed. *)
Record Server := MkServer {
  addr : string;
  nodeManager : Manager.World;
  simController : SimControl.World;
  wsClients : gset conn;
  staticDir : string;
  apiKey : string;
  stopped : bool;
  wsBroadcast : list json;
  outputThrottle : gmap string Z;
}.

Definition set_nodeManager w s := MkServer (addr s) w (simController s) (wsClients s) (staticDir s)
  (apiKey s) (stopped s) (wsBroadcast s) (outputThrottle s).
Definition set_simController w s := MkServer (addr s) (nodeManager s) w (wsClients s) (staticDir s)
  (apiKey s) (stopped s) (wsBroadcast s) (outputThrottle s).
Definition set_wsClients c s := MkServer (addr s) (nodeManager s) (simController s) c (staticDir s)
  (apiKey s) (stopped s) (wsBroadcast s) (outputThrottle s).
Definition set_stopped s := MkServer (addr s) (nodeManager s) (simController s) (wsClients s)
  (staticDir s) (apiKey s) true (wsBroadcast s) (outputThrottle s).
Definition set_wsBroadcast q s := MkServer (addr s) (nodeManager s) (simController s) (wsClients s)
  (staticDir s) (apiKey s) (stopped s) q (outputThrottle s).
Definition set_outputThrottle t s := MkServer (addr s) (nodeManager s) (simController s) (wsClients s)
  (staticDir s) (apiKey s) (stopped s) (wsBroadcast s) t.

Definition NewServer (cfg : ServerConfig) : Server :=
  let address := if (cfg_Address cfg =? "")%string then "0.0.0.0"%string else cfg_Address cfg in
  let port := if (cfg_Port cfg =? 0)%Z then 8080%Z else cfg_Port cfg in
  MkServer (address +:+ ":" +:+ FormatInt port)
    (Manager.new_world (Manager.MkNodeManagerConfig (cfg_ValidatorPath cfg) (cfg_DataDir cfg) 0 0
       (cfg_APIKey cfg) true true true))
    (SimControl.new_world (SimControl.MkSimulatorControllerConfig (cfg_SimulatorPath cfg) 0 true true true))
    ∅ (cfg_StaticDir cfg) (cfg_APIKey cfg) false [] ∅.

(** ** Events for WebSocket clients *)

Definition wsBroadcast_capacity : nat := 512.

Definition broadcastWSMessage (msg : json) (s : Server) : Server :=
  if decide (length (wsBroadcast s) < wsBroadcast_capacity) then set_wsBroadcast (wsBroadcast s ++ [msg]) s
  else s.

Definition throttle : Z := 50 * 1000000.

Definition recently_sent (now : Z) (nodeID : string) (s : Server) : bool :=
  match outputThrottle s !! nodeID with
  | Some last => (now - last <? throttle)%Z
  | None => false
  end.

Definition onOutput (now : Z) (nodeID line : string) (s : Server) : Server :=
  if recently_sent now nodeID s then s
  else broadcastWSMessage
    (JObj [("type"%string, JStr "node_output"); ("node_id"%string, JStr nodeID); ("line"%string, JStr line)])
    (set_outputThrottle (<[nodeID := now]> (outputThrottle s)) s).

Definition status_message (nodeID : string) (status : Manager.NodeStatus)
    (node : option Manager.ManagedNode) : json :=
  JObj ([("type"%string, JStr "node_status"); ("node_id"%string, JStr nodeID);
         ("status"%string, JStr (Manager.status_text status))]
    ++ match node with Some n => [("node"%string, encode_node n)] | None => [] end).

Definition onStatus (nodeID : string) (status : Manager.NodeStatus) (s : Server) : Server :=
  let node := match Manager.GetNode nodeID (nodeManager s) with Ok n => Some n | Err _ => None end in
  broadcastWSMessage (status_message nodeID status node) s.

Definition onCluster (status : Manager.ClusterStatus) (nodesStarted nodesTotal : Z) (s : Server) : Server :=
  broadcastWSMessage
    (JObj [("type"%string, JStr "cluster_status"); ("status"%string, JStr (cluster_status_text status));
           ("nodes_started"%string, JInt nodesStarted); ("nodes_total"%string, JInt nodesTotal)]) s.

Definition on_callback (now : Z) (s : Server) (cb : Manager.callback) : Server :=
  match cb with
  | Manager.OutputCallback nodeID line => onOutput now nodeID line s
  | Manager.StatusCallback nodeID status => onStatus nodeID status s
  | Manager.ClusterCallback status started total => onCluster status started total s
  end.

Definition on_sim_callback (s : Server) (cb : SimControl.sim_callback) : Server :=
  broadcastWSMessage
    match cb with
    | SimControl.SimOutput line =>
        JObj [("type"%string, JStr "simulator_output"); ("line"%string, JStr line)]
    | SimControl.SimProgress p =>
        JObj [("type"%string, JStr "simulator_progress"); ("progress"%string, encode_progress p)]
    | SimControl.SimStatus st =>
        JObj [("type"%string, JStr "simulator_status"); ("status"%string, JStr (sim_status_text st))]
    end s.

(** A step of the manager or of the simulator control, with its callbacks. *)
Definition manager_did (now : Z) (did : Manager.World * list Manager.callback) (s : Server) : Server :=
  fold_left (on_callback now) did.2 (set_nodeManager did.1 s).

Definition sim_did (did : SimControl.World * list SimControl.sim_callback) (s : Server) : Server :=
  fold_left on_sim_callback did.2 (set_simController did.1 s).

(** One turn of [wsBroadcastPump] for a message: it goes to all clients; those it cannot be written
    to are dropped. *)
Definition wsBroadcastPump_step (write_ok : conn → bool) (s : Server)
    : option (Server * json * gset conn) :=
  match wsBroadcast s with
  | [] => None
  | msg :: rest =>
      let clients := wsClients s in
      let dead := filter (λ c, write_ok c = false) clients in
      Some (set_wsClients (wsClients s ∖ dead) (set_wsBroadcast rest s), msg, clients)
  end.

(** ** Asking nodes *)

Definition node_url (n : Manager.ManagedNode) : string :=
  "http://127.0.0.1:" +:+ FormatInt (Manager.mn_APIPort n).

Definition isNodeReachable (baseURL : string) (net : N) : N * bool :=
  match NewRequest "GET" (baseURL +:+ "/health") with
  | Some _ => (net, false)
  | None =>
      let '(net, resp) := Do (MkClientRequest "GET" (baseURL +:+ "/health") ∅ None) net in
      (net, match resp with Ok resp => (resp_Status resp =? StatusOK)%Z | Err _ => false end)
  end.

(** The headers of a request of the supervisor's own *)
Definition key_header (s : Server) (h : Header) : Header :=
  if (apiKey s =? "")%string then h else Header_Set "X-API-Key" (apiKey s) h.

Definition checkNodeIsPrimary (s : Server) (baseURL : string) (net : N) : N * result bool :=
  match NewRequest "GET" (baseURL +:+ "/api/v1/stats") with
  | Some err => (net, Err err)
  | None =>
      let '(net, resp) :=
        Do (MkClientRequest "GET" (baseURL +:+ "/api/v1/stats") (key_header s ∅) None) net in
      (net, match resp with
            | Err err => Err err
            | Ok resp =>
                if negb (resp_Status resp =? StatusOK)%Z then
                  Err ("stats returned " +:+ FormatInt (resp_Status resp))
                else match Decode (A := StatsResult) (resp_Body resp) with
                     | Err err => Err err
                     | Ok result => Ok (sr_IsPrimary result)
                     end
            end)
  end.

Section iteration.
Variable iteration : gmap string positive → list (string * positive).

Definition GetAllNodes (s : Server) : list Manager.ManagedNode :=
  Manager.GetAllNodes (iteration (Manager.nodes (Manager.mgr (nodeManager s)))).*2 (nodeManager s).

(** *** [refreshPrimaryStatus]: the queries, and then what is made of the answers. The queries run in
    parallel; [nodes] lists the nodes in the order in which they are answered. *)
Fixpoint refresh_queries (s : Server) (nodes : list Manager.ManagedNode) (net : N)
    : N * list (string * bool) :=
  match nodes with
  | [] => (net, [])
  | n :: nodes =>
      if decide (Manager.mn_Status n = Manager.NodeStatusRunning) then
        let '(net, isPrimary) := checkNodeIsPrimary s (node_url n) net in
        let '(net, results) := refresh_queries s nodes net in
        (net, match isPrimary with Ok b => (Manager.mn_ID n, b) :: results | Err _ => results end)
      else refresh_queries s nodes net
  end.

Definition refresh_apply (res : string * bool) (s : Server) : Server :=
  let '(nodeID, isPrimary) := res in
  let '(w, changed) := Manager.UpdatePrimaryStatus nodeID isPrimary (nodeManager s) in
  let s := set_nodeManager w s in
  if changed then
    match Manager.GetNode nodeID (nodeManager s) with
    | Err _ => s
    | Ok updatedNode =>
        broadcastWSMessage (status_message nodeID (Manager.mn_Status updatedNode) (Some updatedNode)) s
    end
  else s.

Definition refreshPrimaryStatus (s : Server) (net : N) : Server * N :=
  let '(net, results) := refresh_queries s (GetAllNodes s) net in
  (fold_left (λ s res, refresh_apply res s) results s, net).

(** ** Handlers *)

Definition writeJSON (data : json) : Reply := MkReply StatusOK (json_header ∅) (BJson data).

Definition writeError (status : Z) (message : string) : Reply :=
  MkReply status (json_header ∅) (BJson (JObj [("error"%string, JStr message)])).

Definition request_text (r : Request) : string := default ""%string (Body r).

Definition handleGetStatus (s : Server) : Reply :=
  let nodes := GetAllNodes s in
  writeJSON (JObj [("supervisor"%string, JStr "running");
    ("nodes_count"%string, JInt (Z.of_nat (length nodes)));
    ("nodes"%string, JArr (map encode_node nodes));
    ("simulator_status"%string, JStr (sim_status_text (SimControl.GetStatus (simController s))))]).

Definition handleGetNodes (s : Server) (net : N) : Server * N * Reply :=
  let '(s, net) := refreshPrimaryStatus s net in
  (s, net, writeJSON (JArr (map encode_node (GetAllNodes s)))).

Definition handleGetNode (vars : gmap string string) (s : Server) : Reply :=
  match Manager.GetNode (map_get ""%string vars "nodeID") (nodeManager s) with
  | Err err => writeError StatusNotFound err
  | Ok node => writeJSON (encode_node node)
  end.

Definition node_reply (status nodeID : string) : Reply :=
  writeJSON (JObj [("status"%string, JStr status); ("node_id"%string, JStr nodeID)]).

Definition handleStartNode (r : Request) (s : Server) : Server * Reply :=
  match Decode (A := StartNodeRequest) (request_text r) with
  | Err _ => (s, writeError StatusBadRequest "invalid request body")
  | Ok req =>
      if (sn_NodeID req =? "")%string then (s, writeError StatusBadRequest "node_id is required")
      else
        let '(w, err) := Manager.StartNode (sn_NodeID req) (sn_IsPrimary req) (sn_IsBootstrap req)
          (sn_BootstrapAddr req) (nodeManager s) in
        let s := set_nodeManager w s in
        match err with
        | Some err => (s, writeError StatusInternalServerError err)
        | None => (s, node_reply "starting" (sn_NodeID req))
        end
  end.

Definition handleStopNode (now : Z) (vars : gmap string string) (s : Server) : Server * Reply :=
  let nodeID := map_get ""%string vars "nodeID" in
  let '(w, cbs, err) := Manager.StopNode nodeID (nodeManager s) in
  let s := manager_did now (w, cbs) s in
  match err with
  | Some err => (s, writeError StatusInternalServerError err)
  | None => (s, node_reply "stopping" nodeID)
  end.

(** [handleRestartNode] up to its sleep: a reply, or the node as it was and whether it sleeps. *)
Definition handleRestartNode_stop (now : Z) (vars : gmap string string) (s : Server)
    : Server * (Reply + Manager.ManagedNode * bool) :=
  let nodeID := map_get ""%string vars "nodeID" in
  match Manager.GetNode nodeID (nodeManager s) with
  | Err err => (s, inl (writeError StatusNotFound err))
  | Ok node =>
      if decide (Manager.mn_Status node = Manager.NodeStatusRunning) then
        let '(w, cbs, err) := Manager.StopNode nodeID (nodeManager s) in
        let s := manager_did now (w, cbs) s in
        match err with
        | Some err => (s, inl (writeError StatusInternalServerError err))
        | None => (s, inr (node, true))
        end
      else (s, inr (node, false))
  end.

Definition handleRestartNode_start (vars : gmap string string) (node : Manager.ManagedNode) (s : Server)
    : Server * Reply :=
  let nodeID := map_get ""%string vars "nodeID" in
  let '(w, err) := Manager.StartNode nodeID (Manager.mn_IsPrimary node) (Manager.mn_IsBootstrap node) ""
    (nodeManager s) in
  let s := set_nodeManager w s in
  match err with
  | Some err => (s, writeError StatusInternalServerError err)
  | None => (s, node_reply "restarting" nodeID)
  end.

(** What happens during the sleep is [others]. *)
Definition handleRestartNode (now : Z) (others : Server → Server) (vars : gmap string string)
    (s : Server) : Server * Reply :=
  match handleRestartNode_stop now vars s with
  | (s, inl reply) => (s, reply)
  | (s, inr (node, sleeps)) => handleRestartNode_start vars node (if sleeps then others s else s)
  end.

Definition handleGetNodeLogs (vars : gmap string string) (s : Server) : Reply :=
  let nodeID := map_get ""%string vars "nodeID" in
  match Manager.GetNodeLogs nodeID (nodeManager s) with
  | Err err => writeError StatusNotFound err
  | Ok logs => writeJSON (JObj [("node_id"%string, JStr nodeID); ("logs"%string, JArr (map JStr logs))])
  end.

Definition handleStartCluster (r : Request) (s : Server) : Server * Reply :=
  match Decode (A := StartClusterRequest) (request_text r) with
  | Err _ => (s, writeError StatusBadRequest "invalid request body")
  | Ok req =>
      let count := if (sc_NodeCount req <? 1)%Z then 4%Z else sc_NodeCount req in
      let order := (iteration (Manager.nodes (Manager.mgr (nodeManager s)))).*1 in
      let '(w, err) := Manager.StartCluster order count (nodeManager s) in
      let s := set_nodeManager w s in
      match err with
      | Some err => (s, writeError StatusInternalServerError err)
      | None => (s, writeJSON (JObj [("status"%string, JStr "starting"); ("node_count"%string, JInt count)]))
      end
  end.

Definition stop_all (now : Z) (s : Server) : Server :=
  manager_did now
    (Manager.StopAllNodes (iteration (Manager.nodes (Manager.mgr (nodeManager s)))).*1 (nodeManager s)) s.

Definition handleStopCluster (now : Z) (s : Server) : Server * Reply :=
  (stop_all now s, writeJSON (JObj [("status"%string, JStr "stopping")])).

Definition handleGetSimulatorStatus (s : Server) : Reply :=
  writeJSON (encode_full_state (SimControl.GetFullState (simController s))).

Definition handleStartSimulator (r : Request) (s : Server) : Server * Reply :=
  let config := match Decode (A := SimControl.SimulatorConfig) (request_text r) with
    | Ok c => c
    | Err _ => SimControl.DefaultSimulatorConfig
    end in
  match SimControl.ValidateConfig config with
  | Some err => (s, writeError StatusBadRequest err)
  | None =>
      let '(w, cbs, err) := SimControl.Start config (simController s) in
      let s := sim_did (w, cbs) s in
      match err with
      | Some err => (s, writeError StatusInternalServerError err)
      | None => (s, writeJSON (JObj [("status"%string, JStr "started"); ("config"%string, encode_config config)]))
      end
  end.

Definition handleStopSimulator (s : Server) : Server * Reply :=
  let '(w, err) := SimControl.Stop (simController s) in
  let s := set_simController w s in
  match err with
  | Some err => (s, writeError StatusInternalServerError err)
  | None => (s, writeJSON (JObj [("status"%string, JStr "stopping")]))
  end.

Definition handleGetSimulatorOutput (s : Server) : Reply :=
  writeJSON (JObj [("output"%string, JArr (map JStr (SimControl.GetOutput (simController s))))]).

Definition handleGetSimulatorResults (s : Server) : Reply :=
  match SimControl.GetResults (simController s) with
  | None => writeError StatusNotFound "no results available"
  | Some results => writeJSON (encode_results results)
  end.

(** ** WebSocket clients *)

(** [sendWSMessage]: a client that the message cannot be written to is dropped. *)
Definition sendWSMessage (write_ok : bool) (c : conn) (s : Server) : Server :=
  if write_ok then s else set_wsClients (wsClients s ∖ {[c]}) s.

(** [handleWebSocket] after a successful upgrade, with the message it sends. *)
Definition handleWebSocket (write_ok : bool) (c : conn) (s : Server) : Server * json :=
  let s := set_wsClients ({[c]} ∪ wsClients s) s in
  let msg := JObj [("type"%string, JStr "connected");
    ("nodes"%string, JArr (map encode_node (GetAllNodes s)));
    ("simulator_status"%string, JStr (sim_status_text (SimControl.GetStatus (simController s))));
    ("cluster_status"%string, JStr (cluster_status_text (Manager.GetClusterStatus (nodeManager s))))] in
  (sendWSMessage write_ok c s, msg).

(** One turn of [handleWSMessages]: a message, whose type is [Some] where it is a text, or an error. *)
Definition handleWSMessages_step (write_ok : bool) (c : conn) (msg : result (option string)) (s : Server)
    : Server * option json :=
  match msg with
  | Err _ => (set_wsClients (wsClients s ∖ {[c]}) s, None)
  | Ok type =>
      if bool_decide (type = Some "ping"%string) then
        (sendWSMessage write_ok c s, Some (JObj [("type"%string, JStr "pong")]))
      else (s, None)
  end.

(** [allowed] is the environment's [DTVN_WS_ORIGINS]. *)
Definition checkSupervisorWSOrigin (allowed : string) (r : Request) : bool :=
  let origin := Header_Get "Origin" (Headers r) in
  if (origin =? "")%string then true
  else match url_Parse origin with
       | Err _ => false
       | Ok (host, originHost) =>
           if EqualFold host (Host r) then true
           else if (originHost =? "localhost")%string || (originHost =? "127.0.0.1")%string
                   || (originHost =? "::1")%string then true
           else if negb (allowed =? "")%string then
             existsb (λ a, let a := TrimSpace a in negb (a =? "")%string && EqualFold origin a)
               (Split allowed ",")
           else false
       end.

(** ** The end *)

(** [Stop] up to the shutdown of the HTTP server *)
Definition Stop (now : Z) (s : Server) : Server :=
  let s := stop_all now (set_stopped s) in
  let s := if decide (SimControl.GetStatus (simController s) = SimControl.SimulatorStatusRunning)
    then set_simController (SimControl.Stop (simController s)).1 s else s in
  set_wsClients ∅ s.
End iteration.

(** [apiKeyMiddleware]: the reply where it ends the request. *)
Definition apiKeyMiddleware (r : Request) (s : Server) : option Reply :=
  let path := Path r in
  if (path =? "/ws")%string || negb (has_prefix path "/api/") then None
  else if negb (ConstantTimeCompare (presented_key (Headers r)) (apiKey s)) then
    Some (writeError StatusUnauthorized "Invalid or missing API key")
  else None.
End server.
Arguments Server : clear implicits.
Arguments Server conn {_ _}.

(** * Static files and the program's options *)

(** The directory that [setupStaticRoutes] serves, if any; [abs] is [filepath.Abs]. *)
Definition setupStaticRoutes (os_Stat : string → stat) (abs : string → result string) (staticDir : string)
    : option string :=
  let staticDir := if (staticDir =? "")%string then "web/static"%string else staticDir in
  let staticDir := match os_Stat staticDir with
    | NotExists =>
        let found alt := match abs alt with
          | Ok absPath => match os_Stat absPath with Exists => Some absPath | _ => None end
          | Err _ => None
          end in
        default staticDir (head (omap found ["../../web/static"; "../web/static"; "./web/static"]%string))
    | _ => staticDir
    end in
  match os_Stat staticDir with Exists => Some staticDir | _ => None end.

(** [findBinary] of [cmd/supervisor/main.go] *)
Definition findBinary (os_Stat : string → stat) (abs : string → result string)
    (executable cwd : result string) (name : string) : string :=
  let locations :=
    [Manager.filepath_Join "bin" name; Manager.filepath_Join "." name; name]
    ++ match executable with
       | Ok execPath =>
           let execDir := Manager.filepath_Dir execPath in
           [Manager.filepath_Join execDir name;
            Manager.filepath_Join execDir ("../bin/" +:+ name)]
       | Err _ => []
       end
    ++ match cwd with
       | Ok cwd => [Manager.filepath_Join cwd ("bin/" +:+ name); Manager.filepath_Join cwd name]
       | Err _ => []
       end in
  let found loc := match abs loc with
    | Ok absPath => match os_Stat absPath with Exists => Some absPath | _ => None end
    | Err _ => None
    end in
  default ""%string (head (omap found locations)).

(** The flags, the key from the environment where no flag gives one, and the configuration of the
    server, or [None] where the validator's binary is not found. *)
Definition supervisor_config (find : string → string) (env_key : string) (flags : ServerConfig)
    : option ServerConfig :=
  let key := if (cfg_APIKey flags =? "")%string then env_key else cfg_APIKey flags in
  let validatorPath := if (cfg_ValidatorPath flags =? "")%string then find "validator"%string
    else cfg_ValidatorPath flags in
  let simulatorPath := if (cfg_SimulatorPath flags =? "")%string then find "simulator"%string
    else cfg_SimulatorPath flags in
  if (validatorPath =? "")%string then None
  else Some (MkServerConfig (cfg_Address flags) (cfg_Port flags) validatorPath simulatorPath
    (cfg_DataDir flags) (cfg_StaticDir flags) key).
End Supervisor.
