(* ===== verification/SupProps.v ===== *)
(** Properties of the supervisor's server ([Supervisor], [src/pkg/supervisor/server.go]): how often a
    node's output reaches the dashboards, and how the flags for the primary follow the nodes' answers. *)

From Stdlib Require Import Sorted.
From S2P Require Import Prelude GoStrings Http Manager ManagerInv SimControl Supervisor.

Module SupProps.
Import Http Manager ManagerInv Supervisor.

Section props.
Context {N conn : Type} `{!HttpClient N, Countable conn, !TimeText, !JsonDecode StatsResult}.
Implicit Types s : Server conn.

Lemma broadcast_throttle msg s : outputThrottle (broadcastWSMessage msg s) = outputThrottle s.
Proof. unfold broadcastWSMessage. by case_decide. Qed.

Lemma broadcast_manager msg s : nodeManager (broadcastWSMessage msg s) = nodeManager s.
Proof. unfold broadcastWSMessage. by case_decide. Qed.

Lemma broadcast_capacity msg s :
  length (wsBroadcast s) ≤ wsBroadcast_capacity →
  length (wsBroadcast (broadcastWSMessage msg s)) ≤ wsBroadcast_capacity.
Proof. unfold broadcastWSMessage. case_decide; simpl; [rewrite length_app; simpl; lia | done]. Qed.

(** * Throttling *)

(** Lines of output as they come: time, node, line. *)
Abbreviation output := (Z * string * string)%type.

Definition run_outputs (outs : list output) s : Server conn :=
  fold_left (λ s out, onOutput out.1.1 out.1.2 out.2 s) outs s.

(** The times of the lines of a node that are sent to the channel. *)
Fixpoint sent_times (id : string) (outs : list output) s : list Z :=
  match outs with
  | [] => []
  | (t, id', line) :: outs =>
      (if decide (id' = id ∧ recently_sent t id' s = false) then [t] else [])
      ++ sent_times id outs (onOutput t id' line s)
  end.

Lemma onOutput_throttle t id line s id' :
  outputThrottle (onOutput t id line s) !! id' =
    if decide (id = id' ∧ recently_sent t id s = false) then Some t else outputThrottle s !! id'.
Proof.
  unfold onOutput. destruct (recently_sent t id s); [rewrite decide_False by naive_solver; done|].
  rewrite broadcast_throttle. simpl. destruct (decide (id = id')) as [->|Hne].
  - rewrite lookup_insert_eq, decide_True by done. done.
  - rewrite lookup_insert_ne, decide_False by naive_solver. done.
Qed.

Lemma sent_times_apart id outs s :
  Forall (λ t, ∀ last, outputThrottle s !! id = Some last → last + throttle ≤ t)%Z (sent_times id outs s) ∧
  StronglySorted (λ t t', t + throttle ≤ t')%Z (sent_times id outs s).
Proof.
  revert s. induction outs as [|[[t id'] line] outs IH]; intros s; simpl; [by split; constructor|].
  destruct (IH (onOutput t id' line s)) as [IHf IHs]. rewrite onOutput_throttle in IHf.
  case_decide as Hd; simpl.
  - destruct Hd as [-> Hr]. assert (Hlast : ∀ last, outputThrottle s !! id = Some last → (last + throttle ≤ t)%Z).
    { intros last Hl. unfold recently_sent in Hr. rewrite Hl in Hr. apply Z.ltb_ge in Hr. lia. }
    rewrite Forall_forall in IHf. split.
    + constructor; [done|]. rewrite Forall_forall. intros t' Ht' last Hl.
      specialize (IHf _ Ht' t eq_refl). specialize (Hlast _ Hl).
      assert (0 < throttle)%Z by done. lia.
    + constructor; [done|]. rewrite Forall_forall. intros t' Ht'. by apply IHf.
  - done.
Qed.

Lemma throttle_times id outs s last :
  outputThrottle (run_outputs outs s) !! id = Some last →
  last ∈ sent_times id outs s ∨ outputThrottle s !! id = Some last.
Proof.
  revert s. induction outs as [|[[t id'] line] outs IH]; intros s; simpl; [by right|].
  intros [Hin|Hl]%IH; [left; by apply elem_of_app; right|].
  rewrite onOutput_throttle in Hl. case_decide; [|by right].
  simplify_eq. left. by left.
Qed.

(** Whatever lines the nodes write and whenever, two lines of one node go to the dashboards' channel
    at least 50 milliseconds apart; a line is held back only within 50 milliseconds of an earlier one
    of its node that was sent; and the channel never holds more than 512 messages. *)
Theorem output_rate_bounded cfg id outs :
  let s : Server conn := NewServer cfg in
  length (wsBroadcast (run_outputs outs s)) ≤ 512 ∧
  StronglySorted (λ t t', t + 50000000 ≤ t')%Z (sent_times id outs s) ∧
  ∀ t, recently_sent t id (run_outputs outs s) = true →
    ∃ t', t' ∈ sent_times id outs s ∧ (t - t' < 50000000)%Z.
Proof.
  intros s. split; [|split].
  - assert (Hcap : length (wsBroadcast s) ≤ wsBroadcast_capacity) by (simpl; lia).
    change 512 with wsBroadcast_capacity. generalize dependent s. induction outs as [|[[t id'] line] outs IH].
    + done.
    + intros s Hs. apply IH. unfold onOutput. case_match; [done|]. by apply broadcast_capacity.
  - apply sent_times_apart.
  - intros t Hr. unfold recently_sent in Hr.
    destruct (outputThrottle _ !! id) as [last|] eqn:Hl; [|done]. apply Z.ltb_lt in Hr.
    apply throttle_times in Hl as [Hl|Hl]; [by exists last | discriminate Hl].
Qed.

(** * The watch over the primary *)

(** The message for an answer that changes the flag of a node *)
Definition flag_message (w : Manager.World) (res : string * bool) : option json :=
  match nodes (mgr w) !! res.1 with
  | Some l =>
      let n := deref w l in
      if Bool.eqb (mn_IsPrimary n) res.2 then None
      else Some (status_message res.1 (mn_Status n) (Some (snapshot (set_primary res.2 n))))
  | None => None
  end.

Lemma set_primary_same n : set_primary (mn_IsPrimary n) n = n.
Proof. by destruct n. Qed.

Lemma deref_store l l' n w : deref (store l n w) l' = if decide (l = l') then n else deref w l'.
Proof. unfold deref, store. simpl. rewrite lookup_insert. by case_decide. Qed.

(** An answer for a node that is there *)
Lemma refresh_apply_flag id b s l :
  nodes (mgr (nodeManager s)) !! id = Some l →
  refresh_apply (id, b) s =
    match flag_message (nodeManager s) (id, b) with
    | None => s
    | Some msg => broadcastWSMessage msg
        (set_nodeManager (store l (set_primary b (deref (nodeManager s) l)) (nodeManager s)) s)
    end.
Proof.
  intros Hl. unfold refresh_apply, UpdatePrimaryStatus, flag_message, GetNode. simpl. rewrite Hl.
  destruct (Bool.eqb _ b); simpl; [by destruct s|].
  rewrite Hl. by rewrite deref_store, decide_True by done.
Qed.

Lemma entries_distinct w id id' l :
  entries_ok w → nodes (mgr w) !! id = Some l → nodes (mgr w) !! id' = Some l → id = id'.
Proof. intros He (n & Hn & <-)%He (n' & Hn' & <-)%He. congruence. Qed.

(** A flag has been set: everything about other nodes is as before. *)
Lemma store_primary_entries w l b :
  entries_ok w → entries_ok (store l (set_primary b (deref w l)) w).
Proof.
  intros He id k Hk. destruct (He id k Hk) as (n & Hn & Hid). simpl.
  destruct (decide (l = k)) as [->|Hne].
  - rewrite lookup_insert_eq. eexists. split; [done|]. by rewrite (deref_Some _ _ _ Hn).
  - rewrite lookup_insert_ne by done. eauto.
Qed.

Lemma flag_message_others w id l n res :
  entries_ok w → nodes (mgr w) !! id = Some l → res.1 ≠ id →
  flag_message (store l n w) res = flag_message w res.
Proof.
  intros He Hl Hne. unfold flag_message. simpl. destruct (nodes (mgr w) !! res.1) as [k|] eqn:Hk; [|done].
  rewrite deref_store, decide_False; [done|]. intros ->. by apply Hne, (entries_distinct w _ _ k).
Qed.

(** The state after the answers have been taken in *)
Record refreshed (results : list (string * bool)) s s' : Prop := Refreshed {
  rf_mgr : mgr (nodeManager s') = mgr (nodeManager s);
  rf_procs : procs (nodeManager s') = procs (nodeManager s);
  rf_entry id l : nodes (mgr (nodeManager s)) !! id = Some l →
    deref (nodeManager s') l =
      match (list_to_map results : gmap string bool) !! id with
      | Some b => set_primary b (deref (nodeManager s) l)
      | None => deref (nodeManager s) l
      end;
  rf_other l : (∀ id, nodes (mgr (nodeManager s)) !! id ≠ Some l) →
    deref (nodeManager s') l = deref (nodeManager s) l;
  rf_messages : let msgs := omap (flag_message (nodeManager s)) results in
    length (wsBroadcast s) + length msgs ≤ 512 → wsBroadcast s' = wsBroadcast s ++ msgs;
}.

Lemma fold_refresh results s :
  entries_ok (nodeManager s) → NoDup results.*1 →
  Forall (λ res, is_Some (nodes (mgr (nodeManager s)) !! res.1)) results →
  refreshed results s (fold_left (λ s res, refresh_apply res s) results s).
Proof.
  revert s. induction results as [|[id b] results IH]; intros s He Hnd Hin.
  { split; try done. simpl. by rewrite app_nil_r. }
  apply NoDup_cons in Hnd as [Hid Hnd]. apply Forall_cons in Hin as [[l Hl] Hin]. simpl in Hl, Hid.
  cbn [fold_left]. rewrite (refresh_apply_flag _ _ _ _ Hl).
  assert (Hnone : (list_to_map results : gmap string bool) !! id = None) by by apply not_elem_of_list_to_map_1.
  destruct (flag_message (nodeManager s) (id, b)) as [msg|] eqn:Hmsg.
  - set (w1 := store l (set_primary b (deref (nodeManager s) l)) (nodeManager s)).
    set (s1 := broadcastWSMessage msg (set_nodeManager w1 s)).
    assert (Hw1 : nodeManager s1 = w1) by apply broadcast_manager.
    destruct (IH s1) as [Hm Hp Hent Hoth Hmsgs]; [rewrite Hw1; by apply store_primary_entries | done | by rewrite Hw1|].
    rewrite Hw1 in *. split.
    + done.
    + done.
    + intros id' k Hk. rewrite (Hent id' k Hk). cbn [list_to_map foldr fst snd].
      unfold w1. rewrite deref_store. destruct (decide (l = k)) as [->|Hne].
      * rewrite (entries_distinct _ _ _ _ He Hk Hl), Hnone, lookup_insert_eq. done.
      * rewrite lookup_insert_ne by (intros ->; congruence). done.
    + intros k Hk. rewrite (Hoth k Hk). unfold w1. rewrite deref_store, decide_False; [done|].
      intros ->. by apply (Hk id).
    + cbn [omap list_omap]. rewrite Hmsg. simpl. intros Hlen.
      assert (Heq : omap (flag_message w1) results = omap (flag_message (nodeManager s)) results).
      { unfold w1. clear - He Hl Hid. induction results as [|r results IHr]; [done|]. simpl.
        apply not_elem_of_cons in Hid as [Hr Hid].
        rewrite (flag_message_others _ _ _ _ _ He Hl) by congruence.
        specialize (IHr Hid). unfold omap in IHr. by rewrite IHr. }
      rewrite Heq in Hmsgs. rewrite Hmsgs; unfold s1, broadcastWSMessage; simpl;
        (rewrite decide_True by (unfold wsBroadcast_capacity; lia)); simpl.
      * by rewrite <- app_assoc.
      * rewrite length_app. simpl. lia.
  - destruct (IH s He Hnd Hin) as [Hm Hp Hent Hoth Hmsgs]. split; [done | done | | done |].
    + intros id' k Hk. rewrite (Hent _ _ Hk). cbn [list_to_map foldr fst snd].
      destruct (decide (id = id')) as [<-|Hne]; [|by rewrite lookup_insert_ne].
      rewrite Hnone, lookup_insert_eq. unfold flag_message in Hmsg. simpl in Hmsg. rewrite Hl in Hmsg.
      destruct (Bool.eqb _ b) eqn:Heqb; [|done]. apply eqb_prop in Heqb. assert (k = l) as -> by congruence.
      by rewrite <- Heqb, set_primary_same.
    + cbn [omap list_omap]. rewrite Hmsg. done.
Qed.

(** The results are answers of the nodes asked, which were running. *)
Lemma refresh_queries_nodes s ns net res :
  res ∈ (refresh_queries s ns net).2 →
  ∃ n, n ∈ ns ∧ mn_ID n = res.1 ∧ mn_Status n = NodeStatusRunning.
Proof.
  revert net. induction ns as [|n ns IH]; intros net; simpl; [by intros ?%elem_of_nil|].
  case_decide as Hr.
  - destruct (checkNodeIsPrimary s (node_url n) net) as [net1 ans].
    destruct (refresh_queries s ns net1) as [net2 results] eqn:Hq. simpl.
    destruct ans as [b|]; simpl; [intros [->|Hin]%elem_of_cons|intros Hin].
    + exists n. split; [by left | done].
    + destruct (IH net1) as (m & ? & ?); [by rewrite Hq|]. exists m. split; [by right | done].
    + destruct (IH net1) as (m & ? & ?); [by rewrite Hq|]. exists m. split; [by right | done].
  - intros (m & ? & ?)%IH. exists m. split; [by right | done].
Qed.

Lemma refresh_queries_ids s ns net :
  sublist (refresh_queries s ns net).2.*1 (map mn_ID ns).
Proof.
  revert net. induction ns as [|n ns IH]; intros net; simpl; [constructor|].
  case_decide; [|by apply sublist_cons].
  destruct (checkNodeIsPrimary s (node_url n) net) as [net1 ans]. specialize (IH net1).
  destruct (refresh_queries s ns net1) as [net2 results]. simpl in *.
  destruct ans; simpl; by constructor.
Qed.

Section iteration.
Variable iteration : gmap string positive → list (string * positive).

(** The nodes handed out are the entries' nodes. *)
Lemma GetAllNodes_entries s n :
  (∀ m, iteration m ≡ₚ map_to_list m) →
  n ∈ GetAllNodes iteration s ↔
  ∃ id l, nodes (mgr (nodeManager s)) !! id = Some l ∧ n = snapshot (deref (nodeManager s) l).
Proof.
  intros Hit. unfold GetAllNodes, Manager.GetAllNodes. rewrite list_elem_of_fmap. split.
  - intros (l & -> & Hl). apply list_elem_of_fmap in Hl as ([id l'] & -> & Hin).
    rewrite Hit, elem_of_map_to_list in Hin. by exists id, l'.
  - intros (id & l & Hl & ->). exists l. split; [done|]. apply list_elem_of_fmap. exists (id, l).
    split; [done|]. by rewrite Hit, elem_of_map_to_list.
Qed.

Lemma GetAllNodes_ids s :
  (∀ m, iteration m ≡ₚ map_to_list m) → entries_ok (nodeManager s) →
  map mn_ID (GetAllNodes iteration s) = (iteration (nodes (mgr (nodeManager s)))).*1.
Proof.
  intros Hit He. unfold GetAllNodes, Manager.GetAllNodes. rewrite !map_map.
  apply map_ext_in. intros [id l] Hin%list_elem_of_In. rewrite Hit, elem_of_map_to_list in Hin.
  destruct (He _ _ Hin) as (n & Hn & <-). simpl. by rewrite (deref_Some _ _ _ Hn).
Qed.

(** [refreshPrimaryStatus] asks the running nodes only, and sets the flag of each that answers to
    its answer and of no other; nothing else about any node changes, nor the processes; and each flag
    that changes is announced to the dashboards, with the node as it is then, when the channel has
    room. *)
Theorem refresh_tracks_consensus s net :
  (∀ m, iteration m ≡ₚ map_to_list m) → entries_ok (nodeManager s) →
  ∃ results, (refresh_queries s (GetAllNodes iteration s) net).2 = results ∧
    refreshed results s (refreshPrimaryStatus iteration s net).1 ∧
    ∀ id b, (id, b) ∈ results → ∃ l, nodes (mgr (nodeManager s)) !! id = Some l ∧
      mn_Status (deref (nodeManager s) l) = NodeStatusRunning.
Proof.
  intros Hit He. eexists. split; [done|].
  pose proof (refresh_queries_ids s (GetAllNodes iteration s) net) as Hsub.
  pose proof (λ res, refresh_queries_nodes s (GetAllNodes iteration s) net res) as Hnodes.
  unfold refreshPrimaryStatus. destruct (refresh_queries _ _ _) as [net' results]. simpl in *.
  assert (Hrun : ∀ res, res ∈ results → ∃ l, nodes (mgr (nodeManager s)) !! res.1 = Some l ∧
    mn_Status (deref (nodeManager s) l) = NodeStatusRunning).
  { intros res (n & (id & l & Hl & ->)%(GetAllNodes_entries _ _ Hit) & Hid & Hr)%Hnodes.
    exists l. split; [|done]. destruct (He _ _ Hl) as (n & Hn & <-).
    simpl in Hid. by rewrite (deref_Some _ _ _ Hn), Hid in *. }
  split; [|by intros id b; apply (Hrun (id, b))].
  apply fold_refresh; [done| |].
  - eapply sublist_NoDup; [|apply Hsub]. rewrite GetAllNodes_ids by done.
    rewrite Hit. apply NoDup_fst_map_to_list.
  - rewrite Forall_forall. intros res (l & Hl & _)%Hrun. eauto.
Qed.
End iteration.
End props.

(** ** A server with a node that is no longer primary *)

(** A network in which every request is answered alike *)
#[export] Instance says_no : HttpClient unit := {|
  NewRequest _ _ := None;
  Do _ net := (net, Ok (MkAnswer StatusOK ∅ "no"));
|}.

#[export] Instance yes_is_primary : JsonDecode StatsResult := λ b, Ok (MkStatsResult (b =? "yes")%string).
#[export] Instance no_time : TimeText := λ _, ""%string.

Definition demo_config : ServerConfig := MkServerConfig "" 0 "bin/validator" "" "" "" "".

Definition demo_server : Server nat := set_nodeManager demo_world (NewServer demo_config).

Lemma refresh_tracks_consensus_witness :
  ∃ results, (refresh_queries demo_server (GetAllNodes map_to_list demo_server) ()).2 = results ∧
    refreshed results demo_server (refreshPrimaryStatus map_to_list demo_server ()).1 ∧
    ∀ id b, (id, b) ∈ results → ∃ l, nodes (mgr (nodeManager demo_server)) !! id = Some l ∧
      mn_Status (deref (nodeManager demo_server) l) = NodeStatusRunning.
Proof.
  apply refresh_tracks_consensus; [done|].
  apply (reachable_wf demo_peer). exact demo_reachable.
Defined.

Example refresh_sets_flag :
  let s := (refreshPrimaryStatus map_to_list demo_server ()).1 in
  map mn_IsPrimary (GetAllNodes map_to_list demo_server) = [true] ∧
  map mn_IsPrimary (GetAllNodes map_to_list s) = [false] ∧ length (wsBroadcast s) = 1.
Proof. by vm_compute. Qed.
End SupProps.
