(* ===== verification/Proxy.v ===== *)
(** The supervisor's handlers that forward to validator nodes, [src/pkg/supervisor/proxy.go], and the
    routes of the whole server ([setupRoutes] of [server.go]).

    Requests that the code sends in parallel are sent in the order of the nodes here. A handler that
    panics has [Panic] for its outcome: [net/http] then drops the connection. *)

From Stdlib Require Import SpecFloat.
From S2P Require Import Prelude GoStrings Float64 Http Manager SimControl Supervisor.

Module Proxy.
Import GoStrings Float64 Http Supervisor.

(** The body of [handleProxyValidateTicketViaNode] *)
Record ViaNodeRequest := MkViaNodeRequest { vn_TicketID : string; vn_NodeID : string }.

(** What [json.Unmarshal] leaves in [reqBody.TicketID], its error ignored *)
Class TicketIDOf := ticket_id_of : string → string.

Record seedResult := MkSeedResult {
  sd_NodeID : string;
  sd_Seeded : Z;
  sd_Err : error;
}.

Section proxy.
Context {N conn : Type} `{!HttpClient N, Countable conn, !TimeText}.
Context `{!JsonDecode StartNodeRequest, !JsonDecode StartClusterRequest}.
Context `{!JsonDecode SimControl.SimulatorConfig, !JsonDecode StatsResult, !UrlParser, !Mux}.
Context `{!JsonDecode ViaNodeRequest, !JsonDecode object, !TicketIDOf, !JsonEncode}.
Variable iteration : gmap string positive → list (string * positive).

(** ** The node to ask *)

(** The loop of [getRunningNodeURL], with its three variables *)
Fixpoint running_urls (nodes : list Manager.ManagedNode) (primaryURL fallbackURL : string)
    (hasRunningNodes : bool) (net : N) : N * (string * string * bool) :=
  match nodes with
  | [] => (net, (primaryURL, fallbackURL, hasRunningNodes))
  | n :: nodes =>
      if decide (Manager.mn_Status n = Manager.NodeStatusRunning) then
        let '(net, reachable) := isNodeReachable (node_url n) net in
        if negb reachable then running_urls nodes primaryURL fallbackURL true net
        else if Manager.mn_IsPrimary n then running_urls nodes (node_url n) fallbackURL true net
        else running_urls nodes primaryURL
               (if (fallbackURL =? "")%string then node_url n else fallbackURL) true net
      else running_urls nodes primaryURL fallbackURL hasRunningNodes net
  end.

Definition getRunningNodeURL (s : Server conn) (net : N) : N * result string :=
  let '(net, (primaryURL, fallbackURL, hasRunningNodes)) :=
    running_urls (GetAllNodes iteration s) "" "" false net in
  (net,
   if negb (primaryURL =? "")%string then Ok primaryURL
   else if negb (fallbackURL =? "")%string then Ok fallbackURL
   else if (hasRunningNodes : bool) then
     Err "nodes are still starting up, please try again in a few seconds"
   else Err "no running nodes available").

(** Phase 1 of [getPrimaryNodeURL]: the first running node that says it is primary *)
Fixpoint find_primary (s : Server conn) (nodes : list Manager.ManagedNode) (net : N) : N * option string :=
  match nodes with
  | [] => (net, None)
  | n :: nodes =>
      if decide (Manager.mn_Status n = Manager.NodeStatusRunning) then
        match checkNodeIsPrimary s (node_url n) net with
        | (net, Ok true) => (net, Some (node_url n))
        | (net, _) => find_primary s nodes net
        end
      else find_primary s nodes net
  end.

Definition getPrimaryNodeURL (s : Server conn) (net : N) : N * result string :=
  let nodes := GetAllNodes iteration s in
  match find_primary s nodes net with
  | (net, Some url) => (net, Ok url)
  | (net, None) =>
      match List.find Manager.mn_IsPrimary nodes with
      | None => (net, Err "no primary node found. Start a cluster first")
      | Some node =>
          if decide (Manager.mn_Status node ≠ Manager.NodeStatusRunning) then
            (net, Err ("primary node is not running (status: "
              +:+ Manager.status_text (Manager.mn_Status node) +:+ "). Start a cluster first"))
          else
            let '(net, reachable) := isNodeReachable (node_url node) net in
            (net, if reachable then Ok (node_url node)
                  else Err "primary node is still starting up, please try again in a few seconds")
      end
  end.

(** ** Forwarding *)

Definition body_limit : Z := 1024 * 1024.

Definition none_running : string := "No running nodes available. Start a cluster first.".

(** The copy of headers, status and body *)
Definition copy_answer (resp : Answer) : Reply :=
  MkReply (resp_Status resp) (Header_AddAll (resp_Headers resp) ∅) (BRaw (resp_Body resp)).

(** A request with the headers of [r] is made and sent, or the reply that says why it is not. *)
Definition send_as (r : Request) (targetURL : string) (body : option string) (net : N)
    : N * (Answer + Reply) :=
  match NewRequest (Method r) targetURL with
  | Some _ => (net, inr (writeError StatusInternalServerError "Failed to create proxy request"))
  | None =>
      let '(net, resp) := Do (MkClientRequest (Method r) targetURL (Headers r) body) net in
      (net, match resp with
            | Ok resp => inl resp
            | Err err => inr (writeError StatusBadGateway ("Failed to connect to validator node: " +:+ err))
            end)
  end.

(** What [proxyRequest] and [proxyRequestToPrimary] have in common *)
Definition forward (r : Request) (nodeURL endpoint : string) (net : N) : N * Reply :=
  let targetURL := nodeURL +:+ "/api/v1" +:+ endpoint in
  let body := match Body r with
    | None => Ok None
    | Some b => match read_limited body_limit b with Ok b => Ok (Some b) | Err e => Err e end
    end in
  match body with
  | Err _ => (net, writeError StatusInternalServerError "Failed to read request body")
  | Ok body =>
      let '(net, res) := send_as r targetURL body net in
      (net, match res with inl resp => copy_answer resp | inr reply => reply end)
  end.

Definition proxyRequest (r : Request) (endpoint : string) (s : Server conn) (net : N) : N * Reply :=
  match getRunningNodeURL s net with
  | (net, Err _) => (net, writeError StatusServiceUnavailable none_running)
  | (net, Ok nodeURL) => forward r nodeURL endpoint net
  end.

Definition proxyRequestToPrimary (r : Request) (endpoint : string) (s : Server conn) (net : N) : N * Reply :=
  match getPrimaryNodeURL s net with
  | (net, Ok nodeURL) => forward r nodeURL endpoint net
  | (net, Err _) => proxyRequest r endpoint s net
  end.

Definition ticket_event (eventType ticketID : string) (unix : Z) : json :=
  JObj [("type"%string, JStr eventType); ("ticket_id"%string, JStr ticketID); ("timestamp"%string, JInt unix)].

(** [unix] is [time.Now().Unix()]. *)
Definition proxyTicketRequest (unix : Z) (r : Request) (endpoint eventType : string) (s : Server conn)
    (net : N) : Server conn * N * Reply :=
  match getPrimaryNodeURL s net with
  | (net, Err err) => (s, net, writeError StatusServiceUnavailable err)
  | (net, Ok nodeURL) =>
      match read_limited body_limit (request_text r) with
      | Err _ => (s, net, writeError StatusBadRequest "Failed to read request body")
      | Ok body =>
          let ticketID := ticket_id_of body in
          let '(net, res) := send_as r (nodeURL +:+ "/api/v1" +:+ endpoint) (Some body) net in
          match res with
          | inr reply => (s, net, reply)
          | inl resp =>
              (if (resp_Status resp =? StatusOK)%Z then
                 broadcastWSMessage (ticket_event eventType ticketID unix) s
               else s, net, copy_answer resp)
          end
      end
  end.

(** ** Seeding *)

Definition seeded_count (result : object) : Z :=
  match obj_get "data" result with
  | Some (JObj data) =>
      match obj_get "seeded" (Some data) with
      | Some (JFloat val) => to_int val
      | _ => 0
      end
  | _ => 0
  end.

Definition seedNode (s : Server conn) (nodeID seedURL : string) (net : N) : N * seedResult :=
  match NewRequest "POST" seedURL with
  | Some err => (net, MkSeedResult nodeID 0 (Some err))
  | None =>
      let '(net, resp) := Do (MkClientRequest "POST" seedURL (key_header s ∅) None) net in
      (net, match resp with
            | Err err => MkSeedResult nodeID 0 (Some err)
            | Ok resp =>
                let result := match Decode (A := object) (resp_Body resp) with Ok o => o | Err _ => None end in
                MkSeedResult nodeID (seeded_count result) None
            end)
  end.

(** The running nodes that are reachable, with their URLs for seeding *)
Fixpoint seed_targets (nodes : list Manager.ManagedNode) (net : N) : N * list (string * string) :=
  match nodes with
  | [] => (net, [])
  | n :: nodes =>
      if decide (Manager.mn_Status n = Manager.NodeStatusRunning) then
        let '(net, reachable) := isNodeReachable (node_url n) net in
        let '(net, targets) := seed_targets nodes net in
        (net, if (reachable : bool) then (Manager.mn_ID n, node_url n +:+ "/api/v1/tickets/seed") :: targets
              else targets)
      else seed_targets nodes net
  end.

Fixpoint seed_all (s : Server conn) (targets : list (string * string)) (net : N) : N * list seedResult :=
  match targets with
  | [] => (net, [])
  | (id, url) :: targets =>
      let '(net, res) := seedNode s id url net in
      let '(net, results) := seed_all s targets net in (net, res :: results)
  end.

Definition seed_ok (res : seedResult) : bool := match sd_Err res with None => true | Some _ => false end.

Definition lastErr (results : list seedResult) : error := last (omap sd_Err results).

Definition handleProxySeedTickets (unix : Z) (s : Server conn) (net : N) : Server conn * N * Reply :=
  let '(net, targets) := seed_targets (GetAllNodes iteration s) net in
  match targets with
  | [] => (s, net, writeError StatusServiceUnavailable none_running)
  | _ =>
      let '(net, results) := seed_all s targets net in
      let ok := List.filter seed_ok results in
      let seededTotal := fold_left (λ t res, wrap_i64 (t + sd_Seeded res)) ok 0%Z in
      match ok with
      | [] => (s, net, writeError StatusServiceUnavailable
                 match lastErr results with Some err => "Failed to seed: " +:+ err | None => none_running end)
      | _ =>
          let count := Z.of_nat (length ok) in
          let s := broadcastWSMessage
            (JObj [("type"%string, JStr "tickets_seeded"); ("count"%string, JInt seededTotal);
                   ("nodes"%string, JInt count); ("timestamp"%string, JInt unix)]) s in
          (s, net, writeJSON (JObj [("success"%string, JBool true);
             ("message"%string, JStr ("Seeded tickets on " +:+ FormatInt count +:+ " nodes"));
             ("data"%string, JObj [("total_seeded"%string, JInt seededTotal);
                ("nodes"%string, JArr (map (λ res, JObj [("node_id"%string, JStr (sd_NodeID res));
                                                        ("seeded"%string, JInt (sd_Seeded res))]) ok))])]))
      end
  end.

(** ** Validation at a chosen node *)

Definition handleProxyValidateTicketViaNode (unix : Z) (r : Request) (s : Server conn) (net : N)
    : Server conn * N * Reply :=
  match Decode (A := ViaNodeRequest) (request_text r) with
  | Err _ => (s, net, writeError StatusBadRequest "Invalid request body")
  | Ok req =>
      if (vn_TicketID req =? "")%string then (s, net, writeError StatusBadRequest "ticket_id is required")
      else if (vn_NodeID req =? "")%string then (s, net, writeError StatusBadRequest "node_id is required")
      else match Manager.GetNode (vn_NodeID req) (nodeManager s) with
      | Err _ => (s, net, writeError StatusNotFound ("Node not found: " +:+ vn_NodeID req))
      | Ok node =>
          if decide (Manager.mn_Status node ≠ Manager.NodeStatusRunning) then
            (s, net, writeError StatusServiceUnavailable ("Node " +:+ vn_NodeID req
               +:+ " is not running (status: " +:+ Manager.status_text (Manager.mn_Status node) +:+ ")"))
          else
            let '(net, reachable) := isNodeReachable (node_url node) net in
            if negb reachable then
              (s, net, writeError StatusServiceUnavailable ("Node " +:+ vn_NodeID req +:+ " is not reachable yet"))
            else
              let validateBody := json_text (JObj [("ticket_id"%string, JStr (vn_TicketID req))]) in
              let targetURL := node_url node +:+ "/api/v1/tickets/validate" in
              match NewRequest "POST" targetURL with
              | Some _ => (s, net, writeError StatusInternalServerError "Failed to create proxy request")
              | None =>
                  let h := key_header s (Header_Set "Content-Type" "application/json" ∅) in
                  match Do (MkClientRequest "POST" targetURL h (Some validateBody)) net with
                  | (net, Err err) =>
                      (s, net, writeError StatusBadGateway
                        ("Failed to connect to node " +:+ vn_NodeID req +:+ ": " +:+ err))
                  | (net, Ok resp) =>
                      (if (resp_Status resp =? StatusOK)%Z then
                         broadcastWSMessage
                           (JObj [("type"%string, JStr "ticket_validated");
                                  ("ticket_id"%string, JStr (vn_TicketID req));
                                  ("node_id"%string, JStr (vn_NodeID req)); ("timestamp"%string, JInt unix)]) s
                       else s, net, copy_answer resp)
                  end
              end
      end
  end.

(** ** The other handlers *)

Definition handleProxyGetAllTickets (r : Request) : Server conn → N → N * Reply :=
  proxyRequestToPrimary r "/tickets".

Definition handleProxyValidateTicket (unix : Z) (r : Request) : Server conn → N → Server conn * N * Reply :=
  proxyTicketRequest unix r "/tickets/validate" "ticket_validated".

Definition handleProxyConsumeTicket (unix : Z) (r : Request) : Server conn → N → Server conn * N * Reply :=
  proxyTicketRequest unix r "/tickets/consume" "ticket_consumed".

Definition handleProxyDisputeTicket (unix : Z) (r : Request) : Server conn → N → Server conn * N * Reply :=
  proxyTicketRequest unix r "/tickets/dispute" "ticket_disputed".

Definition handleProxyGetTicket (vars : gmap string string) (r : Request) : Server conn → N → N * Reply :=
  proxyRequestToPrimary r ("/tickets/" +:+ map_get ""%string vars "id").

Definition supervisor_stats (s : Server conn) : json :=
  JObj [("node_id"%string, JStr "supervisor"); ("peer_count"%string, JInt 0);
        ("is_primary"%string, JBool false); ("current_view"%string, JInt 0);
        ("sequence"%string, JInt 0); ("mode"%string, JStr "supervisor");
        ("nodes_count"%string, JInt (Z.of_nat (length (GetAllNodes iteration s))))].

Definition handleProxyGetStats (s : Server conn) (net : N) : outcome (N * Reply) :=
  match getRunningNodeURL s net with
  | (net, Err _) => Done (net, writeJSON (supervisor_stats s))
  | (net, Ok nodeURL) =>
      let targetURL := nodeURL +:+ "/api/v1/stats" in
      match NewRequest "GET" targetURL with
      | Some _ => Done (net, writeError StatusBadGateway "Failed to get stats from node")
      | None =>
          match Do (MkClientRequest "GET" targetURL (key_header s ∅) None) net with
          | (net, Err _) => Done (net, writeError StatusBadGateway "Failed to get stats from node")
          | (net, Ok resp) =>
              match Decode (A := object) (resp_Body resp) with
              | Err _ => Done (net, writeError StatusInternalServerError "Failed to parse stats")
              | Ok data =>
                  match obj_get "data" data with
                  | Some (JObj dataField) =>
                      Done (net, writeJSON (JObj [("success"%string, JBool true);
                        ("message"%string, JStr "Stats retrieved successfully");
                        ("data"%string, JObj (obj_set "mode" (JStr "supervisor") dataField))]))
                  | _ =>
                      match data with
                      | None => Panic "assignment to entry in nil map"
                      | Some data => Done (net, writeJSON (JObj (obj_set "mode" (JStr "supervisor") data)))
                      end
                  end
              end
          end
      end
  end.

Definition handleProxyGetPeers (r : Request) (s : Server conn) (net : N) : N * Reply :=
  match getRunningNodeURL s net with
  | (net, Err _) =>
      (net, writeJSON (JObj [("success"%string, JBool true); ("message"%string, JStr "No running nodes");
                             ("data"%string, JArr [])]))
  | (net, Ok _) => proxyRequest r "/peers" s net
  end.

Definition handleProxyGetConfig (r : Request) (s : Server conn) (net : N) : N * Reply :=
  match getRunningNodeURL s net with
  | (net, Err _) =>
      (net, writeJSON (JObj [("success"%string, JBool true); ("message"%string, JStr "Supervisor config");
        ("data"%string, JObj [("mode"%string, JStr "supervisor");
           ("nodes_count"%string, JInt (Z.of_nat (length (GetAllNodes iteration s))))])]))
  | (net, Ok _) => proxyRequest r "/config" s net
  end.

Definition handleProxyGetConsensusLogs (r : Request) : Server conn → N → N * Reply :=
  proxyRequest r "/consensus/logs".

Definition handleProxyGetNodeCrypto (r : Request) : Server conn → N → N * Reply :=
  proxyRequest r "/node/crypto".

Definition handleProxyGetStorageEntries (r : Request) : Server conn → N → N * Reply :=
  proxyRequest r "/storage/entries".

(** ** Routes *)

Inductive handler :=
| HGetNodes | HStartNode | HGetNode | HStopNode | HGetNodeLogs | HRestartNode
| HStartCluster | HStopCluster
| HGetSimulatorStatus | HStartSimulator | HStopSimulator | HGetSimulatorOutput | HGetSimulatorResults
| HProxyGetAllTickets | HProxyValidateTicket | HProxyValidateTicketViaNode | HProxyConsumeTicket
| HProxyDisputeTicket | HProxySeedTickets | HProxyGetTicket
| HProxyGetStats | HProxyGetPeers | HProxyGetConfig
| HProxyGetConsensusLogs | HProxyGetNodeCrypto | HProxyGetStorageEntries
| HGetStatus | HWebSocket | HStatic.

Definition setupRoutes (static_files : bool) : list (route handler) :=
  let get path := MkRoute (Some "GET"%string) ("/api/v1" +:+ path) in
  let post path := MkRoute (Some "POST"%string) ("/api/v1" +:+ path) in
  [get "/nodes" HGetNodes;
   post "/nodes" HStartNode;
   get "/nodes/{nodeID}" HGetNode;
   MkRoute (Some "DELETE"%string) "/api/v1/nodes/{nodeID}" HStopNode;
   get "/nodes/{nodeID}/logs" HGetNodeLogs;
   post "/nodes/{nodeID}/restart" HRestartNode;
   post "/cluster/start" HStartCluster;
   post "/cluster/stop" HStopCluster;
   get "/simulator" HGetSimulatorStatus;
   post "/simulator/start" HStartSimulator;
   post "/simulator/stop" HStopSimulator;
   get "/simulator/output" HGetSimulatorOutput;
   get "/simulator/results" HGetSimulatorResults;
   get "/tickets" HProxyGetAllTickets;
   post "/tickets/validate" HProxyValidateTicket;
   post "/tickets/validate-via-node" HProxyValidateTicketViaNode;
   post "/tickets/consume" HProxyConsumeTicket;
   post "/tickets/dispute" HProxyDisputeTicket;
   post "/tickets/seed" HProxySeedTickets;
   get "/tickets/{id}" HProxyGetTicket;
   get "/stats" HProxyGetStats;
   get "/peers" HProxyGetPeers;
   get "/config" HProxyGetConfig;
   get "/consensus/logs" HProxyGetConsensusLogs;
   get "/node/crypto" HProxyGetNodeCrypto;
   get "/storage/entries" HProxyGetStorageEntries;
   get "/status" HGetStatus;
   MkRoute None "/ws" HWebSocket]
  ++ (if static_files then [MkRoute None "/" HStatic] else []).

(** [others] is what happens while a handler sleeps; [upgrade] and [static] answer for the WebSocket
    library and the file server. A connection comes with whether the first message can be written to it. *)
Definition dispatch (now : Z) (others : Server conn → Server conn)
    (upgrade : Request → upgraded (conn * bool)) (static : Request → Reply) (hd : handler) (vars : gmap string string) (r : Request) (s : Server conn) (net : N)
    : outcome (Server conn * N * Reply) :=
  let unix := Z.quot now 1000000000 in
  let keep (res : N * Reply) := Done (s, res.1, res.2) in
  let local (res : Server conn * Reply) := Done (res.1, net, res.2) in
  let answer (reply : Reply) := Done (s, net, reply) in
  match hd with
  | HGetNodes => Done (handleGetNodes iteration s net)
  | HStartNode => local (handleStartNode r s)
  | HGetNode => answer (handleGetNode vars s)
  | HStopNode => local (handleStopNode now vars s)
  | HGetNodeLogs => answer (handleGetNodeLogs vars s)
  | HRestartNode => local (handleRestartNode now others vars s)
  | HStartCluster => local (handleStartCluster iteration r s)
  | HStopCluster => local (handleStopCluster iteration now s)
  | HGetSimulatorStatus => answer (handleGetSimulatorStatus s)
  | HStartSimulator => local (handleStartSimulator r s)
  | HStopSimulator => local (handleStopSimulator s)
  | HGetSimulatorOutput => answer (handleGetSimulatorOutput s)
  | HGetSimulatorResults => answer (handleGetSimulatorResults s)
  | HProxyGetAllTickets => keep (handleProxyGetAllTickets r s net)
  | HProxyValidateTicket => Done (handleProxyValidateTicket unix r s net)
  | HProxyValidateTicketViaNode => Done (handleProxyValidateTicketViaNode unix r s net)
  | HProxyConsumeTicket => Done (handleProxyConsumeTicket unix r s net)
  | HProxyDisputeTicket => Done (handleProxyDisputeTicket unix r s net)
  | HProxySeedTickets => Done (handleProxySeedTickets unix s net)
  | HProxyGetTicket => keep (handleProxyGetTicket vars r s net)
  | HProxyGetStats => outcome_bind (handleProxyGetStats s net) keep
  | HProxyGetPeers => keep (handleProxyGetPeers r s net)
  | HProxyGetConfig => keep (handleProxyGetConfig r s net)
  | HProxyGetConsensusLogs => keep (handleProxyGetConsensusLogs r s net)
  | HProxyGetNodeCrypto => keep (handleProxyGetNodeCrypto r s net)
  | HProxyGetStorageEntries => keep (handleProxyGetStorageEntries r s net)
  | HGetStatus => answer (handleGetStatus iteration s)
  | HWebSocket =>
      match upgrade r with
      | Upgraded (c, write_ok) reply => local ((handleWebSocket iteration write_ok c s).1, reply)
      | NotUpgraded reply => answer reply
      end
  | HStatic => answer (static r)
  end.

(** A request: the route, the key where one is configured, and the handler. *)
Definition serve (static_files : bool) (now : Z) (others : Server conn → Server conn)
    (upgrade : Request → upgraded (conn * bool)) (static : Request → Reply) (r : Request)
    (s : Server conn) (net : N)
    : outcome (Server conn * N * Reply) :=
  match match_route (setupRoutes static_files) r false with
  | NoRoute => Done (s, net, MkReply StatusNotFound ∅ (BRaw "404 page not found"))
  | WrongMethod => Done (s, net, MkReply StatusMethodNotAllowed ∅ BEmpty)
  | Matched hd vars =>
      match (if (apiKey s =? "")%string then None else apiKeyMiddleware r s) with
      | Some reply => Done (s, net, reply)
      | None => dispatch now others upgrade static hd vars r s net
      end
  end.
End proxy.
End Proxy.
