(* ===== verification/ProxyProps.v ===== *)
(** Properties of the supervisor's forwarding ([Proxy], [src/pkg/supervisor/proxy.go]): which node is
    asked, that a request without the key does nothing, and, with the supervisor and the nodes' own
    servers ([Api]) put together, that a ticket request sent through the supervisor does at the primary
    what it does when sent there directly. *)

From Stdlib Require Import SpecFloat.
From S2P Require Import Prelude GoStrings Float64 Http Api Manager ManagerInv SimControl Supervisor Proxy ApiProps.

Module ProxyProps.
Import GoStrings Float64 Http Supervisor Proxy ApiProps.

Section choice.
Context {N conn : Type} `{!HttpClient N, Countable conn, !TimeText, !JsonDecode StatsResult}.
Variable iteration : gmap string positive → list (string * positive).
Implicit Types s : Server conn.

(** * The node to ask *)

(** While the network is in [I], which nodes answer does not change. *)
Section steady.
Variables (I : N → Prop) (up : string → bool).
Hypothesis steady : ∀ url net, I net →
  I (isNodeReachable url net).1 ∧ (isNodeReachable url net).2 = up url.

Definition usable (n : Manager.ManagedNode) : bool :=
  bool_decide (Manager.mn_Status n = Manager.NodeStatusRunning) && up (node_url n).

Definition or_else (a b : string) : string := if (a =? "")%string then b else a.

Definition first_url (ns : list Manager.ManagedNode) : string :=
  match ns with [] => ""%string | n :: _ => node_url n end.

Lemma or_else_empty a : or_else a "" = a.
Proof. unfold or_else. by destruct (String.eqb_spec a "") as [->|]. Qed.

Lemma node_url_cons n : ∃ c u, node_url n = String c u.
Proof. by eexists _, _. Qed.

Lemma or_else_url n b : or_else (node_url n) b = node_url n.
Proof. done. Qed.

Lemma running_urls_spec ns p f b net :
  I net →
  let '(net', (p', f', _)) := running_urls ns p f b net in
  I net' ∧
  p' = or_else (first_url (rev (List.filter (λ n, usable n && Manager.mn_IsPrimary n) ns))) p ∧
  f' = or_else f (first_url (List.filter (λ n, usable n && negb (Manager.mn_IsPrimary n)) ns)).
Proof.
  revert p f b net. induction ns as [|n ns IH]; intros p f b net Hn; simpl.
  { split_and!; [done | done | by rewrite or_else_empty]. }
  assert (Hu : usable n =
    bool_decide (Manager.mn_Status n = Manager.NodeStatusRunning) && up (node_url n)) by done.
  case_decide as Hr; [rewrite bool_decide_true in Hu by done | rewrite bool_decide_false in Hu by done];
    rewrite Hu.
  2: { by apply IH. }
  destruct (steady (node_url n) net Hn) as [Hn1 Hup].
  destruct (isNodeReachable (node_url n) net) as [net1 reachable]. simpl in Hn1, Hup. subst reachable.
  destruct (up (node_url n)); simpl.
  2: { specialize (IH p f true net1 Hn1). by destruct (running_urls ns p f true net1) as [net' [[p' f'] b']]. }
  destruct (Manager.mn_IsPrimary n); simpl.
  - specialize (IH (node_url n) f true net1 Hn1).
    destruct (running_urls ns (node_url n) f true net1) as [net' [[p' f'] b']].
    destruct IH as (? & -> & ->). split_and!; [done | | done].
    set (l := rev _). destruct l; simpl; by rewrite ?or_else_url.
  - specialize (IH p (if (f =? "")%string then node_url n else f) true net1 Hn1).
    destruct (running_urls ns p _ true net1) as [net' [[p' f'] b']].
    destruct IH as (? & -> & ->). split_and!; [done..|].
    unfold or_else. destruct (String.eqb_spec f ""); simpl; [done|]. by destruct (String.eqb_spec f "").
Qed.

Variables (s : Server conn) (says : string → result bool).
Hypothesis steady_says : ∀ url net, I net →
  I (checkNodeIsPrimary s url net).1 ∧ (checkNodeIsPrimary s url net).2 = says url.

Definition running (n : Manager.ManagedNode) : Prop := Manager.mn_Status n = Manager.NodeStatusRunning.

Definition claims_primary (n : Manager.ManagedNode) : bool :=
  bool_decide (running n) && match says (node_url n) with Ok b => b | Err _ => false end.

Lemma find_primary_spec ns net :
  I net →
  I (find_primary s ns net).1 ∧
  (find_primary s ns net).2 = option_map node_url (List.find claims_primary ns).
Proof.
  revert net. induction ns as [|n ns IH]; intros net Hn; simpl; [done|].
  unfold claims_primary at 1, running.
  case_decide; [rewrite bool_decide_true by done | rewrite bool_decide_false by done; simpl; by apply IH].
  destruct (steady_says (node_url n) net Hn) as [Hn1 Hs].
  destruct (checkNodeIsPrimary s (node_url n) net) as [net1 ans]. simpl in Hn1, Hs. rewrite <- Hs.
  destruct ans as [[]|]; simpl; [done | by apply IH..].
Qed.

Lemma first_url_spec ns :
  (ns = [] ∧ first_url ns = ""%string) ∨ ∃ n, n ∈ ns ∧ first_url ns = node_url n.
Proof. destruct ns as [|n ns]; [by left | right; exists n; split; [by left | done]]. Qed.

Lemma elem_of_filter_bool (f : Manager.ManagedNode → bool) n ns :
  n ∈ List.filter f ns ↔ n ∈ ns ∧ f n = true.
Proof. rewrite !list_elem_of_In. apply filter_In. Qed.

Lemma filter_bool_nil (f : Manager.ManagedNode → bool) n ns :
  List.filter f ns = [] → n ∈ ns → f n = false.
Proof.
  intros Hnil Hin. destruct (f n) eqn:Hf; [|done].
  assert (Hx : n ∈ List.filter f ns) by by apply elem_of_filter_bool.
  rewrite Hnil in Hx. by apply elem_of_nil in Hx.
Qed.

(** What is promised of the node for reads and of the node for changes *)
Definition read_choice (net : N) (nodes : list Manager.ManagedNode) : Prop :=
  match (getRunningNodeURL iteration s net).2 with
  | Ok url => ∃ n, n ∈ nodes ∧ url = node_url n ∧ running n ∧ up url = true ∧
      (Manager.mn_IsPrimary n = true ∨
       ∀ m, m ∈ nodes → running m → up (node_url m) = true → Manager.mn_IsPrimary m = false)
  | Err _ => ∀ m, m ∈ nodes → running m → up (node_url m) = false
  end.

Definition change_choice (net : N) (nodes : list Manager.ManagedNode) : Prop :=
  match (getPrimaryNodeURL iteration s net).2 with
  | Ok url => ∃ n, n ∈ nodes ∧ url = node_url n ∧ running n ∧
      (says url = Ok true ∨
       (∀ m, m ∈ nodes → running m → says (node_url m) ≠ Ok true) ∧
       List.find Manager.mn_IsPrimary nodes = Some n ∧ up url = true)
  | Err _ => (∀ m, m ∈ nodes → running m → says (node_url m) ≠ Ok true) ∧
      match List.find Manager.mn_IsPrimary nodes with
      | Some n => running n → up (node_url n) = false
      | None => True
      end
  end.

(** While the nodes' answers do not change, the node that reads go to ([getRunningNodeURL]) is
    running and answers its health check, and is one flagged as primary whenever there is such a node;
    there is none only if no running node answers. The node that changes go to ([getPrimaryNodeURL]) is
    running and says that it is the primary, or, where no running node says so, the first one flagged
    as primary, if that is running and answers. *)
Theorem node_choice net :
  I net →
  read_choice net (GetAllNodes iteration s) ∧ change_choice net (GetAllNodes iteration s).
Proof.
  intros Hn. set (nodes := GetAllNodes iteration s). unfold read_choice, change_choice.
  assert (Huse : ∀ m, usable m = true ↔ running m ∧ up (node_url m) = true).
  { intros m. unfold usable, running. rewrite andb_true_iff, bool_decide_eq_true. done. }
  split.
  - unfold getRunningNodeURL. fold nodes.
    pose proof (running_urls_spec nodes "" "" false net Hn) as Hspec.
    destruct (running_urls nodes "" "" false net) as [net' [[p f] b]].
    destruct Hspec as (_ & -> & ->). rewrite or_else_empty. unfold or_else at 1. simpl.
    destruct (first_url_spec (rev (List.filter (λ n, usable n && Manager.mn_IsPrimary n) nodes)))
      as [[Hp ->]|(n & Hin & ->)].
    + apply (f_equal (@rev _)) in Hp. rewrite rev_involutive in Hp. simpl in Hp.
      assert (Hnp : ∀ m, m ∈ nodes → running m → up (node_url m) = true → Manager.mn_IsPrimary m = false).
      { intros m Hm Hr Hu. pose proof (filter_bool_nil _ _ _ Hp Hm) as Hf. simpl in Hf.
        assert (usable m = true) as Hum by by apply Huse. by rewrite Hum in Hf. }
      destruct (first_url_spec (List.filter (λ n, usable n && negb (Manager.mn_IsPrimary n)) nodes))
        as [[Hf ->]|(n & Hin & ->)]; simpl.
      * assert (Hdown : ∀ m, m ∈ nodes → running m → up (node_url m) = false).
        { intros m Hm Hr. destruct (up (node_url m)) eqn:Hu; [|done].
          pose proof (filter_bool_nil _ _ _ Hf Hm) as Hx. simpl in Hx.
          assert (usable m = true) as Hum by by apply Huse. by rewrite Hum, Hnp in Hx. }
        by destruct b.
      * apply elem_of_filter_bool in Hin as [Hin [[Hr Hu]%Huse _]%andb_true_iff].
        exists n. split_and!; try done. by right.
    + simpl. apply list_elem_of_In, in_rev, list_elem_of_In in Hin.
      apply elem_of_filter_bool in Hin as [Hin [[Hr Hu]%Huse Hp]%andb_true_iff].
      exists n. split_and!; try done. by left.
  - unfold getPrimaryNodeURL. fold nodes.
    destruct (find_primary_spec nodes net Hn) as [Hn1 Hf].
    destruct (find_primary s nodes net) as [net1 [url|]]; simpl in Hn1, Hf |- *.
    + destruct (List.find claims_primary nodes) as [n|] eqn:Hfind; [|done]. simplify_eq/=.
      apply find_some in Hfind as [Hin%list_elem_of_In [Hr%bool_decide_eq_true Hs]%andb_true_iff].
      exists n. split_and!; try done. left. by destruct (says _) as [[]|].
    + assert (Hno : ∀ m, m ∈ nodes → running m → says (node_url m) ≠ Ok true).
      { intros m Hm%list_elem_of_In Hr Hs. destruct (List.find claims_primary nodes) eqn:Hfind; [done|].
        pose proof (find_none _ _ Hfind m Hm) as Hc. unfold claims_primary in Hc.
        by rewrite bool_decide_true, Hs in Hc. }
      destruct (List.find Manager.mn_IsPrimary nodes) as [n|] eqn:Hfp; [|done].
      case_decide as Hr; [done|].
      destruct (steady (node_url n) net1 Hn1) as [_ Hu].
      destruct (isNodeReachable (node_url n) net1) as [net2 reachable]. simpl in Hu |- *. subst reachable.
      destruct (up (node_url n)) eqn:Hup; [|done].
      apply find_some in Hfp as Hin. destruct Hin as [Hin%list_elem_of_In _].
      exists n. split_and!; try done. by right.
Qed.
End steady.
End choice.

(** * Without the key *)

Section no_key.
Context {N conn : Type} `{!HttpClient N, Countable conn, !TimeText}.
Context `{!JsonDecode StartNodeRequest, !JsonDecode StartClusterRequest}.
Context `{!JsonDecode SimControl.SimulatorConfig, !JsonDecode StatsResult, !Mux, !MuxLaws}.
Context `{!JsonDecode ViaNodeRequest, !JsonDecode object, !TicketIDOf, !JsonEncode}.
Variable iteration : gmap string positive → list (string * positive).
Implicit Types s : Server conn.

Definition open_handler (hd : handler) : bool :=
  match hd with HWebSocket | HStatic => true | _ => false end.

Lemma supervisor_routes_below_api static_files rt :
  rt ∈ setupRoutes static_files → open_handler (rt_handler rt) = false →
  has_prefix (rt_pattern rt) "/api/" = true.
Proof.
  assert (Hall : Forall (λ rt, open_handler (rt_handler rt) = false →
    has_prefix (rt_pattern rt) "/api/" = true) (setupRoutes static_files)).
  { unfold setupRoutes. destruct static_files; repeat (constructor; [by intros; vm_compute|]); constructor. }
  rewrite Forall_forall in Hall. apply Hall.
Qed.

(** C30: where the supervisor has a key, a request that does not carry it starts and stops no node, no
    cluster and no simulator, sends nothing to any validator node and puts no event into the queue,
    whatever its method, path and body: server and network are as before, and the reply is a refusal
    or that of the WebSocket upgrade or the file server. A request for the WebSocket however, which the
    code exempts from the key, makes its connection a dashboard if the upgrade succeeds and the first
    message, the state of nodes, cluster and simulator, can be written: nothing else in the server
    changes, and the next event of the queue goes to this connection too. *)
Theorem supervisor_needs_key static_files now others upgrade static r s net :
  apiKey s ≠ ""%string → presented_key (Headers r) ≠ apiKey s →
  ∃ s' reply, serve iteration static_files now others upgrade static r s net = Done (s', net, reply) ∧
    (s' = s ∧ Status reply ∈ [StatusUnauthorized; StatusNotFound; StatusMethodNotAllowed] ∨
     s' = s ∧ reply = static r ∨ s' = s ∧ upgrade r = NotUpgraded reply ∨
     ∃ c write_ok vars, match_route (setupRoutes static_files) r false = Matched HWebSocket vars ∧
       upgrade r = Upgraded (c, write_ok) reply ∧
       s' = set_wsClients (if write_ok then {[c]} ∪ wsClients s else ({[c]} ∪ wsClients s) ∖ {[c]}) s ∧
       (write_ok = true → ∀ ok msg rest, wsBroadcast s = msg :: rest →
         ∃ s2 clients, wsBroadcastPump_step ok s' = Some (s2, msg, clients) ∧ c ∈ clients)).
Proof.
  intros Hkey Hpres. unfold serve.
  destruct (match_route (setupRoutes static_files) r false) as [hd vars| |] eqn:Hm.
  - destruct (String.eqb_spec (apiKey s) ""); [done|].
    unfold apiKeyMiddleware. destruct (_ || negb (has_prefix (Path r) "/api/")) eqn:Hex.
    + destruct (match_route_in _ _ _ _ _ Hm) as (rt & Hin & Heq & Hp).
      assert (Hop : open_handler (rt_handler rt) = true).
      { destruct (open_handler (rt_handler rt)) eqn:Hop; [done|].
        pose proof (path_match_api _ _ _ (supervisor_routes_below_api _ _ Hin Hop) Hp) as Hpre.
        rewrite Hpre in Hex. simpl in Hex. rewrite orb_false_r in Hex.
        apply String.eqb_eq in Hex. by rewrite Hex in Hpre. }
      rewrite Heq in Hop. destruct hd; try done; cbn [dispatch].
      * destruct (upgrade r) as [[c write_ok] reply|reply]; (eexists _, _; split; [done|]).
        -- right. right. right. exists c, write_ok, vars. split_and!; [done|done|by destruct write_ok|].
           intros -> ok msg rest Hq. unfold wsBroadcastPump_step. cbn. rewrite Hq.
           eexists _, _. split; [done|]. apply elem_of_union. left. by apply elem_of_singleton.
        -- right. right. by left.
      * eexists _, _. split; [done|]. right. by left.
    + unfold ConstantTimeCompare. destruct (String.eqb_spec (presented_key (Headers r)) (apiKey s)); [done|].
      eexists _, _. split; [done|]. left. split; [done|by left].
  - eexists _, _. split; [done|]. left. split; [done|]. right. right. by left.
  - eexists _, _. split; [done|]. left. split; [done|]. right. by left.
Qed.
End no_key.

(** * Supervisor and nodes together *)

(** The nodes' servers, by port, on one machine. Where a node's handler waits for room in the node's
    channel of events, its message stays [waiting]. *)
Record Process (V nconn : Type) `{Countable nconn} := MkProcess {
  api : Api.Server V nconn;
  waiting : list json;
}.
Arguments MkProcess {V nconn _ _}.
Arguments api {V nconn _ _}.
Arguments waiting {V nconn _ _}.

(** Port and path of [http://127.0.0.1:port/path], for paths without escapes. *)
Definition loopback (url : string) : option (Z * string) :=
  match lit "http://127.0.0.1:" url with
  | Some rest =>
      let '(port, rest) := span is_digit rest in
      if (port =? "")%string then None
      else Some (Atoi_digits port, (span (λ c, negb ((c =? "?")%char || (c =? "#")%char)) rest).1)
  | None => None
  end.

Definition newline : string := String (ascii_of_nat 10) "".

Section composed.
Context {V nconn conn : Type} `{!Api.ValidatorInterface V, Countable nconn, Countable conn, !TimeText}.
Context `{!JsonDecode Api.ValidateRequest, !JsonDecode Api.ConsumeRequest, !JsonDecode Api.DisputeRequest}.
Context `{!JsonDecode StartNodeRequest, !JsonDecode StartClusterRequest}.
Context `{!JsonDecode SimControl.SimulatorConfig, !JsonDecode StatsResult, !UrlParser, !Mux}.
Context `{!JsonDecode ViaNodeRequest, !JsonDecode object, !TicketIDOf, !JsonEncode}.
Variable iteration : gmap string positive → list (string * positive).
Variables (node_files : bool) (node_now : Z).
Variables (node_upgrade : Request → upgraded nconn) (node_static : Request → Reply).

(** Which requests a node takes longer for than the 30 s of [proxyClient.Timeout] (or than the deadline
    of the request's own context), and the error the client then returns. *)
Variables (late : ClientRequest → bool) (deadline_exceeded : string).

(** [Encode] ends with a newline. *)
Definition body_text (b : body) : string :=
  match b with
  | BEmpty => ""
  | BJson j => json_text j +:+ newline
  | BRaw t => t
  end.

Definition answer_of (r : Reply) : Answer := MkAnswer (Status r) (RHeaders r) (body_text (RBody r)).

Definition node_host (port : Z) : string := "127.0.0.1:" +:+ FormatInt port.

Definition at_node (port : Z) (r : Request) (p : Process V nconn) : Api.handled V nconn :=
  Api.serve node_files node_now node_upgrade node_static
    (MkRequest (Method r) (Path r) (node_host port) (Headers r) (Body r)) (api p).

(** The process after a request *)
Definition process_after (p : Process V nconn) (h : Api.handled V nconn) : Process V nconn :=
  match h with
  | Api.Replied srv _ => MkProcess srv (waiting p)
  | Api.Blocked srv msg _ => MkProcess srv (waiting p ++ [msg])
  end.

(** The client of the supervisor: it connects to a port of the machine and waits for the answer until its
    deadline. The node does what it was asked for in any case: a client that gives up does not stop
    the handler, which does not look at the request's context. *)
#[local] Instance loopback_client : HttpClient (gmap Z (Process V nconn)) := {|
  NewRequest _ _ := None;
  Do req net :=
    match loopback (c_URL req) with
    | None => (net, Err "unsupported URL")
    | Some (port, path) =>
        match net !! port with
        | None => (net, Err "connection refused")
        | Some p =>
            let h := at_node port (MkRequest (c_Method req) path "" (c_Headers req) (c_Body req)) p in
            (<[port := process_after p h]> net,
             match h with
             | Api.Replied _ r => if late req then Err deadline_exceeded else Ok (answer_of r)
             | Api.Blocked _ _ _ => Err deadline_exceeded
             end)
        end
    end;
|}.

(** The changes of a ticket *)
Inductive change := CValidate | CConsume | CDispute.

Definition endpoint (c : change) : string :=
  match c with
  | CValidate => "/tickets/validate" | CConsume => "/tickets/consume" | CDispute => "/tickets/dispute"
  end.

Definition event_type (c : change) : string :=
  match c with
  | CValidate => "ticket_validated" | CConsume => "ticket_consumed" | CDispute => "ticket_disputed"
  end.

Definition sup_handler (c : change) : handler :=
  match c with
  | CValidate => HProxyValidateTicket | CConsume => HProxyConsumeTicket | CDispute => HProxyDisputeTicket
  end.

Definition node_handler (c : change) : Api.handler :=
  match c with
  | CValidate => Api.HValidateTicket | CConsume => Api.HConsumeTicket | CDispute => Api.HDisputeTicket
  end.

Lemma loopback_url n path :
  (0 ≤ Manager.mn_APIPort n < 2 ^ 63)%Z →
  loopback (node_url n +:+ String "/" path) =
    Some (Manager.mn_APIPort n, (span (λ c, negb ((c =? "?")%char || (c =? "#")%char)) (String "/" path)).1).
Proof.
  intros Hp. unfold loopback, node_url. rewrite str_app_assoc, lit_app.
  rewrite span_all by (apply FormatInt_digits; lia). rewrite span_stop by done. cbn [fst snd].
  rewrite str_app_nil_r. destruct (FormatInt_cons (Manager.mn_APIPort n)) as (c & u & Heq & _); [lia|].
  pose proof (Atoi_FormatInt _ Hp) as Ha. rewrite Heq in Ha |- *. by rewrite Ha.
Qed.

Lemma relay_path c :
  (span (λ c, negb ((c =? "?")%char || (c =? "#")%char)) ("/api/v1" +:+ endpoint c)).1 =
    ("/api/v1" +:+ endpoint c)%string.
Proof. by destruct c. Qed.

(** A request that carries the key gets to its handler at the node. *)
Lemma at_node_dispatch port c r p vars' :
  (Api.apiKey (api p) = ""%string ∨ presented_key (Headers r) = Api.apiKey (api p)) →
  Method r = "POST"%string →
  match_route (Api.setupRoutes node_files) r false = Matched (node_handler c) vars' →
  at_node port r p =
    Api.dispatch node_now node_upgrade node_static (node_handler c) vars' (Api.cors_headers ∅)
      (MkRequest (Method r) (Path r) (node_host port) (Headers r) (Body r)) (api p).
Proof.
  intros Hkey Hm Hroute. unfold at_node, Api.serve.
  rewrite (match_route_ext _ _ r) by done. rewrite Hroute.
  unfold Api.corsMiddleware. cbn [Method]. rewrite Hm. simpl (_ =? _)%string.
  destruct (String.eqb_spec (Api.apiKey (api p)) ""); [done|].
  destruct Hkey as [|Hkey]; [done|]. unfold Api.apiKeyMiddleware, ConstantTimeCompare. cbn [Path Headers].
  rewrite Hkey, String.eqb_refl. simpl. by destruct (_ || _ || _).
Qed.

(** The request that the supervisor sends for [r] *)
Definition relayed_request r n c body : ClientRequest :=
  MkClientRequest (Method r) (node_url n +:+ "/api/v1" +:+ endpoint c) (Headers r) (Some body).

(** What the supervisor's client gets back in time of what happened at the node *)
Definition in_time (req : ClientRequest) (h : Api.handled V nconn) : option Reply :=
  match h with
  | Api.Replied _ rep => if late req then None else Some rep
  | Api.Blocked _ _ _ => None
  end.

Definition gave_up : Reply :=
  writeError StatusBadGateway ("Failed to connect to validator node: " +:+ deadline_exceeded).

(** A request of the proxy to a node *)
Lemma send_as_node r n c body net p :
  (0 ≤ Manager.mn_APIPort n < 2 ^ 63)%Z → Path r = ("/api/v1" +:+ endpoint c)%string →
  Body r = Some body → net !! Manager.mn_APIPort n = Some p →
  let h := at_node (Manager.mn_APIPort n) r p in
  send_as r (node_url n +:+ "/api/v1" +:+ endpoint c) (Some body) net =
    (<[Manager.mn_APIPort n := process_after p h]> net,
     match in_time (relayed_request r n c body) h with
     | Some rep => inl (answer_of rep)
     | None => inr gave_up
     end).
Proof.
  intros Hport Hpath Hbody Hp h. unfold send_as. cbn [NewRequest loopback_client Do c_URL].
  fold (relayed_request r n c body). unfold in_time. generalize (late (relayed_request r n c body)) as b. intros b.
  change ("/api/v1" +:+ endpoint c) with (String "/" ("api/v1" +:+ endpoint c)).
  rewrite loopback_url by done.
  change (String "/" ("api/v1" +:+ endpoint c)) with ("/api/v1" +:+ endpoint c). rewrite relay_path, Hp.
  cbn [c_Method c_Headers c_Body relayed_request].
  assert (Hh : at_node (Manager.mn_APIPort n)
    (MkRequest (Method r) ("/api/v1" +:+ endpoint c) "" (Headers r) (Some body)) p = h).
  { unfold h, at_node. cbn [Method Path Headers Body]. by rewrite Hpath, Hbody. }
  rewrite Hh. by destruct h, b.
Qed.

(** The supervisor after the node's answer, if there was one: dashboards are told of a change that the
    node answered with 200, as long as there is room for the message. *)
Definition announced (unix : Z) (c : change) (body : string) (s s' : Server conn) (answer : option Reply) : Prop :=
  match answer with
  | Some rep =>
      if decide (Status rep = StatusOK ∧ length (wsBroadcast s) < wsBroadcast_capacity)
      then s' = set_wsBroadcast (wsBroadcast s ++ [ticket_event (event_type c) (ticket_id_of body) unix]) s
      else s' = s
  | None => s' = s
  end.

(** C15: a request to validate, consume or dispute a ticket that reaches the supervisor with the key is
    let through by the primary's own server too, whose handler runs on the same body; the node and the
    network end up as if the request had been sent to the node directly, whatever the supervisor
    answers. Where the node answers within the client's deadline (30 s) the supervisor's reply is the
    node's, and the dashboards are told of the change exactly if the node answered 200 and their
    queue has room; else the message is dropped. Where the node takes longer, or its handler is held
    up by a full channel of events, the supervisor answers 502 and tells no dashboard, although the
    node goes on with the change and may make it. Conditions: supervisor and node have the same key
    (or none), the body is at most 1 MiB, the primary's address has been found, its process is there, the
    routes match. *)
Theorem proxied_change_is_the_nodes c static_files now others upgrade static r s net net1 n p body vars vars' :
  apiKey s = Api.apiKey (api p) →
  (apiKey s = ""%string ∨ presented_key (Headers r) = apiKey s) →
  Method r = "POST"%string → Path r = ("/api/v1" +:+ endpoint c)%string →
  Body r = Some body → (Z.of_nat (String.length body) ≤ body_limit)%Z →
  match_route (setupRoutes static_files) r false = Matched (sup_handler c) vars →
  match_route (Api.setupRoutes node_files) r false = Matched (node_handler c) vars' →
  getPrimaryNodeURL iteration s net = (net1, Ok (node_url n)) →
  (0 ≤ Manager.mn_APIPort n < 2 ^ 63)%Z → net1 !! Manager.mn_APIPort n = Some p →
  let h := at_node (Manager.mn_APIPort n) r p in
  let answer := in_time (relayed_request r n c body) h in
  h = Api.dispatch node_now node_upgrade node_static (node_handler c) vars' (Api.cors_headers ∅)
        (MkRequest (Method r) (Path r) (node_host (Manager.mn_APIPort n)) (Headers r) (Body r)) (api p) ∧
  ∃ s' reply,
    serve iteration static_files now others upgrade static r s net =
      Done (s', <[Manager.mn_APIPort n := process_after p h]> net1, reply) ∧
    reply = match answer with Some rep => copy_answer (answer_of rep) | None => gave_up end ∧
    announced (Z.quot now 1000000000) c body s s' answer.
Proof.
  intros Hkey Hpres Hm Hpath Hbody Hlen Hsup Hnode Hprim Hport Hp h answer.
  split; [apply at_node_dispatch; [by rewrite <- Hkey | done | done]|].
  unfold serve. rewrite Hsup.
  assert (Hmid : (if (apiKey s =? "")%string then None else apiKeyMiddleware r s) = None).
  { destruct (String.eqb_spec (apiKey s) ""); [done|]. destruct Hpres as [|Hpres]; [done|].
    unfold apiKeyMiddleware, ConstantTimeCompare. rewrite Hpres, String.eqb_refl. simpl.
    by destruct (_ || _). }
  rewrite Hmid.
  assert (Hrun : ∃ s' reply,
    proxyTicketRequest iteration (Z.quot now 1000000000) r (endpoint c) (event_type c) s net =
      (s', <[Manager.mn_APIPort n := process_after p h]> net1, reply) ∧
    reply = match answer with Some rep => copy_answer (answer_of rep) | None => gave_up end ∧
    announced (Z.quot now 1000000000) c body s s' answer).
  { unfold proxyTicketRequest. rewrite Hprim. unfold request_text, read_limited. rewrite Hbody. simpl default.
    rewrite (proj2 (Z.leb_le _ _) Hlen), (send_as_node r n c body net1 p) by done. fold h. fold answer.
    clearbody answer h. destruct answer as [rep|]; [|by eexists _, _].
    eexists _, _. split; [done|]. split; [done|]. unfold announced. cbn [answer_of resp_Status].
    unfold broadcastWSMessage.
    destruct (Z.eqb_spec (Status rep) StatusOK) as [Hs|Hs]; [|by rewrite decide_False by (intros [? _]; done)].
    destruct (decide (length (wsBroadcast s) < wsBroadcast_capacity)) as [Hl|Hl].
    - by rewrite decide_True by done.
    - by rewrite decide_False by (intros [_ ?]; done). }
  destruct Hrun as (s' & reply & Hrun & Hrest). exists s', reply. split; [|exact Hrest].
  destruct c; cbn [sup_handler dispatch]; f_equal; exact Hrun.
Qed.
End composed.

(** ** One node behind a supervisor *)

#[export] Instance text_yes : JsonEncode := λ _, "yes"%string.
#[export] Instance stats_yes : JsonDecode StatsResult := λ b, Ok (MkStatsResult (has_prefix b "yes")).
#[export] Instance no_start : JsonDecode StartNodeRequest := λ _, Err "no body".
#[export] Instance no_cluster : JsonDecode StartClusterRequest := λ _, Err "no body".
#[export] Instance no_config : JsonDecode SimControl.SimulatorConfig := λ _, Err "no body".
#[export] Instance no_via : JsonDecode ViaNodeRequest := λ _, Err "no body".
#[export] Instance plain_id : TicketIDOf := λ b, b.
#[export] Instance no_time : TimeText := λ _, ""%string.

(** A reply to a request that failed *)
#[export] Instance failure_object : JsonDecode object :=
  λ b, Ok (Some [("success"%string, JBool false); ("error"%string, JStr b)]).

Definition no_reply (r : Request) : Reply := MkReply StatusOK ∅ BEmpty.
Definition no_upgrade {conn} (r : Request) : upgraded conn := NotUpgraded (no_reply r).

Definition demo_supervisor (key : string) : Server nat :=
  set_nodeManager ManagerInv.demo_world (NewServer (MkServerConfig "" 0 "bin/validator" "" "" "" key)).

Definition demo_process : Process nat nat := MkProcess (Api.NewServer "secret" 0) [].

Definition demo_net : gmap Z (Process nat nat) := {[9001%Z := demo_process]}.

#[export] Instance demo_client : HttpClient (gmap Z (Process nat nat)) :=
  loopback_client false 7 no_upgrade no_reply (λ _, false) "timeout".

(** Changes take the node too long, other requests do not. *)
Definition slow_changes (req : ClientRequest) : bool := (c_Method req =? "POST")%string.

Definition validate_request (h : Header) : Request :=
  MkRequest "POST" "/api/v1/tickets/validate" "localhost" h (Some "TICKET-001"%string).

Definition with_key : Header := Header_Set "Authorization" "Bearer secret" ∅.

Definition ws_request : Request := MkRequest "GET" "/ws" "localhost" ∅ None.
Definition upgrade_5 (r : Request) : upgraded (nat * bool) := Upgraded (5, true) (no_reply r).

(** Without the key: a change is refused, and the WebSocket of connection 5 is opened. *)
Lemma supervisor_needs_key_witness :
  (∃ s' reply, serve map_to_list false 9 id upgrade_5 no_reply (validate_request ∅) (demo_supervisor "secret")
      demo_net = Done (s', demo_net, reply) ∧ s' = demo_supervisor "secret") ∧
  ∃ s' reply, serve map_to_list false 9 id upgrade_5 no_reply ws_request (demo_supervisor "secret")
      demo_net = Done (s', demo_net, reply) ∧
    s' = set_wsClients ({[5]} ∪ wsClients (demo_supervisor "secret")) (demo_supervisor "secret").
Proof.
  split.
  - destruct (supervisor_needs_key map_to_list false 9 id upgrade_5 no_reply (validate_request ∅)
      (demo_supervisor "secret") demo_net) as (s' & reply & Hs & Hr); [discriminate..|].
    exists s', reply. split; [exact Hs|].
    destruct Hr as [[Heq _]|[[Heq _]|[[Heq _]|(c & ok & vars & Hm & _)]]]; [exact Heq..|discriminate Hm].
  - destruct (supervisor_needs_key map_to_list false 9 id upgrade_5 no_reply ws_request
      (demo_supervisor "secret") demo_net) as (s' & reply & Hs & Hr); [discriminate..|].
    exists s', reply. split; [exact Hs|].
    assert (match serve map_to_list false 9 id upgrade_5 no_reply ws_request (demo_supervisor "secret") demo_net with
      | Done (s1, _, _) => bool_decide (5 ∈ wsClients s1) | Panic _ => false end = true) as Hin
      by (vm_compute; reflexivity).
    rewrite Hs in Hin.
    destruct Hr as [[-> _]|[[-> _]|[[-> _]|(c & ok & vars & _ & Hup & Heq & _)]]]; [discriminate Hin..|].
    injection Hup as <- <- _. exact Heq.
Defined.

(** A network in which every request is answered alike *)
#[export] Instance says_yes : HttpClient unit := {|
  NewRequest _ _ := None;
  Do _ net := (net, Ok (MkAnswer StatusOK ∅ "yes"));
|}.

Definition all_up (url : string) : bool := true.
Definition all_claim (url : string) : result bool := Ok true.

Lemma node_choice_witness :
  (getRunningNodeURL map_to_list (demo_supervisor "secret") ()).2 = Ok "http://127.0.0.1:9001"%string ∧
  let nodes := GetAllNodes map_to_list (demo_supervisor "secret") in
  read_choice map_to_list all_up (demo_supervisor "secret") () nodes ∧
  change_choice map_to_list all_up (demo_supervisor "secret") all_claim () nodes.
Proof.
  split; [by vm_compute|].
  apply (node_choice map_to_list (λ _, True)); [by intros | by intros | done].
Defined.

(** In time the change is answered and announced; late it is made all the same, but answered 502 and not
    announced. *)
Lemma proxied_change_is_the_nodes_witness :
  (∃ s net reply,
    serve map_to_list false 9 id no_upgrade no_reply (validate_request with_key) (demo_supervisor "secret") demo_net
      = Done (s, net, reply) ∧
    Status reply = StatusOK ∧ length (wsBroadcast s) = 1 ∧
    option_map (λ p, Api.validator (api p)) (net !! 9001%Z) = Some 1) ∧
  (∃ s net reply,
    serve (HttpClient0 := loopback_client false 7 no_upgrade no_reply slow_changes "timeout") map_to_list false 9 id
      no_upgrade no_reply (validate_request with_key) (demo_supervisor "secret") demo_net = Done (s, net, reply) ∧
    Status reply = StatusBadGateway ∧ wsBroadcast s = [] ∧
    option_map (λ p, Api.validator (api p)) (net !! 9001%Z) = Some 1).
Proof.
  split.
  - destruct (proj2 (proxied_change_is_the_nodes map_to_list false 7 no_upgrade no_reply (λ _, false) "timeout" CValidate
      false 9 id no_upgrade no_reply (validate_request with_key) (demo_supervisor "secret") demo_net demo_net
      (Manager.deref ManagerInv.demo_world ManagerInv.node_addr) demo_process "TICKET-001" ∅ ∅
      eq_refl (or_intror eq_refl) eq_refl eq_refl eq_refl
      ltac:(by vm_compute) ltac:(by vm_compute) ltac:(by vm_compute) ltac:(by vm_compute)
      ltac:(vm_compute; split; congruence) ltac:(by vm_compute))) as (s & reply & Hs & -> & Ha).
    eexists s, _, _. split; [exact Hs|]. split; [by vm_compute|]. split; [|by vm_compute].
    vm_compute in Ha. rewrite Ha. reflexivity.
  - destruct (proj2 (proxied_change_is_the_nodes map_to_list false 7 no_upgrade no_reply slow_changes "timeout" CValidate
      false 9 id no_upgrade no_reply (validate_request with_key) (demo_supervisor "secret") demo_net demo_net
      (Manager.deref ManagerInv.demo_world ManagerInv.node_addr) demo_process "TICKET-001" ∅ ∅
      eq_refl (or_intror eq_refl) eq_refl eq_refl eq_refl
      ltac:(by vm_compute) ltac:(by vm_compute) ltac:(by vm_compute) ltac:(by vm_compute)
      ltac:(vm_compute; split; congruence) ltac:(by vm_compute))) as (s & reply & Hs & -> & Ha).
    eexists s, _, _. split; [exact Hs|]. split; [by vm_compute|]. split; [|by vm_compute].
    vm_compute in Ha. rewrite Ha. reflexivity.
Defined.

(** A node that runs with another key *)
Definition refusing_net : gmap Z (Process nat nat) := {[9001%Z := MkProcess (Api.NewServer "other" 0) []]}.

(** [seedNode] does not look at the status of the answer. Where the only node refuses to seed, with
    401, and stays as it is, the supervisor still answers 200 with success, says that it seeded tickets
    on one node, none of them, and tells the dashboards so. *)
Theorem refused_seeding_is_success :
  let s := demo_supervisor "secret" in
  let seed := MkClientRequest "POST" "http://127.0.0.1:9001/api/v1/tickets/seed" (key_header s ∅) None in
  (∃ resp, Do seed refusing_net = (refusing_net, Ok resp) ∧ resp_Status resp = StatusUnauthorized) ∧
  ∃ s' reply rest, handleProxySeedTickets map_to_list 0 s refusing_net = (s', refusing_net, reply) ∧
    Status reply = StatusOK ∧
    RBody reply = BJson (JObj (("success"%string, JBool true) ::
      ("message"%string, JStr "Seeded tickets on 1 nodes") :: rest)) ∧
    length (wsBroadcast s') = 1.
Proof.
  split; [eexists; split; [vm_compute; reflexivity | done]|].
  eexists _, _, _. split_and!; [vm_compute; reflexivity | done..].
Qed.
End ProxyProps.
