(* ===== verification/Loops.v ===== *)
(** The goroutines of the components: loops that wait for an event or for the end of their context. A
    turn takes one event; the theorems say when such a loop empties its queue and when it ends. The loop
    of a node's API, whose turn may never return, is in [Api]. *)

From S2P Require Import Prelude Hashing Proto Messages Pbft PbftSpec PbftInv PbftSafety PbftLive GossipCache GossipEngine Discovery Manager SimControl Http Api Supervisor.

Module Loops.
Local Open Scope go_scope.

(** * [for { select { case <-done: return; case e := <-events: body } }] *)

Section loop.
Context {S E : Type}.

Inductive turn :=
| Ends
| Waits
| Goes (s : S).

(** [body] is what the loop does with an event, [None] where there is none to take; [e] is what it reads
    from outside meanwhile. Where the loop could end and go on, [pick_done] is the choice of [select]. *)
Definition select (done : S → bool) (body : E → S → option S) (pick_done : bool) (e : E) (s : S) : turn :=
  match body e s with
  | Some s' => if done s && pick_done then Ends else Goes s'
  | None => if done s then Ends else Waits
  end.

(** The turns of a run; [true] with the state when the loop has not ended. *)
Fixpoint run (loop : bool → E → S → turn) (turns : list (bool * E)) (s : S) : S * bool :=
  match turns with
  | [] => (s, true)
  | (pick_done, e) :: turns =>
      match loop pick_done e s with
      | Ends => (s, false)
      | Waits => run loop turns s
      | Goes s' => run loop turns s'
      end
  end.

Variables (done : S → bool) (body : E → S → option S) (left : S → nat).

(** The events are those of a queue, and the body does not touch the context. *)
Hypothesis body_takes : ∀ e s s', body e s = Some s' → left s' < left s ∧ (done s = true → done s' = true).

(** When the context is done and nothing more arrives, the loop ends: at the latest in the turn after it
    has taken what was queued. *)
Lemma run_ends turns s : done s = true → left s < length turns → (run (select done body) turns s).2 = false.
Proof.
  revert s. induction turns as [|[p e] turns IH]; intros s Hd Hlen; [cbn in Hlen; lia|].
  cbn [run]. unfold select at 1. rewrite Hd. destruct (body e s) as [s'|] eqn:Hb; [|done].
  destruct p; [done|]. cbn [andb]. apply body_takes in Hb as [Hl Hd']. apply IH; [by apply Hd'|]. cbn [length] in Hlen. lia.
Qed.

(** Until then it takes what is queued. *)
Lemma run_empties turns s :
  (∀ e s, left s ≠ 0 → is_Some (body e s)) → (∀ e s s', body e s = Some s' → done s = false → done s' = false) →
  done s = false → left s ≤ length turns →
  left (run (select done body) turns s).1 = 0 ∧ (run (select done body) turns s).2 = true.
Proof.
  intros Hready Hkeep. revert s. induction turns as [|[p e] turns IH]; intros s Hd Hlen; [cbn in Hlen; split; [cbn; lia|done]|].
  cbn [length] in Hlen. destruct (body e s) as [s'|] eqn:Hb.
  - assert (Hrun : run (select done body) ((p, e) :: turns) s = run (select done body) turns s')
      by (cbn [run]; unfold select at 1; by rewrite Hb, Hd).
    rewrite Hrun. pose proof (Hkeep e s s' Hb Hd). apply body_takes in Hb as [Hl _]. apply IH; [done | lia].
  - assert (Hrun : run (select done body) ((p, e) :: turns) s = run (select done body) turns s)
      by (cbn [run]; unfold select at 1; by rewrite Hb, Hd).
    rewrite Hrun. destruct (decide (left s = 0)) as [H0|H0]; [apply IH; [done | lia]|].
    destruct (Hready e s H0) as [? ?]. congruence.
Qed.
End loop.
Arguments turn : clear implicits.

(** * Consensus ([src/pkg/consensus/pbft.go]) *)

Section pbft.
Context {W : Type}.
Context `{pb.ProtoMessage pb.ValidatorMessage, pb.ProtoMessage pb.PrePrepare,
  pb.ProtoMessage pb.Prepare, pb.ProtoMessage pb.Commit, pb.ProtoMessage pb.Request,
  pb.ProtoMessage pb.ViewChange, pb.ProtoMessage pb.Checkpoint}.
(** The node, the application, and what has been sent and started. *)
Abbreviation NodeRun := (Pbft.PBFTNode W * W * list Pbft.effect)%type.
Implicit Types st : NodeRun.

Definition node_of st : Pbft.PBFTNode W := st.1.1.

Definition process_one (now : Z) st : option NodeRun :=
  let '(n, w, es) := st in
  match Pbft.processMessage now n w with
  | Some (n, w, es', _) => Some (n, w, es ++ es')
  | None => None
  end.

Definition processMessages : bool → Z → NodeRun → turn NodeRun := select (λ st, Pbft.ctx_done (node_of st)) process_one.

(** A node that has panicked has ended. The event is whether the timer fires. *)
Abbreviation TimerRun := (outcome (Pbft.PBFTNode W * list Pbft.effect)).

Definition timer_fires (fired : bool) (o : TimerRun) : option TimerRun :=
  match o with
  | Panic _ => None
  | Done (n, es) => if fired then Some (let* r := Pbft.initiateViewChange n in Done (r.1, es ++ r.2)) else None
  end.

Definition monitorViewTimeout : bool → bool → TimerRun → turn TimerRun :=
  select (λ o, match o with Done (n, _) => Pbft.ctx_done n | Panic _ => true end) timer_fires.

Lemma process_takes now st st' : process_one now st = Some st' →
  length (Pbft.messageQueue (node_of st)) = S (length (Pbft.messageQueue (node_of st'))) ∧
  Pbft.ctx_done (node_of st') = Pbft.ctx_done (node_of st).
Proof.
  destruct st as [[n w] es0]. unfold process_one, Pbft.processMessage. cbn [node_of fst].
  destruct (Pbft.messageQueue n) as [|msg queue] eqn:Hq; [done|].
  intros Hs. assert (Hd : ∃ w' es err, PbftLive.dispatch now msg (Pbft.set_messageQueue queue n) w = (node_of st', w', es, err)).
  { unfold PbftLive.dispatch. destruct msg.
    - destruct (Pbft.handlePrePrepare _ _ _ _) as [[[n' w'] es] err]. injection Hs as <-. by eexists _, _, _.
    - destruct (Pbft.HandlePrepare _ _ _ _) as [[[n' w'] es] err]. injection Hs as <-. by eexists _, _, _.
    - destruct (Pbft.HandleCommit _ _ _ _) as [[[n' w'] es] err]. injection Hs as <-. by eexists _, _, _. }
  destruct Hd as (w' & es & err & Hd). rewrite (PbftLive.dispatch_queue _ _ _ _ _ _ _ _ Hd). split; [done|].
  assert (Hfr : PbftInv.frame (node_of st') = PbftInv.frame (Pbft.set_messageQueue queue n)).
  { destruct msg; cbn in Hd; [eapply PbftInv.handlePrePrepare_spec | eapply PbftInv.HandlePrepare_spec |
      eapply PbftInv.HandleCommit_spec]; exact Hd. }
  unfold PbftInv.frame in Hfr. by injection Hfr.
Qed.

Lemma process_ready now st : length (Pbft.messageQueue (node_of st)) ≠ 0 → is_Some (process_one now st).
Proof.
  destruct st as [[n w] es]. unfold process_one, Pbft.processMessage. cbn [node_of fst].
  destruct (Pbft.messageQueue n) as [|msg queue]; [done|]. intros _.
  destruct msg; [destruct (Pbft.handlePrePrepare _ _ _ _) as [[[? ?] ?] ?] | destruct (Pbft.HandlePrepare _ _ _ _) as [[[? ?] ?] ?]
    | destruct (Pbft.HandleCommit _ _ _ _) as [[[? ?] ?] ?]]; by eexists.
Qed.

Lemma process_takes_lt now st st' : process_one now st = Some st' →
  length (Pbft.messageQueue (node_of st')) < length (Pbft.messageQueue (node_of st)) ∧
  (Pbft.ctx_done (node_of st) = true → Pbft.ctx_done (node_of st') = true).
Proof. intros [Hl Hd]%process_takes. rewrite Hd. split; [lia | done]. Qed.

(** A node that is not closed works off its queue. *)
Theorem running_node_empties_queue turns n w :
  Pbft.ctx_done n = false → length (Pbft.messageQueue n) ≤ length turns →
  let '(st, running) := run processMessages turns (n, w, []) in Pbft.messageQueue (node_of st) = [] ∧ running = true.
Proof.
  intros Hd Hlen. destruct (run_empties _ _ (λ st, length (Pbft.messageQueue (node_of st))) process_takes_lt turns (n, w, []))
    as [Hq Hr]; [apply process_ready | by intros now st st' [_ ->]%process_takes | done | done |].
  unfold processMessages. destruct (run _ turns (n, w, [])) as [st running]. cbn [fst snd] in *.
  split; [by apply nil_length_inv | done].
Qed.
End pbft.

(** * Gossip ([src/pkg/gossip/engine.go]) *)

Section gossip.
Context {W Peer : Type}.
Abbreviation Engine := (GossipEngine.GossipEngine W).

(** The engine, and what was sent to which peer. *)
Abbreviation EngineRun := (Engine * list (Peer * string))%type.

Definition engine_done (o : outcome EngineRun) : bool :=
  match o with Done (g, _) => GossipEngine.ctx_done g | Panic _ => true end.

(** With the random numbers and the peers of the moment. *)
Definition disseminate_one (e : (nat → nat) * list Peer) (o : outcome EngineRun) : option (outcome EngineRun) :=
  match o with
  | Panic _ => None
  | Done (g, sent) =>
      match GossipEngine.processMessage e.1 e.2 g with
      | None => None
      | Some r => Some (let* r := r in Done (r.1, sent ++ r.2))
      end
  end.

Definition gossip_processMessages : bool → (nat → nat) * list Peer → outcome EngineRun → turn (outcome EngineRun) :=
  select engine_done disseminate_one.

(** The loops on a ticker: [e] is what the tick reads, if there is one. *)
Definition on_tick {T S} (f : T → S → S) (e : option T) (s : S) : option S :=
  match e with Some t => Some (f t s) | None => None end.

(** A tick of [antiEntropyLoop]: the digests go to the peer that is picked, if there is one. *)
Definition reconcile (e : nat * list Peer) (st : EngineRun) : EngineRun :=
  (st.1, st.2 ++ match GossipEngine.performAntiEntropy e.1 e.2 st.1 with Some msg => [msg] | None => [] end).

Definition antiEntropyLoop : bool → option (nat * list Peer) → EngineRun → turn EngineRun :=
  select (λ st, GossipEngine.ctx_done st.1) (on_tick reconcile).

Definition cleanupLoop : bool → option (Z * list GossipEngine.entry) → Engine → turn Engine :=
  select GossipEngine.ctx_done (on_tick (λ e g, GossipEngine.cleanupExpiredEntries e.1 e.2 g)).

Definition adjustFanout : bool → option Z → Engine → turn Engine :=
  select GossipEngine.ctx_done (on_tick GossipEngine.adjustFanout).

Definition chan_length (o : outcome EngineRun) : nat :=
  match o with Done (g, _) => length (GossipEngine.messageChan g) | Panic _ => 0 end.

Lemma disseminate_takes e o o' : disseminate_one e o = Some o' →
  chan_length o' < chan_length o ∧ (engine_done o = true → engine_done o' = true).
Proof.
  destruct o as [[g sent]|]; [|done]. cbn. unfold GossipEngine.processMessage.
  destruct (GossipEngine.messageChan g) as [|r queue]; [done|]. intros [= <-].
  destruct (GossipEngine.heap g !! r) as [msg|]; [|cbn; split; [lia|done]].
  destruct (GossipEngine.disseminateMessage _ _ _ _) as [sends|why]; cbn; (split; [lia|done]).
Qed.
End gossip.

(** * The supervisor ([src/pkg/supervisor/server.go]) *)

Section supervisor.
Context {N conn : Type} `{!Http.HttpClient N, Countable conn, !Supervisor.TimeText}.
Context `{!Http.JsonDecode Supervisor.StatsResult}.
Abbreviation Sup := (Supervisor.Server conn).
Variable iteration : gmap string positive → list (string * positive).

Abbreviation SupRun := (Sup * list (Http.json * gset conn))%type.

Definition pump_one (write_ok : conn → bool) (st : SupRun) : option SupRun :=
  match Supervisor.wsBroadcastPump_step write_ok st.1 with
  | Some (s, msg, clients) => Some (s, st.2 ++ [(msg, clients)])
  | None => None
  end.

Definition wsBroadcastPump : bool → (conn → bool) → SupRun → turn SupRun :=
  select (λ st, Supervisor.stopped st.1) pump_one.

(** The server, and the network it asks the nodes over. *)
Definition monitorPrimaryStatus : bool → option () → Sup * N → turn (Sup * N) :=
  select (λ st, Supervisor.stopped st.1) (on_tick (λ _ st, Supervisor.refreshPrimaryStatus iteration st.1 st.2)).

Lemma pump_takes write_ok st st' : pump_one write_ok st = Some st' →
  length (Supervisor.wsBroadcast st'.1) < length (Supervisor.wsBroadcast st.1) ∧
  (Supervisor.stopped st.1 = true → Supervisor.stopped st'.1 = true).
Proof.
  unfold pump_one, Supervisor.wsBroadcastPump_step. destruct (Supervisor.wsBroadcast st.1) as [|msg rest] eqn:Hb; [done|].
  intros [= <-]. cbn. split; [lia|done].
Qed.

Lemma broadcast_stopped msg (s : Sup) : Supervisor.stopped (Supervisor.broadcastWSMessage msg s) = Supervisor.stopped s.
Proof. unfold Supervisor.broadcastWSMessage. by case_decide. Qed.

Lemma manager_did_stopped now did (s : Sup) : Supervisor.stopped (Supervisor.manager_did now did s) = Supervisor.stopped s.
Proof.
  unfold Supervisor.manager_did. change (Supervisor.stopped s) with (Supervisor.stopped (Supervisor.set_nodeManager did.1 s)).
  generalize (Supervisor.set_nodeManager did.1 s). induction did.2 as [|cb cbs IH]; intros s'; [done|]. cbn [fold_left]. rewrite IH.
  destruct cb; cbn; unfold Supervisor.onOutput, Supervisor.onStatus, Supervisor.onCluster;
    [case_match; [done|]|..]; by rewrite broadcast_stopped.
Qed.

Lemma Stop_stopped now (s : Sup) : Supervisor.stopped (Supervisor.Stop iteration now s) = true.
Proof.
  unfold Supervisor.Stop. cbn [Supervisor.stopped Supervisor.set_wsClients].
  case_decide; cbn [Supervisor.stopped Supervisor.set_simController]; unfold Supervisor.stop_all; by rewrite manager_did_stopped.
Qed.
End supervisor.

(** * Discovery ([src/pkg/network/discovery.go]) *)

Section discovery.
Context {G : Type}.

(** When [Start] lets passes begin, in seconds from its call: at once, by three timers, and by the ticks of
    [discoveryLoop], of which there are [ticks]. *)
Definition Start (ticks : nat) : list nat := [0; 3; 6; 10] ++ ((λ k, 10 * S k) <$> seq 0 ticks).

(** A tick begins a pass. *)
Definition discoveryLoop (cancelled : bool) : bool → option (result (list Discovery.AddrInfo)) →
    Discovery.World G → turn (Discovery.World G) :=
  select (λ _, cancelled) (on_tick Discovery.discoverPeers_begin).
End discovery.

(** No ten seconds go by without a pass, as long as the loop ticks. *)
Theorem discovery_keeps_looking ticks t : t < 10 * S ticks → ∃ p, p ∈ Start ticks ∧ p ≤ t < p + 10.
Proof.
  intros Ht. destruct (decide (t < 10)) as [Hlt|Hge]; [exists 0; split; [left | lia]|].
  exists (10 * S (t / 10 - 1)). pose proof (Nat.div_mod_eq t 10) as Hdm. pose proof (Nat.mod_upper_bound t 10).
  assert (1 ≤ t / 10) by (apply Nat.div_le_lower_bound; lia). split; [|lia].
  unfold Start. apply elem_of_app. right. apply (list_elem_of_fmap_2 (λ k, 10 * S k)).
  apply list_elem_of_In, in_seq. lia.
Qed.

(** * Shutting down *)

Section shutdown.
Context {W Peer conn : Type} `{Countable conn, !Supervisor.TimeText}.
Context `{pb.ProtoMessage pb.ValidatorMessage, pb.ProtoMessage pb.PrePrepare,
  pb.ProtoMessage pb.Prepare, pb.ProtoMessage pb.Commit, pb.ProtoMessage pb.Request,
  pb.ProtoMessage pb.ViewChange, pb.ProtoMessage pb.Checkpoint}.
Context (iteration : gmap string positive → list (string * positive)).

(** The goroutines of a component that is closed end. When a consensus node or a gossip engine has been
    closed or the supervisor has been stopped, the loop that takes from its queue ends, whatever the
    choices of [select], at the latest one turn after it has taken what is queued, if nothing more is
    put into the queue. The turns of these loops return: the supervisor's pump has a deadline of five
    seconds for every write. The API of a node has none, see [ApiProps.stuck_client_holds_loop]. *)
Theorem closed_loops_end (n : Pbft.PBFTNode W) (w : W) (g : GossipEngine.GossipEngine W)
    (s : Supervisor.Server conn) now :
  (∀ turns, length (Pbft.messageQueue n) < length turns → (run processMessages turns (Pbft.Close n, w, [])).2 = false) ∧
  (∀ turns : list (bool * ((nat → nat) * list Peer)), length (GossipEngine.messageChan g) < length turns →
    (run gossip_processMessages turns (Done (GossipEngine.Close g, []))).2 = false) ∧
  (let s := Supervisor.Stop iteration now s in
   ∀ turns, length (Supervisor.wsBroadcast s) < length turns → (run wsBroadcastPump turns (s, [])).2 = false).
Proof.
  split_and!.
  - intros turns Hl.
    exact (run_ends _ _ (λ st, length (Pbft.messageQueue (node_of st))) process_takes_lt turns (Pbft.Close n, w, []) eq_refl Hl).
  - intros turns Hl. exact (run_ends _ _ chan_length disseminate_takes turns (Done (GossipEngine.Close g, [])) eq_refl Hl).
  - intros s' turns Hl.
    exact (run_ends _ _ (λ st, length (Supervisor.wsBroadcast st.1)) pump_takes turns (s', []) (Stop_stopped _ _ _) Hl).
Qed.
End shutdown.

End Loops.
