(* ===== verification/SupMain.v ===== *)
(** The program [src/cmd/supervisor/main.go]: its flags, what it creates before it serves, and its end. *)

From S2P Require Import Prelude GoStrings GoFlag Manager SimControl Http Supervisor.

Module SupMain.

(** The variables of the flags *)
Record Flags := MkFlags {
  fl_webPort : Z;
  fl_webAddr : string;
  fl_dataDir : string;
  fl_validatorPath : string;
  fl_simulatorPath : string;
  fl_staticDir : string;
  fl_autoStart : Z;
  fl_apiKey : string;
}.

Definition default_flags : Flags := MkFlags 8080 "0.0.0.0" "./data" "" "" "" 0 "".

Definition flag_names : list string :=
  ["web-port"; "web-addr"; "data-dir"; "validator"; "simulator"; "static-dir"; "auto-start"; "api-key"].

(** None of the flags is boolean. *)
Definition formal (name : string) : option bool := if bool_decide (name ∈ flag_names) then Some false else None.

Definition set_autoStart (k : Z) (fl : Flags) : Flags :=
  MkFlags (fl_webPort fl) (fl_webAddr fl) (fl_dataDir fl) (fl_validatorPath fl) (fl_simulatorPath fl)
    (fl_staticDir fl) k (fl_apiKey fl).

Definition set_flag (name value : string) (fl : Flags) : option Flags :=
  let '(MkFlags wp wa d v s st a k) := fl in
  if (name =? "web-port")%string then wp ← GoFlag.ParseInt0 value; Some (MkFlags wp wa d v s st a k)
  else if (name =? "web-addr")%string then Some (MkFlags wp value d v s st a k)
  else if (name =? "data-dir")%string then Some (MkFlags wp wa value v s st a k)
  else if (name =? "validator")%string then Some (MkFlags wp wa d value s st a k)
  else if (name =? "simulator")%string then Some (MkFlags wp wa d v value st a k)
  else if (name =? "static-dir")%string then Some (MkFlags wp wa d v s value a k)
  else if (name =? "auto-start")%string then a ← GoFlag.ParseInt0 value; Some (set_autoStart a fl)
  else if (name =? "api-key")%string then Some (MkFlags wp wa d v s st a value)
  else None.

Definition parse_flags (args : list string) : option Flags := GoFlag.parse formal set_flag args default_flags.

Definition flags_config (fl : Flags) : Supervisor.ServerConfig :=
  Supervisor.MkServerConfig (fl_webAddr fl) (fl_webPort fl) (fl_validatorPath fl) (fl_simulatorPath fl)
    (fl_dataDir fl) (fl_staticDir fl) (fl_apiKey fl).

Section main.
Context {conn : Type} `{Countable conn, !Supervisor.TimeText}.
Variables (find : string → string) (env_key : string) (MkdirAll : string → error).

(** [main] up to the call of [server.Start]; [None] where it exits: flags that do not parse, no binary of
    the validator, or a directory that cannot be made. The goroutine of [-auto-start] only sleeps. *)
Definition main_server (args : list string) : option (Supervisor.Server conn) :=
  fl ← parse_flags args;
  cfg ← Supervisor.supervisor_config find env_key (flags_config fl);
  match MkdirAll (Supervisor.cfg_DataDir cfg) with
  | Some _ => None
  | None => Some (Supervisor.NewServer cfg)
  end.

(** What follows the signal *)
Definition main_end (iteration : gmap string positive → list (string * positive)) (now : Z)
    (s : Supervisor.Server conn) : Supervisor.Server conn := Supervisor.Stop iteration now s.

(** ** The flag [-auto-start] *)

Definition forget (fl : Flags) : Flags := set_autoStart 0 fl.

Lemma set_flag_forget name value fl fl' :
  forget fl = forget fl' → option_map forget (set_flag name value fl) = option_map forget (set_flag name value fl').
Proof.
  destruct fl, fl'. unfold forget, set_autoStart. cbn. intros [= -> -> -> -> -> -> ->]. unfold set_flag.
  destruct (GoFlag.ParseInt0 value); repeat (destruct (name =? _)%string; [reflexivity|]); reflexivity.
Qed.

Lemma parse_forget args fl fl' :
  forget fl = forget fl' →
  option_map forget (GoFlag.parse formal set_flag args fl) = option_map forget (GoFlag.parse formal set_flag args fl').
Proof.
  assert (Hlen : length args ≤ length args) by lia. revert Hlen. generalize (length args) at 2 as m.
  intros m. revert args fl fl'.
  induction m as [|m IH]; intros [|s args] fl fl' Hlen Hf; cbn in Hlen; try lia; cbn [GoFlag.parse option_map]; try congruence.
  assert (Hnext : ∀ name value rest, length rest ≤ m →
    option_map forget match set_flag name value fl with Some c => GoFlag.parse formal set_flag rest c | None => None end =
    option_map forget match set_flag name value fl' with Some c => GoFlag.parse formal set_flag rest c | None => None end).
  { intros name value rest Hr. pose proof (set_flag_forget name value fl fl' Hf) as Hs.
    destruct (set_flag name value fl), (set_flag name value fl'); try done. cbn [option_map] in Hs. apply (inj Some) in Hs. by apply IH. }
  destruct (GoFlag.argument_of s); cbn [option_map]; try congruence.
  destruct (GoFlag.name_value _) as [name value]. destruct (formal name) as [[]|]; [apply Hnext; lia| |done].
  destruct value as [v|]; [apply Hnext; lia|]. destruct args as [|v args]; [done|]. apply Hnext. cbn in Hlen. lia.
Qed.

Lemma main_server_forget args args' :
  option_map forget (parse_flags args) = option_map forget (parse_flags args') → main_server args = main_server args'.
Proof.
  unfold main_server. destruct (parse_flags args) as [[]|], (parse_flags args') as [[]|]; try done.
  unfold forget, set_autoStart. cbn. by intros [= -> -> -> -> -> -> ->].
Qed.

(** The flag [-auto-start] changes nothing: the server is the one without the flag, and it manages no
    node. *)
Theorem auto_start_ignored k args :
  is_i64 k →
  main_server ("-auto-start" :: FormatInt k :: args)%string = main_server args ∧
  ∀ s, main_server args = Some s → Manager.nodes (Manager.mgr (Supervisor.nodeManager s)) = ∅.
Proof.
  intros Hk. split.
  - apply main_server_forget. unfold parse_flags.
    assert (Hset : ∀ fl, set_flag "auto-start" (FormatInt k) fl = Some (set_autoStart k fl)).
    { intros fl. assert (Hp : GoFlag.ParseInt0 (FormatInt k) = Some k) by by apply GoFlag.ParseInt0_FormatInt.
      destruct fl. unfold set_flag. cbn -[GoFlag.ParseInt0 FormatInt]. by rewrite Hp. }
    transitivity (option_map forget (GoFlag.parse formal set_flag args (set_autoStart k default_flags))); [|by apply parse_forget].
    f_equal. specialize (Hset default_flags). revert Hset. generalize (FormatInt k) as v. intros v Hset.
    change (match set_flag "auto-start" v default_flags with Some c => GoFlag.parse formal set_flag args c | None => None end = GoFlag.parse formal set_flag args (set_autoStart k default_flags)). by rewrite Hset.
  - intros s. unfold main_server. destruct (parse_flags args) as [fl|]; [|done]. cbn.
    destruct (Supervisor.supervisor_config _ _ _) as [cfg|]; [|done]. cbn. destruct (MkdirAll _); [done|]. by intros [= <-].
Qed.
End main.
End SupMain.
