(* ===== verification/Internal.v ===== *)
(** The packages under [src/internal]: the shared types, the key pairs over Ed25519, and the collectors
    for Prometheus. The rest of the program does not import them. *)

From Stdlib Require Import Floats.SpecFloat.
From S2P Require Import Prelude.

(** * Shared types ([src/internal/types/types.go]) *)

Module Types.
Local Open Scope go_scope.

Definition RolePrimary : string := "PRIMARY".
Definition RoleReplica : string := "REPLICA".
Definition RoleBootstrap : string := "BOOTSTRAP".
Definition RoleObserver : string := "OBSERVER".

(** Times are seconds, a [float64] is a [spec_float]. *)
Record NodeInfo := MkNodeInfo {
  ni_ID : string; ni_Role : string; ni_Address : string; ni_Port : Z; ni_PublicKey : string;
  ni_JoinedAt : Z; ni_LastSeen : Z; ni_IsHealthy : bool; ni_MessagesSent : Z; ni_MessagesRecvd : Z;
}.

Record NetworkState := MkNetworkState {
  ns_TotalNodes : Z; ns_ActiveNodes : Z; ns_HealthyNodes : Z; ns_ConsensusRounds : Z;
  ns_SuccessRate : spec_float; ns_AvgLatencyMs : spec_float;
}.

Record TicketMetadata := MkTicketMetadata {
  tm_EventID : string; tm_EventName : string; tm_SeatNumber : string; tm_Price : spec_float;
  tm_PurchaseDate : Z; tm_Owner : string;
}.

Record ValidationResult := MkValidationResult {
  vr_TicketID : string; vr_IsValid : bool; vr_State : string; vr_ValidatedBy : list string;
  vr_Timestamp : Z; vr_Message : string;
}.

Record ConsensusMetrics := MkConsensusMetrics {
  cm_TotalRounds : Z; cm_SuccessfulRounds : Z; cm_FailedRounds : Z; cm_AvgLatencyMs : spec_float;
  cm_CurrentView : Z; cm_CurrentSequence : Z;
}.

Record GossipMetrics := MkGossipMetrics {
  gm_MessagesSent : Z; gm_MessagesReceived : Z; gm_CacheHits : Z; gm_CacheMisses : Z;
  gm_CacheSize : Z; gm_Bandwidth : Z;
}.

(** The error types, and what [Error] makes of them. *)
Inductive Error :=
| ErrTicketNotFound (TicketID : string)
| ErrInvalidState (TicketID FromState ToState : string)
| ErrConsensusFailure (Sequence : Z) (Reason : string)
| ErrInsufficientQuorum (Required Actual : Z).

Definition Error_text (e : Error) : string :=
  match e with
  | ErrTicketNotFound id => "ticket not found: " +:+ id
  | ErrInvalidState id from to =>
      "invalid state transition for ticket " +:+ id +:+ ": " +:+ from +:+ " -> " +:+ to
  | ErrConsensusFailure seq reason =>
      "consensus failure at sequence " +:+ FormatInt seq +:+ ": " +:+ reason
  | ErrInsufficientQuorum required actual =>
      "insufficient quorum: required " +:+ FormatInt required +:+ ", got " +:+ FormatInt actual
  end.
End Types.

(** * Key pairs ([src/internal/crypto/signature.go]) *)

(** Ed25519 ([crypto/ed25519], RFC 8032): the keys that 32 random bytes give, signatures, and their
    verification. Keys, messages and signatures are strings of bytes. *)
Class Ed25519 := {
  new_keys : string → string * string;
  sign : string → string → string;
  verify : string → string → string → bool;
}.

Class Ed25519Laws `{Ed25519} : Prop := {
  public_size seed : String.length (new_keys seed).1 = 32;
  private_size seed : String.length (new_keys seed).2 = 64;
  verify_sign seed msg : verify (new_keys seed).1 msg (sign (new_keys seed).2 msg) = true;
}.

Module Crypto.
Local Open Scope go_scope.

Definition PublicKeySize : nat := 32.
Definition PrivateKeySize : nat := 64.

Record KeyPair := MkKeyPair { PublicKey : string; PrivateKey : string }.

Section keys.
Context `{Ed25519}.

(** The library panics when a key has the wrong size. *)
Definition ed25519_Sign (privateKey message : string) : outcome string :=
  if bool_decide (String.length privateKey = PrivateKeySize) then Done (sign privateKey message)
  else Panic ("ed25519: bad private key length: " +:+ FormatInt (Z.of_nat (String.length privateKey))).

Definition ed25519_Verify (publicKey message signature : string) : outcome bool :=
  if bool_decide (String.length publicKey = PublicKeySize) then Done (verify publicKey message signature)
  else Panic ("ed25519: bad public key length: " +:+ FormatInt (Z.of_nat (String.length publicKey))).

(** [random] is what reading from [rand.Reader] gives. *)
Definition GenerateKeyPair (random : result string) : result KeyPair :=
  match random with
  | Err err => Err ("failed to generate key pair: " +:+ err)
  | Ok seed => let '(pub, priv) := new_keys seed in Ok (MkKeyPair pub priv)
  end.

Definition Sign (kp : KeyPair) (message : string) : outcome string := ed25519_Sign (PrivateKey kp) message.

Definition Verify (kp : KeyPair) (message signature : string) : outcome bool :=
  ed25519_Verify (PublicKey kp) message signature.

Definition VerifySignature (publicKey message signature : string) : outcome bool :=
  ed25519_Verify publicKey message signature.

Definition key_from_bytes (kind : string) (size : nat) (data : string) : result string :=
  if bool_decide (String.length data = size) then Ok data
  else Err ("invalid " +:+ kind +:+ " key size: expected " +:+ FormatInt (Z.of_nat size) +:+ ", got "
            +:+ FormatInt (Z.of_nat (String.length data))).

Definition PublicKeyFromBytes : string → result string := key_from_bytes "public" PublicKeySize.
Definition PrivateKeyFromBytes : string → result string := key_from_bytes "private" PrivateKeySize.

(** What a generated key signs verifies, also by the keys read back from their bytes. *)
Theorem generated_keys_sign `{!Ed25519Laws} random kp message :
  GenerateKeyPair random = Ok kp → ∃ signature,
  Sign kp message = Done signature ∧ Verify kp message signature = Done true ∧
  PrivateKeyFromBytes (PrivateKey kp) = Ok (PrivateKey kp) ∧
  PublicKeyFromBytes (PublicKey kp) = Ok (PublicKey kp) ∧
  VerifySignature (PublicKey kp) message signature = Done true.
Proof.
  unfold GenerateKeyPair. destruct random as [seed|]; [|done]. destruct (new_keys seed) as [pub priv] eqn:Hk.
  intros [= <-]. pose proof (public_size seed) as Hpub. pose proof (private_size seed) as Hpriv.
  pose proof (verify_sign seed message) as Hv. rewrite Hk in Hpub, Hpriv, Hv. cbn [fst snd] in *.
  exists (sign priv message).
  unfold Sign, Verify, VerifySignature, ed25519_Sign, ed25519_Verify, PrivateKeyFromBytes, PublicKeyFromBytes, key_from_bytes.
  cbn [PublicKey PrivateKey]. rewrite Hpub, Hpriv, !bool_decide_true by done. by rewrite Hv.
Qed.

(** Bytes that were accepted as a key make no call panic, and other bytes do. *)
Theorem accepted_keys_never_panic data message signature :
  ((∃ k, PrivateKeyFromBytes data = Ok k) ↔ ∃ s, ed25519_Sign data message = Done s) ∧
  ((∃ k, PublicKeyFromBytes data = Ok k) ↔ ∃ b, VerifySignature data message signature = Done b).
Proof.
  unfold PrivateKeyFromBytes, PublicKeyFromBytes, VerifySignature, ed25519_Sign, ed25519_Verify, key_from_bytes.
  split; case_bool_decide; split; intros [x Hx]; try done; by eexists.
Qed.
End keys.
End Crypto.

(** * Collectors ([src/internal/metrics/prometheus.go]) *)

Module Metrics.
Local Open Scope go_scope.

Inductive Kind := Counter | Gauge | Histogram.

(** A collector, or with labels a vector of collectors. Every histogram has the library's buckets. *)
Record Collector := MkCollector {
  c_kind : Kind;
  c_Name : string;
  c_Help : string;
  c_labels : list string;
}.

Definition ConsensusRoundsTotal := MkCollector Counter "consensus_rounds_total" "Total number of consensus rounds" [].
Definition ConsensusSuccessTotal := MkCollector Counter "consensus_success_total" "Total number of successful consensus rounds" [].
Definition ConsensusFailureTotal := MkCollector Counter "consensus_failure_total" "Total number of failed consensus rounds" [].
Definition ConsensusLatency := MkCollector Histogram "consensus_latency_seconds" "Consensus round latency in seconds" [].
Definition GossipMessagesSent := MkCollector Counter "gossip_messages_sent_total" "Total number of gossip messages sent" [].
Definition GossipMessagesReceived := MkCollector Counter "gossip_messages_received_total" "Total number of gossip messages received" [].
Definition GossipCacheSize := MkCollector Gauge "gossip_cache_size" "Current size of the gossip message cache" [].
Definition GossipCacheHits := MkCollector Counter "gossip_cache_hits_total" "Total number of gossip cache hits" [].
Definition GossipCacheMisses := MkCollector Counter "gossip_cache_misses_total" "Total number of gossip cache misses" [].
Definition PeerCount := MkCollector Gauge "peer_count" "Current number of connected peers" [].
Definition NetworkMessagesSent := MkCollector Counter "network_messages_sent_total" "Total number of network messages sent" [].
Definition NetworkMessagesReceived := MkCollector Counter "network_messages_received_total" "Total number of network messages received" [].
Definition NetworkBytesTransmitted := MkCollector Counter "network_bytes_transmitted_total" "Total number of bytes transmitted" [].
Definition TicketsValidated := MkCollector Counter "tickets_validated_total" "Total number of tickets validated" [].
Definition TicketsConsumed := MkCollector Counter "tickets_consumed_total" "Total number of tickets consumed" [].
Definition TicketsDisputed := MkCollector Counter "tickets_disputed_total" "Total number of tickets disputed" [].
Definition TicketStateGauge := MkCollector Gauge "ticket_state_count" "Number of tickets in each state" ["state"].
Definition StorageOperations := MkCollector Counter "storage_operations_total" "Total number of storage operations" ["operation"].
Definition StorageLatency := MkCollector Histogram "storage_latency_seconds" "Storage operation latency in seconds" ["operation"].
Definition APIRequests := MkCollector Counter "api_requests_total" "Total number of API requests" ["method"; "endpoint"; "status"].
Definition APILatency := MkCollector Histogram "api_latency_seconds" "API request latency in seconds" ["method"; "endpoint"].
Definition WebSocketConnections := MkCollector Gauge "websocket_connections" "Current number of WebSocket connections" [].

(** The list in [RegisterMetrics] *)
Definition collectors : list Collector :=
  [ConsensusRoundsTotal; ConsensusSuccessTotal; ConsensusFailureTotal; ConsensusLatency;
   GossipMessagesSent; GossipMessagesReceived; GossipCacheSize; GossipCacheHits; GossipCacheMisses;
   PeerCount; NetworkMessagesSent; NetworkMessagesReceived; NetworkBytesTransmitted;
   TicketsValidated; TicketsConsumed; TicketsDisputed; TicketStateGauge;
   StorageOperations; StorageLatency; APIRequests; APILatency; WebSocketConnections].

Inductive reg_error := AlreadyRegisteredError | RegisterError (err : string).

(** The default registry of the Prometheus client. *)
Class Registry (Reg : Type) := {
  Register : Collector → Reg → Reg * option reg_error;
  registered : Reg → list Collector;
}.

(** A collector whose name is not taken is added; one that is registered is refused with its error. *)
Class RegistryLaws (Reg : Type) `{Registry Reg} : Prop := {
  Register_new c r : c_Name c ∉ c_Name <$> registered r →
    (Register c r).2 = None ∧ registered (Register c r).1 = registered r ++ [c];
  Register_again c r : c ∈ registered r → Register c r = (r, Some AlreadyRegisteredError);
}.

Section metrics.
Context {Reg : Type} `{Registry Reg}.

(** One turn of the loop: the registry and the lines printed. *)
Definition register_one (st : Reg * list string) (c : Collector) : Reg * list string :=
  let '(r, out) := st in
  match Register c r with
  | (r, None) | (r, Some AlreadyRegisteredError) => (r, out)
  | (r, Some (RegisterError err)) => (r, out ++ ["metrics: failed to register collector: " +:+ err])
  end.

Definition RegisterMetrics (r : Reg) : Reg * list string := foldl register_one (r, []) collectors.

(** The server of [StartMetricsServer]; the library answers requests for the path. Timeouts are in
    seconds. *)
Record MetricsServer := MkMetricsServer {
  ms_Addr : string; ms_Path : string; ms_ReadHeaderTimeout : Z; ms_WriteTimeout : Z;
}.

Definition StartMetricsServer (addr : string) : MetricsServer := MkMetricsServer addr "/metrics" 10 30.

Context `{!RegistryLaws Reg}.

Lemma register_all cs r out :
  NoDup (c_Name <$> registered r ++ cs) →
  registered (foldl register_one (r, out) cs).1 = registered r ++ cs ∧ (foldl register_one (r, out) cs).2 = out.
Proof.
  revert r. induction cs as [|c cs IH]; intros r Hnd; [by rewrite app_nil_r|].
  destruct (Register_new c r) as [Hok Hadd].
  { rewrite fmap_app, fmap_cons in Hnd. apply NoDup_app in Hnd as (_ & Hdis & _). intros Hin. apply (Hdis _ Hin). by left. }
  cbn [foldl register_one]. destruct (Register c r) as [r' e]. cbn [fst snd] in *. subst e.
  destruct (IH r') as [Hreg Hout]; rewrite Hadd, <- app_assoc in *; done.
Qed.

Lemma register_known cs r out : (∀ c, c ∈ cs → c ∈ registered r) → foldl register_one (r, out) cs = (r, out).
Proof.
  induction cs as [|c cs IH]; intros Hall; [done|]. cbn [foldl register_one].
  rewrite Register_again by (apply Hall; by left). apply IH. intros d Hd. apply Hall. by right.
Qed.

(** Registering twice is registering once: all collectors are registered, and nothing is printed. *)
Theorem RegisterMetrics_twice r : registered r = [] →
  let '(r1, out1) := RegisterMetrics r in
  registered r1 = collectors ∧ out1 = [] ∧ RegisterMetrics r1 = (r1, []).
Proof.
  intros Hr. unfold RegisterMetrics at 1. pose proof (register_all collectors r []) as Hall. rewrite Hr in Hall.
  destruct (foldl register_one (r, []) collectors) as [r1 out1]. cbn [fst snd] in Hall.
  destruct Hall as [Hreg ->]; [apply (bool_decide_unpack _); vm_compute; exact I|].
  split; [done|]. split; [done|]. apply register_known. intros c Hc. by rewrite Hreg.
Qed.
End metrics.
End Metrics.
